(* ===== verification/_CoqProject ===== *)
-Q . S2P
Prelude.v
Lease.v
Errors.v
Topology.v
Text.v
Model.v
Host.v
Psi.v
Arbiter.v
Discovery.v
DiscoveryExamples.v
Netlink.v
Peer.v
Ledger.v
Grant.v
Hotplug.v
Runs.v
Lifecycle.v
Acquire.v
Spec.v
Books.v
Admission.v
Crowd.v
Wave.v
Ending.v
Freezer.v
Preempt.v
FdLease.v
Madvise.v
FdQuota.v
Json.v
FdServer.v
Sharing.v
VarlinkIdl.v
Notify.v
Creds.v
Activation.v
Inhibit.v
Listeners.v
Daemon.v
Frontend.v
Varlink.v
Session.v
Sentry.v
Gateway.v
Concurrent.v
ArbiterExamples.v
SystemExamples.v
Bench.v
ArbiterTests.v
IntegrationTests.v
Client.v
Exec.v
EndToEnd.v
Ctl.v
Tooling.v
Status.v
FrontExamples.v
ConcurrentExamples.v
ClientExamples.v
EndToEndExamples.v
StreamTests.v
SharingTests.v
CrateTests.v
CrowdTests.v
StormTests.v
CliTests.v
Suite.v
