(* ===== verification/Prelude.v ===== *)
(** * systemd-inferenced, verified

    A model in Rocq of systemd-inferenced, the broker of AI accelerators written
    in Rust under src/crates/, and the theorems that it does what it means to.

    ** The program

    The daemon (crates/inferenced-daemon) discovers the machine's compute
    planes, and hands out leases on their memory. One [Arbiter]
    (crates/inferenced-core) holds the planes, the table of leases and the
    registry of models behind one read-write lock. Around it run concurrent
    tasks: a Varlink service and its connections, the listener of the emergency
    sentry, an HTTP gateway, a server that passes sealed memory files, the loop
    on the kernel's device events, the watchdog and the monitor that keeps the
    host awake. The preemption coordinator drives the arbiter and freezes
    clients. The command line client (crates/inferenctl) talks to the Varlink
    service.

    ** How it is modelled

    An operation is a function [eff S W E A] (below): from the state it holds
    to its result, the state it leaves, also on an error, and the calls to the
    outside it made, in order. What is behind a lock is one step; between two
    steps of a task the others may do anything, which is a function argument
    ([fw_others] of Frontend.v, the world of Preempt.v) or an interleaving of
    atomic accesses as a step relation (FdQuota.v), each of which acts on the value
    the accesses before it have left. A 64-bit integer is a [Z],
    with the wrap-around or saturation of each operation written out; an f32 is
    a [SpecFloat] of its precision; a string is its bytes, UTF-8 checked where
    the code checks it; a HashMap is a [gmap] whose order of iteration is an
    argument ([HashOrder]), so no theorem depends on it. What the code cannot
    see the inside of is a parameter: the file system (a snapshot, Host.v), the
    kernel's answers to system calls, the clock, fresh UUIDs, and the libraries
    for JSON, UUID text, Unicode tables, terminal colours and tables, each a
    class or record with the documented laws the code relies on.

    ** The files

    Shared: Prelude.v (this file: integers, iterators, sums over maps, effects,
    automation); Text.v (operations of [str]); Host.v (files, paths,
    environment); Json.v (the interface of serde_json, with a concrete
    instance).

    inferenced-core: Lease.v, Errors.v (lease.rs, error.rs); Topology.v
    (topology/types.rs, triage.rs); Discovery.v (the rest of topology/);
    Model.v (model.rs); Psi.v (psi.rs); Netlink.v (netlink.rs); Peer.v
    (peer.rs); Freezer.v (freezer.rs); Preempt.v (preempt.rs); FdLease.v
    (fd_lease.rs, paging.rs); Madvise.v (madvise.rs and the mappings of
    paging.rs); Arbiter.v (arbiter.rs). The theory of the arbiter:
    Ledger.v (what the leases draw on each plane), Grant.v (choosing,
    preempting, charging), Hotplug.v (a new topology), Runs.v (well-formed and
    reachable states), Lifecycle.v, Acquire.v, Spec.v (careful runs and
    their accounts), Books.v (the abstract specification), Admission.v, Ending.v,
    Crowd.v (many clients at once) and Wave.v (many requests of one priority). Sharing.v
    is the theory of FdLease.v: a sealed file and all who hold a descriptor of
    it.

    inferenced-daemon: Frontend.v (what every connection shares, and a small
    Hoare logic for the leases a connection must give back); Varlink.v,
    VarlinkIdl.v, Session.v (varlink/); Sentry.v (sentry/); Gateway.v
    (gateway/); FdQuota.v, FdServer.v (fd_quota.rs, fd_server.rs); Notify.v,
    Creds.v, Activation.v, Inhibit.v (the files of those names); Listeners.v
    (binding and accepting, in several files); Concurrent.v (all connections
    side by side); Daemon.v (main.rs).

    inferenctl: Client.v (client.rs), and EndToEnd.v, in which it talks to the
    daemon's connection; Exec.v (cmd/stream.rs); Ctl.v (format.rs
    and the commands on leases, models and planes: cmd/control.rs, models.rs,
    triage.rs, parts of system.rs and config.rs); Tooling.v (cmd/tooling.rs);
    Status.v (the rest of system.rs and config.rs, cli.rs, main.rs).

    Runs on concrete machines, and the witnesses of the theorems:
    ArbiterExamples.v, DiscoveryExamples.v, SystemExamples.v, FrontExamples.v,
    ConcurrentExamples.v, ClientExamples.v, EndToEndExamples.v; the witnesses on
    sharing and on waves are with the tests below.

    Tests of the repository, translated: Bench.v (an arbiter under test, a clock,
    files, assertions); ArbiterTests.v, IntegrationTests.v, StreamTests.v (qa/),
    CrateTests.v (the tests inside the crates), CliTests.v (the commands of the
    client, as qa/ drives them); and, for every interleaving of their tasks,
    CrowdTests.v and StormTests.v (clients of the arbiter that race) and
    SharingTests.v (readers of a sealed file that race); Suite.v (all that are
    translated).

    ** What is proved

    - The arbiter. A lease moves only along the edges of its life cycle, in
      every reachable state ([lease_life_cycle]). The arbiter refines the
      books of a lender ([Book] in Books.v: capacities, running and suspended
      holdings): each operation is the step of the specification that its answer
      announces, a loan, a refusal, an end, a resumption, a refit or nothing
      ([arbiter_refines_ledger]). Memory is conserved: what is free and what
      running leases hold is what the plane has, through unified memory and
      changes of topology, as long as no step promises memory that is not there
      ([memory_conserved]); equal planes backed by the same memory stay equally
      free ([dual_accounting] in Crowd.v). Whether a request is granted has a closed form in
      which the preemption loop does not appear ([admission_exact]). Who is
      preempted, and that it stops as soon as there is room, what a grant and a
      refusal leave ([preemption_discipline], [acquire_granted],
      [emergency_bypass], [refusal_preempts_silently]); release undoes a grant,
      thawing undoes suspension ([acquire_release_roundtrip],
      [suspend_resume_roundtrip], [thaw_preempted], [ended_is_final]); a new
      topology is charged again by the surviving leases
      ([update_topology_recharges]); where a forced grant breaks the balance
      ([forced_grant_overcredits]).
    - Many clients. Those that fit beside each other never notice each other
      ([crowd_undisturbed]); requests of one priority that fit beside what they
      may not preempt are all granted, in any order, at the expense of the
      leases below them only ([wave_granted]); when leases are returned and preempted ones resumed
      in any interleaving, in the end all of them run ([storm_calms]).
    - The preemption coordinator ends, first asking, then freezing, whatever the
      other tasks do to the lease meanwhile, its removal from the table included
      ([preempt_two_tier]).
    - Connections. However a session, a sentry or an HTTP request ends, and
      whatever the other tasks do, it leaves no lease behind
      ([session_leaves_no_lease], [sentry_leaves_no_lease],
      [gateway_leaves_no_lease]); side by side, each relies on no more of the
      others than it grants them, so that the arbiter passes through reachable
      states only, and when all have ended no lease of theirs is left
      ([connections_coexist]), nor any of the memory ([memory_comes_back]); every
      request is answered by the handler its method has in the table ([handlers]
      of Session.v), an unknown method with MethodNotFound
      ([every_request_answered]); a client cannot claim another's identity
      ([peer_confined], and [peer_attributed] in Peer.v).
    - Client and daemon. Each call of the client is answered by what the daemon
      made of that call, in turn ([calls_answered_in_turn]); a lease acquired and
      released over the wire is granted as asked and leaves everything as it was
      ([remote_lease_roundtrip]).
    - Descriptors. The quota counts exactly the bytes in flight in every
      interleaving ([quota_exact_always]), is linearizable: the history of calls and
      returns is one of operations that take effect at a moment in between
      ([quota_linearizable]), and its loops end ([quota_tasks_finish]); a
      connection gives back what it reserved, and sends a sealed file of the size
      and name requested, exactly when it can ([connection_quota_neutral]); framing does not depend on how
      bytes arrive ([framing_independent_of_reads]); weights once published reach
      every client unchanged, whatever any of them tries with its descriptor, and
      no descriptor leaks ([weights_shared], over [sealed_model_complete] and
      [recv_never_leaks]). What the kernel lets the holder of a descriptor do is
      a parameter there ([MemfdAccess]) with the laws of memfd_create(2) and
      fcntl(2) as its hypothesis.
    - The machine. Discovered planes are well formed, the crash audit is exact,
      the enclave is placed as documented ([discovered_topology_ok],
      [crash_audit_exact], [triage_enclave_placement]); device events parse as
      the kernel writes them ([uevent_roundtrip]); the level of pressure is that
      of the averages exactly as the kernel prints them
      ([pressure_levels_exact]); registry, freezer paths ([register_lru],
      [registry_bounded], [freeze_path_of_unit]).
    - The service. Inherited sockets are adopted as a reference definition says
      and none is lost, or, when one cannot be used, all up to it are closed
      ([adoption_exact]); READY is announced once the servers
      run, STOPPING at an orderly end only ([daemon_start_order]); a status text
      cannot inject variables ([status_one_variable]); sleep is inhibited while
      leases are active, and each lock taken is given back
      ([inhibitor_follows_leases]).
    - The client. A streaming call goes on waiting only for a daemon that has
      announced more, keeps the connection and is silent ([stream_call_terminates]);
      what the daemon streams and lists is what the user sees ([exec_prints_stream],
      [leases_shown], [planes_shown]); completions and manual page name the
      commands there are ([tooling_names_commands]); the benchmark keeps nothing
      ([benchmark_keeps_nothing]).

    - The tests. Nine tests of qa/ whose tasks race pass in every interleaving
      ([racing_tests_pass]); the translated tests of single tasks pass
      ([sequential_tests_pass]). About half of the repository's tests are
      translated, see below.

    Theorems beside these show where the code does not do what it means to,
    among them [hotplug_never_refreshes], [failed_attempt_not_retried],
    [accept_errors], [exec_masks_errors], [offline_success],
    [uma_grant_ignores_host], [drm_crash_never_quarantined],
    [overlapping_releases_underflow], [server_buffers_blank] and
    [second_reader_sees_end].

    ** Fuel

    [poll] of Preempt.v: [poll_fuel], one round per polling interval up to the
    deadline and two more, which is enough because each round advances the
    clock ([preempt_two_tier]). [serve] of Session.v and [read_stream] of
    Client.v: one more than the bytes to be read, of which each round takes at
    least one ([session_leaves_no_lease], [stream_call_terminates]).
    [write_loop] of FdLease.v: one round per byte. [read_value] of
    EndToEndExamples.v and the loops of StreamTests.v: one more than the bytes.
    Everything else is structural.

    ** Not modelled

    Logging; close-on-exec flags; the HTTP server (axum, hyper) and its routing;
    the runtime (tokio) but for the interleaving of tasks; the parsing of
    arguments (clap); the staleness that relaxed atomic accesses allow on some
    machines. The documentation and the shipped configuration are not the model's
    source: where they differ from the code (the thresholds of pressure, the time
    to yield before a freeze, the listing of leases) the model follows the code.

    Of the tests, these files are not translated: in crates/inferenced-core,
    tests/arbiter_tests.rs, preempt_tests.rs, psi_tests.rs and topology_tests.rs;
    in crates/inferenced-daemon, fd_server_tests.rs, gateway/tests.rs and
    varlink/tests.rs; in qa/unit, the files on activation, discovery, freezer,
    madvise, notify, preempt, sentry and varlink; in qa/edge,
    rogue_disconnect_tests.rs; in qa/integration, mod.rs and
    cross_feature_tests.rs; in qa/fuzz, varlink_fuzz.rs. Of the other files, the
    tests that run the built programs or drive clap, those that feed random or
    deformed input to serde_json and the TOML parser (parameters here), and those
    that exercise only the kernel or the timer are not. *)
From stdpp Require Export base gmap strings list fin_maps numbers sorting pretty.
From Stdlib Require Export ZArith Lia Ascii.
From Stdlib Require String.

#[global] Set Default Goal Selector "!".

(** * Machine integers *)

(** A [u64] is a [Z] in the range below; the operations write out what Rust
    does at the edge of the range (the release profile of [Cargo.toml] leaves
    overflow checks off, so a plain [+], [-] or [*] wraps). *)
Definition u64_limit : Z := 2 ^ 64.
Definition u32_limit : Z := 2 ^ 32.
Definition u64_max : Z := u64_limit - 1.

Definition is_u64 (x : Z) : Prop := (0 ≤ x < u64_limit)%Z.

Definition wrapping_add (a b : Z) : Z := ((a + b) mod u64_limit)%Z.
Definition wrapping_sub (a b : Z) : Z := ((a - b) mod u64_limit)%Z.
Definition wrapping_mul (a b : Z) : Z := ((a * b) mod u64_limit)%Z.
Definition saturating_sub (a b : Z) : Z := Z.max 0 (a - b).
Definition saturating_add (a b : Z) : Z := Z.min u64_max (a + b).

(** [x as i32] for a [u32]: the same 32 bits read as a signed number. *)
Definition u32_as_i32 (x : Z) : Z :=
  if (x <? 2 ^ 31)%Z then x else (x - u32_limit)%Z.

Ltac unfold_u64 :=
  unfold is_u64, wrapping_add, wrapping_sub, wrapping_mul, saturating_sub,
    saturating_add, u64_max, u64_limit, u32_limit in *.

Ltac u64_lia := unfold_u64; try Z.to_euclidean_division_equations; lia.

Section u64_facts.
Local Open Scope Z_scope.

Lemma saturating_sub_bounds a b : 0 ≤ a → 0 ≤ b → 0 ≤ saturating_sub a b ≤ a.
Proof. u64_lia. Qed.

Lemma saturating_sub_exact a b : b ≤ a → saturating_sub a b = a - b.
Proof. u64_lia. Qed.

Lemma saturating_sub_sub a b c :
  0 ≤ b → 0 ≤ c → saturating_sub (saturating_sub a b) c = saturating_sub a (b + c).
Proof. u64_lia. Qed.

Lemma wrapping_add_exact a b : 0 ≤ a → 0 ≤ b → a + b < u64_limit → wrapping_add a b = a + b.
Proof. intros. unfold wrapping_add. apply Z.mod_small. lia. Qed.

Lemma wrapping_add_is_u64 a b : is_u64 (wrapping_add a b).
Proof. unfold is_u64, wrapping_add. apply Z.mod_pos_bound. reflexivity. Qed.

Lemma wrapping_mul_is_u64 a b : is_u64 (wrapping_mul a b).
Proof. unfold is_u64, wrapping_mul. apply Z.mod_pos_bound. reflexivity. Qed.
End u64_facts.

(** * Results

    Rust's [Result<A, E>]. *)
Inductive result (E A : Type) : Type :=
  | Ok (a : A)
  | Err (e : E).
Arguments Ok {E A} a.
Arguments Err {E A} e.

Definition is_ok {E A} (r : result E A) : bool :=
  match r with Ok _ => true | Err _ => false end.

(** [Option::ok_or] and [Result::ok]. *)
Definition ok_or {E A} (o : option A) (e : E) : result E A :=
  match o with Some a => Ok a | None => Err e end.
Definition result_ok {E A} (r : result E A) : option A :=
  match r with Ok a => Some a | Err _ => None end.

(** * Iterators over vectors *)

Section iterators.
Context {A : Type}.
Implicit Types (P : A → bool) (l : list A).

(** [iter().position(P)] *)
Fixpoint position P l : option nat :=
  match l with
  | [] => None
  | x :: l' => if P x then Some 0%nat else S <$> position P l'
  end.

(** [iter().find(P)] *)
Fixpoint find_first P l : option A :=
  match l with
  | [] => None
  | x :: l' => if P x then Some x else find_first P l'
  end.

(** [if let Some(x) = iter_mut().find(P) { *x = f(x) }] *)
Fixpoint update_first P (f : A → A) l : list A :=
  match l with
  | [] => []
  | x :: l' => if P x then f x :: l' else x :: update_first P f l'
  end.

(** [iter().max_by_key(key)]: the last of the greatest elements. *)
Fixpoint max_by_key_from (key : A → Z) (best : A) l : A :=
  match l with
  | [] => best
  | x :: l' => max_by_key_from key (if (key best <=? key x)%Z then x else best) l'
  end.
Definition max_by_key (key : A → Z) l : option A :=
  match l with [] => None | x :: l' => Some (max_by_key_from key x l') end.

(** [iter().min_by_key(key)] for a key compared by [lt] : the first of the
    least elements. *)
Fixpoint min_by_from (lt : A → A → bool) (best : A) l : A :=
  match l with
  | [] => best
  | x :: l' => min_by_from lt (if lt x best then x else best) l'
  end.
Definition min_by (lt : A → A → bool) l : option A :=
  match l with [] => None | x :: l' => Some (min_by_from lt x l') end.

(** [sort_by_key(key)]: a stable sort, smallest key first. *)
Fixpoint insert_by_key (key : A → Z) (x : A) l : list A :=
  match l with
  | [] => [x]
  | y :: l' => if (key x <=? key y)%Z then x :: y :: l' else y :: insert_by_key key x l'
  end.
Fixpoint sort_by_key (key : A → Z) l : list A :=
  match l with [] => [] | x :: l' => insert_by_key key x (sort_by_key key l') end.

Lemma position_Some P l i :
  position P l = Some i → ∃ x, l !! i = Some x ∧ P x = true.
Proof.
  revert i. induction l as [|y l IH]; intros i; simpl; [done|].
  destruct (P y) eqn:HP.
  - intros [= <-]. eauto.
  - destruct (position P l) as [j|] eqn:Hj; simpl; [|done].
    intros [= <-]. simpl. by apply IH.
Qed.

Lemma position_first P l i j x :
  position P l = Some i → (j < i)%nat → l !! j = Some x → P x = false.
Proof.
  revert i j. induction l as [|y l IH]; intros i j; simpl; [done|].
  destruct (P y) eqn:HP; [intros [= <-]; lia|].
  destruct (position P l) as [k|] eqn:Hk; simpl; [|done].
  intros [= <-] Hlt. destruct j as [|j]; simpl.
  - by intros [= <-].
  - intros Hx. eapply IH; [done| |done]. lia.
Qed.

Lemma position_None P l x : position P l = None → x ∈ l → P x = false.
Proof.
  induction l as [|y l IH]; simpl; [by intros _ ?%not_elem_of_nil|].
  destruct (P y) eqn:HP; [done|].
  destruct (position P l) eqn:Hk; simpl; [done|].
  intros _ [->|?]%elem_of_cons; auto.
Qed.

Lemma find_first_Some P l x : find_first P l = Some x → x ∈ l ∧ P x = true.
Proof.
  induction l as [|y l IH]; simpl; [done|].
  destruct (P y) eqn:HP; intros H.
  - simplify_eq. split; [left|done].
  - destruct (IH H). split; [by right|done].
Qed.

Lemma find_first_None P l x : find_first P l = None → x ∈ l → P x = false.
Proof.
  induction l as [|y l IH]; simpl; [by intros _ ?%not_elem_of_nil|].
  destruct (P y) eqn:HP; [done|]. intros H [->|?]%elem_of_cons; auto.
Qed.

Lemma find_first_split P l x :
  find_first P l = Some x →
  ∃ l0 l1, l = l0 ++ x :: l1 ∧ Forall (λ y, P y = false) l0 ∧ P x = true.
Proof.
  induction l as [|y l IH]; simpl; [done|]. destruct (P y) eqn:HP.
  - intros [= <-]. by exists [], l.
  - intros Hx. destruct (IH Hx) as (l0 & l1 & -> & Hl0 & Hx').
    exists (y :: l0), l1. split_and!; [done|by constructor|done].
Qed.

Lemma find_first_position P l :
  find_first P l = (i ← position P l; l !! i).
Proof.
  induction l as [|y l IH]; simpl; [done|].
  destruct (P y); [done|]. rewrite IH. by destruct (position P l).
Qed.

Lemma length_update_first P f l : length (update_first P f l) = length l.
Proof. induction l as [|x l IH]; simpl; [done|]. destruct (P x); simpl; congruence. Qed.

Lemma update_first_position P f l :
  update_first P f l = match position P l with Some i => alter f i l | None => l end.
Proof.
  induction l as [|x l IH]; simpl; [done|].
  destruct (P x); [done|]. rewrite IH. by destruct (position P l).
Qed.

Lemma find_first_update_first P f l x :
  find_first P l = Some x →
  ∃ i, l !! i = Some x ∧ P x = true ∧ update_first P f l = <[i := f x]> l.
Proof.
  rewrite find_first_position, update_first_position. intros Hx.
  destruct (position P l) as [i|] eqn:Hi; simplify_eq/=.
  destruct (position_Some _ _ _ Hi) as (y & Hy & HP). simplify_eq/=.
  exists i. split_and!; [done|done|].
  apply list_eq. intros j. rewrite list_lookup_alter, list_lookup_insert.
  pose proof (lookup_lt_Some _ _ _ Hx). repeat case_decide; subst; try done.
  - by rewrite Hx.
  - tauto.
  - tauto.
Qed.

Lemma find_first_None_update_first P f l :
  find_first P l = None → update_first P f l = l.
Proof.
  induction l as [|x l IH]; simpl; [done|]. destruct (P x); [done|].
  intros H. by rewrite IH.
Qed.

(** When at most one element satisfies [P], the first-match update is a map. *)
Lemma update_first_fmap P f l :
  (∀ i j x y, l !! i = Some x → l !! j = Some y → P x = true → P y = true → i = j) →
  update_first P f l = (λ x, if P x then f x else x) <$> l.
Proof.
  induction l as [|x l IH]; intros Huniq; simpl; [done|].
  destruct (P x) eqn:HP; f_equal.
  - rewrite <-(list_fmap_id l) at 1. apply list_fmap_ext. intros i y Hy. simpl.
    destruct (P y) eqn:HPy; [|done].
    by specialize (Huniq 0%nat (S i) x y eq_refl Hy HP HPy).
  - apply IH. intros i j y z Hy Hz HPy HPz.
    specialize (Huniq (S i) (S j) y z Hy Hz HPy HPz). lia.
Qed.

Lemma max_by_key_from_spec key best l :
  max_by_key_from key best l ∈ best :: l
  ∧ ∀ y, y ∈ best :: l → (key y ≤ key (max_by_key_from key best l))%Z.
Proof.
  revert best. induction l as [|x l IH]; intros best; simpl.
  - split; [left|]. intros y ->%list_elem_of_singleton. lia.
  - destruct (IH (if (key best <=? key x)%Z then x else best)) as [Hin Hmax].
    split.
    + apply elem_of_cons in Hin as [->|?]; [|set_solver]. destruct (_ <=? _)%Z; set_solver.
    + intros y Hy. destruct (Z.leb_spec (key best) (key x)).
      * assert (y = best ∨ y ∈ x :: l) as [->|?] by set_solver; [|by apply Hmax].
        etrans; [done|]. apply Hmax. left.
      * assert (y = x ∨ y ∈ best :: l) as [->|?] by set_solver; [|by apply Hmax].
        transitivity (key best); [lia|]. apply Hmax. left.
Qed.

Lemma max_by_key_Some key l x :
  max_by_key key l = Some x → x ∈ l ∧ ∀ y, y ∈ l → (key y ≤ key x)%Z.
Proof.
  destruct l as [|z l]; simpl; [done|]. intros [= <-]. apply max_by_key_from_spec.
Qed.

Lemma max_by_key_None key l : max_by_key key l = None ↔ l = [].
Proof. by destruct l. Qed.

Lemma insert_by_key_perm key x l : insert_by_key key x l ≡ₚ x :: l.
Proof.
  induction l as [|y l IH]; simpl; [done|].
  destruct (_ <=? _)%Z; [done|]. rewrite IH. apply Permutation_swap.
Qed.

Lemma sort_by_key_perm key l : sort_by_key key l ≡ₚ l.
Proof. induction l as [|x l IH]; simpl; [done|]. by rewrite insert_by_key_perm, IH. Qed.

Lemma sort_by_key_sorted key l :
  StronglySorted (λ x y, (key x ≤ key y)%Z) (sort_by_key key l).
Proof.
  induction l as [|x l IH]; simpl; [constructor|].
  induction (sort_by_key key l) as [|y l' IHl]; simpl; [by repeat constructor|].
  apply StronglySorted_inv in IH as [Hs Hy].
  destruct (Z.leb_spec (key x) (key y)).
  - constructor; [by constructor|]. constructor; [done|].
    eapply Forall_impl; [done|]. simpl. lia.
  - constructor; [by apply IHl|]. rewrite insert_by_key_perm. constructor; [lia|done].
Qed.
End iterators.

Lemma omap_cons {A B} (f : A → option B) x l :
  omap f (x :: l) = match f x with Some y => y :: omap f l | None => omap f l end.
Proof. done. Qed.

(** * Hash maps

    A [HashMap] is a [gmap]; the order in which the program iterates over one
    is unspecified, so code that iterates takes it from this interface: any
    enumeration that lists every entry once. *)
Class HashOrder (K V : Type) `{Countable K} := {
  hash_iter : gmap K V → list (K * V);
  hash_iter_perm m : hash_iter m ≡ₚ map_to_list m;
}.

(** The enumeration of [gmap] itself, for concrete runs. *)
Definition canonical_order {K V} `{Countable K} : HashOrder K V :=
  {| hash_iter := map_to_list; hash_iter_perm := λ _, reflexivity _ |}.

Section hash_order.
Context {K V : Type} `{Countable K} {ho : HashOrder K V}.
Implicit Types (m : gmap K V).

Lemma elem_of_hash_iter m k v : (k, v) ∈ hash_iter m ↔ m !! k = Some v.
Proof. by rewrite hash_iter_perm, elem_of_map_to_list. Qed.

Lemma NoDup_hash_iter m : NoDup (hash_iter m).*1.
Proof. rewrite hash_iter_perm. apply NoDup_fst_map_to_list. Qed.

Lemma length_hash_iter m : length (hash_iter m) = size m.
Proof. rewrite hash_iter_perm. apply length_map_to_list. Qed.
End hash_order.

(** Apply [f] to the values stored under [ks]. *)
Section map_on.
Context {K V : Type} `{Countable K}.
Implicit Types (f : V → V) (ks : list K) (m : gmap K V).

Definition map_on f ks m : gmap K V :=
  map_imap (λ k v, Some (if bool_decide (k ∈ ks) then f v else v)) m.

Lemma lookup_map_on f ks m k :
  map_on f ks m !! k = (λ v, if bool_decide (k ∈ ks) then f v else v) <$> m !! k.
Proof. unfold map_on. rewrite map_lookup_imap. by destruct (m !! k). Qed.

Lemma map_on_nil f m : map_on f [] m = m.
Proof.
  apply map_eq. intros k. rewrite lookup_map_on.
  destruct (m !! k); [|done]. cbn [fmap option_fmap option_map].
  by rewrite bool_decide_false by set_solver.
Qed.

Lemma map_on_missing f k ks m : m !! k = None → map_on f (k :: ks) m = map_on f ks m.
Proof.
  intros Hk. apply map_eq. intros i. rewrite !lookup_map_on.
  destruct (m !! i) eqn:Hi; [|done]. cbn [fmap option_fmap option_map].
  by rewrite (bool_decide_ext (i ∈ k :: ks) (i ∈ ks)) by (set_solver || naive_solver).
Qed.

Lemma map_on_cons f k ks m v :
  m !! k = Some v → k ∉ ks → map_on f ks (<[k := f v]> m) = map_on f (k :: ks) m.
Proof.
  intros Hk Hks. apply map_eq. intros i. rewrite !lookup_map_on.
  destruct (decide (i = k)) as [->|Hne].
  - rewrite lookup_insert_eq, Hk. cbn [fmap option_fmap option_map].
    rewrite (bool_decide_true (k ∈ k :: ks)) by set_solver.
    by rewrite bool_decide_false.
  - rewrite lookup_insert_ne by done. destruct (m !! i); [|done].
    cbn [fmap option_fmap option_map].
    by rewrite (bool_decide_ext (i ∈ k :: ks) (i ∈ ks)) by set_solver.
Qed.

Lemma map_on_all f ks m : (∀ k, is_Some (m !! k) → k ∈ ks) → map_on f ks m = f <$> m.
Proof.
  intros Hks. apply map_eq. intros k. rewrite lookup_map_on, lookup_fmap.
  destruct (m !! k) eqn:Hk; [|done]. cbn [fmap option_fmap option_map].
  by rewrite bool_decide_true by eauto.
Qed.

Lemma map_size_map_on f ks m : size (map_on f ks m) = size m.
Proof.
  rewrite <-!size_dom. f_equal. apply set_eq. intros k.
  rewrite !elem_of_dom, lookup_map_on. destruct (m !! k); simpl; [|done].
  split; eauto.
Qed.
End map_on.

(** Sum of a quantity over the values of a map: the ledgers of the arbiter and
    of the descriptor quota are such sums. *)
Section map_sum.
Local Open Scope Z_scope.
Context {K V : Type} `{Countable K}.
Implicit Types (f g : V → Z) (m : gmap K V).

Definition msum f m : Z := map_fold (λ _ v acc, f v + acc) 0 m.

Lemma msum_empty f : msum f (∅ : gmap K V) = 0.
Proof. apply map_fold_empty. Qed.

Lemma msum_insert_None f m k v :
  m !! k = None → msum f (<[k:=v]> m) = f v + msum f m.
Proof. intros Hk. unfold msum. rewrite map_fold_insert_L; [done|lia|done]. Qed.

Lemma msum_delete f m k v :
  m !! k = Some v → msum f m = f v + msum f (delete k m).
Proof.
  intros Hk. rewrite <-(insert_delete_id m k v Hk) at 1.
  apply msum_insert_None, lookup_delete_eq.
Qed.

Lemma msum_insert_Some f m k v w :
  m !! k = Some v → msum f (<[k:=w]> m) = msum f m - f v + f w.
Proof.
  intros Hk. rewrite (msum_delete f m k v Hk), <-(insert_delete_eq m k w).
  rewrite msum_insert_None by apply lookup_delete_eq. lia.
Qed.

Lemma msum_ext f g m :
  (∀ k v, m !! k = Some v → f v = g v) → msum f m = msum g m.
Proof.
  induction m as [|k v m Hk IH] using map_ind; intros Hfg.
  - by rewrite !msum_empty.
  - rewrite !msum_insert_None by done. rewrite (Hfg k v), IH; [done| |].
    + intros k' v' Hk'. apply (Hfg k'). rewrite lookup_insert_ne; [done|congruence].
    + apply lookup_insert_eq.
Qed.

Lemma msum_nonneg f m : (∀ k v, m !! k = Some v → 0 ≤ f v) → 0 ≤ msum f m.
Proof.
  induction m as [|k v m Hk IH] using map_ind; intros Hf.
  - by rewrite msum_empty.
  - rewrite msum_insert_None by done.
    assert (0 ≤ f v) by (apply (Hf k), lookup_insert_eq).
    enough (0 ≤ msum f m) by lia. apply IH.
    intros k' v' Hk'. apply (Hf k'). rewrite lookup_insert_ne; [done|congruence].
Qed.

Lemma msum_le f g m :
  (∀ k v, m !! k = Some v → f v ≤ g v) → msum f m ≤ msum g m.
Proof.
  induction m as [|k v m Hk IH] using map_ind; intros Hfg.
  - by rewrite !msum_empty.
  - rewrite !msum_insert_None by done.
    assert (f v ≤ g v) by (apply (Hfg k), lookup_insert_eq).
    enough (msum f m ≤ msum g m) by lia. apply IH.
    intros k' v' Hk'. apply (Hfg k'). rewrite lookup_insert_ne; [done|congruence].
Qed.

Lemma msum_le_size f m b : (∀ k v, m !! k = Some v → f v ≤ b) → msum f m ≤ b * Z.of_nat (size m).
Proof.
  induction m as [|k v m Hk IH] using map_ind; intros Hf; [by rewrite msum_empty, map_size_empty, Z.mul_0_r|].
  rewrite msum_insert_None, map_size_insert_None by done.
  assert (msum f m ≤ b * Z.of_nat (size m)).
  { apply IH. intros k' v' Hk'. apply (Hf k'). rewrite lookup_insert_ne; [done|congruence]. }
  pose proof (Hf k v (lookup_insert_eq _ _ _)). lia.
Qed.

Lemma msum_le_maps f m m' :
  (∀ k, match m !! k, m' !! k with
        | Some v, Some v' => f v ≤ f v' | None, None => True | _, _ => False end) →
  msum f m ≤ msum f m'.
Proof.
  revert m'. induction m as [|k v m Hk IH] using map_ind; intros m' Hm.
  - assert (m' = ∅) as ->; [|done]. apply map_empty. intros k. specialize (Hm k).
    rewrite lookup_empty in Hm. by destruct (m' !! k).
  - pose proof (Hm k) as Hkk. rewrite lookup_insert_eq in Hkk.
    destruct (m' !! k) as [v'|] eqn:Hk'; [|done].
    rewrite msum_insert_None, (msum_delete f m' k v') by done.
    enough (msum f m ≤ msum f (delete k m')) by lia. apply IH. intros i.
    destruct (decide (i = k)) as [->|Hne]; [by rewrite Hk, lookup_delete_eq|].
    specialize (Hm i). by rewrite lookup_insert_ne in Hm by done; rewrite lookup_delete_ne.
Qed.

Lemma msum_zero f m : (∀ k v, m !! k = Some v → f v = 0) → msum f m = 0.
Proof.
  intros Hf. rewrite (msum_ext f (λ _, 0)) by done. clear Hf.
  induction m as [|k v m Hk IH] using map_ind; [apply msum_empty|].
  by rewrite msum_insert_None, IH.
Qed.

Lemma msum_lookup_le f m k v :
  (∀ k v, m !! k = Some v → 0 ≤ f v) → m !! k = Some v → f v ≤ msum f m.
Proof.
  intros Hf Hk. rewrite (msum_delete f m k v Hk).
  enough (0 ≤ msum f (delete k m)) by lia. apply msum_nonneg.
  intros k' v' [_ ?]%lookup_delete_Some. eauto.
Qed.

(** Dropping entries that weigh nothing keeps the sum: garbage collection. *)
Lemma msum_filter f m (P : K * V → Prop) `{!∀ x, Decision (P x)} :
  (∀ k v, m !! k = Some v → ¬ P (k, v) → f v = 0) →
  msum f (filter P m) = msum f m.
Proof.
  induction m as [|k v m Hk IH] using map_ind; intros Hf.
  - by rewrite map_filter_empty.
  - assert (Hf' : ∀ k' v', m !! k' = Some v' → ¬ P (k', v') → f v' = 0).
    { intros k' v' Hk'. apply (Hf k'). rewrite lookup_insert_ne; [done|congruence]. }
    rewrite msum_insert_None by done.
    destruct (decide (P (k, v))) as [HP|HP].
    + rewrite map_filter_insert_True by done.
      rewrite msum_insert_None, IH; [done|done|]. by apply map_lookup_filter_None_2; left.
    + rewrite map_filter_insert_False, delete_id, IH by done.
      rewrite (Hf k v); [lia| |done]. apply lookup_insert_eq.
Qed.

(** The sum does not depend on the order of enumeration. *)
Lemma msum_hash_iter {ho : HashOrder K V} f m :
  msum f m = foldr (λ kv acc, f kv.2 + acc) 0 (hash_iter m).
Proof.
  unfold msum. rewrite (map_fold_foldr (M := gmap K) (λ _ v acc, f v + acc) 0 m).
  transitivity (foldr (λ kv acc, f kv.2 + acc) 0 (map_to_list m)).
  { induction (map_to_list m) as [|[k v] l IH]; simpl; [done|]. by rewrite IH. }
  symmetry.
  assert (Hp : ∀ l1 l2 : list (K * V), l1 ≡ₚ l2 →
    foldr (λ kv acc, f kv.2 + acc) 0 l1 = foldr (λ kv acc, f kv.2 + acc) 0 l2).
  { induction 1; simpl; lia. }
  apply Hp, hash_iter_perm.
Qed.

Lemma msum_fmap f (h : V → V) m : msum f (h <$> m) = msum (λ v, f (h v)) m.
Proof.
  induction m as [|k v m Hk IH] using map_ind.
  - by rewrite fmap_empty, !msum_empty.
  - rewrite fmap_insert, !msum_insert_None, IH; [done|done|]. by rewrite lookup_fmap, Hk.
Qed.

Lemma msum_union f m1 m2 : m1 ##ₘ m2 → msum f (m1 ∪ m2) = msum f m1 + msum f m2.
Proof.
  induction m1 as [|k v m1 Hk IH] using map_ind; intros Hdisj.
  - by rewrite (left_id_L ∅ (∪)), msum_empty.
  - apply map_disjoint_insert_l in Hdisj as [Hk2 Hdisj].
    rewrite <-insert_union_l, !msum_insert_None, IH by (done || by apply lookup_union_None).
    lia.
Qed.
End map_sum.

(** Summing over the image of a partial function. *)
Lemma msum_omap {K V W} `{Countable K} (f : W → Z) (g : V → option W) (m : gmap K V) :
  msum f (omap g m) = msum (λ v, match g v with Some w => f w | None => 0%Z end) m.
Proof.
  induction m as [|k v m Hk IH] using map_ind; [by rewrite omap_empty, !msum_empty|].
  rewrite omap_insert, (msum_insert_None _ m) by done. destruct (g v) as [w|].
  - rewrite msum_insert_None, IH; [done|]. by rewrite lookup_omap, Hk.
  - rewrite delete_id, IH; [done|]. by rewrite lookup_omap, Hk.
Qed.

(** * Stateful, fallible, effectful code

    An operation of the program takes the state it holds, and gives its
    result, the state it leaves (also when it fails: Rust does not roll a
    state back on [?]) and the calls to the outside it made, in order. *)
Definition eff (S W E A : Type) : Type := S → result E A * S * list W.

Declare Scope eff_scope.
Delimit Scope eff_scope with eff.

Section eff.
Context {S W E : Type}.

Definition eret {A} (a : A) : eff S W E A := λ s, (Ok a, s, []).
Definition ethrow {A} (e : E) : eff S W E A := λ s, (Err e, s, []).
Definition eget : eff S W E S := λ s, (Ok s, s, []).
Definition eput (s' : S) : eff S W E unit := λ _, (Ok tt, s', []).
Definition emodify (f : S → S) : eff S W E unit := λ s, (Ok tt, f s, []).
Definition etell (w : list W) : eff S W E unit := λ s, (Ok tt, s, w).
Definition elift {A} (r : result E A) : eff S W E A := λ s, (r, s, []).

(** Run [m] and keep only whether it succeeded. *)
Definition etry {A} (m : eff S W E A) : eff S W E bool :=
  λ s, match m s with (r, s', w) => (Ok (is_ok r), s', w) end.

(** [?]: run on with the value, stop with the error and the state so far. *)
Definition ebind {A B} (m : eff S W E A) (k : A → eff S W E B) : eff S W E B :=
  λ s, match m s with
       | (Ok a, s1, w1) => let '(r, s2, w2) := k a s1 in (r, s2, w1 ++ w2)
       | (Err e, s1, w1) => (Err e, s1, w1)
       end.

Lemma ebind_Ok {A B} (m : eff S W E A) (k : A → eff S W E B) s a s1 w1 :
  m s = (Ok a, s1, w1) →
  ebind m k s = let '(r, s2, w2) := k a s1 in (r, s2, w1 ++ w2).
Proof. unfold ebind. by intros ->. Qed.

Lemma ebind_silent {A B} (m : eff S W E A) (k : A → eff S W E B) s a s1 :
  m s = (Ok a, s1, []) → ebind m k s = k a s1.
Proof. unfold ebind. intros ->. by destruct (k a s1) as [[? ?] ?]. Qed.

Lemma ebind_Err {A B} (m : eff S W E A) (k : A → eff S W E B) s e s1 w1 :
  m s = (Err e, s1, w1) → ebind m k s = (Err e, s1, w1).
Proof. unfold ebind. by intros ->. Qed.
End eff.

Notation "'let!' x ':=' m 'in' k" := (ebind m (fun x => k))
  (at level 200, x pattern, m at level 100, k at level 200, right associativity) : eff_scope.
Notation "m ';!' k" := (ebind m (fun _ => k))
  (at level 100, k at level 200, right associativity) : eff_scope.

(** The three parts of an outcome. *)
Definition res_of {S W E A} (o : result E A * S * list W) : result E A := o.1.1.
Definition state_of {S W E A} (o : result E A * S * list W) : S := o.1.2.
Definition calls_of {S W E A} (o : result E A * S * list W) : list W := o.2.

(** * Automation shared by the components *)

(** Case analysis on the booleans and options a definition branches on. *)
Ltac case_branches :=
  repeat match goal with
  | |- context [match ?x with _ => _ end] => destruct x eqn:?; simplify_eq/=
  | H : context [match ?x with _ => _ end] |- _ => destruct x eqn:?; simplify_eq/=
  end.

(** Reflect the boolean tests of the code into propositions. *)
Ltac reflect_bools :=
  repeat match goal with
  | H : bool_decide _ = true |- _ => apply bool_decide_eq_true in H
  | H : bool_decide _ = false |- _ => apply bool_decide_eq_false in H
  | H : (_ && _) = true |- _ => apply andb_true_iff in H as [? ?]
  | H : (_ && _) = false |- _ => apply andb_false_iff in H
  | H : (_ || _) = true |- _ => apply orb_true_iff in H
  | H : (_ || _) = false |- _ => apply orb_false_iff in H as [? ?]
  | H : negb _ = true |- _ => apply negb_true_iff in H
  | H : negb _ = false |- _ => apply negb_false_iff in H
  | H : (_ <? _)%Z = true |- _ => apply Z.ltb_lt in H
  | H : (_ <? _)%Z = false |- _ => apply Z.ltb_ge in H
  | H : (_ <=? _)%Z = true |- _ => apply Z.leb_le in H
  | H : (_ <=? _)%Z = false |- _ => apply Z.leb_gt in H
  | H : (_ =? _)%Z = true |- _ => apply Z.eqb_eq in H
  | H : (_ =? _)%Z = false |- _ => apply Z.eqb_neq in H
  end.

Create HintDb arith_u64.
#[export] Hint Resolve wrapping_add_is_u64 wrapping_mul_is_u64 : arith_u64.
Create HintDb iterators.
#[export] Hint Rewrite @length_update_first @length_hash_iter : iterators.
