(* ===== verification/Lease.v ===== *)
(** Compute leases: crates/inferenced-core/src/lease.rs and error.rs. *)
From S2P Require Import Prelude.
Local Open Scope Z_scope.

(** [pub struct LeaseId(pub Uuid)]: the 128 bits of the UUID. *)
Record LeaseId := mkLeaseId { uuid : N }.

#[export] Instance LeaseId_eq_dec : EqDecision LeaseId.
Proof. solve_decision. Defined.
#[export] Instance LeaseId_countable : Countable LeaseId.
Proof. by apply (inj_countable' uuid mkLeaseId); intros []. Defined.

Inductive LeasePriority := Batch | Interactive | EmergencyTriage.

Inductive LeaseState := Active | Preempting | Frozen | Preempted | Revoked | Expired.

#[export] Instance LeasePriority_eq_dec : EqDecision LeasePriority.
Proof. solve_decision. Defined.
#[export] Instance LeaseState_eq_dec : EqDecision LeaseState.
Proof. solve_decision. Defined.

(** The discriminants, by which [derive(PartialOrd, Ord)] compares. *)
Definition priority_rank (p : LeasePriority) : Z :=
  match p with Batch => 0 | Interactive => 10 | EmergencyTriage => 100 end.

Record ComputeLease := mkComputeLease {
  l_id : LeaseId;
  l_client_pid : option Z;
  l_client_unit : option string;
  l_plane_id : string;
  l_allocated_memory_bytes : Z;
  l_priority : LeasePriority;
  l_state : LeaseState;
  l_created_at : Z;
  l_expires_at : option Z;
}.

(** [ComputeLease::new]; the fresh UUID and the clock reading are arguments. *)
Definition new_lease (id : LeaseId) (now : Z) (plane_id : string) (bytes : Z)
    (priority : LeasePriority) (client_unit : option string)
    (client_pid : option Z) : ComputeLease :=
  {| l_id := id;
     l_client_pid := client_pid;
     l_client_unit := client_unit;
     l_plane_id := plane_id;
     l_allocated_memory_bytes := bytes;
     l_priority := priority;
     l_state := Active;
     l_created_at := now;
     l_expires_at := None |}.

Definition is_active (l : ComputeLease) : bool :=
  match l_state l with Active | Preempting | Frozen => true | _ => false end.

(** [lease.state = st] *)
Definition set_state (st : LeaseState) (l : ComputeLease) : ComputeLease :=
  {| l_id := l_id l;
     l_client_pid := l_client_pid l;
     l_client_unit := l_client_unit l;
     l_plane_id := l_plane_id l;
     l_allocated_memory_bytes := l_allocated_memory_bytes l;
     l_priority := l_priority l;
     l_state := st;
     l_created_at := l_created_at l;
     l_expires_at := l_expires_at l |}.

Record LeaseRequest := mkLeaseRequest {
  r_priority : LeasePriority;
  r_required_bytes : Z;
  r_preferred_plane : option string;
  r_client_unit : option string;
  r_client_pid : option Z;
}.
