(* ===== verification/Errors.v ===== *)
(** The error type of the core crate: crates/inferenced-core/src/error.rs. *)
From Stdlib Require Import SpecFloat.
From S2P Require Import Prelude Lease.

(** Each constructor carries what the source formats into its message: where
    the program writes [lease_id.to_string()] or formats two pressure readings,
    the payload is the lease identifier or the readings. *)
Inductive Error :=
  | TopologyDiscovery (msg : string)
  | PlaneNotFound (plane : string)
  | ResourceExhaustion (plane : string) (requested_bytes available_bytes : Z)
  | BusSaturation (memory_some memory_full : spec_float)
  | LeaseNotFound (id : LeaseId)
  | PreemptionFailed (msg : string)
  | ModelNotFound (model : string)
  | EngineCommunication (msg : string)
  | Fd (msg : string)
  | FreezerError (msg : string)
  | Madvise (msg : string)
  | Systemd (msg : string)
  | SystemCall (errno : Z)
  | Io (msg : string)
  | Serialization (msg : string).
