(* ===== verification/Topology.v ===== *)
(** Compute planes and the triage enclave:
    crates/inferenced-core/src/topology/types.rs and topology/triage.rs. *)
From S2P Require Import Prelude.
Local Open Scope Z_scope.

Inductive ComputePlaneKind :=
  | DiscreteGpu | IntegratedUma | NpuAccelerator | CpuMatrixExtension.

#[export] Instance ComputePlaneKind_eq_dec : EqDecision ComputePlaneKind.
Proof. solve_decision. Defined.

Record ComputePlane := mkComputePlane {
  p_id : string;
  p_name : string;
  p_kind : ComputePlaneKind;
  p_device_path : option string;
  p_total_memory_bytes : Z;
  p_available_memory_bytes : Z;
  p_numa_node : option Z;
  p_supported_formats : list string;
  p_is_triage_reserved : bool;
  p_is_quarantined : bool;
  p_hardware_features : list string;
}.

Record HardwareTopology := mkHardwareTopology {
  t_planes : list ComputePlane;
  t_total_system_ram_bytes : Z;
  t_available_system_ram_bytes : Z;
  t_cpu_cores_total : Z;
  t_numa_nodes : Z;
}.

(** [HardwareTopology::default()] *)
Definition empty_topology : HardwareTopology := mkHardwareTopology [] 0 0 0 0.

(** The tests the code passes to [find] and [position]. *)
Definition has_id (id : string) (p : ComputePlane) : bool := bool_decide (p_id p = id).
Definition is_uma (p : ComputePlane) : bool := bool_decide (p_kind p = IntegratedUma).
Definition is_cpu (p : ComputePlane) : bool := bool_decide (p_kind p = CpuMatrixExtension).
Definition is_npu (p : ComputePlane) : bool := bool_decide (p_kind p = NpuAccelerator).

(** Assignments to single fields. *)
Definition set_memory (total available : Z) (p : ComputePlane) : ComputePlane :=
  {| p_id := p_id p; p_name := p_name p; p_kind := p_kind p;
     p_device_path := p_device_path p;
     p_total_memory_bytes := total;
     p_available_memory_bytes := available;
     p_numa_node := p_numa_node p; p_supported_formats := p_supported_formats p;
     p_is_triage_reserved := p_is_triage_reserved p;
     p_is_quarantined := p_is_quarantined p;
     p_hardware_features := p_hardware_features p |}.

Definition set_available (available : Z) (p : ComputePlane) : ComputePlane :=
  set_memory (p_total_memory_bytes p) available p.

Definition set_flags (triage quarantined : bool) (p : ComputePlane) : ComputePlane :=
  {| p_id := p_id p; p_name := p_name p; p_kind := p_kind p;
     p_device_path := p_device_path p;
     p_total_memory_bytes := p_total_memory_bytes p;
     p_available_memory_bytes := p_available_memory_bytes p;
     p_numa_node := p_numa_node p; p_supported_formats := p_supported_formats p;
     p_is_triage_reserved := triage;
     p_is_quarantined := quarantined;
     p_hardware_features := p_hardware_features p |}.

Definition set_triage_reserved (b : bool) (p : ComputePlane) : ComputePlane :=
  set_flags b (p_is_quarantined p) p.
Definition set_quarantined (b : bool) (p : ComputePlane) : ComputePlane :=
  set_flags (p_is_triage_reserved p) b p.

Definition set_planes (ps : list ComputePlane) (t : HardwareTopology) : HardwareTopology :=
  {| t_planes := ps;
     t_total_system_ram_bytes := t_total_system_ram_bytes t;
     t_available_system_ram_bytes := t_available_system_ram_bytes t;
     t_cpu_cores_total := t_cpu_cores_total t;
     t_numa_nodes := t_numa_nodes t |}.

(** * Well-formed planes *)

Definition plane_ok (p : ComputePlane) : Prop :=
  0 ≤ p_available_memory_bytes p ≤ p_total_memory_bytes p ∧ p_total_memory_bytes p < u64_limit.

(** What the arbiter expects of the planes it is given: sizes in range and
    identifiers that name one plane each. *)
Definition planes_ok (ps : list ComputePlane) : Prop :=
  Forall plane_ok ps ∧ NoDup (p_id <$> ps).

#[export] Instance plane_ok_dec p : Decision (plane_ok p).
Proof. unfold plane_ok. apply _. Defined.
#[export] Instance planes_ok_dec ps : Decision (planes_ok ps).
Proof. unfold planes_ok. apply _. Defined.

(** * The triage enclave *)

Definition CPU_TRIAGE_RESERVED_BYTES : Z := 2 * 1024 * 1024 * 1024.

Definition reserve_cpu_quota (cpu : ComputePlane) : ComputePlane :=
  let cpu := set_triage_reserved false cpu in
  let triage_quota := Z.min CPU_TRIAGE_RESERVED_BYTES (p_available_memory_bytes cpu / 4) in
  set_memory (saturating_sub (p_total_memory_bytes cpu) triage_quota)
    (saturating_sub (p_available_memory_bytes cpu) triage_quota) cpu.

(** [assign_triage_enclave]: the planes as it leaves them, and the identifier
    it returns. *)
Definition assign_triage_enclave (planes : list ComputePlane) :
    list ComputePlane * option string :=
  let free_npu p := is_npu p && negb (p_is_quarantined p) in
  let free_cpu p := is_cpu p && negb (p_is_quarantined p) in
  match find_first free_npu planes with
  | Some npu => (update_first free_npu (set_triage_reserved true) planes, Some (p_id npu))
  | None =>
      match find_first free_cpu planes with
      | Some cpu => (update_first free_cpu reserve_cpu_quota planes, Some (p_id cpu))
      | None => (planes, None)
      end
  end.

(** ** Facts about the enclave *)

Section triage.
Implicit Types (p : ComputePlane) (ps : list ComputePlane).

Lemma plane_ok_set_available a p :
  plane_ok p → 0 ≤ a ≤ p_total_memory_bytes p → plane_ok (set_available a p).
Proof. unfold plane_ok; simpl. lia. Qed.

Lemma reserve_cpu_quota_ok p : plane_ok p → plane_ok (reserve_cpu_quota p).
Proof.
  unfold plane_ok, reserve_cpu_quota, CPU_TRIAGE_RESERVED_BYTES; simpl.
  intros. u64_lia.
Qed.

Lemma planes_ok_insert ps i p p' :
  planes_ok ps → ps !! i = Some p → p_id p' = p_id p → plane_ok p' →
  planes_ok (<[i := p']> ps).
Proof.
  intros [Hall Hnd] Hi Hid Hok. split; [by apply Forall_insert|].
  rewrite list_fmap_insert, Hid, list_insert_id; [done|]. by rewrite list_lookup_fmap, Hi.
Qed.

Lemma assign_triage_enclave_Some ps ps' id :
  assign_triage_enclave ps = (ps', Some id) →
  ∃ i p p', ps !! i = Some p ∧ p_id p = id ∧ p_is_quarantined p = false ∧
    ps' = <[i := p']> ps ∧
    ((is_npu p = true ∧ p' = set_triage_reserved true p) ∨
     (is_cpu p = true ∧ p' = reserve_cpu_quota p ∧
      ∀ q, q ∈ ps → is_npu q = true → p_is_quarantined q = true)).
Proof.
  unfold assign_triage_enclave.
  destruct (find_first (λ p, is_npu p && _) ps) as [npu|] eqn:Hnpu.
  - intros [= <- <-].
    destruct (find_first_update_first _ (set_triage_reserved true) _ _ Hnpu)
      as (i & Hi & HP & Hupd).
    reflect_bools. exists i, npu, (set_triage_reserved true npu). by auto 10.
  - destruct (find_first (λ p, is_cpu p && _) ps) as [cpu|] eqn:Hcpu; [|done].
    intros [= <- <-].
    destruct (find_first_update_first _ reserve_cpu_quota _ _ Hcpu) as (i & Hi & HP & Hupd).
    reflect_bools. exists i, cpu, (reserve_cpu_quota cpu). split_and!; auto.
    right. split_and!; auto. intros q Hq Hn.
    pose proof (find_first_None _ _ _ Hnpu Hq) as Hfree. simpl in Hfree.
    rewrite Hn in Hfree. simpl in Hfree. by apply negb_false_iff.
Qed.

Lemma assign_triage_enclave_None ps ps' :
  assign_triage_enclave ps = (ps', None) →
  ps' = ps ∧
  ∀ p, p ∈ ps → is_npu p = true ∨ is_cpu p = true → p_is_quarantined p = true.
Proof.
  unfold assign_triage_enclave.
  destruct (find_first (λ p, is_npu p && _) ps) as [npu|] eqn:Hnpu; [done|].
  destruct (find_first (λ p, is_cpu p && _) ps) as [cpu|] eqn:Hcpu; [done|].
  intros [= <-]. split; [done|]. intros p Hp Hkind.
  pose proof (find_first_None _ _ _ Hnpu Hp) as H1; simpl in H1.
  pose proof (find_first_None _ _ _ Hcpu Hp) as H2; simpl in H2.
  destruct Hkind as [Hk|Hk]; rewrite Hk in *; simpl in *; by apply negb_false_iff.
Qed.

Lemma assign_triage_enclave_planes_ok ps :
  planes_ok ps → planes_ok (assign_triage_enclave ps).1.
Proof.
  intros Hok. destruct (assign_triage_enclave ps) as [ps' [id|]] eqn:Heq; simpl.
  - apply assign_triage_enclave_Some in Heq as (i & p & p' & Hi & _ & _ & -> & Hcase).
    assert (plane_ok p) as Hp by (destruct Hok as [Hall _]; by eapply Forall_lookup_1).
    destruct Hcase as [[_ ->]|(_ & -> & _)]; eapply planes_ok_insert; eauto.
    by apply reserve_cpu_quota_ok.
  - by apply assign_triage_enclave_None in Heq as [-> _].
Qed.

(** The enclave is never on quarantined hardware, is an NPU whenever a
    usable one exists, reserves a processor fallback only in memory (at most
    2 GiB and a quarter of what is free), and touches no other plane. *)
Theorem triage_enclave_placement ps ps' id :
  assign_triage_enclave ps = (ps', Some id) →
  ∃ i p p', ps !! i = Some p ∧ ps' !! i = Some p' ∧ p_id p = id ∧ p_id p' = id ∧
    p_is_quarantined p = false ∧
    (∀ j, j ≠ i → ps' !! j = ps !! j) ∧
    ((is_npu p = true ∧ p_is_triage_reserved p' = true ∧
      p_available_memory_bytes p' = p_available_memory_bytes p) ∨
     (is_cpu p = true ∧ p_is_triage_reserved p' = false ∧
      (∀ q, q ∈ ps → is_npu q = true → p_is_quarantined q = true) ∧
      (plane_ok p →
         let quota := p_available_memory_bytes p - p_available_memory_bytes p' in
         0 ≤ quota ≤ CPU_TRIAGE_RESERVED_BYTES ∧
         4 * quota ≤ p_available_memory_bytes p ∧
         p_total_memory_bytes p' = p_total_memory_bytes p - quota))).
Proof.
  intros Heq. apply assign_triage_enclave_Some in Heq
    as (i & p & p' & Hi & <- & Hq & -> & Hcase).
  pose proof (lookup_lt_Some _ _ _ Hi). exists i, p, p'.
  split_and!; auto.
  - by rewrite list_lookup_insert_eq.
  - by destruct Hcase as [[_ ->]|(_ & -> & _)].
  - intros j Hj. by rewrite list_lookup_insert_ne.
  - destruct Hcase as [[? ->]|(? & -> & ?)]; [by left|right].
    split_and!; auto. unfold plane_ok, reserve_cpu_quota, CPU_TRIAGE_RESERVED_BYTES; simpl.
    intros. u64_lia.
Qed.
End triage.
