(* ===== verification/Text.v ===== *)
(** The operations of Rust's [str] the program uses, on byte strings.

    A [&str] is its UTF-8 bytes. Searching for, splitting at and stripping a
    pattern are operations on the bytes; trimming and splitting at white space
    recognise the UTF-8 encodings of the characters with the Unicode property
    White_Space, as [char::is_whitespace] does. *)
From S2P Require Import Prelude.
Local Open Scope Z_scope.

Definition code (c : ascii) : Z := Z.of_N (N_of_ascii c).

(** * Patterns *)

(** [s.strip_prefix(p)] *)
Fixpoint strip_prefix (p s : string) : option string :=
  match p, s with
  | EmptyString, _ => Some s
  | String a p', String b s' => if Ascii.eqb a b then strip_prefix p' s' else None
  | String _ _, EmptyString => None
  end.

(** [s.starts_with(p)] *)
Definition starts_with (s p : string) : bool :=
  match strip_prefix p s with Some _ => true | None => false end.

(** [s.contains(p)] *)
Fixpoint contains (s p : string) : bool :=
  starts_with s p || match s with EmptyString => false | String _ s' => contains s' p end.

(** [s.ends_with(p)] *)
Fixpoint ends_with (s p : string) : bool :=
  String.eqb s p || match s with EmptyString => false | String _ s' => ends_with s' p end.

(** [s.split_once(c)] for an ASCII [c] *)
Fixpoint split_once (c : ascii) (s : string) : option (string * string) :=
  match s with
  | EmptyString => None
  | String a s' =>
      if Ascii.eqb a c then Some ("", s')
      else match split_once c s' with
           | Some (l, r) => Some (String a l, r)
           | None => None
           end
  end.

(** [s.split(c)] for an ASCII [c]: there is always at least one piece. *)
Fixpoint split_from (c : ascii) (s : string) : string * list string :=
  match s with
  | EmptyString => ("", [])
  | String a s' =>
      let '(w, ws) := split_from c s' in
      if Ascii.eqb a c then ("", w :: ws) else (String a w, ws)
  end.
Definition split (c : ascii) (s : string) : list string :=
  let '(w, ws) := split_from c s in w :: ws.

Definition is_empty (s : string) : bool := String.eqb s "".

Definition newline : ascii := "010"%char.
Definition carriage_return : ascii := "013"%char.
Definition nul : ascii := "000"%char.

(** Remove one character at the end if it is [c]. *)
Fixpoint strip_last (c : ascii) (s : string) : string :=
  match s with
  | EmptyString => ""
  | String a EmptyString => if Ascii.eqb a c then "" else s
  | String a s' => String a (strip_last c s')
  end.

(** [s.lines()]: split at newlines, without a final empty piece, and without
    a carriage return before a newline. *)
Fixpoint lines_of (pieces : list string) : list string :=
  match pieces with
  | [] => []
  | [last] => if is_empty last then [] else [last]
  | w :: ws => strip_last carriage_return w :: lines_of ws
  end.
Definition lines (s : string) : list string := lines_of (split newline s).

(** [take(limit)] of a reader: the first bytes. *)
Fixpoint take_bytes (limit : Z) (s : string) : string :=
  match s with
  | EmptyString => ""
  | String a s' => if limit <=? 0 then "" else String a (take_bytes (limit - 1) s')
  end.

(** What arrives when [cs] are written one after the other. *)
Definition concat_all (cs : list string) : string := foldr String.append "" cs.

(** * White space *)

(** The length in bytes of the white-space character [s] begins with, 0 when
    it begins with none: U+0009 to U+000D, U+0020, U+0085, U+00A0, U+1680,
    U+2000 to U+200A, U+2028, U+2029, U+202F, U+205F and U+3000. *)
Definition ws_len (s : string) : nat :=
  match s with
  | String a s1 =>
      let a := code a in
      if ((9 <=? a) && (a <=? 13)) || (a =? 32) then 1%nat else
      match s1 with
      | String b s2 =>
          let b := code b in
          if (a =? 194) && ((b =? 133) || (b =? 160)) then 2%nat else
          match s2 with
          | String c _ =>
              let c := code c in
              if (a =? 225) && (b =? 154) && (c =? 128) then 3%nat else
              if (a =? 226) && (b =? 128) &&
                 (((128 <=? c) && (c <=? 138)) || (c =? 168) || (c =? 169) || (c =? 175))
              then 3%nat else
              if (a =? 226) && (b =? 129) && (c =? 159) then 3%nat else
              if (a =? 227) && (b =? 128) && (c =? 128) then 3%nat else 0%nat
          | EmptyString => 0%nat
          end
      | EmptyString => 0%nat
      end
  | EmptyString => 0%nat
  end.

(** [s.trim_start()], with [skip] bytes of a character still to drop. *)
Fixpoint trim_start_from (skip : nat) (s : string) : string :=
  match s with
  | EmptyString => ""
  | String a s' =>
      match skip with
      | S skip' => trim_start_from skip' s'
      | O => match ws_len s with
             | O => s
             | S n => trim_start_from n s'
             end
      end
  end.
Definition trim_start (s : string) : string := trim_start_from 0 s.

(** [s.trim_end()]: cut at the first place from which on all is white space. *)
Fixpoint trim_end (s : string) : string :=
  match s with
  | EmptyString => ""
  | String a s' => if is_empty (trim_start s) then "" else String a (trim_end s')
  end.
Definition trim (s : string) : string := trim_end (trim_start s).

(** [s.split_whitespace()] *)
Fixpoint words_from (skip : nat) (cur : string) (s : string) : list string :=
  let flush := if is_empty cur then [] else [cur] in
  match s with
  | EmptyString => flush
  | String a s' =>
      match skip with
      | S skip' => words_from skip' cur s'
      | O => match ws_len s with
             | O => words_from 0 (cur +:+ String a "") s'
             | S n => flush ++ words_from n "" s'
             end
      end
  end.
Definition split_whitespace (s : string) : list string := words_from 0 "" s.

(** * Numbers *)

Definition digit_of (c : ascii) : option Z :=
  let n := code c in if (48 <=? n) && (n <=? 57) then Some (n - 48) else None.

Definition is_ascii_digit (c : ascii) : bool :=
  match digit_of c with Some _ => true | None => false end.

(** The digit loop of [parse]: checked multiplication and addition. *)
Fixpoint parse_digits (limit acc : Z) (s : string) : option Z :=
  match s with
  | EmptyString => Some acc
  | String c s' =>
      match digit_of c with
      | Some d => let acc' := acc * 10 + d in
                  if acc' <? limit then parse_digits limit acc' s' else None
      | None => None
      end
  end.

(** [s.parse::<uN>()] with [limit = 2^N]: an optional plus sign, then at least
    one digit, all in range. *)
Definition parse_unsigned (limit : Z) (s : string) : option Z :=
  let s := match strip_prefix "+" s with Some r => r | None => s end in
  if is_empty s then None else parse_digits limit 0 s.

Definition parse_u64 : string → option Z := parse_unsigned u64_limit.
Definition parse_u32 : string → option Z := parse_unsigned u32_limit.

(** [s.parse::<i32>()] *)
Definition parse_i32 (s : string) : option Z :=
  match strip_prefix "-" s with
  | Some r => if is_empty r then None else Z.opp <$> parse_digits (2 ^ 31 + 1) 0 r
  | None => parse_unsigned (2 ^ 31) s
  end.

(** [all] of the characters satisfy a test; bytes of a multi-byte character
    are not ASCII and fail every ASCII test. *)
Fixpoint string_forallb (f : ascii → bool) (s : string) : bool :=
  match s with EmptyString => true | String c s' => f c && string_forallb f s' end.

(** [chars().filter(f)] for a test that keeps every non-ASCII character *)
Fixpoint string_filter (f : ascii → bool) (s : string) : string :=
  match s with
  | EmptyString => ""
  | String c s' => if f c then String c (string_filter f s') else string_filter f s'
  end.

(** [to_ascii_lowercase] *)
Definition ascii_lower (c : ascii) : ascii :=
  if (65 <=? code c) && (code c <=? 90) then ascii_of_N (Z.to_N (code c + 32)) else c.
Fixpoint to_ascii_lowercase (s : string) : string :=
  match s with EmptyString => "" | String c s' => String (ascii_lower c) (to_ascii_lowercase s') end.

Definition is_ascii (s : string) : bool := string_forallb (λ c, code c <? 128) s.

(** * UTF-8

    [std::str::from_utf8]: the well-formed byte sequences. [need] holds the
    ranges of the continuation bytes still to come. *)
Definition cont : Z * Z := (128, 191).

Definition utf8_lead (a : Z) : option (list (Z * Z)) :=
  if a <? 128 then Some []
  else if (194 <=? a) && (a <=? 223) then Some [cont]
  else if a =? 224 then Some [(160, 191); cont]
  else if a =? 237 then Some [(128, 159); cont]
  else if (225 <=? a) && (a <=? 239) then Some [cont; cont]
  else if a =? 240 then Some [(144, 191); cont; cont]
  else if (241 <=? a) && (a <=? 243) then Some [cont; cont; cont]
  else if a =? 244 then Some [(128, 143); cont; cont]
  else None.

Fixpoint utf8_from (need : list (Z * Z)) (s : string) : bool :=
  match s with
  | EmptyString => match need with [] => true | _ => false end
  | String c s' =>
      match need with
      | (lo, hi) :: need' => (lo <=? code c) && (code c <=? hi) && utf8_from need' s'
      | [] => match utf8_lead (code c) with
              | Some need' => utf8_from need' s'
              | None => false
              end
      end
  end.

Definition from_utf8 (s : string) : option string :=
  if utf8_from [] s then Some s else None.

(** * Facts *)

Section facts.
Implicit Types (s p : string) (c : ascii).

Lemma strip_prefix_app p s : strip_prefix p (p +:+ s) = Some s.
Proof.
  induction p as [|a p IH]; simpl; [done|].
  by rewrite Ascii.eqb_refl.
Qed.

Lemma strip_prefix_Some p s r : strip_prefix p s = Some r ↔ s = p +:+ r.
Proof.
  split; [|intros ->; apply strip_prefix_app].
  revert s. induction p as [|a p IH]; intros s; simpl; [by intros [= ->]|].
  destruct s as [|b s]; [done|]. destruct (Ascii.eqb_spec a b) as [->|]; [|done].
  intros H. by rewrite (IH s).
Qed.

Lemma starts_with_true s p : starts_with s p = true ↔ ∃ r, s = p +:+ r.
Proof.
  unfold starts_with. destruct (strip_prefix p s) as [r|] eqn:H.
  - apply strip_prefix_Some in H. split; [eauto|done].
  - split; [done|]. intros [r ->]. by rewrite strip_prefix_app in H.
Qed.

Lemma contains_true s p : contains s p = true ↔ ∃ l r, s = l +:+ p +:+ r.
Proof.
  split.
  - induction s as [|a s IH]; simpl; intros [H|H]%orb_true_iff.
    + apply starts_with_true in H as [r ->]. by exists "", r.
    + done.
    + apply starts_with_true in H as [r ->]. by exists "", r.
    + destruct (IH H) as (l & r & ->). by exists (String a l), r.
  - intros (l & r & ->). induction l as [|a l IH]; simpl.
    + assert (starts_with (p +:+ r) p = true) as Hs by (apply starts_with_true; eauto).
      change ("" +:+ p +:+ r) with (p +:+ r).
      destruct (p +:+ r); simpl; by rewrite Hs.
    + change (String a l +:+ p +:+ r) with (String a (l +:+ p +:+ r)). simpl.
      rewrite IH. apply orb_true_r.
Qed.

Lemma ends_with_true s p : ends_with s p = true ↔ ∃ l, s = l +:+ p.
Proof.
  split.
  - induction s as [|a s IH]; cbn [ends_with]; intros [H|H]%orb_true_iff.
    + apply String.eqb_eq in H as <-. by exists "".
    + done.
    + apply String.eqb_eq in H as <-. by exists "".
    + destruct (IH H) as (l & ->). by exists (String a l).
  - intros (l & ->). induction l as [|a l IH]; simpl.
    + change ("" +:+ p) with p. destruct p; cbn [ends_with]; by rewrite String.eqb_refl.
    + change (String a l +:+ p) with (String a (l +:+ p)). cbn [ends_with].
      rewrite IH. apply orb_true_r.
Qed.

Lemma is_empty_true s : is_empty s = true ↔ s = "".
Proof. apply String.eqb_eq. Qed.

(** [split_once] cuts at the first occurrence, and only there. *)
Lemma split_once_app c l r :
  string_forallb (λ a, negb (Ascii.eqb a c)) l = true →
  split_once c (l +:+ String c r) = Some (l, r).
Proof.
  induction l as [|a l IH]; simpl.
  - intros _. change ("" +:+ String c r) with (String c r). simpl. by rewrite Ascii.eqb_refl.
  - intros [Ha Hl]%andb_true_iff. change (String a l +:+ String c r)
      with (String a (l +:+ String c r)). simpl.
    apply negb_true_iff in Ha. by rewrite Ha, IH.
Qed.

Lemma split_once_Some c s l r :
  split_once c s = Some (l, r) →
  s = l +:+ String c r ∧ string_forallb (λ a, negb (Ascii.eqb a c)) l = true.
Proof.
  revert l r. induction s as [|a s IH]; simpl; [done|]. intros l r.
  destruct (Ascii.eqb_spec a c) as [->|Hne]; [by intros [= <- <-]|].
  destruct (split_once c s) as [[l' r']|] eqn:Hs; [|done].
  intros [= <- <-]. destruct (IH _ _ eq_refl) as [-> Hl]. split; [done|]. simpl.
  apply andb_true_iff. split; [|done]. apply negb_true_iff. by apply Ascii.eqb_neq.
Qed.

(** [split] inverts joining with the separator. *)
Fixpoint join (c : ascii) (w : string) (ws : list string) : string :=
  match ws with
  | [] => w
  | w' :: ws' => w +:+ String c (join c w' ws')
  end.

Lemma split_from_app c w s :
  string_forallb (λ a, negb (Ascii.eqb a c)) w = true →
  split_from c (w +:+ s) = let '(w', ws) := split_from c s in (w +:+ w', ws).
Proof.
  induction w as [|a w IH]; simpl.
  - intros _. change ("" +:+ s) with s. by destruct (split_from c s).
  - intros [Ha Hw]%andb_true_iff. change (String a w +:+ s) with (String a (w +:+ s)).
    simpl. rewrite IH by done. apply negb_true_iff in Ha. rewrite Ha.
    by destruct (split_from c s).
Qed.

Lemma string_length_app s1 s2 :
  String.length (s1 +:+ s2) = (String.length s1 + String.length s2)%nat.
Proof. induction s1 as [|a s1 IH]; [done|]. simpl. by rewrite <-IH. Qed.

Lemma string_app_empty s : s +:+ "" = s.
Proof.
  induction s as [|a s IH]; [done|].
  change (String a s +:+ "") with (String a (s +:+ "")). by rewrite IH.
Qed.

Lemma split_join c w ws :
  Forall (λ x, string_forallb (λ a, negb (Ascii.eqb a c)) x = true) (w :: ws) →
  split c (join c w ws) = w :: ws.
Proof.
  revert w. induction ws as [|w' ws IH]; intros w [Hw Hws]%Forall_cons_1; unfold split in *.
  - simpl. rewrite <-(string_app_empty w) at 1. rewrite split_from_app by done. simpl.
    by rewrite string_app_empty.
  - simpl. rewrite split_from_app by done. simpl. rewrite Ascii.eqb_refl.
    specialize (IH w' Hws). destruct (split_from c (join c w' ws)).
    simplify_eq. by rewrite string_app_empty.
Qed.

Lemma parse_digits_bounds limit acc s n :
  0 ≤ acc < limit → parse_digits limit acc s = Some n → 0 ≤ n < limit.
Proof.
  revert acc. induction s as [|c s IH]; simpl; intros acc Hacc.
  - by intros [= <-].
  - destruct (digit_of c) as [d|] eqn:Hd; [|done]. unfold digit_of in Hd.
    case_match eqn:Hr; simplify_eq. reflect_bools.
    destruct (Z.ltb_spec (acc * 10 + (code c - 48)) limit); [|done].
    apply IH. lia.
Qed.

Lemma parse_u64_bounds s n : parse_u64 s = Some n → is_u64 n.
Proof.
  unfold parse_u64, parse_unsigned. destruct (is_empty _); [done|].
  by apply parse_digits_bounds.
Qed.
End facts.

#[export] Instance string_app_assoc : Assoc (=) String.append.
Proof.
  intros s1 s2 s3. induction s1 as [|a s1 IH]; [done|].
  change (String a (s1 +:+ s2 +:+ s3) = String a ((s1 +:+ s2) +:+ s3)). by rewrite IH.
Qed.

(** [c] does not occur. *)
Definition lacks (c : ascii) (s : string) : bool :=
  string_forallb (λ a, negb (Ascii.eqb a c)) s.

(** ** Searching in a string with a known beginning *)

(** [u] and [p] differ at some position of both. *)
Fixpoint mismatch (u p : string) : bool :=
  match u, p with
  | String a u', String b p' => negb (Ascii.eqb a b) || mismatch u' p'
  | _, _ => false
  end.
(** [p] starts at no position of [u], whatever follows. *)
Fixpoint never_starts (u p : string) : bool :=
  match u with
  | EmptyString => true
  | String a u' => mismatch u p && never_starts u' p
  end.

Section search.
Implicit Types (s u p : string).

Lemma mismatch_starts_with u p s : mismatch u p = true → starts_with (u +:+ s) p = false.
Proof.
  unfold starts_with. revert p. induction u as [|a u IH]; intros [|b p]; simpl; try done.
  change (String a u +:+ s) with (String a (u +:+ s)). simpl. cbn [strip_prefix].
  rewrite (Ascii.eqb_sym b a). destruct (Ascii.eqb a b); simpl; [apply IH|done].
Qed.

Lemma contains_cons a s p : contains (String a s) p = starts_with (String a s) p || contains s p.
Proof. done. Qed.

Lemma contains_skip u s p : never_starts u p = true → contains (u +:+ s) p = contains s p.
Proof.
  induction u as [|a u IH]; [done|]. intros [Hm Hu]%andb_true_iff.
  change (String a u +:+ s) with (String a (u +:+ s)) in *. rewrite contains_cons.
  pose proof (mismatch_starts_with _ _ s Hm) as Hs.
  change (String a u +:+ s) with (String a (u +:+ s)) in Hs. rewrite Hs. by apply IH.
Qed.

(** A pattern whose first byte does not occur. *)
Lemma contains_absent a s p :
  string_forallb (λ c, negb (Ascii.eqb a c)) s = true → contains s (String a p) = false.
Proof.
  induction s as [|c s IH]; [done|]. cbn [string_forallb].
  intros [Ha Hs]%andb_true_iff. rewrite contains_cons, IH by done.
  unfold starts_with. cbn [strip_prefix]. apply negb_true_iff in Ha. by rewrite Ha.
Qed.

Lemma string_forallb_app (f : ascii → bool) s1 s2 :
  string_forallb f (s1 +:+ s2) = string_forallb f s1 && string_forallb f s2.
Proof.
  induction s1 as [|a s1 IH]; [done|].
  change (String a s1 +:+ s2) with (String a (s1 +:+ s2)). cbn [string_forallb].
  by rewrite IH, andb_assoc.
Qed.

Lemma lacks_app c s1 s2 : lacks c (s1 +:+ s2) = lacks c s1 && lacks c s2.
Proof. apply string_forallb_app. Qed.

Lemma string_forallb_impl (f g : ascii → bool) s :
  (∀ c, f c = true → g c = true) → string_forallb f s = true → string_forallb g s = true.
Proof.
  intros Hfg. induction s as [|a s IH]; [done|]. cbn [string_forallb].
  intros [Ha Hs]%andb_true_iff. apply andb_true_iff. auto.
Qed.

Lemma is_ascii_app s1 s2 : is_ascii (s1 +:+ s2) = is_ascii s1 && is_ascii s2.
Proof. apply string_forallb_app. Qed.

Lemma ascii_utf8 s : is_ascii s = true → utf8_from [] s = true.
Proof.
  unfold is_ascii. induction s as [|a s IH]; [done|]. cbn [string_forallb utf8_from].
  intros [Ha Hs]%andb_true_iff. unfold utf8_lead. rewrite Ha. by apply IH.
Qed.

Lemma to_ascii_lowercase_app s1 s2 :
  to_ascii_lowercase (s1 +:+ s2) = to_ascii_lowercase s1 +:+ to_ascii_lowercase s2.
Proof.
  induction s1 as [|a s1 IH]; [done|].
  change (String a s1 +:+ s2) with (String a (s1 +:+ s2)). cbn [to_ascii_lowercase].
  by rewrite IH.
Qed.

Lemma digits_lowercase s :
  string_forallb is_ascii_digit s = true → to_ascii_lowercase s = s.
Proof.
  induction s as [|a s IH]; [done|]. cbn [string_forallb to_ascii_lowercase].
  intros [Ha Hs]%andb_true_iff. rewrite IH by done. f_equal.
  unfold is_ascii_digit, digit_of in Ha. unfold ascii_lower.
  destruct (Z.leb_spec 48 (code a)), (Z.leb_spec (code a) 57); try done.
  by rewrite (proj2 (Z.leb_gt 65 (code a))) by lia.
Qed.
End search.

(** Keep searches for literals folded. *)
#[global] Arguments strip_prefix : simpl never.
#[global] Arguments starts_with : simpl never.
#[global] Arguments contains : simpl never.
#[global] Arguments ends_with : simpl never.
#[global] Arguments from_utf8 : simpl never.
#[global] Arguments String.eqb : simpl never.

(** * Lines and words, put together and taken apart *)

Lemma strip_last_lacks c s : lacks c s = true → strip_last c s = s.
Proof.
  induction s as [|a s IH]; [done|]. intros Hs. unfold lacks in *. simpl in *.
  apply andb_true_iff in Hs as [Ha Hs]. apply negb_true_iff in Ha.
  destruct s as [|b s]; [by rewrite Ha|]. by rewrite IH.
Qed.

Lemma lines_cons w s :
  lacks newline w = true → lacks carriage_return w = true →
  lines (w +:+ String newline s) = w :: lines s.
Proof.
  intros Hw Hr. unfold lines, split. rewrite split_from_app by exact Hw. simpl.
  destruct (split_from newline s) as [w' ws]. rewrite string_app_empty. cbn [lines_of].
  by rewrite strip_last_lacks.
Qed.

(** The printable characters of ASCII. *)
Definition visible (a : ascii) : bool := (33 <=? code a) && (code a <=? 126).

Lemma visible_no_space a s : visible a = true → ws_len (String a s) = 0%nat.
Proof.
  unfold visible. intros [H1%Z.leb_le H2%Z.leb_le]%andb_true_iff. unfold ws_len.
  assert ((9 <=? code a) && (code a <=? 13) || (code a =? 32) = false) as -> by lia.
  assert (code a =? 194 = false) as -> by lia.
  assert (code a =? 225 = false) as -> by lia.
  assert (code a =? 226 = false) as -> by lia.
  assert (code a =? 227 = false) as -> by lia.
  by destruct s as [|b [|c s]].
Qed.

Lemma words_from_visible cur w s :
  string_forallb visible w = true → words_from 0 cur (w +:+ s) = words_from 0 (cur +:+ w) s.
Proof.
  revert cur. induction w as [|a w IH]; intros cur Hw; [by rewrite string_app_empty|].
  simpl in Hw. apply andb_true_iff in Hw as [Ha Hw].
  change (String a w +:+ s) with (String a (w +:+ s)). cbn [words_from].
  rewrite visible_no_space, IH by done. by rewrite <-(assoc String.append).
Qed.

Lemma split_whitespace_cons w s :
  string_forallb visible w = true → w ≠ "" →
  split_whitespace (w +:+ String " " s) = w :: split_whitespace s.
Proof.
  intros Hw Hne. unfold split_whitespace. rewrite words_from_visible by done.
  change ("" +:+ w) with w. cbn. by destruct w.
Qed.
