(* ===== verification/Model.v ===== *)
(** The model registry: crates/inferenced-core/src/model.rs. *)
From S2P Require Import Prelude.
Local Open Scope Z_scope.

Inductive ModelPlacementState := Dormant | Staged | Resident | PinnedTriage.

#[export] Instance ModelPlacementState_eq_dec : EqDecision ModelPlacementState.
Proof. solve_decision. Defined.

Record ModelDescriptor := mkModelDescriptor {
  m_id : string;
  m_format : string;
  m_path : string;
  m_estimated_memory_bytes : Z;
  m_placement : ModelPlacementState;
  m_resident_plane_id : option string;
  m_last_accessed : Z;
  m_access_count : Z;
  m_preferred_plane : option string;
}.

Record ModelRegistry := mkModelRegistry { models : gmap string ModelDescriptor }.

(** [ModelRegistry::new] *)
Definition new_registry : ModelRegistry := mkModelRegistry ∅.

Definition is_pinned (m : ModelDescriptor) : bool :=
  bool_decide (m_placement m = PinnedTriage).

(** The order of the key [(access_count, last_accessed)]. *)
Definition access_key_lt (x y : string * ModelDescriptor) : bool :=
  (m_access_count x.2 <? m_access_count y.2)
  || ((m_access_count x.2 =? m_access_count y.2)
      && (m_last_accessed x.2 <? m_last_accessed y.2)).

Section registry.
Context {ho : HashOrder string ModelDescriptor}.

(** The model [register] gives up: the least used one that is not pinned. *)
Definition evict_candidate (ms : gmap string ModelDescriptor) : option string :=
  fst <$> min_by access_key_lt
    (List.filter (λ km, negb (is_pinned km.2)) (hash_iter ms)).

Definition register (descriptor : ModelDescriptor) (r : ModelRegistry) : ModelRegistry :=
  let ms := models r in
  let ms :=
    if negb (bool_decide (is_Some (ms !! m_id descriptor))) && (256 <=? Z.of_nat (size ms)) then
      match evict_candidate ms with
      | Some evict_id => delete evict_id ms
      | None => ms
      end
    else ms in
  mkModelRegistry (<[m_id descriptor := descriptor]> ms).

(** [list]: the descriptors in the iteration order of the map. *)
Definition list_registry (r : ModelRegistry) : list ModelDescriptor :=
  (hash_iter (models r)).*2.
End registry.

(** [get] and [get_mut] *)
Definition get_model (id : string) (r : ModelRegistry) : option ModelDescriptor :=
  models r !! id.

(** [remove]: the descriptor it gives back and the registry it leaves. *)
Definition remove_model (id : string) (r : ModelRegistry) :
    option ModelDescriptor * ModelRegistry :=
  (models r !! id, mkModelRegistry (delete id (models r))).

Definition pin_descriptor (plane_id : string) (m : ModelDescriptor) : ModelDescriptor :=
  {| m_id := m_id m; m_format := m_format m; m_path := m_path m;
     m_estimated_memory_bytes := m_estimated_memory_bytes m;
     m_placement := PinnedTriage;
     m_resident_plane_id := Some plane_id;
     m_last_accessed := m_last_accessed m;
     m_access_count := m_access_count m;
     m_preferred_plane := m_preferred_plane m |}.

Definition pin_for_triage (id plane_id : string) (r : ModelRegistry) : bool * ModelRegistry :=
  match models r !! id with
  | Some m => (true, mkModelRegistry (<[id := pin_descriptor plane_id m]> (models r)))
  | None => (false, r)
  end.

(** * Runs of the registry *)

Inductive registry_op :=
  | RegRegister (d : ModelDescriptor)
  | RegRemove (id : string)
  | RegPin (id plane_id : string).

Definition registry_step (ho : HashOrder string ModelDescriptor) (op : registry_op)
    (r : ModelRegistry) : ModelRegistry :=
  match op with
  | RegRegister d => register d r
  | RegRemove id => (remove_model id r).2
  | RegPin id plane_id => (pin_for_triage id plane_id r).2
  end.

(** Every step may see its own iteration order. *)
Inductive registry_run : list registry_op → ModelRegistry → Prop :=
  | run_nil : registry_run [] new_registry
  | run_snoc ops op r ho :
      registry_run ops r → registry_run (ops ++ [op]) (registry_step ho op r).

(** The steps that can make a model pinned. *)
Definition pins (op : registry_op) : nat :=
  match op with
  | RegRegister d => if is_pinned d then 1 else 0
  | RegRemove _ => 0
  | RegPin _ _ => 1
  end.
Definition pins_of (ops : list registry_op) : nat := sum_list_with pins ops.

Definition pinned_models (r : ModelRegistry) : gmap string ModelDescriptor :=
  filter (λ km, is_pinned km.2 = true) (models r).

(** * Facts *)

Section min_by_facts.
Context {A : Type} (lt : A → A → bool).
Hypothesis lt_irrefl : ∀ x, lt x x = false.
Hypothesis lt_trans_neg : ∀ x y z, lt y x = false → lt z y = false → lt z x = false.
Hypothesis lt_asym : ∀ x y, lt x y = true → lt y x = false.

Lemma min_by_from_spec best l :
  min_by_from lt best l ∈ best :: l ∧
  ∀ y, y ∈ best :: l → lt y (min_by_from lt best l) = false.
Proof.
  revert best. induction l as [|x l IH]; intros best; simpl.
  - split; [left|]. by intros y ->%list_elem_of_singleton.
  - destruct (IH (if lt x best then x else best)) as [Hin Hmin]. split.
    + apply elem_of_cons in Hin as [->|?]; [|set_solver]. destruct (lt x best); set_solver.
    + intros y Hy. destruct (lt x best) eqn:Hx.
      * assert (y = best ∨ y ∈ x :: l) as [->|?] by set_solver; [|by apply Hmin].
        eapply lt_trans_neg; [|by apply lt_asym]. apply Hmin. left.
      * assert (y = x ∨ y ∈ best :: l) as [->|?] by set_solver; [|by apply Hmin].
        eapply lt_trans_neg; [|done]. apply Hmin. left.
Qed.

Lemma min_by_Some l x :
  min_by lt l = Some x → x ∈ l ∧ ∀ y, y ∈ l → lt y x = false.
Proof. destruct l; simpl; [done|]. intros [= <-]. apply min_by_from_spec. Qed.

Lemma min_by_None l : min_by lt l = None ↔ l = [].
Proof. by destruct l. Qed.
End min_by_facts.

Lemma access_key_lt_irrefl x : access_key_lt x x = false.
Proof. unfold access_key_lt. rewrite !Z.ltb_irrefl. simpl. apply andb_false_r. Qed.

Ltac key_cases :=
  unfold access_key_lt; intros; apply not_true_is_false; intros ?; reflect_bools;
  repeat match goal with H : _ ∨ _ |- _ => destruct H | H : _ ∧ _ |- _ => destruct H end;
  reflect_bools; lia.

Lemma access_key_lt_trans_neg x y z :
  access_key_lt y x = false → access_key_lt z y = false → access_key_lt z x = false.
Proof. key_cases. Qed.

Lemma access_key_lt_asym x y : access_key_lt x y = true → access_key_lt y x = false.
Proof. key_cases. Qed.

Section registry_facts.
Context {ho : HashOrder string ModelDescriptor}.
Implicit Types (r : ModelRegistry) (d m : ModelDescriptor) (ms : gmap string ModelDescriptor).

Lemma evict_candidate_Some ms k :
  evict_candidate ms = Some k →
  ∃ m, ms !! k = Some m ∧ is_pinned m = false ∧
    ∀ k' m', ms !! k' = Some m' → is_pinned m' = false →
      access_key_lt (k', m') (k, m) = false.
Proof.
  unfold evict_candidate. intros ([k0 m] & Hmin & ->)%fmap_Some.
  apply min_by_Some in Hmin as [Hin Hleast];
    [|exact access_key_lt_irrefl|exact access_key_lt_trans_neg|exact access_key_lt_asym].
  apply list_elem_of_In, filter_In in Hin as [Hin Hp].
  apply list_elem_of_In, elem_of_hash_iter in Hin. apply negb_true_iff in Hp.
  exists m. split_and!; [done|done|]. intros k' m' Hk' Hp'. apply Hleast.
  apply list_elem_of_In, filter_In. split; [by apply list_elem_of_In, elem_of_hash_iter|].
  simpl. by rewrite Hp'.
Qed.

Lemma evict_candidate_None ms k m :
  evict_candidate ms = None → ms !! k = Some m → is_pinned m = true.
Proof.
  unfold evict_candidate. intros Hnone%fmap_None%min_by_None Hk.
  destruct (is_pinned m) eqn:Hp; [done|]. exfalso.
  assert (In (k, m) (List.filter (λ km, negb (is_pinned km.2)) (hash_iter ms))) as Hin.
  { apply filter_In. split; [by apply list_elem_of_In, elem_of_hash_iter|].
    simpl. by rewrite Hp. }
  by rewrite Hnone in Hin.
Qed.

(** What [register] does on each of its branches. *)
Variant register_effect (d : ModelDescriptor) (r : ModelRegistry) : ModelRegistry → Prop :=
  | register_update m :
      models r !! m_id d = Some m →
      register_effect d r (mkModelRegistry (<[m_id d := d]> (models r)))
  | register_room :
      models r !! m_id d = None → Z.of_nat (size (models r)) < 256 →
      register_effect d r (mkModelRegistry (<[m_id d := d]> (models r)))
  | register_evict k m :
      models r !! m_id d = None → 256 ≤ Z.of_nat (size (models r)) →
      models r !! k = Some m → is_pinned m = false →
      (∀ k' m', models r !! k' = Some m' → is_pinned m' = false →
         access_key_lt (k', m') (k, m) = false) →
      register_effect d r (mkModelRegistry (<[m_id d := d]> (delete k (models r))))
  | register_all_pinned :
      models r !! m_id d = None → 256 ≤ Z.of_nat (size (models r)) →
      (∀ k m, models r !! k = Some m → is_pinned m = true) →
      register_effect d r (mkModelRegistry (<[m_id d := d]> (models r))).

Lemma register_cases d r : register_effect d r (register d r).
Proof.
  unfold register. destruct (models r !! m_id d) as [m|] eqn:Hd.
  - rewrite bool_decide_true by eauto. simpl. by eapply register_update.
  - rewrite bool_decide_false by (by intros [? ?]). simpl.
    destruct (Z.leb_spec 256 (Z.of_nat (size (models r)))) as [Hs|Hs]; [|by apply register_room].
    destruct (evict_candidate (models r)) as [k|] eqn:Hev.
    + apply evict_candidate_Some in Hev as (m & Hk & Hp & Hleast).
      eapply register_evict; eauto.
    + apply register_all_pinned; [done|done|]. intros k m. by apply evict_candidate_None.
Qed.

Lemma register_size d r :
  size (models (register d r)) =
    if bool_decide (is_Some (models r !! m_id d)) then size (models r)
    else if Z.of_nat (size (models r)) <? 256 then S (size (models r))
    else if bool_decide (map_Forall (λ _ m, is_pinned m = true) (models r))
    then S (size (models r)) else size (models r).
Proof.
  destruct (register_cases d r) as [m Hd|Hd Hs|k m Hd Hs Hk Hp Hl|Hd Hs Hall]; simpl.
  - rewrite bool_decide_true by eauto. by apply map_size_insert_Some.
  - rewrite bool_decide_false by (rewrite Hd; by intros [? ?]).
    apply Z.ltb_lt in Hs. rewrite Hs. by apply map_size_insert_None.
  - rewrite bool_decide_false by (rewrite Hd; by intros [? ?]).
    rewrite (proj2 (Z.ltb_ge _ _)) by lia.
    rewrite bool_decide_false by (intros Hall; specialize (Hall k m Hk); simpl in Hall; congruence).
    rewrite map_size_insert_None by (rewrite lookup_delete_ne; [done|congruence]).
    rewrite map_size_delete_Some by eauto.
    assert (size (models r) ≠ 0%nat) by lia. lia.
  - rewrite bool_decide_false by (rewrite Hd; by intros [? ?]).
    rewrite (proj2 (Z.ltb_ge _ _)) by lia.
    rewrite bool_decide_true by done. by apply map_size_insert_None.
Qed.

(** Registering never drops a pinned model other than one of the same name. *)
Lemma register_keeps_pinned d r k m :
  models r !! k = Some m → is_pinned m = true → k ≠ m_id d →
  models (register d r) !! k = Some m.
Proof.
  intros Hk Hp Hne.
  destruct (register_cases d r) as [? ?|? ?|k' m' ? ? ? ? ?|? ? ?]; simpl;
    rewrite lookup_insert_ne by done; try done.
  rewrite lookup_delete_ne; [done|]. intros ->. congruence.
Qed.

Lemma pinned_le_size r : (size (pinned_models r) ≤ size (models r))%nat.
Proof. apply map_subseteq_size, map_filter_subseteq. Qed.

Lemma all_pinned_size r :
  (∀ k m, models r !! k = Some m → is_pinned m = true) →
  pinned_models r = models r.
Proof. intros Hall. apply map_filter_id. intros k m Hk. by apply (Hall k). Qed.

Lemma pinned_insert_le k d ms :
  (size (filter (λ km, is_pinned km.2 = true) (<[k := d]> ms)) ≤
   size (filter (λ km, is_pinned km.2 = true) ms) + (if is_pinned d then 1 else 0))%nat.
Proof.
  destruct (is_pinned d) eqn:Hp.
  - rewrite map_filter_insert_True by done.
    rewrite map_size_insert. case_match; simpl; lia.
  - rewrite map_filter_insert_False by (simpl; congruence).
    rewrite map_filter_delete, map_size_delete. case_match; simpl; lia.
Qed.
End registry_facts.

(** * The registry over whole runs *)

Section registry_runs.
Implicit Types (r : ModelRegistry) (ops : list registry_op).

Definition keyed r : Prop := ∀ k m, models r !! k = Some m → m_id m = k.

Lemma insert_keyed k m ms :
  m_id m = k → keyed (mkModelRegistry ms) → keyed (mkModelRegistry (<[k := m]> ms)).
Proof.
  unfold keyed; simpl. intros Hk Hr k' m'.
  rewrite lookup_insert_Some. intros [[<- <-]|[_ ?]]; auto.
Qed.

Lemma delete_keyed k ms :
  keyed (mkModelRegistry ms) → keyed (mkModelRegistry (delete k ms)).
Proof. unfold keyed; simpl. intros Hr k' m' [_ ?]%lookup_delete_Some. auto. Qed.

Lemma registry_step_keyed ho op r : keyed r → keyed (registry_step ho op r).
Proof.
  destruct r as [ms]. intros Hr. destruct op as [d|id|id pl]; cbn [registry_step].
  - destruct (register_cases d (mkModelRegistry ms)); simpl;
      auto using insert_keyed, delete_keyed.
  - by apply delete_keyed.
  - unfold pin_for_triage; simpl. destruct (ms !! id) as [m|] eqn:Hm; simpl; [|done].
    apply insert_keyed; [|done]. simpl. by apply Hr.
Qed.

Lemma registry_step_pinned ho op r :
  (size (pinned_models (registry_step ho op r)) ≤ size (pinned_models r) + pins op)%nat.
Proof.
  unfold pinned_models. destruct op as [d|id|id pl]; cbn [registry_step pins].
  - destruct (register_cases d r) as [? ?|? ?|k m ? ? ? ? ?|? ? ?]; simpl;
      (etrans; [apply pinned_insert_le|]); try reflexivity.
    apply Nat.add_le_mono_r. rewrite map_filter_delete, map_size_delete.
    case_match; simpl; lia.
  - cbn [remove_model snd models]. rewrite map_filter_delete, map_size_delete.
    case_match; simpl; lia.
  - unfold pin_for_triage. destruct (models r !! id); simpl; [|lia].
    etrans; [apply pinned_insert_le|]. simpl. lia.
Qed.

(** A step grows the registry beyond 256 only when every model is pinned. *)
Lemma registry_step_size ho op r :
  (size (models (registry_step ho op r)) ≤
   Nat.max (size (models r)) (Nat.max 256 (S (size (pinned_models r)))))%nat.
Proof.
  destruct op as [d|id|id pl]; cbn [registry_step].
  - rewrite register_size. case_bool_decide; [lia|].
    destruct (Z.ltb_spec (Z.of_nat (size (models r))) 256); [lia|].
    case_bool_decide as Hall; [|lia]. rewrite all_pinned_size by done. lia.
  - cbn [remove_model snd models]. rewrite map_size_delete. case_match; unfold Datatypes.id; lia.
  - unfold pin_for_triage. destruct (models r !! id) eqn:Hm; cbn [snd models]; [|lia].
    rewrite map_size_insert_Some by eauto. lia.
Qed.

(** C35: in every run of the registry each entry is filed under its own
    identifier, there are at most as many pinned models as pinning steps,
    and the registry holds at most 256 models or one more than the number
    of pinning steps: eviction keeps the table bounded. *)
Theorem registry_bounded ops r :
  registry_run ops r →
  keyed r ∧
  (size (pinned_models r) ≤ pins_of ops)%nat ∧
  (size (models r) ≤ Nat.max 256 (S (pins_of ops)))%nat.
Proof.
  induction 1 as [|ops op r ho Hrun (Hk & Hp & Hs)].
  - split_and!; [by intros k m ?| |]; vm_compute; lia.
  - unfold pins_of in *. rewrite sum_list_with_app. cbn [sum_list_with].
    pose proof (registry_step_pinned ho op r). pose proof (registry_step_size ho op r).
    split_and!; [by apply registry_step_keyed|lia|lia].
Qed.
End registry_runs.

(** C34: what [register] does, on each branch: it updates a known model in
    place; adds a new one while there is room; at capacity it evicts exactly
    one model, which is not pinned and is least recently used by
    [(access_count, last_accessed)] among those, whatever order the map is
    iterated in; and it never evicts when every model is pinned. *)
Theorem register_lru (ho : HashOrder string ModelDescriptor) d r :
  models (register d r) !! m_id d = Some d ∧
  ∃ victims : gset string,
    (∀ k, k ≠ m_id d → models (register d r) !! k =
       if bool_decide (k ∈ victims) then None else models r !! k) ∧
    (size victims ≤ 1)%nat ∧
    (victims ≠ ∅ ↔ models r !! m_id d = None ∧ 256 ≤ Z.of_nat (size (models r)) ∧
       ∃ k m, models r !! k = Some m ∧ is_pinned m = false) ∧
    (∀ k, k ∈ victims → ∃ m, models r !! k = Some m ∧ is_pinned m = false ∧
       ∀ k' m', models r !! k' = Some m' → is_pinned m' = false →
         access_key_lt (k', m') (k, m) = false).
Proof.
  assert (Hnone : ∀ k, k ≠ m_id d →
    <[m_id d := d]> (models r) !! k =
      if bool_decide (k ∈ (∅ : gset string)) then None else models r !! k).
  { intros k Hk. rewrite lookup_insert_ne by done. by rewrite bool_decide_false by set_solver. }
  destruct (register_cases d r) as [m Hd|Hd Hs|k m Hd Hs Hk Hp Hl|Hd Hs Hall]; cbn [models];
    (split; [apply lookup_insert_eq|]).
  - exists ∅. split_and!; [done|rewrite size_empty; lia| |set_solver].
    split; [done|]. intros (? & _). congruence.
  - exists ∅. split_and!; [done|rewrite size_empty; lia| |set_solver].
    split; [done|]. intros (_ & ? & _). lia.
  - exists {[k]}. split_and!.
    + intros k' Hk'. rewrite lookup_insert_ne by done. case_bool_decide as Hin.
      * apply elem_of_singleton in Hin as ->. apply lookup_delete_eq.
      * rewrite lookup_delete_ne; [done|set_solver].
    + by rewrite size_singleton.
    + split; [|set_solver]. intros _. eauto 10.
    + intros k' ->%elem_of_singleton. eauto.
  - exists ∅. split_and!; [done|rewrite size_empty; lia| |set_solver].
    split; [done|]. intros (_ & _ & k & m & Hk & Hp). rewrite (Hall k m Hk) in Hp. done.
Qed.
