(* ===== verification/Host.v ===== *)
(** What the program reads from the machine it runs on. *)
From S2P Require Import Prelude Text.

(** A snapshot of the file system: the code only asks these questions of it.
    A path is the string [Path::display] would print. *)
Record Fs := mkFs {
  (** [fs::read_to_string(path).ok()] *)
  fs_read : string → option string;
  (** [path.exists()] *)
  fs_exists : string → bool;
  (** [path.is_dir()] *)
  fs_is_dir : string → bool;
  (** the file names of [fs::read_dir(path)?.flatten()], as bytes *)
  fs_read_dir : string → option (list string);
  (** [File::open(path)], then [reader.lines().map_while(Result::ok)] *)
  fs_open_lines : string → option (list string);
}.

(** The environment variables. *)
Definition Env := string → option string.

(** [path.join(name)] for a relative, non-empty [name] and a [path] that does
    not end in a slash, the only use the program makes of it. *)
Definition path_join (path name : string) : string := path +:+ "/" +:+ name.

Definition is_absolute (p : string) : bool := starts_with p "/".

(** [base.join(p)] for any two paths *)
Definition join_path (base p : string) : string :=
  if is_absolute p then p
  else if is_empty base then p
  else if ends_with base "/" then base +:+ p
  else base +:+ "/" +:+ p.

(** [path.file_name()]: the last component, unless it is [..]. *)
Definition file_name (path : string) : option string :=
  match last (List.filter (λ c, negb (is_empty c) && negb (String.eqb c ".")) (split "/" path)) with
  | Some c => if String.eqb c ".." then None else Some c
  | None => None
  end.

(** [path.parent()]: the path without its last component and the separators
    and dots before it; a root has none. *)
Definition is_dot (c : string) : bool := is_empty c || String.eqb c ".".
Fixpoint drop_dots (l : list string) : list string :=
  match l with
  | c :: l' => if is_dot c then drop_dots l' else l
  | [] => []
  end.
(** Without the dots at the end; a single leading dot of a relative path is a
    component of its own. *)
Definition trim_components (absolute : bool) (l : list string) : list string :=
  match l with
  | c :: l' =>
      if negb absolute && String.eqb c "." then c :: rev (drop_dots (rev l'))
      else rev (drop_dots (rev l))
  | [] => []
  end.
Definition join_components (l : list string) : string :=
  match l with c :: l' => join "/" c l' | [] => "" end.
Definition parent (path : string) : option string :=
  let absolute := is_absolute path in
  let pieces := if absolute then tail (split "/" path) else split "/" path in
  match trim_components absolute pieces with
  | [] => None
  | l => Some ((if absolute then "/" else "")
               +:+ join_components (trim_components absolute (removelast l)))
  end.

Example parent_runs :
  parent <$> ["/run/syntrop/fd.sock"; "/a//b/./"; "/a"; "/"; "a"; ""; "./a"; "a/b"; ".."; "//a/b"]
  = [Some "/run/syntrop"; Some "/a"; Some "/"; None; Some ""; None; Some "."; Some "a"; Some "";
     Some "//a"].
Proof. reflexivity. Qed.

(** The two operations of the standard library that depend on the Unicode
    tables, with what they do on the strings the program meets in practice:
    lower-casing an ASCII string, and repairing a valid one. *)
Class Unicode := {
  to_lowercase : string → string;
  to_string_lossy : string → string;
  to_lowercase_ascii s : is_ascii s = true → to_lowercase s = to_ascii_lowercase s;
  to_string_lossy_valid s : utf8_from [] s = true → to_string_lossy s = s;
}.

(** ASCII only, for concrete runs. *)
Definition ascii_unicode : Unicode :=
  {| to_lowercase := to_ascii_lowercase;
     to_string_lossy := λ s, s;
     to_lowercase_ascii := λ _ _, eq_refl;
     to_string_lossy_valid := λ _ _, eq_refl |}.

(** A snapshot given by its files and directories, for concrete runs. *)
Fixpoint assoc_find {A} (key : string) (l : list (string * A)) : option A :=
  match l with
  | [] => None
  | (k, a) :: l' => if String.eqb k key then Some a else assoc_find key l'
  end.
Definition snapshot (files : list (string * string)) (dirs : list (string * list string)) : Fs :=
  let known {A} (o : option A) := match o with Some _ => true | None => false end in
  {| fs_read p := assoc_find p files;
     fs_exists p := known (assoc_find p files) || known (assoc_find p dirs);
     fs_is_dir p := known (assoc_find p dirs);
     fs_read_dir p := assoc_find p dirs;
     fs_open_lines p := lines <$> assoc_find p files |}.
