(* ===== verification/Psi.v ===== *)
(** Pressure stall information: crates/inferenced-core/src/psi.rs.

    An [f32] is a [spec_float] of precision 24 and maximal exponent 128, so
    that comparisons are those of IEEE 754, NaN included. *)
From Stdlib Require Import SpecFloat.
From S2P Require Import Prelude Text Host.
Local Open Scope Z_scope.

Inductive PressureLevel := Normal | Elevated | Critical.

#[export] Instance PressureLevel_eq_dec : EqDecision PressureLevel.
Proof. solve_decision. Defined.

Record PressureMetrics := mkPressureMetrics {
  memory_some_avg10 : spec_float;
  memory_full_avg10 : spec_float;
  cpu_some_avg10 : spec_float;
  io_some_avg10 : spec_float;
  level : PressureLevel;
}.

(** The literals [0.0], [5.0], ... of the source. *)
Definition f32 (z : Z) : spec_float := binary_normalize 24 128 z 0 false.
Definition f32_gtb (x y : spec_float) : bool := SFltb y x.

Definition default_metrics : PressureMetrics :=
  mkPressureMetrics (f32 0) (f32 0) (f32 0) (f32 0) Normal.

Definition from_level (l : PressureLevel) : PressureMetrics :=
  match l with
  | Critical => mkPressureMetrics (f32 60) (f32 25) (f32 10) (f32 5) l
  | Elevated => mkPressureMetrics (f32 20) (f32 0) (f32 10) (f32 5) l
  | Normal => mkPressureMetrics (f32 0) (f32 0) (f32 0) (f32 0) l
  end.

(** * [str::parse::<f32>]: the correctly rounded value of a decimal *)

Fixpoint take_digits (acc count : Z) (s : string) : Z * Z * string :=
  match s with
  | EmptyString => (acc, count, s)
  | String c s' =>
      match digit_of c with
      | Some d => take_digits (acc * 10 + d) (count + 1) s'
      | None => (acc, count, s)
      end
  end.

Definition take_sign (s : string) : bool * string :=
  match s with
  | String "-" s' => (true, s')
  | String "+" s' => (false, s')
  | _ => (false, s)
  end.

(** The optional exponent and nothing after it. *)
Definition parse_exponent (s : string) : option Z :=
  match s with
  | EmptyString => Some 0
  | String c s' =>
      if Ascii.eqb (ascii_lower c) "e"%char then
        let '(neg, s1) := take_sign s' in
        let '(e, n, rest) := take_digits 0 0 s1 in
        if (n =? 0) || negb (is_empty rest) then None else Some (if neg then - e else e)
      else None
  end.

(** The nearest [f32] to [(-1)^neg * m * 10^e], ties to even. *)
Definition f32_of_decimal (neg : bool) (m e : Z) : spec_float :=
  match m with
  | Zpos p =>
      if 0 <=? e then binary_normalize 24 128 ((if neg then -1 else 1) * (m * 10 ^ e)) 0 neg
      else SFdiv 24 128 (S754_finite neg p 0) (S754_finite false (Z.to_pos (10 ^ (- e))) 0)
  | _ => S754_zero neg
  end.

Definition parse_f32 (s : string) : option spec_float :=
  let '(neg, s1) := take_sign s in
  let low := to_ascii_lowercase s1 in
  if String.eqb low "inf" || String.eqb low "infinity" then Some (S754_infinity neg)
  else if String.eqb low "nan" then Some S754_nan
  else
    let '(m1, n1, r1) := take_digits 0 0 s1 in
    let '(m, n2, r2) :=
      match r1 with String "." r => take_digits m1 0 r | _ => (m1, 0, r1) end in
    if n1 + n2 =? 0 then None
    else match parse_exponent r2 with
         | Some e => Some (f32_of_decimal neg m (e - n2))
         | None => None
         end.

(** * Reading the kernel's files *)

(** The inner loop: the first [avg10=] field of a line decides. *)
Fixpoint avg10_of_parts (parts : list string) : option (option spec_float) :=
  match parts with
  | [] => None
  | part :: parts' =>
      match strip_prefix "avg10=" part with
      | Some val_str => Some (parse_f32 val_str)
      | None => avg10_of_parts parts'
      end
  end.

Fixpoint avg10_of_lines (line_prefix : string) (ls : list string) : option spec_float :=
  match ls with
  | [] => None
  | line :: ls' =>
      if starts_with line line_prefix then
        match avg10_of_parts (split_whitespace line) with
        | Some r => r
        | None => avg10_of_lines line_prefix ls'
        end
      else avg10_of_lines line_prefix ls'
  end.

Definition parse_psi_avg10 (fs : Fs) (path line_prefix : string) : option spec_float :=
  if negb (fs_exists fs path) then None
  else content ← fs_read fs path; avg10_of_lines line_prefix (lines content).

(** The thresholds. *)
Definition classify (mem_some mem_full cpu_some io_some : spec_float) : PressureLevel :=
  if f32_gtb mem_full (f32 10) || f32_gtb mem_some (f32 40) || f32_gtb io_some (f32 50)
  then Critical
  else if f32_gtb mem_some (f32 15) || f32_gtb io_some (f32 20) || f32_gtb cpu_some (f32 60)
  then Elevated
  else Normal.

Definition read_kernel (fs : Fs) : PressureMetrics :=
  let or_zero o := default (f32 0) o in
  let mem_some := or_zero (parse_psi_avg10 fs "/proc/pressure/memory" "some") in
  let mem_full := or_zero (parse_psi_avg10 fs "/proc/pressure/memory" "full") in
  let cpu_some := or_zero (parse_psi_avg10 fs "/proc/pressure/cpu" "some") in
  let io_some := or_zero (parse_psi_avg10 fs "/proc/pressure/io" "some") in
  mkPressureMetrics mem_some mem_full cpu_some io_some
    (classify mem_some mem_full cpu_some io_some).

(** [read_current]: a simulated level of the task, then one of the environment,
    then the kernel's. *)
Definition read_current (simulated : option PressureLevel) (env : Env) (fs : Fs) :
    PressureMetrics :=
  match simulated with
  | Some sim_lvl => from_level sim_lvl
  | None =>
      match env "INFERENCED_SIMULATE_PSI" with
      | Some sim =>
          let sim_lower := to_ascii_lowercase sim in
          if String.eqb sim_lower "critical" then from_level Critical
          else if String.eqb sim_lower "elevated" then from_level Elevated
          else if String.eqb sim_lower "normal" then from_level Normal
          else read_kernel fs
      | None => read_kernel fs
      end
  end.

(** * Facts *)

Lemma from_level_level l : level (from_level l) = l.
Proof. by destruct l. Qed.

(** However the readings were obtained, simulated or from the kernel, the
    level is the one the thresholds give for the readings that go with it. *)
Theorem read_current_level_consistent simulated env fs :
  let m := read_current simulated env fs in
  level m = classify (memory_some_avg10 m) (memory_full_avg10 m)
              (cpu_some_avg10 m) (io_some_avg10 m).
Proof.
  assert (Hsim : ∀ l, level (from_level l) =
    classify (memory_some_avg10 (from_level l)) (memory_full_avg10 (from_level l))
      (cpu_some_avg10 (from_level l)) (io_some_avg10 (from_level l))).
  { by intros []; vm_compute. }
  unfold read_current. simpl. repeat case_match; auto; reflexivity.
Qed.

(** Without the kernel interface no pressure is reported. *)
Lemma read_current_no_psi env fs :
  env "INFERENCED_SIMULATE_PSI" = None → (∀ p, fs_exists fs p = false) →
  read_current None env fs = default_metrics.
Proof.
  intros Henv Hfs. unfold read_current. rewrite Henv.
  unfold read_kernel, parse_psi_avg10. rewrite !Hfs. reflexivity.
Qed.

(** * The kernel's files, printed and read

    The kernel prints [some avg10=%lu.%02lu avg60=..]: an average is a number of
    hundredths of a percent. *)

Definition digit (n : Z) : string := String (ascii_of_N (48 + Z.to_N n)) "".
Definition hundredths (m : Z) : string :=
  pretty (m / 100) +:+ "." +:+ digit (m mod 100 / 10) +:+ digit (m mod 10).
(** A line about the stalls of one kind; [tail] is what follows the average. *)
Definition stall_line (kind : string) (m : Z) (tail : string) : string :=
  kind +:+ " avg10=" +:+ hundredths m +:+ String " " tail.
Definition percent (m : Z) : Prop := 0 ≤ m ≤ 10000.

(** The code's thresholds, and how a printed average compares with them. *)
Definition thresholds : list Z := [10; 15; 20; 40; 50; 60].
Definition reads_exactly (m : Z) : bool :=
  match parse_f32 (hundredths m) with
  | Some x => forallb (λ t, Bool.eqb (f32_gtb x (f32 t)) (100 * t <? m)) thresholds
  | None => false
  end && string_forallb visible (hundredths m).

(** All of them: rounding to an [f32] moves no average across a threshold. *)
Lemma all_read_exactly m : percent m → reads_exactly m = true.
Proof.
  intros Hm. assert (forallb reads_exactly (seqZ 0 10001) = true) as Hall by (vm_compute; reflexivity).
  rewrite forallb_forall in Hall. apply Hall, list_elem_of_In, elem_of_seqZ.
  unfold percent in Hm. lia.
Qed.

Lemma reading_compares m :
  percent m → ∃ x, parse_f32 (hundredths m) = Some x ∧
    ∀ t, t ∈ thresholds → f32_gtb x (f32 t) = (100 * t <? m).
Proof.
  intros Hm. pose proof (all_read_exactly m Hm) as Hr. unfold reads_exactly in Hr.
  apply andb_true_iff in Hr as [Hr _]. destruct (parse_f32 (hundredths m)) as [x|]; [|done].
  exists x. split; [done|]. intros t Ht. rewrite forallb_forall in Hr.
  by apply Bool.eqb_prop, Hr, list_elem_of_In.
Qed.
Lemma hundredths_visible m : percent m → string_forallb visible (hundredths m) = true.
Proof.
  intros Hm. pose proof (all_read_exactly m Hm) as Hr. by apply andb_true_iff in Hr as [_ ?].
Qed.

Lemma visible_lacks c w : visible c = false → string_forallb visible w = true → lacks c w = true.
Proof.
  intros Hc. unfold lacks. induction w as [|a w IH]; [done|].
  simpl. intros [Ha Hw]%andb_true_iff. rewrite IH, andb_true_r by done.
  destruct (Ascii.eqb_spec a c) as [->|]; [by rewrite Ha in Hc|done].
Qed.

(** What is on a line of the kind asked for. *)
Lemma stall_line_parts kind m tail :
  kind ≠ "" → string_forallb visible kind = true → strip_prefix "avg10=" kind = None → percent m →
  avg10_of_parts (split_whitespace (stall_line kind m tail)) = Some (parse_f32 (hundredths m)).
Proof.
  intros Hne Hkind Hno Hm. unfold stall_line.
  change (" avg10=" +:+ hundredths m +:+ String " " tail)
    with (String " " ("avg10=" +:+ hundredths m +:+ String " " tail)).
  rewrite split_whitespace_cons, (assoc String.append "avg10=") by done.
  rewrite split_whitespace_cons.
  - cbn [avg10_of_parts]. by rewrite Hno, strip_prefix_app.
  - rewrite string_forallb_app, hundredths_visible by done. done.
  - done.
Qed.

Lemma stall_line_lacks c kind m tail :
  visible c = false → c ≠ " "%char → string_forallb visible kind = true → percent m →
  lacks c tail = true → lacks c (stall_line kind m tail) = true.
Proof.
  intros Hc Hsp Hkind Hm Ht. unfold stall_line.
  change (String " " tail) with (String " " "" +:+ tail).
  change (" avg10=" +:+ ?s) with (String " " "" +:+ "avg10=" +:+ s).
  assert (lacks c (String " " "") = true) as Hspace.
  { unfold lacks, string_forallb. by destruct (Ascii.eqb_spec " " c) as [<-|]. }
  by rewrite !lacks_app, Ht, Hspace, !(visible_lacks c) by (done || by apply hundredths_visible).
Qed.

(** The average of the first line of a kind. *)
Lemma avg10_here kind m tail rest :
  kind ≠ "" → string_forallb visible kind = true → strip_prefix "avg10=" kind = None → percent m →
  lacks newline tail = true → lacks carriage_return tail = true →
  avg10_of_lines kind (lines (stall_line kind m tail +:+ String newline rest))
  = parse_f32 (hundredths m).
Proof.
  intros Hne Hkind Hno Hm Hn Hr. rewrite lines_cons by by apply stall_line_lacks.
  cbn [avg10_of_lines]. rewrite stall_line_parts by done.
  assert (starts_with (stall_line kind m tail) kind = true) as ->; [|done].
  apply starts_with_true. by eexists.
Qed.

(** The levels, told from hundredths of a percent. *)
Definition level_of (mem_some mem_full cpu_some io_some : Z) : PressureLevel :=
  if (1000 <? mem_full) || (4000 <? mem_some) || (5000 <? io_some) then Critical
  else if (1500 <? mem_some) || (2000 <? io_some) || (6000 <? cpu_some) then Elevated
  else Normal.

(** The files of a kernel with these averages; each line and each file may go
    on in any way. *)
Definition prints (fs : Fs) (path content : string) : Prop :=
  fs_exists fs path = true ∧ fs_read fs path = Some content.
Definition tail_ok (tail : string) : Prop :=
  lacks newline tail = true ∧ lacks carriage_return tail = true.
Record kernel_prints (fs : Fs) (mem_some mem_full cpu_some io_some : Z) : Prop := {
  kp_percent : percent mem_some ∧ percent mem_full ∧ percent cpu_some ∧ percent io_some;
  kp_memory : ∃ t1 t2 rest, tail_ok t1 ∧ tail_ok t2 ∧ prints fs "/proc/pressure/memory"
    (stall_line "some" mem_some t1 +:+ String newline
       (stall_line "full" mem_full t2 +:+ String newline rest));
  kp_cpu : ∃ t rest, tail_ok t ∧
    prints fs "/proc/pressure/cpu" (stall_line "some" cpu_some t +:+ String newline rest);
  kp_io : ∃ t rest, tail_ok t ∧
    prints fs "/proc/pressure/io" (stall_line "some" io_some t +:+ String newline rest);
}.

(** C37: reading the kernel's pressure files loses nothing that matters: when no
    level is simulated, the level the daemon acts on is the one the thresholds
    written in psi.rs give (critical above 10 percent of full or 40 of some stall on
    memory or 50 of some on I/O, elevated above 15 on memory, 20 on I/O or 60 on
    the CPU) for the averages exactly as the kernel printed them, to the hundredth
    of a percent, although they pass through text and 32-bit floats, and whatever
    else the kernel prints. (The daemon does not read the thresholds of
    systemd/inferenced.conf, which differ.) *)
Theorem pressure_levels_exact env fs mem_some mem_full cpu_some io_some :
  env "INFERENCED_SIMULATE_PSI" = None →
  kernel_prints fs mem_some mem_full cpu_some io_some →
  level (read_current None env fs) = level_of mem_some mem_full cpu_some io_some.
Proof.
  intros Henv [(Hms & Hmf & Hc & Hi) (t1 & t2 & rest & [Hn1 Hr1] & [Hn2 Hr2] & Hex & Hread)
    (t3 & rest3 & [Hn3 Hr3] & Hex3 & Hread3) (t4 & rest4 & [Hn4 Hr4] & Hex4 & Hread4)].
  unfold read_current, read_kernel, parse_psi_avg10. rewrite Henv, Hex, Hex3, Hex4. cbn [negb].
  rewrite Hread, Hread3, Hread4. cbn [mbind option_bind].
  rewrite !avg10_here by done.
  assert (avg10_of_lines "full" (lines (stall_line "some" mem_some t1 +:+ String newline
    (stall_line "full" mem_full t2 +:+ String newline rest))) = parse_f32 (hundredths mem_full)) as ->.
  { rewrite lines_cons by by apply stall_line_lacks. cbn [avg10_of_lines].
    change (starts_with (stall_line "some" mem_some t1) "full") with false. by apply avg10_here. }
  destruct (reading_compares mem_some Hms) as (x1 & -> & H1).
  destruct (reading_compares mem_full Hmf) as (x2 & -> & H2).
  destruct (reading_compares cpu_some Hc) as (x3 & -> & H3).
  destruct (reading_compares io_some Hi) as (x4 & -> & H4).
  cbn [default from_option id level]. unfold classify.
  by rewrite (H2 10), (H1 40), (H4 50), (H1 15), (H4 20), (H3 60) by (unfold thresholds; set_solver).
Qed.

(** A kernel under some pressure. *)
Definition pressed : Fs :=
  let line kind m := stall_line kind m "avg60=1.00 avg300=0.25 total=1234567" +:+ String newline "" in
  snapshot [("/proc/pressure/memory", line "some" 1501 +:+ line "full" 1000);
            ("/proc/pressure/cpu", line "some" 217); ("/proc/pressure/io", line "some" 0)] [].
Lemma pressure_levels_exact_witness :
  level (read_current None (λ _, None) pressed) = level_of 1501 1000 217 0.
Proof.
  apply pressure_levels_exact; [reflexivity|].
  split; [by unfold percent|..]; eexists "avg60=1.00 avg300=0.25 total=1234567".
  - eexists "avg60=1.00 avg300=0.25 total=1234567", ""; repeat split.
  - exists ""; repeat split.
  - exists ""; repeat split.
Defined.
Example pressed_elevated : level (read_current None (λ _, None) pressed) = Elevated.
Proof. vm_compute. reflexivity. Qed.
