(* ===== verification/Arbiter.v ===== *)
(** The arbiter of compute leases: crates/inferenced-core/src/arbiter.rs. *)
From Stdlib Require Import SpecFloat.
From S2P Require Import Prelude Lease Errors Topology Model Psi.
Local Open Scope Z_scope.

Record ArbiterState := mkArbiterState {
  topology : HardwareTopology;
  leases : gmap LeaseId ComputeLease;
  registry : ModelRegistry;
}.

(** [Arbiter::new] *)
Definition new_arbiter (topo : HardwareTopology) : ArbiterState :=
  mkArbiterState topo ∅ new_registry.

(** The calls into the freezer whose results the arbiter drops. *)
Inductive FreezerCall :=
  | CooperativeYield (pid : Z)
  | FreezeCgroup (unit : string).

Definition Arb (A : Type) : Type := eff ArbiterState FreezerCall Error A.

Definition planes (s : ArbiterState) : list ComputePlane := t_planes (topology s).
Definition with_planes (ps : list ComputePlane) (s : ArbiterState) : ArbiterState :=
  mkArbiterState (set_planes ps (topology s)) (leases s) (registry s).
Definition with_leases (ls : gmap LeaseId ComputeLease) (s : ArbiterState) : ArbiterState :=
  mkArbiterState (topology s) ls (registry s).
Definition with_registry (r : ModelRegistry) (s : ArbiterState) : ArbiterState :=
  mkArbiterState (topology s) (leases s) r.

(** * Memory of planes *)

(** [x.available_memory_bytes = x.available_memory_bytes.saturating_sub(bytes)] *)
Definition debit (bytes : Z) (p : ComputePlane) : ComputePlane :=
  set_available (saturating_sub (p_available_memory_bytes p) bytes) p.

(** [x.available_memory_bytes = (x.available_memory_bytes + bytes).min(x.total_memory_bytes)] *)
Definition credit (bytes : Z) (p : ComputePlane) : ComputePlane :=
  set_available
    (Z.min (wrapping_add (p_available_memory_bytes p) bytes) (p_total_memory_bytes p)) p.

(** [.find(|p| p.id == id).map(|p| p.kind == IntegratedUma).unwrap_or(false)] *)
Definition plane_is_uma (ps : list ComputePlane) (id : string) : bool :=
  match find_first (has_id id) ps with Some p => is_uma p | None => false end.

Definition restore_plane_memory (ps : list ComputePlane) (plane_id : string) (bytes : Z) :
    list ComputePlane :=
  let uma := plane_is_uma ps plane_id in
  let ps := update_first (has_id plane_id) (credit bytes) ps in
  if uma then update_first is_cpu (credit bytes) ps else ps.

(** The planes after granting [bytes] on the plane at [idx]. *)
Definition charge_plane (ps : list ComputePlane) (idx : nat) (bytes : Z) :
    list ComputePlane :=
  let uma := match ps !! idx with Some p => is_uma p | None => false end in
  let ps := alter (debit bytes) idx ps in
  if uma then update_first is_cpu (debit bytes) ps else ps.

(** * Topology updates *)

(** One round of the loop over the leases: the new planes and the lease. *)
Definition recharge_lease (ps : list ComputePlane) (lease : ComputeLease) :
    list ComputePlane * ComputeLease :=
  if is_active lease then
    match find_first (has_id (l_plane_id lease)) ps with
    | Some plane =>
        let bytes := l_allocated_memory_bytes lease in
        let ps' := update_first (has_id (l_plane_id lease)) (debit bytes) ps in
        (if is_uma plane then update_first is_cpu (debit bytes) ps' else ps', lease)
    | None => (ps, set_state Revoked lease)
    end
  else if bool_decide (l_state lease = Preempted)
          && negb (existsb (has_id (l_plane_id lease)) ps)
  then (ps, set_state Revoked lease)
  else (ps, lease).

(** The loop [for lease in state.leases.values_mut()]. *)
Fixpoint recharge_leases (ps : list ComputePlane) (ls : gmap LeaseId ComputeLease)
    (order : list LeaseId) : list ComputePlane * gmap LeaseId ComputeLease :=
  match order with
  | [] => (ps, ls)
  | id :: order' =>
      match ls !! id with
      | Some lease =>
          let '(ps', lease') := recharge_lease ps lease in
          recharge_leases ps' (<[id := lease']> ls) order'
      | None => recharge_leases ps ls order'
      end
  end.

Section operations.
Context {ho : HashOrder LeaseId ComputeLease}.

Definition update_topology (topo : HardwareTopology) (s : ArbiterState) : ArbiterState :=
  let '(ps, ls) := recharge_leases (t_planes topo) (leases s) (hash_iter (leases s)).*1 in
  mkArbiterState (set_planes ps topo) ls (registry s).

(** * Granting a lease *)

Definition is_critical (psi : PressureMetrics) : bool := bool_decide (level psi = Critical).
Definition is_emergency (pr : LeasePriority) : bool := bool_decide (pr = EmergencyTriage).

(** The index of the target plane. *)
Definition select_plane (ps : list ComputePlane) (priority : LeasePriority)
    (preferred_plane : option string) : result Error nat :=
  let index_by_max key l := fst <$> max_by_key (λ ip : nat * ComputePlane, key ip.2) l in
  match preferred_plane with
  | Some pref => ok_or (position (has_id pref) ps) (PlaneNotFound pref)
  | None =>
      if is_emergency priority then
        let found :=
          match position p_is_triage_reserved ps with
          | Some i => Some i
          | None =>
              match position is_cpu ps with
              | Some i => Some i
              | None => index_by_max p_total_memory_bytes (imap pair ps)
              end
          end in
        ok_or found (PlaneNotFound "No suitable compute plane for emergency triage")
      else
        let usable (ip : nat * ComputePlane) :=
          negb (p_is_quarantined ip.2)
          && (negb (p_is_triage_reserved ip.2) || is_emergency priority) in
        ok_or (index_by_max p_available_memory_bytes (List.filter usable (imap pair ps)))
          (PlaneNotFound "No available compute plane found")
  end.

(** The leases that may be preempted, lowest priority first. *)
Definition preemptable_on (plane_id : string) (priority : LeasePriority) (l : ComputeLease) :
    bool :=
  bool_decide (l_plane_id l = plane_id) && is_active l
  && (priority_rank (l_priority l) <? priority_rank priority).

(** [Option<LeasePriority>] as a sort key: [None] comes first. *)
Definition option_rank (o : option LeasePriority) : Z :=
  match o with Some p => priority_rank p | None => -1 end.

Definition preemptable (ls : gmap LeaseId ComputeLease) (plane_id : string)
    (priority : LeasePriority) : list LeaseId :=
  let ids := l_id <$> List.filter (preemptable_on plane_id priority) (hash_iter ls).*2 in
  sort_by_key (λ id, option_rank (l_priority <$> ls !! id)) ids.

(** The plane [ps[idx]]; [idx] comes from [select_plane], so the source's
    indexing does not panic ([select_plane_in_range] below). *)
Definition available_at (ps : list ComputePlane) (idx : nat) : Z :=
  match ps !! idx with Some p => p_available_memory_bytes p | None => 0 end.
Definition id_at (ps : list ComputePlane) (idx : nat) : string :=
  match ps !! idx with Some p => p_id p | None => "" end.

(** The preemption loop: planes, leases and the clients to freeze. *)
Fixpoint preempt_loop (idx : nat) (plane_id : string) (required_bytes : Z)
    (candidates : list LeaseId) (ps : list ComputePlane) (ls : gmap LeaseId ComputeLease) :
    list ComputePlane * gmap LeaseId ComputeLease * list (option Z * option string) :=
  match candidates with
  | [] => (ps, ls, [])
  | pid :: candidates' =>
      if required_bytes <=? available_at ps idx then (ps, ls, [])
      else match ls !! pid with
           | Some lease =>
               let '(ps', ls', frozen) :=
                 preempt_loop idx plane_id required_bytes candidates'
                   (restore_plane_memory ps plane_id (l_allocated_memory_bytes lease))
                   (<[pid := set_state Preempted lease]> ls) in
               (ps', ls', (l_client_pid lease, l_client_unit lease) :: frozen)
           | None => preempt_loop idx plane_id required_bytes candidates' ps ls
           end
  end.

Definition freezer_calls (client : option Z * option string) : list FreezerCall :=
  option_list (CooperativeYield <$> client.1) ++ option_list (FreezeCgroup <$> client.2).

(** Make room on the target plane: what runs when it lacks memory. *)
Definition reclaim (idx : nat) (priority : LeasePriority) (required_bytes : Z) : Arb unit :=
  (let! s := eget in
   let plane_id := id_at (planes s) idx in
   if available_at (planes s) idx <? required_bytes then
     let '(ps, ls, to_freeze) :=
       preempt_loop idx plane_id required_bytes
         (preemptable (leases s) plane_id priority) (planes s) (leases s) in
     eput (with_leases ls (with_planes ps s)) ;!
     (if (available_at ps idx <? required_bytes) && negb (is_emergency priority) then
        ethrow (ResourceExhaustion plane_id required_bytes (available_at ps idx))
      else etell (mjoin (freezer_calls <$> to_freeze)))
   else eret tt)%eff.

(** [leases.retain(..)] beyond 128 entries *)
Definition sweep_leases (ls : gmap LeaseId ComputeLease) : gmap LeaseId ComputeLease :=
  if (128 <? Z.of_nat (size ls))
  then filter (λ kl, is_active kl.2 || bool_decide (l_state kl.2 = Preempted) = true) ls
  else ls.

(** [acquire_lease]; the pressure readings, the clock and the fresh UUID are
    the arguments [psi], [now] and [fresh]. *)
Definition acquire_lease (psi : PressureMetrics) (now : Z) (fresh : LeaseId)
    (priority : LeasePriority) (required_bytes : Z) (preferred_plane : option string)
    (client_unit : option string) (client_pid : option Z) : Arb ComputeLease :=
  (if is_critical psi && negb (is_emergency priority) then
     ethrow (BusSaturation (memory_some_avg10 psi) (memory_full_avg10 psi))
   else
     let! s := eget in
     let! idx := elift (select_plane (planes s) priority preferred_plane) in
     let target_plane_id := id_at (planes s) idx in
     reclaim idx priority required_bytes ;!
     emodify (λ s, with_leases (sweep_leases (leases s)) s) ;!
     emodify (λ s, with_planes (charge_plane (planes s) idx required_bytes) s) ;!
     let lease :=
       new_lease fresh now target_plane_id required_bytes priority client_unit client_pid in
     emodify (λ s, with_leases (<[l_id lease := lease]> (leases s)) s) ;!
     eret lease)%eff.

Definition request_lease (psi : PressureMetrics) (now : Z) (fresh : LeaseId)
    (req : LeaseRequest) : Arb ComputeLease :=
  acquire_lease psi now fresh (r_priority req) (r_required_bytes req)
    (r_preferred_plane req) (r_client_unit req) (r_client_pid req).

Definition list_leases (s : ArbiterState) : list ComputeLease := (hash_iter (leases s)).*2.
End operations.

(** * Ending and suspending a lease *)

(** [leases.get_mut(&lease_id).ok_or_else(|| Error::LeaseNotFound(..))?] *)
Definition get_lease_or_fail (id : LeaseId) : Arb ComputeLease :=
  (let! s := eget in elift (ok_or (leases s !! id) (LeaseNotFound id)))%eff.

(** [lease.state = st], through the reference into the map *)
Definition store_state (id : LeaseId) (lease : ComputeLease) (st : LeaseState) : Arb unit :=
  emodify (λ s, with_leases (<[id := set_state st lease]> (leases s)) s).

Definition release_lease (id : LeaseId) : Arb unit :=
  (let! lease := get_lease_or_fail id in
   if negb (is_active lease) && negb (bool_decide (l_state lease = Preempted)) then eret tt
   else
     store_state id lease Expired ;!
     if is_active lease then
       emodify (λ s, with_planes
         (restore_plane_memory (planes s) (l_plane_id lease) (l_allocated_memory_bytes lease)) s)
     else eret tt)%eff.

Definition revoke_lease (id : LeaseId) : Arb unit :=
  (let! lease := get_lease_or_fail id in
   if negb (is_active lease) && negb (bool_decide (l_state lease = Preempted)) then eret tt
   else
     store_state id lease Revoked ;!
     if is_active lease then
       emodify (λ s, with_planes
         (restore_plane_memory (planes s) (l_plane_id lease) (l_allocated_memory_bytes lease)) s)
     else eret tt)%eff.

Definition yield_lease (id : LeaseId) : Arb unit :=
  (let! lease := get_lease_or_fail id in
   if negb (is_active lease) then eret tt else store_state id lease Preempting)%eff.

Definition freeze_lease (id : LeaseId) : Arb unit :=
  (let! lease := get_lease_or_fail id in
   if negb (is_active lease) then eret tt else store_state id lease Frozen)%eff.

(** The memory test of [thaw_lease]: the plane, and the host memory behind a
    unified-memory plane. *)
Definition thaw_check (ps : list ComputePlane) (plane_id : string) (req : Z) :
    result Error unit :=
  let uma := plane_is_uma ps plane_id in
  match find_first (has_id plane_id) ps with
  | None => Err (PlaneNotFound plane_id)
  | Some plane =>
      if p_available_memory_bytes plane <? req
      then Err (ResourceExhaustion plane_id req (p_available_memory_bytes plane))
      else if uma then
        match find_first is_cpu ps with
        | Some cpu =>
            if p_available_memory_bytes cpu <? req
            then Err (ResourceExhaustion (p_id cpu) req (p_available_memory_bytes cpu))
            else Ok tt
        | None => Ok tt
        end
      else Ok tt
  end.

(** The debits of [thaw_lease]. *)
Definition thaw_charge (ps : list ComputePlane) (plane_id : string) (req : Z) :
    list ComputePlane :=
  let uma := plane_is_uma ps plane_id in
  let ps := update_first (has_id plane_id) (debit req) ps in
  if uma then update_first is_cpu (debit req) ps else ps.

Definition thaw_lease (id : LeaseId) : Arb unit :=
  (let! lease := get_lease_or_fail id in
   match l_state lease with
   | Preempted =>
       let req := l_allocated_memory_bytes lease in
       let! s := eget in
       elift (thaw_check (planes s) (l_plane_id lease) req) ;!
       emodify (λ s, with_planes (thaw_charge (planes s) (l_plane_id lease) req) s) ;!
       store_state id lease Active
   | Frozen | Preempting => store_state id lease Active
   | _ => eret tt
   end)%eff.

(** * The registry behind the same lock, and the readers *)

Definition register_model {ho : HashOrder string ModelDescriptor} (desc : ModelDescriptor)
    (s : ArbiterState) : ArbiterState :=
  with_registry (register desc (registry s)) s.

Definition list_models {ho : HashOrder string ModelDescriptor} (s : ArbiterState) :
    list ModelDescriptor := list_registry (registry s).

Definition arbiter_get_model (id : string) (s : ArbiterState) : option ModelDescriptor :=
  get_model id (registry s).

Definition arbiter_remove_model (id : string) (s : ArbiterState) :
    option ModelDescriptor * ArbiterState :=
  let '(m, r) := remove_model id (registry s) in (m, with_registry r s).

Definition pin_model_for_triage (id plane_id : string) (s : ArbiterState) :
    bool * ArbiterState :=
  let '(b, r) := pin_for_triage id plane_id (registry s) in (b, with_registry r s).

Definition get_topology (s : ArbiterState) : HardwareTopology := topology s.
Definition get_registry (s : ArbiterState) : ModelRegistry := registry s.
Definition get_lease (id : LeaseId) (s : ArbiterState) : option ComputeLease := leases s !! id.
