(* ===== verification/Discovery.v ===== *)
(** Discovery of the hardware: topology/cpu.rs, drm.rs, npu.rs, pstore.rs and
    mod.rs of crates/inferenced-core/src. The machine is the snapshot [fs]. *)
From S2P Require Import Prelude Topology Text Host.
Local Open Scope Z_scope.

(** * The processor: cpu.rs *)

Definition parse_kb (rest : string) : Z :=
  match split_whitespace (trim rest) with
  | [] => 0
  | v :: _ => match parse_u64 v with Some kb => wrapping_mul kb 1024 | None => 0 end
  end.

(** The loop over the lines; the last matching line wins. *)
Fixpoint meminfo_of_lines (ls : list string) (total avail : Z) : Z * Z :=
  match ls with
  | [] => (total, avail)
  | line :: ls' =>
      match strip_prefix "MemTotal:" line with
      | Some rest => meminfo_of_lines ls' (parse_kb rest) avail
      | None =>
          match strip_prefix "MemAvailable:" line with
          | Some rest => meminfo_of_lines ls' total (parse_kb rest)
          | None => meminfo_of_lines ls' total avail
          end
      end
  end.

Definition read_meminfo_from (fs : Fs) (path : string) : Z * Z :=
  match fs_read fs path with
  | None => (0, 0)
  | Some content => meminfo_of_lines (lines content) 0 0
  end.

Definition is_node_name (name : string) : bool :=
  match from_utf8 name with
  | None => false
  | Some s =>
      match strip_prefix "node" s with
      | Some rest => string_forallb is_ascii_digit rest
      | None => false
      end
  end.

Definition count_numa_nodes (fs : Fs) (sysfs_node_path : string) : Z :=
  if negb (fs_exists fs sysfs_node_path) then 1
  else match fs_read_dir fs sysfs_node_path with
       | None => 1
       | Some entries =>
           let count := Z.of_nat (length (List.filter is_node_name entries)) in
           if count =? 0 then 1 else count
       end.

Definition detect_cpu_features (fs : Fs) (cpuinfo_path : string) : bool * bool * bool :=
  match fs_read fs cpuinfo_path with
  | None => (false, false, false)
  | Some content =>
      match find_first (λ l, starts_with l "flags" || starts_with l "Features") (lines content) with
      | None => (false, false, false)
      | Some line =>
          (contains line "amx", contains line "avx512_vnni" || contains line "avx512vnni",
           contains line "avx2")
      end
  end.

Definition count_cpu_cores (fs : Fs) (cpuinfo_path : string) : Z :=
  match fs_read fs cpuinfo_path with
  | None => 1
  | Some content =>
      let count :=
        Z.of_nat (length (List.filter (λ l, starts_with l "processor") (lines content))) in
      if count =? 0 then 1 else count
  end.

(** A natural number rounded to 53 significant bits, ties to even: the value
    of the conversion [as f64] and of the operations on [f64]. *)
Definition round53 (x : Z) : Z :=
  let k := Z.log2 x - 52 in
  if k <=? 0 then x
  else
    let q := Z.shiftr x k in
    let r := x - Z.shiftl q k in
    let half := Z.shiftl 1 (k - 1) in
    if (half <? r) || ((r =? half) && Z.odd q) then Z.shiftl (q + 1) k else Z.shiftl q k.

(** [(avail as f64 * 0.75) as u64]: the product is computed in quarters, which
    rounds alike since rounding to significant bits commutes with scaling by
    powers of two; the conversion back truncates. *)
Definition three_quarters (avail : Z) : Z := round53 (3 * round53 avail) / 4.

Definition opt_feature (b : bool) (f : string) : list string := if b then [f] else [].

Definition build_cpu_plane (fs : Fs) (cpuinfo_path : string) (avail_ram : Z) : ComputePlane :=
  let cores := count_cpu_cores fs cpuinfo_path in
  let '(has_amx, has_vnni, has_avx2) := detect_cpu_features fs cpuinfo_path in
  let features :=
    opt_feature has_amx "Intel-AMX" ++ opt_feature has_vnni "AVX512-VNNI"
    ++ opt_feature has_avx2 "AVX2-FMA" ++ [pretty cores +:+ "-cores"] in
  {| p_id := "cpu-host";
     p_name := "Host CPU SIMD/Matrix Plane";
     p_kind := CpuMatrixExtension;
     p_device_path := None;
     p_total_memory_bytes := avail_ram;
     p_available_memory_bytes := three_quarters avail_ram;
     p_numa_node := Some 0;
     p_supported_formats := ["GGUF"; "INT4"; "INT8"; "FP32"];
     p_is_triage_reserved := false;
     p_is_quarantined := false;
     p_hardware_features := features |}.

(** * Graphics devices: drm.rs *)

Section discovery.
Context {uc : Unicode}.

Definition vendor_name (vendor : string) : string :=
  if String.eqb vendor "0x10de" then "NVIDIA Corporation"
  else if String.eqb vendor "0x1002" then "Advanced Micro Devices [AMD/ATI]"
  else if String.eqb vendor "0x8086" then "Intel Corporation"
  else if String.eqb vendor "0x17cb" then "Qualcomm Technologies"
  else "Direct Rendering Accelerator".

Definition inspect_drm_sysfs (fs : Fs) (sysfs_card : string) (total_system_ram : Z) :
    string * bool * Z :=
  let device_dir := path_join sysfs_card "device" in
  let vendor :=
    match fs_read fs (path_join device_dir "vendor") with
    | Some v => to_lowercase (trim v)
    | None => ""
    end in
  let vram :=
    vram_str ← fs_read fs (path_join device_dir "mem_info_vram_total");
    vram_bytes ← parse_u64 (trim vram_str);
    if 0 <? vram_bytes then Some vram_bytes else None in
  match vram with
  | Some vram_bytes => (vendor_name vendor, false, vram_bytes)
  | None =>
      (vendor_name vendor, String.eqb vendor "0x8086" || is_empty vendor,
       Z.max (total_system_ram / 2) (1024 * 1024 * 1024))
  end.

Definition drm_plane (fs : Fs) (dri_dir sysfs_drm_dir : string) (total_ram avail_ram : Z)
    (entry : string) : option ComputePlane :=
  let fname := to_string_lossy entry in
  if starts_with fname "renderD" then
    let '(vendor, is_integrated, vram_total) :=
      inspect_drm_sysfs fs (path_join sysfs_drm_dir fname) total_ram in
    Some {| p_id := "drm-" +:+ fname;
            p_name := vendor +:+ " (" +:+ fname +:+ ")";
            p_kind := if is_integrated then IntegratedUma else DiscreteGpu;
            p_device_path := Some (path_join dri_dir entry);
            p_total_memory_bytes := vram_total;
            p_available_memory_bytes :=
              if is_integrated then Z.min avail_ram vram_total else vram_total;
            p_numa_node := None;
            p_supported_formats := ["FP16"; "BF16"; "FP8"; "INT4"; "GGUF"];
            p_is_triage_reserved := false;
            p_is_quarantined := false;
            p_hardware_features := ["drm-gem"; "vram-managed"] |}
  else None.

Definition discover_drm_planes (fs : Fs) (dri_dir sysfs_drm_dir : string)
    (total_ram avail_ram : Z) : list ComputePlane :=
  if negb (fs_exists fs dri_dir) then []
  else match fs_read_dir fs dri_dir with
       | None => []
       | Some entries => omap (drm_plane fs dri_dir sysfs_drm_dir total_ram avail_ram) entries
       end.

(** * Neural accelerators: npu.rs *)

Definition npu_plane (accel_dir entry : string) : option ComputePlane :=
  let name := to_string_lossy entry in
  if starts_with name "accel" then
    Some {| p_id := "npu-" +:+ name;
            p_name := "Linux Compute Accelerator (" +:+ name +:+ ")";
            p_kind := NpuAccelerator;
            p_device_path := Some (path_join accel_dir entry);
            p_total_memory_bytes := 4 * 1024 * 1024 * 1024;
            p_available_memory_bytes := 4 * 1024 * 1024 * 1024;
            p_numa_node := None;
            p_supported_formats := ["INT8"; "FP8"; "INT4"; "ONNX"];
            p_is_triage_reserved := false;
            p_is_quarantined := false;
            p_hardware_features := ["low-power"; "sram-scratchpad"; "accel-subsystem"] |}
  else None.

Definition hailo_plane (hailo_dev : string) : ComputePlane :=
  {| p_id := "npu-hailo0";
     p_name := "Hailo AI Accelerator";
     p_kind := NpuAccelerator;
     p_device_path := Some hailo_dev;
     p_total_memory_bytes := 2 * 1024 * 1024 * 1024;
     p_available_memory_bytes := 2 * 1024 * 1024 * 1024;
     p_numa_node := None;
     p_supported_formats := ["HEF"; "INT8"];
     p_is_triage_reserved := false;
     p_is_quarantined := false;
     p_hardware_features := ["26-tops"; "pcie-edge"] |}.

Definition discover_npu_planes (fs : Fs) (accel_dir hailo_dev : string) : list ComputePlane :=
  (if fs_exists fs accel_dir
   then match fs_read_dir fs accel_dir with
        | Some entries => omap (npu_plane accel_dir) entries
        | None => []
        end
   else [])
  ++ (if fs_exists fs hailo_dev then [hailo_plane hailo_dev] else []).

(** * Crash records: pstore.rs *)

Record PstoreAudit := mkPstoreAudit {
  quarantined_drivers : list string;
  panic_count : Z;
  has_unarchived_pstore : bool;
}.

(** The driver a line of a crash log incriminates. *)
Definition crash_signature (line : string) : option string :=
  if contains line "amdgpu_job_timedout" || contains line "amdgpu: GPU reset" then Some "amdgpu"
  else if contains line "xe: GPU reset" || contains line "xe 0000:" then Some "xe"
  else if contains line "drm/i915: GPU HANG" || contains line "i915: Resetting chip"
       then Some "i915"
  else if contains line "NVRM: Xid" || contains line "fallen off the bus" then Some "nvidia"
  else if contains line "hailo: device reset failed" || contains line "hailo0: timeout"
       then Some "hailo"
  else None.

Fixpoint scan_file_for_gpu_hangs (ls : list string) (quarantined : gset string) : gset string :=
  match ls with
  | [] => quarantined
  | line :: ls' =>
      scan_file_for_gpu_hangs ls'
        (match crash_signature line with Some d => {[d]} ∪ quarantined | None => quarantined end)
  end.

(** The accumulator of the loops: drivers, crash logs opened, unarchived. *)
Definition pstore_acc : Type := gset string * Z * bool.

Definition scan_entry (fs : Fs) (path entry : string) (acc : pstore_acc) : pstore_acc :=
  let '(quarantined, count, unarchived) := acc in
  let file_name := to_string_lossy entry in
  if starts_with file_name "dmesg-" || starts_with file_name "console-" then
    let unarchived := unarchived || contains (to_string_lossy path) "/sys/fs/pstore" in
    match fs_open_lines fs (path_join path entry) with
    | Some ls => (scan_file_for_gpu_hangs ls quarantined, count + 1, unarchived)
    | None => (quarantined, count, unarchived)
    end
  else acc.

Definition scan_directory (fs : Fs) (acc : pstore_acc) (path : string) : pstore_acc :=
  if negb (fs_exists fs path) || negb (fs_is_dir fs path) then acc
  else match fs_read_dir fs path with
       | None => acc
       | Some entries => foldl (λ acc entry, scan_entry fs path entry acc) acc entries
       end.

Definition analyze_directories (fs : Fs) (paths : list string) : PstoreAudit :=
  let '(quarantined, count, unarchived) := foldl (scan_directory fs) (∅, 0, false) paths in
  mkPstoreAudit (merge_sort String.le (elements quarantined)) count unarchived.

Definition pstore_read_default (fs : Fs) : PstoreAudit :=
  analyze_directories fs ["/sys/fs/pstore"; "/var/lib/systemd/pstore"].

(** * The whole topology: mod.rs *)

Definition incriminated (drivers : list string) (p : ComputePlane) : bool :=
  existsb (λ d, contains (to_lowercase (p_id p)) d || contains (to_lowercase (p_name p)) d)
    drivers.

Definition quarantine (drivers : list string) (p : ComputePlane) : ComputePlane :=
  if incriminated drivers p then set_quarantined true p else p.

Definition discovered_planes (fs : Fs) (total_ram avail_ram : Z) : list ComputePlane :=
  discover_npu_planes fs "/dev/accel" "/dev/hailo0"
  ++ discover_drm_planes fs "/dev/dri" "/sys/class/drm" total_ram avail_ram
  ++ [build_cpu_plane fs "/proc/cpuinfo" avail_ram].

Definition discover (fs : Fs) : HardwareTopology :=
  let '(total_ram, avail_ram) := read_meminfo_from fs "/proc/meminfo" in
  let cpu_cores := count_cpu_cores fs "/proc/cpuinfo" in
  let numa_nodes := count_numa_nodes fs "/sys/devices/system/node" in
  let planes := discovered_planes fs total_ram avail_ram in
  let audit := pstore_read_default fs in
  let planes := quarantine (quarantined_drivers audit) <$> planes in
  let planes := (assign_triage_enclave planes).1 in
  mkHardwareTopology planes total_ram avail_ram cpu_cores numa_nodes.
End discovery.

(** * Facts *)

Section rounding.
(** Rounding to 53 bits moves a number up by at most one part in 2^53. *)
Lemma round53_upper x : 0 ≤ x → 0 ≤ round53 x ∧ round53 x * 2 ^ 53 ≤ x * (2 ^ 53 + 1).
Proof.
  intros Hx. unfold round53. set (k := Z.log2 x - 52).
  destruct (Z.leb_spec k 0) as [|Hk]; [lia|].
  assert (0 < x) as Hpos. { destruct (Z.eq_dec x 0) as [->|]; [done|lia]. }
  assert (Hlog : 2 ^ (k + 52) ≤ x).
  { replace (k + 52) with (Z.log2 x) by lia. by apply Z.log2_spec. }
  rewrite Z.shiftr_div_pow2, !Z.shiftl_mul_pow2 by lia.
  assert (Hhalf : 2 ^ k = 2 * 2 ^ (k - 1)) by (rewrite <-Z.pow_succ_r by lia; f_equal; lia).
  assert (Hk52 : 2 ^ (k + 52) = 2 ^ (k - 1) * 2 ^ 53)
    by (rewrite <-Z.pow_add_r by lia; f_equal; lia).
  set (h := 2 ^ (k - 1)) in *. assert (0 < h) by (apply Z.pow_pos_nonneg; lia).
  rewrite Hhalf, Z.mul_1_l. pose proof (Z.div_mod x (2 * h) ltac:(lia)).
  pose proof (Z.mod_pos_bound x (2 * h) ltac:(lia)).
  pose proof (Z.div_pos x (2 * h) ltac:(lia) ltac:(lia)).
  set (q := x / (2 * h)) in *. set (r := x mod (2 * h)) in *.
  destruct ((h <? x - q * (2 * h)) || _) eqn:Hup.
  - assert (h ≤ r).
    { reflect_bools. destruct Hup as [Hup|Hup]; reflect_bools; lia. }
    change (2 ^ 53) with 9007199254740992 in *. nia.
  - change (2 ^ 53) with 9007199254740992 in *. nia.
Qed.

Lemma three_quarters_le x : 0 ≤ x → 0 ≤ three_quarters x ≤ x.
Proof.
  intros Hx. unfold three_quarters.
  destruct (round53_upper x Hx) as [Hn Hu].
  destruct (round53_upper (3 * round53 x) ltac:(lia)) as [Hn' Hu'].
  set (y := round53 x) in *. set (z := round53 (3 * y)) in *.
  change (2 ^ 53) with 9007199254740992 in *.
  split; [apply Z.div_pos; lia|]. apply Z.div_le_upper_bound; nia.
Qed.
End rounding.

Section discovered.
Context {uc : Unicode}.
Implicit Types (fs : Fs) (p : ComputePlane).

Lemma meminfo_bounds ls total avail :
  is_u64 total → is_u64 avail →
  is_u64 (meminfo_of_lines ls total avail).1 ∧ is_u64 (meminfo_of_lines ls total avail).2.
Proof.
  assert (Hkb : ∀ s, is_u64 (parse_kb s)).
  { intros s. unfold parse_kb. destruct (split_whitespace _) as [|v ?]; [done|].
    destruct (parse_u64 v); [apply wrapping_mul_is_u64|done]. }
  revert total avail. induction ls as [|line ls IH]; intros total avail Ht Ha; simpl; [done|].
  destruct (strip_prefix "MemTotal:" line); [by apply IH|].
  destruct (strip_prefix "MemAvailable:" line); by apply IH.
Qed.

Lemma read_meminfo_bounds fs path :
  is_u64 (read_meminfo_from fs path).1 ∧ is_u64 (read_meminfo_from fs path).2.
Proof.
  unfold read_meminfo_from. destruct (fs_read fs path); [|done].
  by apply meminfo_bounds.
Qed.

Lemma drm_plane_ok fs dri sysfs total avail entry p :
  is_u64 total → is_u64 avail →
  drm_plane fs dri sysfs total avail entry = Some p →
  plane_ok p ∧ p_id p = "drm-" +:+ to_string_lossy entry ∧
  p_is_quarantined p = false ∧ p_is_triage_reserved p = false ∧ is_npu p = false.
Proof.
  intros Ht Ha. unfold drm_plane.
  destruct (starts_with _ _); [|done].
  destruct (inspect_drm_sysfs _ _ _) as [[v i] m] eqn:Hin.
  assert (is_u64 m) as Hm.
  { unfold inspect_drm_sysfs in Hin.
    destruct (fs_read fs (path_join _ "mem_info_vram_total")) as [vs|]; simpl in Hin.
    - destruct (parse_u64 (trim vs)) as [n|] eqn:Hn; simpl in Hin.
      + destruct (0 <? n); simplify_eq; [by eapply parse_u64_bounds|u64_lia].
      + simplify_eq. u64_lia.
    - simplify_eq. u64_lia. }
  intros [= <-]. split_and!; try done.
  - unfold plane_ok; simpl. unfold is_u64 in *. destruct i; lia.
  - unfold is_npu; simpl. destruct i; by apply bool_decide_eq_false.
Qed.

Lemma npu_plane_ok dir entry p :
  npu_plane dir entry = Some p →
  plane_ok p ∧ p_id p = "npu-" +:+ to_string_lossy entry ∧
  starts_with (to_string_lossy entry) "accel" = true ∧
  p_is_quarantined p = false ∧ p_is_triage_reserved p = false.
Proof.
  unfold npu_plane. destruct (starts_with _ _) eqn:Hs; [|done]. intros [= <-].
  by split_and!.
Qed.

Lemma Forall_omap {A B} (f : A → option B) (Q : B → Prop) xs :
  (∀ x y, x ∈ xs → f x = Some y → Q y) → Forall Q (omap f xs).
Proof.
  intros Hf. apply Forall_forall. intros y (x & Hx & Hy)%list_elem_of_omap. eauto.
Qed.

(** What the kernel guarantees of a directory of device nodes. *)
Definition names_ok fs (dir : string) : Prop :=
  ∀ entries, fs_read_dir fs dir = Some entries →
    NoDup entries ∧ Forall (λ e, utf8_from [] e = true) entries.

Lemma NoDup_omap_ids (f : string → option ComputePlane) (pre : string) entries :
  NoDup entries →
  (∀ e p, e ∈ entries → f e = Some p → p_id p = pre +:+ e) →
  NoDup (p_id <$> omap f entries).
Proof.
  induction entries as [|e entries IH]; intros Hnd Hf; [constructor|].
  apply NoDup_cons in Hnd as [He Hnd]. rewrite omap_cons.
  assert (NoDup (p_id <$> omap f entries)) as Hrest.
  { apply IH; [done|]. intros e' p He'. apply Hf. by right. }
  destruct (f e) as [p|] eqn:Hp; [|done].
  rewrite fmap_cons. apply NoDup_cons. split; [|done].
  rewrite (Hf e p) by (left || done).
  intros (q & Hq & (e' & He' & Hq')%list_elem_of_omap)%list_elem_of_fmap.
  rewrite (Hf e' q) in Hq by (done || by right).
  assert (e = e') as -> by (by eapply (inj (String.append pre))). done.
Qed.

Lemma discover_npu_ok fs :
  names_ok fs "/dev/accel" →
  let ps := discover_npu_planes fs "/dev/accel" "/dev/hailo0" in
  Forall (λ p, plane_ok p ∧ is_npu p = true ∧ p_is_quarantined p = false ∧
    p_is_triage_reserved p = false ∧ ∃ x, p_id p = "npu-" +:+ x) ps ∧ NoDup (p_id <$> ps).
Proof.
  intros Hnames. unfold discover_npu_planes. split.
  - apply Forall_app. split.
    + destruct (fs_exists _ _); [|constructor]. destruct (fs_read_dir _ _) as [es|]; [|constructor].
      apply Forall_omap. intros e p _ Hp.
      destruct (npu_plane_ok _ _ _ Hp) as (Hok & Hid & _ & Hq & Ht). split_and!; eauto.
      unfold npu_plane in Hp. by destruct (starts_with _ _); simplify_eq.
    + destruct (fs_exists _ _); [|constructor]. constructor; [|constructor].
      split_and!; try done. by exists "hailo0".
  - destruct (fs_exists fs "/dev/accel"); cbn [app].
    2: { destruct (fs_exists _ _); simpl; repeat constructor; set_solver. }
    destruct (fs_read_dir fs "/dev/accel") as [es|] eqn:Hdir.
    2: { destruct (fs_exists _ _); simpl; repeat constructor; set_solver. }
    destruct (Hnames es Hdir) as [Hnd Hutf]. rewrite Forall_forall in Hutf.
    assert (Hids : ∀ e p, e ∈ es → npu_plane "/dev/accel" e = Some p →
      p_id p = "npu-" +:+ e ∧ starts_with e "accel" = true).
    { intros e p He Hp. destruct (npu_plane_ok _ _ _ Hp) as (_ & Hid & Hs & _).
      rewrite to_string_lossy_valid in * by auto. done. }
    rewrite fmap_app. apply NoDup_app. split_and!.
    + apply (NoDup_omap_ids _ "npu-"); [done|]. intros e p He Hp. by apply Hids.
    + intros id (p & -> & (e & He & Hp)%list_elem_of_omap)%list_elem_of_fmap.
      destruct (Hids e p He Hp) as [-> Hs]. apply starts_with_true in Hs as [r ->].
      destruct (fs_exists _ _); simpl; [|set_solver]. intros Heq%list_elem_of_singleton. done.
    + destruct (fs_exists _ _); simpl; repeat constructor; set_solver.
Qed.

Lemma discover_drm_ok fs total avail :
  names_ok fs "/dev/dri" → is_u64 total → is_u64 avail →
  let ps := discover_drm_planes fs "/dev/dri" "/sys/class/drm" total avail in
  Forall (λ p, plane_ok p ∧ is_npu p = false ∧ p_is_quarantined p = false ∧
    p_is_triage_reserved p = false ∧ ∃ x, p_id p = "drm-" +:+ x) ps ∧ NoDup (p_id <$> ps).
Proof.
  intros Hnames Ht Ha. unfold discover_drm_planes.
  destruct (fs_exists _ _); simpl negb; cbn [negb]; [|by split; constructor].
  destruct (fs_read_dir fs "/dev/dri") as [es|] eqn:Hdir; [|by split; constructor].
  destruct (Hnames es Hdir) as [Hnd Hutf]. rewrite Forall_forall in Hutf. split.
  - apply Forall_omap. intros e p _ Hp.
    destruct (drm_plane_ok _ _ _ _ _ _ _ Ht Ha Hp) as (? & ? & ? & ? & ?). split_and!; eauto.
  - apply (NoDup_omap_ids _ "drm-"); [done|]. intros e p He Hp.
    destruct (drm_plane_ok _ _ _ _ _ _ _ Ht Ha Hp) as (_ & Hid & _).
    by rewrite to_string_lossy_valid in Hid by auto.
Qed.

Lemma discovered_planes_ok fs total avail :
  names_ok fs "/dev/accel" → names_ok fs "/dev/dri" → is_u64 total → is_u64 avail →
  planes_ok (discovered_planes fs total avail) ∧
  Forall (λ p, p_is_quarantined p = false ∧ p_is_triage_reserved p = false)
    (discovered_planes fs total avail).
Proof.
  intros Hn Hd Ht Ha.
  destruct (discover_npu_ok fs Hn) as [Hnpu Hnpu_nd].
  destruct (discover_drm_ok fs total avail Hd Ht Ha) as [Hdrm Hdrm_nd].
  assert (Hcpu : plane_ok (build_cpu_plane fs "/proc/cpuinfo" avail)).
  { unfold build_cpu_plane. destruct (detect_cpu_features _ _) as [[? ?] ?].
    unfold plane_ok; simpl. pose proof (three_quarters_le avail). unfold is_u64 in *. lia. }
  assert (Hcid : p_id (build_cpu_plane fs "/proc/cpuinfo" avail) = "cpu-host" ∧
    p_is_quarantined (build_cpu_plane fs "/proc/cpuinfo" avail) = false ∧
    p_is_triage_reserved (build_cpu_plane fs "/proc/cpuinfo" avail) = false).
  { unfold build_cpu_plane. by destruct (detect_cpu_features _ _) as [[? ?] ?]. }
  destruct Hcid as (Hcid & Hcq & Hct).
  unfold discovered_planes, planes_ok. rewrite !fmap_app, !Forall_app. split_and!.
  - eapply Forall_impl; [exact Hnpu|]. by intros p [? _].
  - eapply Forall_impl; [exact Hdrm|]. by intros p [? _].
  - by repeat constructor; apply Hcpu.
  - rewrite Forall_forall in Hnpu. rewrite Forall_forall in Hdrm.
    apply NoDup_app. split_and!; [done| |].
    + intros id (p & -> & Hp)%list_elem_of_fmap.
      destruct (Hnpu p Hp) as (_ & _ & _ & _ & x & ->).
      intros [(q & Heq & Hq)%list_elem_of_fmap|Heq%list_elem_of_singleton]%elem_of_app.
      * destruct (Hdrm q Hq) as (_ & _ & _ & _ & y & Hy). by rewrite Hy in Heq.
      * by rewrite Hcid in Heq.
    + apply NoDup_app. split_and!; [done| |by apply NoDup_singleton].
      intros id (p & -> & Hp)%list_elem_of_fmap Heq%list_elem_of_singleton.
      destruct (Hdrm p Hp) as (_ & _ & _ & _ & y & Hy). by rewrite Hy, Hcid in Heq.
  - eapply Forall_impl; [exact Hnpu|]. naive_solver.
  - eapply Forall_impl; [exact Hdrm|]. naive_solver.
  - by repeat constructor.
Qed.

Lemma quarantine_fields drivers p :
  p_id (quarantine drivers p) = p_id p ∧ p_name (quarantine drivers p) = p_name p ∧
  p_is_triage_reserved (quarantine drivers p) = p_is_triage_reserved p ∧
  (plane_ok p → plane_ok (quarantine drivers p)) ∧
  (p_is_quarantined p = false →
   p_is_quarantined (quarantine drivers p) = incriminated drivers (quarantine drivers p)).
Proof.
  unfold quarantine. destruct (incriminated drivers p) eqn:Hi; split_and!; try done.
  all: intros; unfold incriminated in *; simpl in *; congruence.
Qed.

Lemma assign_enclave_keeps ps id :
  (∃ p, p ∈ ps ∧ p_id p = id) → ∃ p, p ∈ (assign_triage_enclave ps).1 ∧ p_id p = id.
Proof.
  intros (p & Hp & Hid).
  destruct (assign_triage_enclave ps) as [ps' [x|]] eqn:Heq; simpl.
  - apply assign_triage_enclave_Some in Heq as (i & q & q' & Hi & _ & _ & -> & Hcase).
    apply list_elem_of_lookup in Hp as [j Hj]. pose proof (lookup_lt_Some _ _ _ Hi).
    destruct (decide (j = i)) as [->|Hne].
    + assert (p = q) as -> by congruence. exists q'. split; [by apply list_elem_of_insert|].
      by destruct Hcase as [[_ ->]|(_ & -> & _)].
    + exists p. split; [|done]. eapply list_elem_of_lookup_2. by rewrite list_lookup_insert_ne.
  - apply assign_triage_enclave_None in Heq as [-> _]. eauto.
Qed.

(** The enclave changes neither names nor quarantine. *)
Lemma assign_enclave_planes ps p' :
  p' ∈ (assign_triage_enclave ps).1 →
  ∃ p, p ∈ ps ∧ p_id p' = p_id p ∧ p_name p' = p_name p ∧
    p_is_quarantined p' = p_is_quarantined p ∧
    (p_is_triage_reserved p' = true → p_is_triage_reserved p = true ∨
       (is_npu p' = true ∧ p_is_quarantined p = false)).
Proof.
  destruct (assign_triage_enclave ps) as [ps' [id|]] eqn:Heq; simpl.
  - apply assign_triage_enclave_Some in Heq as (i & p & q & Hi & _ & Hq & -> & Hcase).
    intros [j Hj]%list_elem_of_lookup.
    apply list_lookup_insert_Some in Hj as [(-> & -> & _)|[_ Hj]].
    + exists p. assert (p ∈ ps) by (by eapply list_elem_of_lookup_2).
      destruct Hcase as [[? ->]|(? & -> & _)]; split_and!; auto; try (by left); done.
    + exists p'. split_and!; [by eapply list_elem_of_lookup_2|done..|auto].
  - apply assign_triage_enclave_None in Heq as [-> _]. intros Hp. exists p'. by eauto 10.
Qed.
End discovered.

(** C23: what discovery reports is fit for the arbiter: sizes in range, one name
    per plane, and always a processor plane among them. Every plane is
    quarantined exactly when a driver found in the crash records occurs in its
    identifier or name, and hardware is reserved for emergencies only when it
    is an accelerator that is not quarantined. *)
Theorem discovered_topology_ok (uc : Unicode) fs :
  names_ok fs "/dev/accel" → names_ok fs "/dev/dri" →
  let drivers := quarantined_drivers (pstore_read_default fs) in
  planes_ok (t_planes (discover fs)) ∧
  (∃ p, p ∈ t_planes (discover fs) ∧ p_id p = "cpu-host") ∧
  ∀ p, p ∈ t_planes (discover fs) →
    p_is_quarantined p = incriminated drivers p ∧
    (p_is_triage_reserved p = true → is_npu p = true ∧ p_is_quarantined p = false).
Proof.
  intros Hn Hd drivers.
  destruct (read_meminfo_bounds fs "/proc/meminfo") as [Ht Ha].
  unfold discover. destruct (read_meminfo_from fs "/proc/meminfo") as [total avail]; simpl in Ht, Ha.
  destruct (discovered_planes_ok fs total avail Hn Hd Ht Ha) as [Hok Hfresh]. cbn [t_planes].
  fold drivers. set (qs := quarantine drivers <$> discovered_planes fs total avail).
  assert (Hqs : planes_ok qs).
  { destruct Hok as [Hall Hnd]. split.
    - unfold qs. apply Forall_fmap. eapply Forall_impl; [exact Hall|]. intros p Hp.
      by apply quarantine_fields.
    - unfold qs. rewrite <-list_fmap_compose.
      rewrite (list_fmap_ext _ p_id); [done|]. intros i p _. simpl. apply quarantine_fields. }
  assert (Hq : ∀ q, q ∈ qs → p_is_quarantined q = incriminated drivers q ∧ p_is_triage_reserved q = false).
  { intros q (p & -> & Hp)%list_elem_of_fmap. rewrite Forall_forall in Hfresh.
    destruct (Hfresh p Hp) as [Hpq Hpt].
    destruct (quarantine_fields drivers p) as (_ & _ & -> & _ & Hi). auto. }
  split_and!.
  - by apply assign_triage_enclave_planes_ok.
  - assert (∃ c, c ∈ qs ∧ p_id c = "cpu-host") as (c & Hc & Hcid).
    { exists (quarantine drivers (build_cpu_plane fs "/proc/cpuinfo" avail)). split.
      - apply list_elem_of_fmap. eexists. split; [done|]. unfold discovered_planes. set_solver.
      - destruct (quarantine_fields drivers (build_cpu_plane fs "/proc/cpuinfo" avail)) as [-> _].
        unfold build_cpu_plane. by destruct (detect_cpu_features _ _) as [[? ?] ?]. }
    apply (assign_enclave_keeps qs). eauto.
  - intros p' Hp'. apply assign_enclave_planes in Hp' as (p & Hp & Hid & Hname & Hqq & Htr).
    destruct (Hq p Hp) as [Hpq Hpt]. split.
    + rewrite Hqq, Hpq. unfold incriminated. by rewrite Hid, Hname.
    + intros Hres. destruct (Htr Hres) as [?|[Hnpu Hnq]]; [congruence|]. by rewrite Hqq.
Qed.

(** ** Crash records *)

Section crash_records.
Context {uc : Unicode}.
Implicit Types (fs : Fs) (d : string).

(** A crash log: the lines of a [dmesg-] or [console-] file in [path]. *)
Definition crash_log fs (path : string) (ls : list string) : Prop :=
  fs_exists fs path = true ∧ fs_is_dir fs path = true ∧
  ∃ entries entry, fs_read_dir fs path = Some entries ∧ entry ∈ entries ∧
    (starts_with (to_string_lossy entry) "dmesg-" = true ∨
     starts_with (to_string_lossy entry) "console-" = true) ∧
    fs_open_lines fs (path_join path entry) = Some ls.

Lemma elem_of_scan_file ls (q : gset string) d :
  d ∈ scan_file_for_gpu_hangs ls q ↔ d ∈ q ∨ ∃ line, line ∈ ls ∧ crash_signature line = Some d.
Proof.
  revert q. induction ls as [|line ls IH]; intros q; cbn [scan_file_for_gpu_hangs].
  - set_solver.
  - rewrite IH. destruct (crash_signature line) as [d'|] eqn:Hd; set_solver.
Qed.

(** What one step of a fold adds, the whole fold adds. *)
Lemma foldl_adds {X A} (step : A → X → A) (get : A → gset string) (Q : X → string → Prop)
    (xs : list X) acc d :
  (∀ acc x, d ∈ get (step acc x) ↔ d ∈ get acc ∨ Q x d) →
  d ∈ get (foldl step acc xs) ↔ d ∈ get acc ∨ ∃ x, x ∈ xs ∧ Q x d.
Proof.
  intros Hstep. revert acc. induction xs as [|x xs IH]; intros acc; simpl; [set_solver|].
  rewrite IH, Hstep. set_solver.
Qed.

Lemma elem_of_scan_entry fs path entry (acc : pstore_acc) d :
  d ∈ (scan_entry fs path entry acc).1.1 ↔ d ∈ acc.1.1 ∨
    ((starts_with (to_string_lossy entry) "dmesg-" = true ∨
      starts_with (to_string_lossy entry) "console-" = true) ∧
     ∃ ls line, fs_open_lines fs (path_join path entry) = Some ls ∧ line ∈ ls ∧
       crash_signature line = Some d).
Proof.
  destruct acc as [[q n] u]. unfold scan_entry.
  destruct (starts_with _ "dmesg-" || starts_with _ "console-") eqn:Hname.
  - apply orb_true_iff in Hname.
    destruct (fs_open_lines _ _) as [ls|]; simpl; [rewrite elem_of_scan_file|]; naive_solver.
  - apply orb_false_iff in Hname. simpl. naive_solver congruence.
Qed.

Lemma elem_of_scan_directory fs (acc : pstore_acc) path d :
  d ∈ (scan_directory fs acc path).1.1 ↔ d ∈ acc.1.1 ∨
    ∃ ls line, crash_log fs path ls ∧ line ∈ ls ∧ crash_signature line = Some d.
Proof.
  unfold scan_directory, crash_log.
  destruct (fs_exists fs path) eqn:He; [|simpl; naive_solver].
  destruct (fs_is_dir fs path) eqn:Hd; [|simpl; naive_solver]. simpl.
  destruct (fs_read_dir fs path) as [es|] eqn:Hr; [|naive_solver].
  rewrite (foldl_adds _ (λ acc : pstore_acc, acc.1.1) (λ entry d,
    (starts_with (to_string_lossy entry) "dmesg-" = true ∨
     starts_with (to_string_lossy entry) "console-" = true) ∧
    ∃ ls line, fs_open_lines fs (path_join path entry) = Some ls ∧ line ∈ ls ∧
      crash_signature line = Some d)).
  - naive_solver.
  - intros acc' entry. apply elem_of_scan_entry.
Qed.
End crash_records.

(** C38: the crash audit blames exactly the drivers named by the signatures of
    some line of some crash log, each once and in order. *)
Theorem crash_audit_exact (uc : Unicode) fs paths :
  let drivers := quarantined_drivers (analyze_directories fs paths) in
  (∀ d, d ∈ drivers ↔
     ∃ path ls line, path ∈ paths ∧ crash_log fs path ls ∧ line ∈ ls ∧
       crash_signature line = Some d) ∧
  NoDup drivers ∧ Sorted String.le drivers.
Proof.
  intros drivers. unfold drivers, analyze_directories.
  destruct (foldl (scan_directory fs) (∅, 0, false) paths) as [[q n] u] eqn:Hfold. simpl.
  split_and!.
  - intros d. rewrite merge_sort_Permutation, elem_of_elements.
    pose proof (foldl_adds (scan_directory fs) (λ acc : pstore_acc, acc.1.1)
      (λ path d, ∃ ls line, crash_log fs path ls ∧ line ∈ ls ∧ crash_signature line = Some d)
      paths (∅, 0, false) d) as Hadds.
    rewrite Hfold in Hadds. simpl in Hadds. rewrite Hadds; [set_solver|].
    intros acc path. apply elem_of_scan_directory.
  - rewrite merge_sort_Permutation. apply NoDup_elements.
  - apply (Sorted_merge_sort String.le).
Qed.

Section render_names.
Context {uc : Unicode} (digits : string).
Hypothesis Hdig : string_forallb is_ascii_digit digits = true.

Lemma digits_ascii : is_ascii digits = true.
Proof.
  unfold is_ascii. eapply string_forallb_impl; [|exact Hdig]. intros c.
  unfold is_ascii_digit, digit_of. destruct (Z.leb_spec (code c) 57); [|by rewrite andb_false_r].
  intros _. apply Z.ltb_lt. lia.
Qed.

(** No pattern that begins with a letter of a driver's name is among the digits. *)
Lemma digits_contain_no pat a :
  a ∈ ["a"; "x"; "i"]%char →
  contains digits (String a pat) = false ∧ contains (digits +:+ ")") (String a pat) = false.
Proof.
  intros Ha.
  assert (Habs : string_forallb (λ c, negb (Ascii.eqb a c)) digits = true).
  { eapply string_forallb_impl; [|exact Hdig]. intros c Hc. apply negb_true_iff, Ascii.eqb_neq.
    intros <-. repeat (apply elem_of_cons in Ha as [->|Ha]; [done|]). set_solver. }
  split; apply contains_absent; [done|]. rewrite string_forallb_app, Habs. simpl.
  repeat (apply elem_of_cons in Ha as [->|Ha]; [done|]). set_solver.
Qed.

Lemma to_lowercase_tail u w :
  is_ascii u = true → is_ascii w = true → to_ascii_lowercase w = w →
  to_lowercase (u +:+ w) = to_ascii_lowercase u +:+ w.
Proof.
  intros Hu Hw Hwl. rewrite to_lowercase_ascii by (by rewrite is_ascii_app, Hu, Hw).
  by rewrite to_ascii_lowercase_app, Hwl.
Qed.

(** The name of a graphics device, without the digits, contains no driver's name. *)
Lemma drm_name_lowercase v :
  v ∈ ["NVIDIA Corporation"; "Advanced Micro Devices [AMD/ATI]"; "Intel Corporation";
       "Qualcomm Technologies"; "Direct Rendering Accelerator"] →
  ∃ u, to_lowercase (v +:+ " (" +:+ ("renderD" +:+ digits) +:+ ")") = u +:+ (digits +:+ ")") ∧
    never_starts u "amdgpu" = true ∧ never_starts u "xe" = true ∧ never_starts u "i915" = true.
Proof.
  intros Hv.
  assert (is_ascii (digits +:+ ")") = true ∧ to_ascii_lowercase (digits +:+ ")") = digits +:+ ")")
    as [Hta Htl].
  { by rewrite is_ascii_app, digits_ascii, to_ascii_lowercase_app, digits_lowercase. }
  exists (to_ascii_lowercase (v +:+ " (renderD")).
  repeat (apply elem_of_cons in Hv as [->|Hv]; [split; [|done]|]); try (by apply not_elem_of_nil in Hv).
  all: match goal with |- to_lowercase (?a +:+ _) = _ =>
    change (a +:+ " (" +:+ ("renderD" +:+ digits) +:+ ")")
      with ((a +:+ " (renderD") +:+ (digits +:+ ")")) end; by apply to_lowercase_tail.
Qed.
End render_names.

Lemma drm_vendors {uc : Unicode} fs dri sysfs v i m :
  inspect_drm_sysfs fs dri sysfs = (v, i, m) →
  v ∈ ["NVIDIA Corporation"; "Advanced Micro Devices [AMD/ATI]"; "Intel Corporation";
       "Qualcomm Technologies"; "Direct Rendering Accelerator"].
Proof.
  unfold inspect_drm_sysfs. intros Hin.
  assert (∃ x, v = vendor_name x) as [x ->].
  { revert Hin. case_match; intros [= <- _ _]; eauto. }
  unfold vendor_name. repeat case_match; set_solver.
Qed.

(** The drivers [amdgpu], [xe] and [i915] are never matched to a graphics
    device: no identifier or name that discovery gives a render node contains
    them, so the crash of such a driver quarantines nothing. *)
Theorem drm_crash_never_quarantined (uc : Unicode) fs dri sysfs total avail digits p :
  string_forallb is_ascii_digit digits = true →
  drm_plane fs dri sysfs total avail ("renderD" +:+ digits) = Some p →
  incriminated ["amdgpu"; "xe"; "i915"] p = false.
Proof.
  intros Hdig. unfold drm_plane. pose proof (digits_ascii digits Hdig) as Hascii.
  rewrite to_string_lossy_valid by (apply ascii_utf8; by rewrite is_ascii_app, Hascii).
  destruct (starts_with _ _); [|done].
  destruct (inspect_drm_sysfs _ _ _) as [[v i] m] eqn:Hin. intros [= <-].
  destruct (drm_name_lowercase digits Hdig v (drm_vendors _ _ _ _ _ _ Hin)) as (u & Hname & Hu1 & Hu2 & Hu3).
  unfold incriminated. cbn [p_id p_name existsb]. rewrite Hname.
  change ("drm-" +:+ "renderD" +:+ digits) with ("drm-renderD" +:+ digits).
  rewrite (to_lowercase_tail "drm-renderD" digits) by (done || by apply digits_lowercase).
  destruct (digits_contain_no digits Hdig "mdgpu" "a"%char ltac:(set_solver)) as [Ha1 Ha2].
  destruct (digits_contain_no digits Hdig "e" "x"%char ltac:(set_solver)) as [Hx1 Hx2].
  destruct (digits_contain_no digits Hdig "915" "i"%char ltac:(set_solver)) as [Hi1 Hi2].
  assert (Hid : ∀ pat, never_starts "drm-renderd" pat = true →
    contains (to_ascii_lowercase "drm-renderD" +:+ digits) pat = contains digits pat).
  { intros pat. apply (contains_skip "drm-renderd"). }
  rewrite !Hid by done. rewrite !(contains_skip u) by done.
  by rewrite Ha1, Ha2, Hx1, Hx2, Hi1, Hi2.
Qed.
