(* ===== verification/DiscoveryExamples.v ===== *)
(** Discovery run on a concrete machine. *)
From S2P Require Import Prelude Topology Text Host Discovery.
Local Open Scope Z_scope.

(** A machine with an AMD card, an accelerator that crashed and a crash log
    that blames both. *)
Definition crashed : Fs :=
  snapshot
    [("/proc/meminfo", "MemTotal:       16000000 kB
MemFree:         1000000 kB
MemAvailable:    8000000 kB
");
     ("/proc/cpuinfo", "processor	: 0
flags		: fpu avx2 amx_tile
processor	: 1
");
     ("/sys/class/drm/renderD128/device/vendor", "0x1002
");
     ("/sys/class/drm/renderD128/device/mem_info_vram_total", "17163091968
");
     ("/sys/fs/pstore/dmesg-efi-1", "[   12.3] amdgpu: GPU reset begin!
[   13.0] hailo0: timeout waiting for device
"); ("/dev/hailo0", "")]
    [("/dev/dri", ["card0"; "renderD128"]); ("/sys/fs/pstore", ["dmesg-efi-1"]);
     ("/dev/accel", [])].

Lemma crashed_names dir : dir = "/dev/accel" ∨ dir = "/dev/dri" → names_ok crashed dir.
Proof.
  intros [-> | ->] entries.
  - assert (fs_read_dir crashed "/dev/accel" = Some []) as -> by (vm_compute; reflexivity).
    intros [= <-]. by repeat constructor.
  - assert (fs_read_dir crashed "/dev/dri" = Some ["card0"; "renderD128"]) as ->
      by (vm_compute; reflexivity).
    intros [= <-]. split; [|by repeat constructor].
    by apply (bool_decide_unpack (NoDup ["card0"; "renderD128"])).
Qed.

(** Both drivers are blamed, only the accelerator is quarantined. *)
Example crashed_quarantine :
  let t := discover (uc := ascii_unicode) crashed in
  quarantined_drivers (pstore_read_default (uc := ascii_unicode) crashed) = ["amdgpu"; "hailo"] ∧
  (λ p, (p_id p, p_is_quarantined p)) <$> t_planes t =
    [("npu-hailo0", true); ("drm-renderD128", false); ("cpu-host", false)] ∧
  p_available_memory_bytes <$> t_planes t = [2147483648; 17163091968; 4608000000].
Proof. vm_compute. repeat split. Qed.

Lemma discovered_topology_ok_witness :
  let uc := ascii_unicode in
  let drivers := quarantined_drivers (pstore_read_default crashed) in
  planes_ok (t_planes (discover crashed)) ∧
  (∃ p, p ∈ t_planes (discover crashed) ∧ p_id p = "cpu-host") ∧
  ∀ p, p ∈ t_planes (discover crashed) →
    p_is_quarantined p = incriminated drivers p ∧
    (p_is_triage_reserved p = true → is_npu p = true ∧ p_is_quarantined p = false).
Proof. apply (discovered_topology_ok ascii_unicode crashed); apply crashed_names; auto. Defined.

Lemma drm_crash_never_quarantined_witness :
  ∃ p, drm_plane (uc := ascii_unicode) crashed "/dev/dri" "/sys/class/drm" 0 0 "renderD128" = Some p ∧
    incriminated (uc := ascii_unicode) ["amdgpu"; "xe"; "i915"] p = false.
Proof.
  eexists. split; [vm_compute; reflexivity|].
  apply (drm_crash_never_quarantined ascii_unicode crashed "/dev/dri" "/sys/class/drm" 0 0 "128");
    vm_compute; reflexivity.
Defined.
