(* ===== verification/Netlink.v ===== *)
(** Kernel device events: crates/inferenced-core/src/netlink.rs. *)
From S2P Require Import Prelude Text Errors.
Local Open Scope Z_scope.

Record Uevent := mkUevent {
  action : string;
  devpath : string;
  subsystem : string;
  devname : option string;
  properties : gmap string string;
}.

(** The accumulator of the loop over the properties. *)
Definition uevent_acc : Type := string * option string * gmap string string.

Definition parse_prop (acc : uevent_acc) (prop : string) : uevent_acc :=
  let '(subsystem, devname, properties) := acc in
  match split_once "=" prop with
  | Some (k, v) =>
      (if String.eqb k "SUBSYSTEM" then v else subsystem,
       if String.eqb k "DEVNAME" then Some v else devname,
       <[k := v]> properties)
  | None => acc
  end.

(** [Uevent::parse] *)
Definition parse_uevent (buf : string) : option Uevent :=
  text ← from_utf8 buf;
  match List.filter (λ s, negb (is_empty s)) (split nul text) with
  | [] => None
  | header :: props =>
      '(action_str, devpath_str) ← split_once "@" header;
      let '(subsystem, devname, properties) := foldl parse_prop ("", None, ∅) props in
      let subsystem :=
        if is_empty subsystem then default subsystem (properties !! "SUBSYSTEM") else subsystem in
      Some (mkUevent action_str devpath_str subsystem devname properties)
  end.

Definition is_compute_device (u : Uevent) : bool :=
  String.eqb (subsystem u) "drm" || String.eqb (subsystem u) "accel"
  || (String.eqb (subsystem u) "misc"
      && match devname u with Some n => contains n "hailo" | None => false end)
  || String.eqb (subsystem u) "kfd".

Definition is_reset_event (u : Uevent) : bool :=
  String.eqb (action u) "change"
  && match properties u !! "RESET" with Some v => String.eqb v "1" | None => false end.

(** [open_uevent_socket]: the descriptor, and those closed again. [socket_with]
    and [bind] are the kernel's answers; the group is the kernel's own. *)
Definition open_uevent_socket (socket_with : result string Z) (bind : Z → Z → result string unit) :
    result Error Z * list Z :=
  match socket_with with
  | Err e => (Err (Systemd ("Failed to create AF_NETLINK socket: " +:+ e)), [])
  | Ok fd =>
      let nl_groups := 1 in
      match bind fd nl_groups with
      | Err e => (Err (Systemd ("Failed to bind netlink socket to group 1: " +:+ e)), [fd])
      | Ok _ => (Ok fd, [])
      end
  end.

(** * Facts *)

(** A datagram as the kernel writes it: the header, then [KEY=VALUE] pairs,
    each ended by a NUL. *)
Definition uevent_datagram (action devpath : string) (props : list (string * string)) : string :=
  join nul (action +:+ String "@" devpath)
    (((λ kv, kv.1 +:+ String "=" kv.2) <$> props) ++ [""]).

(** The last value given to a key. *)
Fixpoint last_value (key : string) (props : list (string * string)) : option string :=
  match props with
  | [] => None
  | (k, v) :: props' =>
      match last_value key props' with
      | Some w => Some w
      | None => if String.eqb k key then Some v else None
      end
  end.

Section uevents.
Implicit Types (props : list (string * string)).

Lemma foldl_parse_prop props sub dev m :
  Forall (λ kv, lacks "=" kv.1 = true) props →
  foldl parse_prop (sub, dev, m) ((λ kv, kv.1 +:+ String "=" kv.2) <$> props) =
    (default sub (last_value "SUBSYSTEM" props),
     match last_value "DEVNAME" props with Some v => Some v | None => dev end,
     foldl (λ m kv, <[kv.1 := kv.2]> m) m props).
Proof.
  revert sub dev m. induction props as [|[k v] props IH]; intros sub dev m Hall; [done|].
  apply Forall_cons in Hall as [Hk Hall]. rewrite fmap_cons. cbn [foldl fst snd].
  unfold parse_prop at 2. rewrite split_once_app by done. rewrite IH by done.
  cbn [last_value].
  destruct (last_value "SUBSYSTEM" props), (last_value "DEVNAME" props);
    destruct (String.eqb k "SUBSYSTEM"), (String.eqb k "DEVNAME"); done.
Qed.

Lemma foldl_insert_lookup props (m : gmap string string) key :
  foldl (λ m kv, <[kv.1 := kv.2]> m) m props !! key =
    match last_value key props with Some v => Some v | None => m !! key end.
Proof.
  revert m. induction props as [|[k v] props IH]; intros m; [done|]. cbn [foldl fst snd last_value].
  rewrite IH. destruct (last_value key props); [done|].
  destruct (String.eqb_spec k key) as [->|Hne].
  - by rewrite lookup_insert_eq.
  - by rewrite lookup_insert_ne.
Qed.

(** Only the empty piece after the last NUL is dropped. *)
Lemma filter_all_props props :
  List.filter (λ s, negb (is_empty s)) (((λ kv, kv.1 +:+ String "=" kv.2) <$> props) ++ [""]) =
    (λ kv, kv.1 +:+ String "=" kv.2) <$> props.
Proof.
  induction props as [|[k v] props IH]; [done|]. rewrite fmap_cons.
  cbn [app List.filter fst snd].
  assert (is_empty (k +:+ String "=" v) = false) as ->.
  { unfold is_empty. apply String.eqb_neq. by destruct k. }
  cbn [negb]. by rewrite IH.
Qed.
End uevents.

(** C24: what the kernel sends is what the program reads: parsing the datagram
    written from an action, a device path and a list of properties gives them
    back, the last value of a repeated key counting, with the subsystem and
    the device node picked out. *)
Theorem uevent_roundtrip act path props :
  lacks "@" act = true →
  lacks nul act = true → lacks nul path = true →
  Forall (λ kv, lacks "=" kv.1 = true ∧ lacks nul kv.1 = true ∧ lacks nul kv.2 = true) props →
  utf8_from [] (uevent_datagram act path props) = true →
  ∃ u, parse_uevent (uevent_datagram act path props) = Some u ∧
    action u = act ∧ devpath u = path ∧
    subsystem u = default "" (last_value "SUBSYSTEM" props) ∧
    devname u = last_value "DEVNAME" props ∧
    ∀ key, properties u !! key = last_value key props.
Proof.
  intros Hact Hnul Hpath Hprops Hutf.
  assert (Hlacks : ∀ c s a s', a ≠ c → lacks c s = true → lacks c s' = true →
    lacks c (s +:+ String a s') = true).
  { intros c s a s' Ha Hs Hs'. unfold lacks in *. rewrite string_forallb_app, Hs.
    cbn [string_forallb andb]. rewrite Hs', andb_true_r. apply negb_true_iff, Ascii.eqb_neq, Ha. }
  unfold parse_uevent, from_utf8. rewrite Hutf. simpl.
  unfold uevent_datagram. rewrite split_join.
  2: { constructor; [by apply Hlacks|]. apply Forall_app. split; [|by constructor].
       apply Forall_fmap. eapply Forall_impl; [exact Hprops|].
       intros [k v] (_ & Hk & Hv). by apply Hlacks. }
  assert (Hne : ∀ s a s', is_empty (s +:+ String a s') = false).
  { intros s a s'. unfold is_empty. apply String.eqb_neq. by destruct s. }
  cbn [List.filter]. rewrite Hne. cbn [negb].
  rewrite split_once_app by done. cbn [mbind option_bind].
  rewrite (filter_all_props props).
  rewrite foldl_parse_prop by (eapply Forall_impl; [exact Hprops|]; naive_solver).
  eexists. split; [done|]. cbn [action devpath subsystem devname properties].
  split_and!; [done|done| | |].
  - rewrite foldl_insert_lookup. destruct (last_value "SUBSYSTEM" props) as [v|]; simpl; [|done].
    by destruct (is_empty v).
  - by destruct (last_value "DEVNAME" props).
  - intros key. rewrite foldl_insert_lookup. by destruct (last_value key props).
Qed.

(** Classification of events: exactly the [drm], [accel] and [kfd]
    subsystems and Hailo nodes of [misc] are compute devices, and a reset is a
    change with [RESET=1]. *)
Lemma uevent_classified u :
  (is_compute_device u = true ↔
     subsystem u = "drm" ∨ subsystem u = "accel" ∨ subsystem u = "kfd" ∨
     (subsystem u = "misc" ∧ ∃ n, devname u = Some n ∧ contains n "hailo" = true)) ∧
  (is_reset_event u = true ↔ action u = "change" ∧ properties u !! "RESET" = Some "1").
Proof.
  unfold is_compute_device, is_reset_event. split.
  - rewrite !orb_true_iff, andb_true_iff, !String.eqb_eq.
    destruct (devname u); naive_solver.
  - rewrite andb_true_iff, String.eqb_eq. destruct (properties u !! "RESET") as [v|]; [|naive_solver].
    rewrite String.eqb_eq. naive_solver.
Qed.
