(* ===== verification/Peer.v ===== *)
(** Attribution of a peer to its cgroup: crates/inferenced-core/src/peer.rs. *)
From S2P Require Import Prelude Text Errors.
Local Open Scope Z_scope.

Record PeerInfo := mkPeerInfo {
  peer_pid : Z;
  peer_uid : Z;
  peer_gid : Z;
  cgroup_path : string;
  slice : string;
  is_container : bool;
  is_batch : bool;
}.

(** [parse_slice_and_flags] *)
Definition parse_slice_and_flags (cgroup_path : string) : string * bool * bool :=
  let is_container := contains cgroup_path "machine.slice" in
  let is_batch := contains cgroup_path "ai-batch.slice" in
  let slice :=
    match find_first (λ seg, ends_with seg ".slice") (split "/" cgroup_path) with
    | Some seg => seg
    | None =>
        if is_container then "machine.slice"
        else if is_batch then "ai-batch.slice" else "system.slice"
    end in
  (slice, is_container, is_batch).

(** The loop over the lines of [/proc/<pid>/cgroup]. *)
Fixpoint cgroup_of_lines (ls : list string) : option string :=
  match ls with
  | [] => None
  | line :: ls' =>
      match strip_prefix "0::" line with
      | Some path =>
          let trimmed := trim path in
          if is_empty trimmed then cgroup_of_lines ls' else Some trimmed
      | None => cgroup_of_lines ls'
      end
  end.

(** [read_cgroup_path]: [proc p] are the bytes of the file [p], of which one
    read into a buffer of 512 bytes takes the first. *)
Definition read_cgroup_path (proc : string → option string) (pid : Z) : option string :=
  bytes ← proc ("/proc/" +:+ pretty pid +:+ "/cgroup");
  content ← from_utf8 (String.substring 0 512 bytes);
  cgroup_of_lines (lines content).

Definition peer_of_cgroup (pid uid gid : Z) (path : string) : PeerInfo :=
  let '(slice, is_container, is_batch) := parse_slice_and_flags path in
  mkPeerInfo pid uid gid path slice is_container is_batch.

(** [PeerInfo::from_socket]: [ucred] is what SO_PEERCRED gives, the pid as the
    signed number of the kernel. *)
Definition from_socket (ucred : result string (Z * Z * Z)) (proc : string → option string) :
    result Error PeerInfo :=
  match ucred with
  | Err e => Err (Systemd ("Failed to retrieve SO_PEERCRED: " +:+ e))
  | Ok (raw_pid, uid, gid) =>
      let pid := if 0 <? raw_pid then raw_pid else 0 in
      let path :=
        if 0 <? pid then default "/system.slice" (read_cgroup_path proc pid)
        else "/system.slice" in
      Ok (peer_of_cgroup pid uid gid path)
  end.

(** [PeerInfo::mock] *)
Definition mock (pid uid gid : Z) (path : string) : PeerInfo := peer_of_cgroup pid uid gid path.

(** * Facts *)

Section peers.
Implicit Types (path s w : string).

Lemma lines_one w :
  lacks newline w = true → lacks carriage_return w = true →
  lines (w +:+ String newline "") = [w].
Proof.
  intros Hw Hcr. unfold lines. change (w +:+ String newline "") with (join newline w [""]).
  rewrite split_join by (by repeat constructor). simpl. by rewrite strip_last_lacks.
Qed.

(** The whole of a short file is read. *)
Lemma substring_all n s : (String.length s ≤ n)%nat → String.substring 0 n s = s.
Proof.
  revert n. induction s as [|a s IH]; intros n Hn; [by destruct n|].
  destruct n as [|n]; simpl in *; [lia|]. by rewrite IH by lia.
Qed.

Lemma read_cgroup_path_whole proc pid path :
  let file := "0::" +:+ path +:+ String newline "" in
  proc ("/proc/" +:+ pretty pid +:+ "/cgroup") = Some file →
  (String.length file ≤ 512)%nat → utf8_from [] file = true →
  lacks newline path = true → lacks carriage_return path = true →
  path ≠ "" → trim path = path →
  read_cgroup_path proc pid = Some path.
Proof.
  intros file Hproc Hlen Hutf Hnl Hcr Hne Htrim. unfold read_cgroup_path.
  rewrite Hproc. cbn [mbind option_bind]. rewrite substring_all by done.
  unfold from_utf8. rewrite Hutf. cbn [mbind option_bind].
  change file with (("0::" +:+ path) +:+ String newline "").
  rewrite lines_one by (unfold lacks in *; rewrite string_forallb_app, ?Hnl, ?Hcr; done).
  cbn [cgroup_of_lines]. rewrite strip_prefix_app, Htrim.
  destruct (is_empty path) eqn:He; [|done]. by apply is_empty_true in He.
Qed.
End peers.

(** A peer is attributed to the cgroup the kernel reports: when the v2 entry
    fits the 512-byte buffer its path is read exactly, the container and batch
    marks say whether the path contains [machine.slice] and [ai-batch.slice],
    and the slice is the first segment of the path that ends in [.slice], or a
    default when there is none. *)
Theorem peer_attributed proc pid uid gid path :
  let file := "0::" +:+ path +:+ String newline "" in
  0 < pid →
  proc ("/proc/" +:+ pretty pid +:+ "/cgroup") = Some file →
  (String.length file ≤ 512)%nat → utf8_from [] file = true →
  lacks newline path = true → lacks carriage_return path = true →
  path ≠ "" → trim path = path →
  ∃ info, from_socket (Ok (pid, uid, gid)) proc = Ok info ∧
    peer_pid info = pid ∧ peer_uid info = uid ∧ peer_gid info = gid ∧ cgroup_path info = path ∧
    (is_container info = true ↔ ∃ l r, path = l +:+ "machine.slice" +:+ r) ∧
    (is_batch info = true ↔ ∃ l r, path = l +:+ "ai-batch.slice" +:+ r) ∧
    ((∃ segs0 segs1, split "/" path = segs0 ++ slice info :: segs1 ∧
        Forall (λ x, ends_with x ".slice" = false) segs0 ∧ ends_with (slice info) ".slice" = true) ∨
     (Forall (λ x, ends_with x ".slice" = false) (split "/" path) ∧
        slice info = if is_container info then "machine.slice"
                     else if is_batch info then "ai-batch.slice" else "system.slice")).
Proof.
  intros file Hpid Hproc Hlen Hutf Hnl Hcr Hne Htrim.
  unfold from_socket. rewrite (proj2 (Z.ltb_lt 0 pid)) by done.
  rewrite (proj2 (Z.ltb_lt 0 pid)) by done. rewrite (read_cgroup_path_whole _ _ path) by done.
  change (default "/system.slice" (Some path)) with path. eexists. split; [done|]. unfold peer_of_cgroup, parse_slice_and_flags.
  cbn [peer_pid peer_uid peer_gid cgroup_path slice is_container is_batch].
  split_and!; [done..|apply contains_true|apply contains_true|].
  destruct (find_first (λ seg, ends_with seg ".slice") (split "/" path)) as [seg|] eqn:Hseg.
  - left. apply find_first_split in Hseg as (l0 & l1 & ? & ? & ?).
    by exists l0, l1.
  - right. split; [|done]. apply Forall_forall. intros x Hx.
    apply (find_first_None (λ x, ends_with x ".slice") _ _ Hseg Hx).
Qed.

(** Without a pid, or without a readable v2 entry, a peer counts as ordinary. *)
Lemma peer_unknown proc pid uid gid :
  pid ≤ 0 ∨ read_cgroup_path proc pid = None →
  ∃ info, from_socket (Ok (pid, uid, gid)) proc = Ok info ∧
    slice info = "system.slice" ∧ is_container info = false ∧ is_batch info = false.
Proof.
  intros Hno. unfold from_socket.
  assert ((if 0 <? (if 0 <? pid then pid else 0)
     then default "/system.slice" (read_cgroup_path proc (if 0 <? pid then pid else 0))
     else "/system.slice") = "/system.slice") as ->.
  { destruct (Z.ltb_spec 0 pid); [|done].
    rewrite (proj2 (Z.ltb_lt 0 pid)) by done. destruct Hno as [?| ->]; [lia|done]. }
  eexists. split; [done|]. by vm_compute.
Qed.
