(* ===== verification/Ledger.v ===== *)
(** The memory ledger of the arbiter.

    The planes of an arbiter only store what is free. This file relates that
    to the leases: which planes a lease draws on ([charges]), how the field
    updates of arbiter.rs act on exactly those planes ([touch]), and the
    invariant that what is free and what is leased add up. *)
From S2P Require Import Prelude Lease Errors Topology Model Psi Arbiter.
Local Open Scope Z_scope.

(** The identifiers of the planes a lease on [id] draws on: its own, and the
    host memory behind it when it is a unified-memory plane. *)
Definition charges (ps : list ComputePlane) (id : string) : list string :=
  match find_first (has_id id) ps with
  | None => []
  | Some p =>
      p_id p :: (if is_uma p then option_list (p_id <$> find_first is_cpu ps) else [])
  end.

(** Apply [f] to the planes named in [ids]. *)
Definition touch (f : ComputePlane → ComputePlane) (ids : list string)
    (ps : list ComputePlane) : list ComputePlane :=
  (λ p, if bool_decide (p_id p ∈ ids) then f p else p) <$> ps.

(** A change of the free memory only. *)
Definition memory_only (f : ComputePlane → ComputePlane) : Prop :=
  ∀ p, f p = set_available (p_available_memory_bytes (f p)) p.

Lemma memory_only_debit b : memory_only (debit b).
Proof. done. Qed.
Lemma memory_only_credit b : memory_only (credit b).
Proof. done. Qed.

Section touch.
Implicit Types (p q : ComputePlane) (ps : list ComputePlane) (ids : list string).

Lemma memory_only_fields f p :
  memory_only f →
  p_id (f p) = p_id p ∧ p_kind (f p) = p_kind p ∧
  p_total_memory_bytes (f p) = p_total_memory_bytes p.
Proof. intros Hf. by rewrite (Hf p). Qed.

Lemma lookup_touch f ids ps i :
  touch f ids ps !! i = (λ p, if bool_decide (p_id p ∈ ids) then f p else p) <$> ps !! i.
Proof. unfold touch. apply list_lookup_fmap. Qed.

Lemma touch_ids f ids ps : memory_only f → p_id <$> touch f ids ps = p_id <$> ps.
Proof.
  intros Hf. unfold touch. rewrite <-list_fmap_compose. apply list_fmap_ext.
  intros i p _. simpl. case_bool_decide; [|done]. by apply memory_only_fields.
Qed.

(** Tests that read only the identifier and the kind are blind to it. *)
Lemma touch_find_first f ids ps (P : ComputePlane → bool) :
  memory_only f →
  (∀ p a, P (set_available a p) = P p) →
  find_first P (touch f ids ps) =
    (λ p, if bool_decide (p_id p ∈ ids) then f p else p) <$> find_first P ps.
Proof.
  intros Hf HP. unfold touch. induction ps as [|p ps IH]; [done|].
  rewrite fmap_cons. cbn [find_first].
  assert (P (if bool_decide (p_id p ∈ ids) then f p else p) = P p) as ->.
  { case_bool_decide; [|done]. by rewrite (Hf p). }
  by destruct (P p).
Qed.

Lemma charges_touch f ids ps id : memory_only f → charges (touch f ids ps) id = charges ps id.
Proof.
  intros Hf. unfold charges. rewrite touch_find_first by done.
  destruct (find_first (has_id id) ps) as [p|] eqn:Hp; simpl; [|done].
  set (g := λ p, if bool_decide (p_id p ∈ ids) then f p else p).
  assert (Hg : ∀ q, p_id (g q) = p_id q ∧ p_kind (g q) = p_kind q).
  { intros q. unfold g. case_bool_decide; [|done].
    by destruct (memory_only_fields f q Hf) as (? & ? & ?). }
  change (if bool_decide (p_id p ∈ ids) then f p else p) with (g p).
  unfold is_uma. rewrite (proj1 (Hg p)), (proj2 (Hg p)). f_equal.
  destruct (bool_decide _); [|done]. rewrite touch_find_first by done.
  destruct (find_first is_cpu ps) as [c|]; simpl; [|done].
  change (if bool_decide (p_id c ∈ ids) then f c else c) with (g c).
  by rewrite (proj1 (Hg c)).
Qed.

Lemma touch_Forall (Q : ComputePlane → Prop) f ids ps :
  (∀ p, Q p → p_id p ∈ ids → Q (f p)) → Forall Q ps → Forall Q (touch f ids ps).
Proof.
  intros Hf Hall. unfold touch. apply Forall_fmap. eapply Forall_impl; [done|].
  intros p Hp. simpl. case_bool_decide; auto.
Qed.

Lemma touch_planes_ok f ids ps :
  memory_only f → (∀ p, plane_ok p → plane_ok (f p)) →
  planes_ok ps → planes_ok (touch f ids ps).
Proof.
  intros Hm Hf [Hall Hnd]. split; [|by rewrite touch_ids].
  apply touch_Forall; auto.
Qed.

Lemma elem_of_touch f ids ps p' :
  p' ∈ touch f ids ps ↔
  ∃ p, p ∈ ps ∧ p' = if bool_decide (p_id p ∈ ids) then f p else p.
Proof. unfold touch. rewrite list_elem_of_fmap. naive_solver. Qed.
End touch.

Lemma debit_ok b p : 0 ≤ b → plane_ok p → plane_ok (debit b p).
Proof. unfold plane_ok, debit; simpl. intros. u64_lia. Qed.

(** Whatever the amount, crediting cannot leave the range. *)
Lemma credit_ok b p : plane_ok p → plane_ok (credit b p).
Proof.
  unfold plane_ok, credit; simpl. intros.
  pose proof (wrapping_add_is_u64 (p_available_memory_bytes p) b). unfold is_u64 in *. lia.
Qed.

(** * The field updates of arbiter.rs are [touch]es *)

Section specs.
Implicit Types (p q : ComputePlane) (ps : list ComputePlane).

Lemma NoDup_ids_eq ps p q :
  NoDup (p_id <$> ps) → p ∈ ps → q ∈ ps → p_id p = p_id q → p = q.
Proof.
  intros Hnd [i Hi]%list_elem_of_lookup [j Hj]%list_elem_of_lookup Heq.
  assert (i = j) as ->; [|congruence].
  eapply NoDup_lookup; [done|rewrite list_lookup_fmap, Hi; done|].
  by rewrite list_lookup_fmap, Hj, Heq.
Qed.

(** A first-match update touches the plane it finds. *)
Lemma update_first_touch (P : ComputePlane → bool) f ps p :
  NoDup (p_id <$> ps) → find_first P ps = Some p →
  update_first P f ps = touch f [p_id p] ps.
Proof.
  intros Hnd Hp. destruct (find_first_update_first P f ps p Hp) as (i & Hi & _ & ->).
  apply list_eq. intros j. unfold touch. rewrite list_lookup_fmap.
  destruct (decide (i = j)) as [<-|Hne].
  - rewrite list_lookup_insert_eq by (by eapply lookup_lt_Some). rewrite Hi. simpl.
    by rewrite bool_decide_true by set_solver.
  - rewrite list_lookup_insert_ne by done. destruct (ps !! j) as [q|] eqn:Hj; [|done].
    simpl. rewrite bool_decide_false; [done|].
    intros Heq%list_elem_of_singleton. apply Hne.
    eapply NoDup_lookup; [done|rewrite list_lookup_fmap, Hi; done|].
    by rewrite list_lookup_fmap, Hj; simpl; rewrite Heq.
Qed.

Lemma touch_touch f a b ps :
  memory_only f → a ≠ b → touch f [b] (touch f [a] ps) = touch f [a; b] ps.
Proof.
  intros Hf Hne. unfold touch. rewrite <-list_fmap_compose. apply list_fmap_ext.
  intros i p _. simpl. destruct (memory_only_fields f p Hf) as (Hid & _ & _).
  destruct (decide (p_id p = a)) as [Ha|Ha].
  - rewrite (bool_decide_true (p_id p ∈ [a])) by set_solver. rewrite Hid.
    rewrite bool_decide_false by set_solver. by rewrite bool_decide_true by set_solver.
  - rewrite (bool_decide_false (p_id p ∈ [a])) by set_solver.
    destruct (decide (p_id p = b)).
    + by rewrite !bool_decide_true by set_solver.
    + by rewrite !bool_decide_false by set_solver.
Qed.

(** The shape all the updates share: the plane, then the host behind it. *)
Definition charge_by (f : ComputePlane → ComputePlane) (ps : list ComputePlane)
    (id : string) : list ComputePlane :=
  let uma := plane_is_uma ps id in
  let ps := update_first (has_id id) f ps in
  if uma then update_first is_cpu f ps else ps.

Lemma charge_by_touch f ps id :
  memory_only f → NoDup (p_id <$> ps) → charge_by f ps id = touch f (charges ps id) ps.
Proof.
  intros Hf Hnd. unfold charge_by, charges, plane_is_uma.
  destruct (find_first (has_id id) ps) as [p|] eqn:Hp.
  2: { rewrite find_first_None_update_first by done. symmetry.
       unfold touch. rewrite <-(list_fmap_id ps) at 2. apply list_fmap_ext.
       intros. by rewrite bool_decide_false by set_solver. }
  rewrite (update_first_touch (has_id id) f ps p) by done.
  destruct (is_uma p) eqn:Huma; [|done].
  assert (Hc := touch_find_first f [p_id p] ps is_cpu Hf (λ _ _, eq_refl)).
  destruct (find_first is_cpu ps) as [c|] eqn:Hcpu; simpl in Hc |- *.
  - apply find_first_Some in Hp as [Hp _]. apply find_first_Some in Hcpu as [Hcin Hcpu].
    assert (p_id c ≠ p_id p) as Hne.
    { intros Heq%(NoDup_ids_eq ps); [|done..]. subst c.
      unfold is_uma, is_cpu in *. reflect_bools. congruence. }
    rewrite bool_decide_false in Hc by set_solver.
    rewrite (update_first_touch is_cpu f (touch f [p_id p] ps) c) by (by rewrite ?touch_ids).
    by apply touch_touch.
  - by rewrite find_first_None_update_first.
Qed.

Lemma restore_plane_memory_touch ps id b :
  NoDup (p_id <$> ps) → restore_plane_memory ps id b = touch (credit b) (charges ps id) ps.
Proof. apply (charge_by_touch (credit b)), memory_only_credit. Qed.

Lemma thaw_charge_touch ps id b :
  NoDup (p_id <$> ps) → thaw_charge ps id b = touch (debit b) (charges ps id) ps.
Proof. apply (charge_by_touch (debit b)), memory_only_debit. Qed.

Lemma find_first_has_id ps i p :
  NoDup (p_id <$> ps) → ps !! i = Some p → find_first (has_id (p_id p)) ps = Some p.
Proof.
  intros Hnd Hi. destruct (find_first (has_id (p_id p)) ps) as [q|] eqn:Hq.
  - apply find_first_Some in Hq as [Hq Hid]. unfold has_id in Hid. reflect_bools.
    f_equal. eapply (NoDup_ids_eq ps); [done|done|by eapply list_elem_of_lookup_2|done].
  - eapply find_first_None in Hq; [|by eapply list_elem_of_lookup_2].
    unfold has_id in Hq. by rewrite bool_decide_true in Hq.
Qed.

Lemma charge_plane_touch ps idx p b :
  NoDup (p_id <$> ps) → ps !! idx = Some p →
  charge_plane ps idx b = touch (debit b) (charges ps (p_id p)) ps.
Proof.
  intros Hnd Hidx. rewrite <-charge_by_touch by done.
  pose proof (find_first_has_id ps idx p Hnd Hidx) as Hfind.
  unfold charge_plane, charge_by, plane_is_uma. rewrite Hidx, Hfind.
  enough (alter (debit b) idx ps = update_first (has_id (p_id p)) (debit b) ps) as -> by done.
  rewrite update_first_position. rewrite find_first_position in Hfind.
  destruct (position (has_id (p_id p)) ps) as [j|]; simplify_eq/=.
  f_equal. eapply NoDup_lookup; [done|rewrite list_lookup_fmap, Hidx; done|].
  by rewrite list_lookup_fmap, Hfind.
Qed.

Lemma charges_elem ps id x :
  x ∈ charges ps id → ∃ p, p ∈ ps ∧ p_id p = x.
Proof.
  unfold charges. destruct (find_first (has_id id) ps) as [p|] eqn:Hp; [|set_solver].
  apply find_first_Some in Hp as [Hp _]. intros [->|Hx]%elem_of_cons; [eauto|].
  destruct (is_uma p); [|set_solver].
  destruct (find_first is_cpu ps) as [c|] eqn:Hc; simpl in Hx; [|set_solver].
  apply find_first_Some in Hc as [Hc _]. set_solver.
Qed.

(** A plane without unified memory is charged alone. *)
Lemma charges_discrete ps i p :
  NoDup (p_id <$> ps) → ps !! i = Some p → is_uma p = false →
  charges ps (p_id p) = [p_id p].
Proof.
  intros Hnd Hi Huma. unfold charges. erewrite find_first_has_id by done. by rewrite Huma.
Qed.
End specs.

(** * The invariant *)

(** What an active lease takes from the plane named [id]. *)
Definition draw (ps : list ComputePlane) (id : string) (l : ComputeLease) : Z :=
  if is_active l && bool_decide (id ∈ charges ps (l_plane_id l))
  then l_allocated_memory_bytes l else 0.

Definition held (ps : list ComputePlane) (ls : gmap LeaseId ComputeLease) (id : string) : Z :=
  msum (draw ps id) ls.

(** [base id] is the memory the plane [id] had to lease out in the first place. *)
Record ledger (base : string → Z) (s : ArbiterState) : Prop := {
  ledger_planes : planes_ok (planes s);
  ledger_bytes : map_Forall (λ _ l, 0 ≤ l_allocated_memory_bytes l) (leases s);
  ledger_keyed : map_Forall (λ k l, l_id l = k) (leases s);
  ledger_base : Forall (λ p, base (p_id p) ≤ p_total_memory_bytes p) (planes s);
  ledger_balance : Forall (λ p,
    p_available_memory_bytes p + held (planes s) (leases s) (p_id p) = base (p_id p)) (planes s);
}.

(** There is room for [b] more bytes on everything a lease on [id] draws on. *)
Definition fits (ps : list ComputePlane) (id : string) (b : Z) : Prop :=
  Forall (λ p, p_id p ∈ charges ps id → b ≤ p_available_memory_bytes p) ps.

Section ledger.
Context (base : string → Z).
Implicit Types (s : ArbiterState) (l : ComputeLease) (p : ComputePlane).

Lemma draw_nonneg ps id l : 0 ≤ l_allocated_memory_bytes l → 0 ≤ draw ps id l.
Proof. unfold draw. case_match; lia. Qed.

Lemma draw_inactive ps id l : is_active l = false → draw ps id l = 0.
Proof. unfold draw. by intros ->. Qed.

Lemma draw_active ps id l :
  is_active l = true →
  draw ps id l =
    if bool_decide (id ∈ charges ps (l_plane_id l)) then l_allocated_memory_bytes l else 0.
Proof. unfold draw. by intros ->. Qed.

Lemma held_touch f ids ps ls id :
  memory_only f → held (touch f ids ps) ls id = held ps ls id.
Proof. intros Hf. apply msum_ext. intros k l _. unfold draw. by rewrite charges_touch. Qed.

(** The draw of the lease at [k], 0 when there is none. *)
Definition draw_at ps id (ls : gmap LeaseId ComputeLease) (k : LeaseId) : Z :=
  match ls !! k with Some l => draw ps id l | None => 0 end.

Lemma held_insert ps ls id k l :
  held ps (<[k := l]> ls) id = held ps ls id - draw_at ps id ls k + draw ps id l.
Proof.
  unfold held, draw_at. destruct (ls !! k) as [l'|] eqn:Hk.
  - by rewrite (msum_insert_Some _ _ _ l').
  - rewrite msum_insert_None by done. lia.
Qed.

Lemma held_lower s k l id :
  ledger base s → leases s !! k = Some l →
  draw (planes s) id l ≤ held (planes s) (leases s) id.
Proof.
  intros Hl Hk. apply (msum_lookup_le _ _ k); [|done].
  intros k' l' Hk'. apply draw_nonneg. by apply (ledger_bytes _ _ Hl k').
Qed.

(** One shape for every operation: the lease at [k] becomes [l], and the
    planes move by the difference of the draws. *)
Lemma ledger_update s k l f ids :
  ledger base s →
  l_id l = k → 0 ≤ l_allocated_memory_bytes l →
  memory_only f →
  (∀ p, p ∈ planes s → plane_ok p → p_id p ∈ ids → plane_ok (f p)) →
  (∀ p, p ∈ planes s →
     p_available_memory_bytes (if bool_decide (p_id p ∈ ids) then f p else p) =
     p_available_memory_bytes p + draw_at (planes s) (p_id p) (leases s) k
       - draw (planes s) (p_id p) l) →
  ledger base (with_leases (<[k := l]> (leases s)) (with_planes (touch f ids (planes s)) s)).
Proof.
  intros Hs Hid Hb Hf Hok Hmove. pose proof (ledger_planes _ _ Hs) as [Hall Hnd].
  split; unfold planes; simpl; fold (planes s).
  - split; [|by rewrite touch_ids]. apply Forall_forall. intros p' Hp'.
    apply elem_of_touch in Hp' as (p & Hp & ->).
    rewrite Forall_forall in Hall. case_bool_decide; auto.
  - apply map_Forall_insert_2; [done|apply (ledger_bytes _ _ Hs)].
  - apply map_Forall_insert_2; [done|apply (ledger_keyed _ _ Hs)].
  - apply Forall_forall. intros p' (p & Hp & ->)%elem_of_touch.
    pose proof (proj1 (Forall_forall _ _) (ledger_base _ _ Hs) p Hp) as Hbase; simpl in Hbase.
    case_bool_decide; [|done]. destruct (memory_only_fields f p Hf) as (-> & _ & ->). done.
  - apply Forall_forall. intros p' (p & Hp & ->)%elem_of_touch.
    pose proof (proj1 (Forall_forall _ _) (ledger_balance _ _ Hs) p Hp) as Hbal; simpl in Hbal.
    specialize (Hmove p Hp). rewrite Hmove, held_touch, held_insert by done.
    assert (p_id (if bool_decide (p_id p ∈ ids) then f p else p) = p_id p) as ->; [|lia].
    case_bool_decide; [|done]. by apply memory_only_fields.
Qed.

(** A lease stops being active and its memory is restored. *)
Lemma ledger_stop s k l l' :
  ledger base s → leases s !! k = Some l → is_active l = true → is_active l' = false →
  l_id l' = l_id l → 0 ≤ l_allocated_memory_bytes l' →
  ledger base (with_leases (<[k := l']> (leases s)) (with_planes
    (restore_plane_memory (planes s) (l_plane_id l) (l_allocated_memory_bytes l)) s)).
Proof.
  intros Hs Hk Hact Hact' Hid Hb. pose proof (ledger_planes _ _ Hs) as [Hall Hnd].
  rewrite restore_plane_memory_touch by done.
  apply ledger_update; auto using memory_only_credit.
  - rewrite Hid. by apply (ledger_keyed _ _ Hs).
  - intros p _ Hp _. by apply credit_ok.
  - intros p Hp. unfold draw_at. rewrite Hk, (draw_inactive _ _ l') by done.
    pose proof (held_lower s k l (p_id p) Hs Hk) as Hlow.
    rewrite draw_active in Hlow |- * by done.
    pose proof (proj1 (Forall_forall _ _) (ledger_balance _ _ Hs) p Hp) as Hbal; simpl in Hbal.
    pose proof (proj1 (Forall_forall _ _) (ledger_base _ _ Hs) p Hp) as Hbase; simpl in Hbase.
    pose proof (proj1 (Forall_forall _ _) Hall p Hp) as Hpok. unfold plane_ok in Hpok.
    pose proof (ledger_bytes _ _ Hs k l Hk) as Hbytes; simpl in Hbytes.
    case_bool_decide; [|lia]. simpl. rewrite wrapping_add_exact by lia. lia.
Qed.

(** A lease becomes active on planes that have room for it. *)
Lemma ledger_start s k l :
  ledger base s → (∀ l', leases s !! k = Some l' → is_active l' = false) →
  is_active l = true → l_id l = k → 0 ≤ l_allocated_memory_bytes l →
  fits (planes s) (l_plane_id l) (l_allocated_memory_bytes l) →
  ledger base (with_leases (<[k := l]> (leases s)) (with_planes
    (touch (debit (l_allocated_memory_bytes l)) (charges (planes s) (l_plane_id l)) (planes s)) s)).
Proof.
  intros Hs Hk Hact Hid Hb Hfits.
  apply ledger_update; auto using memory_only_debit.
  - intros p _ Hp _. by apply debit_ok.
  - intros p Hp.
    assert (draw_at (planes s) (p_id p) (leases s) k = 0) as ->.
    { unfold draw_at. destruct (leases s !! k) as [l'|] eqn:Hl'; [|done].
      apply draw_inactive. eauto. }
    rewrite draw_active by done.
    pose proof (proj1 (Forall_forall _ _) Hfits p Hp) as Hroom; simpl in Hroom.
    case_bool_decide; [|lia]. simpl. rewrite saturating_sub_exact by auto. lia.
Qed.

(** Activity does not change: the planes stay as they are. *)
Lemma ledger_same s k l l' :
  ledger base s → leases s !! k = Some l → is_active l' = is_active l →
  l_id l' = l_id l → l_plane_id l' = l_plane_id l →
  l_allocated_memory_bytes l' = l_allocated_memory_bytes l →
  ledger base (with_leases (<[k := l']> (leases s)) s).
Proof.
  intros Hs Hk Hact Hid Hpl Hb.
  assert (with_leases (<[k := l']> (leases s)) s =
    with_leases (<[k := l']> (leases s)) (with_planes (touch (debit 0) [] (planes s)) s)) as ->.
  { unfold with_leases, with_planes, planes. destruct s as [[ps ? ? ? ?] ls r]; simpl.
    unfold set_planes; simpl. repeat f_equal. unfold touch.
    rewrite <-(list_fmap_id ps) at 1. apply list_fmap_ext. intros i p _.
    by rewrite bool_decide_false by set_solver. }
  apply ledger_update; auto using memory_only_debit.
  - rewrite Hid. by apply (ledger_keyed _ _ Hs).
  - rewrite Hb. by apply (ledger_bytes _ _ Hs k).
  - set_solver.
  - intros p Hp. rewrite bool_decide_false by set_solver. unfold draw_at. rewrite Hk.
    unfold draw. rewrite Hact, Hpl, Hb. lia.
Qed.

(** Dropping dead leases. *)
Lemma ledger_sweep s : ledger base s → ledger base (with_leases (sweep_leases (leases s)) s).
Proof.
  intros Hs. unfold sweep_leases.
  destruct (128 <? _); [|by destruct s].
  destruct Hs as [Hp Hb Hk Hbase Hbal]. split; unfold planes in *; simpl in *; auto.
  - intros k l [Hl _]%map_lookup_filter_Some. by apply (Hb k).
  - intros k l [Hl _]%map_lookup_filter_Some. by apply (Hk k).
  - eapply Forall_impl; [done|]. intros p <-. simpl. f_equal.
    unfold held. apply msum_filter. intros k l _ Hdead. simpl in Hdead.
    apply draw_inactive. destruct (is_active l); [|done]. by destruct Hdead.
Qed.
End ledger.
