(* ===== verification/Grant.v ===== *)
(** Granting a lease: what [acquire_lease] of arbiter.rs chooses, preempts and
    charges. *)
From Stdlib Require Import SpecFloat.
From S2P Require Import Prelude Lease Errors Topology Model Psi Arbiter Ledger.
Local Open Scope Z_scope.

(** * The choice of a plane *)

Section select.
Implicit Types (ps : list ComputePlane) (p : ComputePlane).

Lemma index_by_max_Some (key : ComputePlane → Z) (l : list (nat * ComputePlane)) i :
  fst <$> max_by_key (λ ip, key ip.2) l = Some i →
  ∃ p, (i, p) ∈ l ∧ ∀ j q, (j, q) ∈ l → key q ≤ key p.
Proof.
  intros ([i' p] & Hmax & ->)%fmap_Some. apply max_by_key_Some in Hmax as [Hin Hmax].
  exists p. split; [done|]. intros j q Hq. apply (Hmax _ Hq).
Qed.

Lemma elem_of_imap_pair ps i p : (i, p) ∈ imap pair ps ↔ ps !! i = Some p.
Proof. rewrite elem_of_lookup_imap. naive_solver. Qed.

Lemma elem_of_filter_imap (f : nat * ComputePlane → bool) ps i p :
  (i, p) ∈ List.filter f (imap pair ps) ↔ ps !! i = Some p ∧ f (i, p) = true.
Proof.
  rewrite list_elem_of_In, filter_In, <-list_elem_of_In, elem_of_imap_pair. done.
Qed.

(** The planes open to ordinary work. *)
Definition open_plane p : bool := negb (p_is_quarantined p) && negb (p_is_triage_reserved p).

(** What a chosen plane is, case by case. *)
Variant selected ps : LeasePriority → option string → nat → ComputePlane → Prop :=
  | selected_preferred pr pref i p :
      ps !! i = Some p → p_id p = pref →
      (∀ j q, (j < i)%nat → ps !! j = Some q → p_id q ≠ pref) →
      selected ps pr (Some pref) i p
  | selected_reserved i p :
      ps !! i = Some p → p_is_triage_reserved p = true →
      selected ps EmergencyTriage None i p
  | selected_cpu i p :
      ps !! i = Some p → is_cpu p = true →
      (∀ q, q ∈ ps → p_is_triage_reserved q = false) →
      selected ps EmergencyTriage None i p
  | selected_largest i p :
      ps !! i = Some p →
      (∀ q, q ∈ ps → p_is_triage_reserved q = false ∧ is_cpu q = false ∧
         p_total_memory_bytes q ≤ p_total_memory_bytes p) →
      selected ps EmergencyTriage None i p
  | selected_open pr i p :
      pr ≠ EmergencyTriage →
      ps !! i = Some p → open_plane p = true →
      (∀ q, q ∈ ps → open_plane q = true →
         p_available_memory_bytes q ≤ p_available_memory_bytes p) →
      selected ps pr None i p.

Lemma select_plane_Ok ps pr pref i :
  select_plane ps pr pref = Ok i → ∃ p, selected ps pr pref i p.
Proof.
  unfold select_plane, is_emergency. destruct pref as [pref|].
  - destruct (position (has_id pref) ps) as [j|] eqn:Hpos; simpl; [|done].
    intros [= <-]. destruct (position_Some _ _ _ Hpos) as (p & Hp & Hid).
    unfold has_id in Hid. reflect_bools. exists p. apply selected_preferred; [done..|].
    intros k q Hk Hq. pose proof (position_first _ _ _ _ _ Hpos Hk Hq) as Hne.
    unfold has_id in Hne. by reflect_bools.
  - case_bool_decide as Hpr; [subst pr|].
    + destruct (position p_is_triage_reserved ps) as [j|] eqn:Hres; simpl.
      { intros [= <-]. destruct (position_Some _ _ _ Hres) as (p & Hp & Hr).
        exists p. by apply selected_reserved. }
      pose proof (λ q, position_None p_is_triage_reserved ps q Hres) as Hnores.
      destruct (position is_cpu ps) as [j|] eqn:Hcpu; simpl.
      { intros [= <-]. destruct (position_Some _ _ _ Hcpu) as (p & Hp & Hc).
        exists p. apply selected_cpu; auto. }
      destruct (fst <$> max_by_key _ _) as [j|] eqn:Hmax; simpl; [|done].
      intros [= <-]. apply index_by_max_Some in Hmax as (p & Hp & Hmax).
      apply elem_of_imap_pair in Hp. exists p. apply selected_largest; [done|].
      intros q Hq. split_and!; [by apply Hnores|by eapply position_None|].
      apply list_elem_of_lookup in Hq as [k Hk]. apply (Hmax k). by apply elem_of_imap_pair.
    + destruct (fst <$> max_by_key _ _) as [j|] eqn:Hmax; simpl; [|done].
      intros [= <-]. apply index_by_max_Some in Hmax as (p & Hp & Hmax).
      apply elem_of_filter_imap in Hp as [Hp Hopen]. simpl in Hopen.
      rewrite orb_false_r in Hopen. exists p. apply selected_open; [done..|].
      intros q Hq Hqo. apply list_elem_of_lookup in Hq as [k Hk]. apply (Hmax k).
      apply elem_of_filter_imap. split; [done|]. simpl. by rewrite orb_false_r.
Qed.

Lemma select_plane_in_range ps pr pref i :
  select_plane ps pr pref = Ok i → ∃ p, ps !! i = Some p.
Proof. intros [p Hp]%select_plane_Ok. destruct Hp; eauto. Qed.

Lemma select_plane_Err ps pr pref e :
  select_plane ps pr pref = Err e → ∃ x, e = PlaneNotFound x.
Proof.
  assert (Hok : ∀ {A} (o : option A) x, ok_or o (PlaneNotFound x) = Err e → ∃ x, e = PlaneNotFound x).
  { intros A [a|] x; simpl; [done|]. intros [= <-]. eauto. }
  unfold select_plane. destruct pref; [apply Hok|]. destruct (is_emergency pr); apply Hok.
Qed.

(** An emergency without a preference always finds a plane. *)
Lemma select_plane_emergency ps :
  ps ≠ [] → ∃ i, select_plane ps EmergencyTriage None = Ok i.
Proof.
  intros Hne. unfold select_plane; simpl.
  destruct (position p_is_triage_reserved ps); simpl; [eauto|].
  destruct (position is_cpu ps); simpl; [eauto|].
  destruct ps as [|p ps]; [done|]. simpl. eauto.
Qed.
End select.

(** * Preemption *)

(** The leases after preempting [vs]. *)
Definition preempt_all (vs : list LeaseId) (ls : gmap LeaseId ComputeLease) :
    gmap LeaseId ComputeLease :=
  map_on (set_state Preempted) vs ls.

(** The planes after returning the memory of [vs]. *)
Definition restore_all (ps : list ComputePlane) (plane_id : string)
    (ls : gmap LeaseId ComputeLease) (vs : list LeaseId) : list ComputePlane :=
  foldl (λ ps id, match ls !! id with
                  | Some l => restore_plane_memory ps plane_id (l_allocated_memory_bytes l)
                  | None => ps
                  end) ps vs.

Definition client_of (ls : gmap LeaseId ComputeLease) (id : LeaseId) :
    option (option Z * option string) :=
  (λ l, (l_client_pid l, l_client_unit l)) <$> ls !! id.

Section preempt.
Context (idx : nat) (plane_id : string) (req : Z).
Implicit Types (ps : list ComputePlane) (ls : gmap LeaseId ComputeLease) (vs : list LeaseId).

Lemma lookup_preempt_all vs ls id :
  preempt_all vs ls !! id =
    (λ l, if bool_decide (id ∈ vs) then set_state Preempted l else l) <$> ls !! id.
Proof. apply lookup_map_on. Qed.

Lemma restore_all_insert ps ls v l vs :
  v ∉ vs → restore_all ps plane_id (<[v := l]> ls) vs = restore_all ps plane_id ls vs.
Proof.
  revert ps. induction vs as [|w vs IH]; intros ps Hv; [done|].
  unfold restore_all in *. simpl. rewrite lookup_insert_ne by set_solver.
  apply IH. set_solver.
Qed.

Lemma client_of_insert ls v l vs :
  v ∉ vs → omap (client_of (<[v := l]> ls)) vs = omap (client_of ls) vs.
Proof.
  induction vs as [|w vs IH]; intros Hv; [done|]. rewrite !omap_cons, IH by set_solver.
  assert (client_of (<[v := l]> ls) w = client_of ls w) as ->; [|done].
  unfold client_of. by rewrite lookup_insert_ne by set_solver.
Qed.

Lemma omap_client_cons ls v l vs :
  ls !! v = Some l →
  omap (client_of ls) (v :: vs) = (l_client_pid l, l_client_unit l) :: omap (client_of ls) vs.
Proof.
  intros Hv. rewrite omap_cons. assert (client_of ls v = _) as -> by (unfold client_of; by rewrite Hv).
  done.
Qed.

(** The loop preempts a prefix of its candidates: as few as make enough
    room, in order, or all of them. *)
Lemma preempt_loop_spec cands ps ls ps' ls' fz :
  NoDup cands → Forall (λ id, is_Some (ls !! id)) cands →
  preempt_loop idx plane_id req cands ps ls = (ps', ls', fz) →
  ∃ vs rest, cands = vs ++ rest ∧
    ps' = restore_all ps plane_id ls vs ∧
    ls' = preempt_all vs ls ∧
    fz = omap (client_of ls) vs ∧
    (rest = [] ∨ req ≤ available_at ps' idx) ∧
    (∀ vs1 v vs2, vs = vs1 ++ v :: vs2 →
       available_at (restore_all ps plane_id ls vs1) idx < req).
Proof.
  revert ps ls ps' ls' fz. induction cands as [|c cands IH];
    intros ps ls ps' ls' fz Hnd Hin; simpl.
  - intros [= <- <- <-]. exists [], []. unfold preempt_all; rewrite map_on_nil.
    split_and!; auto. intros [|? ?] ? ? ?; done.
  - destruct (Z.leb_spec req (available_at ps idx)) as [Henough|Hshort].
    + intros [= <- <- <-]. exists [], (c :: cands). unfold preempt_all; rewrite map_on_nil.
      split_and!; auto. intros [|? ?] ? ? ?; done.
    + apply NoDup_cons in Hnd as [Hc Hnd]. apply Forall_cons in Hin as [[l Hl] Hin].
      rewrite Hl. destruct (preempt_loop _ _ _ _ _ _) as [[ps1 ls1] fz1] eqn:Hloop.
      intros [= <- <- <-]. apply IH in Hloop as (vs & rest & -> & -> & -> & -> & Hrest & Hmin).
      * exists (c :: vs), rest. assert (c ∉ vs) by set_solver.
        rewrite restore_all_insert, client_of_insert in * by done.
        split_and!; [done|by simpl; rewrite Hl|by apply map_on_cons| |done|].
        { by erewrite omap_client_cons by done. }
        intros [|v1 vs1] v vs2 Heq; [done|]. simplify_eq/=. rewrite Hl.
        specialize (Hmin vs1 v vs2 eq_refl).
        by rewrite restore_all_insert in Hmin by set_solver.
      * done.
      * eapply Forall_impl; [done|]. intros id Hid. apply lookup_insert_is_Some'. by right.
Qed.

(** Restoring credits the target, so preempting more never leaves less. *)
Lemma preempt_loop_ledger base s cands ps ls ps' ls' fz :
  ledger base (with_leases ls (with_planes ps s)) → NoDup cands →
  Forall (λ id, ∃ l, ls !! id = Some l ∧ is_active l = true ∧ l_plane_id l = plane_id) cands →
  preempt_loop idx plane_id req cands ps ls = (ps', ls', fz) →
  ledger base (with_leases ls' (with_planes ps' s)).
Proof.
  revert ps ls ps' ls' fz. induction cands as [|c cands IH];
    intros ps ls ps' ls' fz Hled Hnd Hin; simpl.
  - by intros [= <- <- <-].
  - destruct (req <=? available_at ps idx); [by intros [= <- <- <-]|].
    apply NoDup_cons in Hnd as [Hc Hnd].
    apply Forall_cons in Hin as [(l & Hl & Hact & Hpl) Hin].
    rewrite Hl. destruct (preempt_loop _ _ _ _ _ _) as [[ps1 ls1] fz1] eqn:Hloop.
    intros [= <- <- <-]. eapply IH; [|done| |done].
    + rewrite <-Hpl.
      apply (ledger_stop base _ c l (set_state Preempted l) Hled Hl Hact eq_refl eq_refl).
      apply (ledger_bytes _ _ Hled c l Hl).
    + apply Forall_forall. intros id Hid. rewrite Forall_forall in Hin.
      rewrite lookup_insert_ne by (intros ->; done). by apply Hin.
Qed.

Lemma preemptable_elem {ho : HashOrder LeaseId ComputeLease} ls pr id :
  map_Forall (λ k l, l_id l = k) ls →
  id ∈ preemptable ls plane_id pr ↔
    ∃ l, ls !! id = Some l ∧ preemptable_on plane_id pr l = true.
Proof.
  intros Hkeyed. unfold preemptable. rewrite sort_by_key_perm, list_elem_of_fmap.
  setoid_rewrite list_elem_of_In at 1. setoid_rewrite filter_In.
  setoid_rewrite <-list_elem_of_In. split.
  - intros (l & -> & Hl & Hp). apply list_elem_of_fmap in Hl as ([k l'] & -> & Hkl).
    apply elem_of_hash_iter in Hkl. simpl in *. rewrite (Hkeyed k l' Hkl). eauto.
  - intros (l & Hl & Hp). exists l. split_and!; [by rewrite (Hkeyed id l Hl)| |done].
    apply list_elem_of_fmap. exists (id, l). split; [done|]. by apply elem_of_hash_iter.
Qed.

Lemma NoDup_preemptable {ho : HashOrder LeaseId ComputeLease} ls pr :
  map_Forall (λ k l, l_id l = k) ls → NoDup (preemptable ls plane_id pr).
Proof.
  intros Hkeyed. unfold preemptable. rewrite sort_by_key_perm.
  assert (Hids : l_id <$> (hash_iter ls).*2 = (hash_iter ls).*1).
  { rewrite <-list_fmap_compose. apply list_fmap_ext. intros i [k l] Hi. simpl.
    apply (Hkeyed k). apply elem_of_hash_iter. by eapply list_elem_of_lookup_2. }
  pose proof (NoDup_hash_iter ls) as Hnd. rewrite <-Hids in Hnd.
  revert Hnd. generalize (hash_iter ls).*2. clear. intros xs.
  induction xs as [|l xs IH]; simpl; [done|]. intros [Hl Hnd]%NoDup_cons.
  destruct (preemptable_on plane_id pr l); [|auto]. simpl. apply NoDup_cons.
  split; [|auto]. intros (l' & Heq & Hin)%list_elem_of_fmap. apply Hl.
  apply list_elem_of_In, filter_In in Hin as [Hin _]. apply list_elem_of_In in Hin.
  apply list_elem_of_fmap. eauto.
Qed.
End preempt.

(** * The whole of [acquire_lease] *)

Lemma with_id s : with_leases (leases s) (with_planes (planes s) s) = s.
Proof. by destruct s as [[? ? ? ? ?] ? ?]. Qed.

Section acquire.
Context {ho : HashOrder LeaseId ComputeLease}.
Implicit Types (s : ArbiterState).

(** Planes, leases and clients to freeze once room has been made at [i]. *)
Definition reclaimed (i : nat) (pr : LeasePriority) (b : Z) s :=
  if available_at (planes s) i <? b
  then preempt_loop i (id_at (planes s) i) b
         (preemptable (leases s) (id_at (planes s) i) pr) (planes s) (leases s)
  else (planes s, leases s, []).

Lemma acquire_unfold psi now fresh pr b pref unit pid s :
  acquire_lease psi now fresh pr b pref unit pid s =
  if is_critical psi && negb (is_emergency pr)
  then (Err (BusSaturation (memory_some_avg10 psi) (memory_full_avg10 psi)), s, [])
  else
    match select_plane (planes s) pr pref with
    | Err e => (Err e, s, [])
    | Ok i =>
        let '(ps, ls, fz) := reclaimed i pr b s in
        let s1 := with_leases ls (with_planes ps s) in
        if (available_at ps i <? b) && negb (is_emergency pr)
        then (Err (ResourceExhaustion (id_at (planes s) i) b (available_at ps i)), s1, [])
        else
          let l := new_lease fresh now (id_at (planes s) i) b pr unit pid in
          (Ok l,
           with_leases (<[fresh := l]> (sweep_leases ls))
             (with_planes (charge_plane ps i b) s1),
           mjoin (freezer_calls <$> fz))
    end.
Proof.
  unfold acquire_lease. destruct (is_critical psi && negb (is_emergency pr)); [done|].
  unfold ebind at 1, eget at 1. unfold ebind at 1, elift.
  destruct (select_plane (planes s) pr pref) as [i|e]; [|done].
  unfold reclaim, reclaimed, ebind, eget, emodify, eput, ethrow, etell, eret.
  destruct (available_at (planes s) i <? b) eqn:Hshort.
  - destruct (preempt_loop _ _ _ _ _ _) as [[ps ls] fz].
    destruct (_ && _); simpl; [done|]. by rewrite app_nil_r.
  - rewrite Hshort. simpl. by rewrite with_id.
Qed.

(** The victims of a grant at [i], and what is left after them. *)
Lemma reclaimed_spec i pr b s ps ls fz :
  map_Forall (λ k l, l_id l = k) (leases s) →
  reclaimed i pr b s = (ps, ls, fz) →
  ∃ vs rest,
    (available_at (planes s) i < b →
       vs ++ rest = preemptable (leases s) (id_at (planes s) i) pr) ∧
    (b ≤ available_at (planes s) i → vs = []) ∧
    ps = restore_all (planes s) (id_at (planes s) i) (leases s) vs ∧
    ls = preempt_all vs (leases s) ∧
    fz = omap (client_of (leases s)) vs ∧
    (available_at (planes s) i < b → rest = [] ∨ b ≤ available_at ps i) ∧
    (∀ vs1 v vs2, vs = vs1 ++ v :: vs2 →
       available_at (restore_all (planes s) (id_at (planes s) i) (leases s) vs1) i < b).
Proof.
  intros Hkeyed. unfold reclaimed.
  destruct (Z.ltb_spec (available_at (planes s) i) b) as [Hshort|Hroom].
  - intros Hloop. apply preempt_loop_spec in Hloop
      as (vs & rest & Hcands & -> & -> & -> & Hrest & Hmin).
    + exists vs, rest. split_and!; auto; try lia.
    + by apply NoDup_preemptable.
    + apply Forall_forall. intros id Hid. apply preemptable_elem in Hid as (l & -> & _); eauto.
  - intros [= <- <- <-]. exists [], []. unfold preempt_all; rewrite map_on_nil.
    split_and!; auto; try lia. intros [|? ?] ? ? ?; done.
Qed.

Lemma reclaimed_ledger base i pr b s ps ls fz :
  ledger base s → reclaimed i pr b s = (ps, ls, fz) →
  ledger base (with_leases ls (with_planes ps s)).
Proof.
  intros Hled. unfold reclaimed. destruct (_ <? _).
  - apply preempt_loop_ledger.
    + by rewrite with_id.
    + apply NoDup_preemptable, (ledger_keyed _ _ Hled).
    + apply Forall_forall. intros id Hid.
      apply preemptable_elem in Hid as (l & Hl & Hp); [|apply (ledger_keyed _ _ Hled)].
      unfold preemptable_on in Hp. reflect_bools. eauto.
  - intros [= <- <- <-]. by rewrite with_id.
Qed.
End acquire.
