(* ===== verification/Hotplug.v ===== *)
(** Replacing the topology: what [update_topology] of arbiter.rs leaves after a
    device came or went. *)
From S2P Require Import Prelude Lease Errors Topology Text Model Host Psi Arbiter Discovery.
From S2P Require Import Ledger.
Local Open Scope Z_scope.

(** [Arbiter::refresh_topology]: discovery itself does not fail. *)
Definition refresh_topology {uc : Unicode} {ho : HashOrder LeaseId ComputeLease} (fs : Fs)
    (s : ArbiterState) : ArbiterState :=
  update_topology (discover fs) s.

(** What becomes of a lease when the planes become [ps]. *)
Definition after_unplug (ps : list ComputePlane) (l : ComputeLease) : ComputeLease :=
  if (is_active l || bool_decide (l_state l = Preempted))
     && negb (existsb (has_id (l_plane_id l)) ps)
  then set_state Revoked l else l.

Section hotplug.
Implicit Types (ps : list ComputePlane) (l : ComputeLease) (p : ComputePlane).

Lemma existsb_find_first {A} (P : A → bool) (xs : list A) :
  existsb P xs = match find_first P xs with Some _ => true | None => false end.
Proof. induction xs as [|x xs IH]; simpl; [done|]. by destruct (P x). Qed.

Lemma existsb_has_id_touch f ids ps id :
  memory_only f → existsb (has_id id) (touch f ids ps) = existsb (has_id id) ps.
Proof.
  intros Hf. rewrite !existsb_find_first, touch_find_first by done.
  by destruct (find_first _ ps).
Qed.

Lemma after_unplug_touch f ids ps l :
  memory_only f → after_unplug (touch f ids ps) l = after_unplug ps l.
Proof. intros Hf. unfold after_unplug. by rewrite existsb_has_id_touch. Qed.

Lemma charges_missing ps id : existsb (has_id id) ps = false → charges ps id = [].
Proof. rewrite existsb_find_first. unfold charges. by destruct (find_first _ ps). Qed.

Lemma touch_nil f ps : touch f [] ps = ps.
Proof.
  unfold touch. rewrite <-(list_fmap_id ps) at 2. apply list_fmap_ext.
  intros i p _. by rewrite bool_decide_false by set_solver.
Qed.

Lemma recharge_lease_spec ps l :
  NoDup (p_id <$> ps) →
  recharge_lease ps l =
    (if is_active l then touch (debit (l_allocated_memory_bytes l)) (charges ps (l_plane_id l)) ps
     else ps,
     after_unplug ps l).
Proof.
  intros Hnd. unfold recharge_lease, after_unplug. rewrite existsb_find_first.
  destruct (is_active l) eqn:Hact.
  - destruct (find_first (has_id (l_plane_id l)) ps) as [p|] eqn:Hp; simpl.
    + rewrite <-charge_by_touch by done. unfold charge_by, plane_is_uma. by rewrite Hp.
    + by rewrite charges_missing, touch_nil by (by rewrite existsb_find_first, Hp).
  - simpl. by destruct (_ && _).
Qed.

(** The draws of the leases in [order], as the loop accumulates them. *)
Definition drawn ps (ls : gmap LeaseId ComputeLease) (order : list LeaseId) (id : string) : Z :=
  foldr (λ k acc, draw_at ps id ls k + acc) 0 order.

Lemma draw_at_nonneg ps id ls k :
  map_Forall (λ _ l, 0 ≤ l_allocated_memory_bytes l) ls → 0 ≤ draw_at ps id ls k.
Proof.
  intros Hb. unfold draw_at. destruct (ls !! k) as [l|] eqn:Hk; [|done].
  apply draw_nonneg, (Hb k l Hk).
Qed.

Lemma drawn_nonneg ps ls order id :
  map_Forall (λ _ l, 0 ≤ l_allocated_memory_bytes l) ls → 0 ≤ drawn ps ls order id.
Proof.
  intros Hb. induction order as [|k order IH]; [done|].
  pose proof (draw_at_nonneg ps id ls k Hb). unfold drawn in *. simpl. lia.
Qed.

Lemma draw_at_insert_ne ps id ls k l k' :
  k ≠ k' → draw_at ps id (<[k := l]> ls) k' = draw_at ps id ls k'.
Proof. intros Hne. unfold draw_at. by rewrite lookup_insert_ne. Qed.

Lemma drawn_insert ps ls k l order id :
  k ∉ order → drawn ps (<[k := l]> ls) order id = drawn ps ls order id.
Proof.
  induction order as [|k' order IH]; intros Hk; [done|]. simpl.
  unfold drawn in *. rewrite IH by set_solver. rewrite draw_at_insert_ne by set_solver. done.
Qed.

Lemma drawn_touch f ids ps ls order id :
  memory_only f → drawn (touch f ids ps) ls order id = drawn ps ls order id.
Proof.
  intros Hf. induction order as [|k order IH]; [done|]. simpl. unfold drawn in *.
  rewrite IH. f_equal. unfold draw_at, draw. destruct (ls !! k); [|done].
  by rewrite charges_touch.
Qed.

(** The planes less what is drawn on each. *)
Definition less ps (d : string → Z) : list ComputePlane :=
  (λ p, set_available (saturating_sub (p_available_memory_bytes p) (d (p_id p))) p) <$> ps.

Lemma set_available_twice a b p : set_available a (set_available b p) = set_available a p.
Proof. done. Qed.

Lemma less_less ps d e :
  (∀ id, 0 ≤ d id) → (∀ id, 0 ≤ e id) → less (less ps d) e = less ps (λ id, d id + e id).
Proof.
  intros Hd He. unfold less. rewrite <-list_fmap_compose. apply list_fmap_ext.
  intros i p _. simpl. rewrite set_available_twice. simpl.
  by rewrite saturating_sub_sub.
Qed.

Lemma less_zero ps : Forall plane_ok ps → less ps (λ _, 0) = ps.
Proof.
  intros Hall. unfold less. rewrite <-(list_fmap_id ps) at 2. apply list_fmap_ext.
  intros i p Hp. rewrite Forall_lookup in Hall. specialize (Hall i p Hp).
  unfold plane_ok in Hall. rewrite saturating_sub_exact, Z.sub_0_r by lia. by destruct p.
Qed.

Lemma less_ext ps d e : (∀ p, p ∈ ps → d (p_id p) = e (p_id p)) → less ps d = less ps e.
Proof.
  intros Hde. unfold less. apply list_fmap_ext. intros i p Hp.
  by rewrite Hde by (by eapply list_elem_of_lookup_2).
Qed.

Lemma touch_debit_less ps ids b :
  Forall plane_ok ps → 0 ≤ b →
  touch (debit b) ids ps = less ps (λ id, if bool_decide (id ∈ ids) then b else 0).
Proof.
  intros Hall Hb. unfold touch, less. apply list_fmap_ext. intros i p Hp.
  rewrite Forall_lookup in Hall. specialize (Hall i p Hp). unfold plane_ok in Hall.
  case_bool_decide; [done|]. rewrite saturating_sub_exact, Z.sub_0_r by lia. by destruct p.
Qed.

Lemma less_planes_ok ps d : (∀ id, 0 ≤ d id) → planes_ok ps → planes_ok (less ps d).
Proof.
  intros Hd [Hall Hnd]. split.
  - unfold less. apply Forall_fmap. eapply Forall_impl; [done|]. intros p Hp.
    apply plane_ok_set_available; [done|]. specialize (Hd (p_id p)).
    unfold plane_ok in Hp. u64_lia.
  - unfold less. by rewrite <-list_fmap_compose.
Qed.

Lemma map_on_ext {V} (f g : V → V) (ks : list LeaseId) (m : gmap LeaseId V) :
  (∀ v, f v = g v) → map_on f ks m = map_on g ks m.
Proof.
  intros Hfg. apply map_eq. intros k. rewrite !lookup_map_on. destruct (m !! k); [|done].
  cbn [fmap option_fmap option_map]. by case_bool_decide; rewrite ?Hfg.
Qed.

Lemma touch_debit_draw ps ls k l :
  Forall plane_ok ps → ls !! k = Some l → 0 ≤ l_allocated_memory_bytes l →
  (if is_active l then touch (debit (l_allocated_memory_bytes l)) (charges ps (l_plane_id l)) ps
   else ps) = less ps (λ id, draw_at ps id ls k).
Proof.
  intros Hall Hk Hb. unfold draw_at, draw. rewrite Hk. destruct (is_active l); simpl.
  - by apply touch_debit_less.
  - symmetry. by apply less_zero.
Qed.

Lemma less_touch_shape ps ls k l :
  Forall plane_ok ps → ls !! k = Some l → 0 ≤ l_allocated_memory_bytes l →
  ∃ ids, less ps (λ id, draw_at ps id ls k) = touch (debit (l_allocated_memory_bytes l)) ids ps.
Proof.
  intros Hall Hk Hb. rewrite <-(touch_debit_draw ps ls k l) by done.
  destruct (is_active l); [eauto|]. exists []. by rewrite touch_nil.
Qed.

(** The whole loop: every plane loses what the leases draw on it, in any
    order, and the leases without a plane are revoked. *)
Lemma recharge_leases_spec ps ls order :
  planes_ok ps → NoDup order →
  map_Forall (λ _ l, 0 ≤ l_allocated_memory_bytes l) ls →
  recharge_leases ps ls order =
    (less ps (drawn ps ls order), map_on (after_unplug ps) order ls).
Proof.
  revert ps ls. induction order as [|k order IH]; intros ps ls Hok Hnd Hb.
  - simpl. unfold drawn. simpl. by rewrite less_zero, map_on_nil by apply Hok.
  - apply NoDup_cons in Hnd as [Hk Hnd]. cbn [recharge_leases].
    destruct (ls !! k) as [l|] eqn:Hl.
    2: { rewrite IH, map_on_missing by done. f_equal. apply less_ext. intros p _.
         unfold drawn. simpl. unfold draw_at at 2. by rewrite Hl. }
    pose proof (Hb k l Hl) as Hbl; simpl in Hbl.
    rewrite recharge_lease_spec, (touch_debit_draw ps ls k l) by (done || apply Hok).
    destruct (less_touch_shape ps ls k l) as [ids Hshape]; [apply Hok|done|done|].
    rewrite IH; [|by apply less_planes_ok; [intros id; by apply draw_at_nonneg|]|done|].
    + f_equal.
      * transitivity (less (less ps (λ id, draw_at ps id ls k)) (drawn ps ls order)).
        -- apply less_ext. intros p _.
           rewrite Hshape, drawn_touch, drawn_insert by (done || apply memory_only_debit). done.
        -- apply less_less; intros id; [by apply draw_at_nonneg|by apply drawn_nonneg].
      * rewrite <-(map_on_cons (after_unplug ps) k order ls l) by done. apply map_on_ext. intros v.
        rewrite Hshape. by apply after_unplug_touch, memory_only_debit.
    + apply map_Forall_insert_2; [|done]. unfold after_unplug. by destruct (_ && _).
Qed.

(** A full pass draws what the leases hold. *)
Lemma drawn_all {ho : HashOrder LeaseId ComputeLease} ps ls id :
  drawn ps ls (hash_iter ls).*1 id = held ps ls id.
Proof.
  unfold held. rewrite msum_hash_iter. unfold drawn.
  assert (Hin : ∀ kl, kl ∈ hash_iter ls → ls !! kl.1 = Some kl.2).
  { intros [k l]. by rewrite elem_of_hash_iter. }
  induction (hash_iter ls) as [|[k l] order IH]; [done|]. simpl. f_equal.
  - unfold draw_at. pose proof (Hin (k, l) ltac:(left)) as Hk; simpl in Hk. by rewrite Hk.
  - apply IH. set_solver.
Qed.
End hotplug.

(** The new state, in closed form: independent of the order of iteration. *)
Lemma update_topology_unfold {ho : HashOrder LeaseId ComputeLease} topo s :
  planes_ok (t_planes topo) →
  map_Forall (λ _ l, 0 ≤ l_allocated_memory_bytes l) (leases s) →
  update_topology topo s =
    mkArbiterState (set_planes (less (t_planes topo) (held (t_planes topo) (leases s))) topo)
      (after_unplug (t_planes topo) <$> leases s) (registry s).
Proof.
  intros Hok Hb. unfold update_topology.
  rewrite recharge_leases_spec by (done || apply NoDup_hash_iter).
  rewrite map_on_all.
  - do 2 f_equal. apply less_ext. intros p _. apply drawn_all.
  - intros k [l Hl]. apply list_elem_of_fmap. exists (k, l). split; [done|].
    by apply elem_of_hash_iter.
Qed.

Lemma after_unplug_cases ps l :
  after_unplug ps l =
    match l_state l with
    | Active | Preempting | Frozen | Preempted =>
        if bool_decide (l_plane_id l ∈ p_id <$> ps) then l else set_state Revoked l
    | Revoked | Expired => l
    end.
Proof.
  assert (existsb (has_id (l_plane_id l)) ps = bool_decide (l_plane_id l ∈ p_id <$> ps)) as Hex.
  { case_bool_decide as Hin.
    - apply list_elem_of_fmap in Hin as (p & Hid & Hp). apply existsb_exists.
      exists p. split; [by apply list_elem_of_In|]. unfold has_id. by apply bool_decide_eq_true.
    - destruct (existsb _ ps) eqn:Hx; [|done]. apply existsb_exists in Hx as (p & Hp & Hid).
      unfold has_id in Hid. reflect_bools. destruct Hin. apply list_elem_of_fmap.
      exists p. split; [done|by apply list_elem_of_In]. }
  unfold after_unplug, is_active. rewrite Hex.
  destruct (l_state l); simpl; try done; by case_bool_decide.
Qed.

(** C22: replacing the topology charges every plane of the new one for exactly
    the active leases that draw on it (their own plane, and the host memory
    behind a unified-memory plane), saturating at zero; revokes exactly the
    active, frozen, yielding and preempted leases whose plane is gone and keeps
    every other lease; and the result does not depend on the order in which
    the table of leases is iterated. *)
Theorem update_topology_recharges (ho : HashOrder LeaseId ComputeLease) topo s :
  planes_ok (t_planes topo) →
  map_Forall (λ _ l, is_u64 (l_allocated_memory_bytes l)) (leases s) →
  let s' := update_topology topo s in
  planes_ok (planes s') ∧
  (∀ i, planes s' !! i =
     (λ p, set_available (saturating_sub (p_available_memory_bytes p)
                            (held (t_planes topo) (leases s) (p_id p))) p) <$> t_planes topo !! i) ∧
  (∀ k, leases s' !! k =
     (λ l, match l_state l with
           | Active | Preempting | Frozen | Preempted =>
               if bool_decide (l_plane_id l ∈ p_id <$> t_planes topo) then l
               else set_state Revoked l
           | Revoked | Expired => l
           end) <$> leases s !! k) ∧
  ∀ ho' : HashOrder LeaseId ComputeLease, update_topology (ho := ho') topo s = s'.
Proof.
  intros Hok Hb s'.
  assert (Hb' : map_Forall (λ _ l, 0 ≤ l_allocated_memory_bytes l) (leases s)).
  { intros k l Hk. by apply (Hb k l). }
  assert (Hs' := update_topology_unfold (ho := ho) topo s Hok Hb'). fold s' in Hs'.
  rewrite Hs'. split_and!.
  - apply less_planes_ok; [|done]. intros id. apply msum_nonneg.
    intros k l Hk. apply draw_nonneg, (Hb' k l Hk).
  - intros i. unfold planes; simpl. unfold less. by rewrite list_lookup_fmap.
  - intros k. simpl. rewrite lookup_fmap. destruct (leases s !! k) as [l|]; simpl; [|done].
    by rewrite after_unplug_cases.
  - intros ho'. by rewrite (update_topology_unfold (ho := ho')).
Qed.
