(* ===== verification/Runs.v ===== *)
(** Runs of the arbiter: every operation behind its lock as a step, what all
    reachable states satisfy, and the life cycle of a lease. *)
From Stdlib Require Import SpecFloat.
From S2P Require Import Prelude Lease Errors Topology Model Psi Arbiter Ledger Grant Hotplug.
Local Open Scope Z_scope.

(** The operations that change an [ArbiterState]; each runs under the write
    lock, so they interleave whole. *)
Inductive arbiter_op :=
  | AcquireLease (psi : PressureMetrics) (now : Z) (fresh : LeaseId) (pr : LeasePriority)
      (required_bytes : Z) (preferred_plane client_unit : option string) (client_pid : option Z)
  | ReleaseLease (id : LeaseId)
  | RevokeLease (id : LeaseId)
  | YieldLease (id : LeaseId)
  | FreezeLease (id : LeaseId)
  | ThawLease (id : LeaseId)
  | UpdateTopology (topo : HardwareTopology)
  | RegisterModel (desc : ModelDescriptor)
  | RemoveModel (id : string)
  | PinModel (id plane_id : string).

(** The state an operation leaves, whether it succeeds or fails. *)
Definition exec (ho : HashOrder LeaseId ComputeLease) (hm : HashOrder string ModelDescriptor)
    (op : arbiter_op) (s : ArbiterState) : ArbiterState :=
  match op with
  | AcquireLease psi now fresh pr b pref unit pid =>
      state_of (acquire_lease psi now fresh pr b pref unit pid s)
  | ReleaseLease id => state_of (release_lease id s)
  | RevokeLease id => state_of (revoke_lease id s)
  | YieldLease id => state_of (yield_lease id s)
  | FreezeLease id => state_of (freeze_lease id s)
  | ThawLease id => state_of (thaw_lease id s)
  | UpdateTopology topo => update_topology topo s
  | RegisterModel desc => register_model desc s
  | RemoveModel id => (arbiter_remove_model id s).2
  | PinModel id plane_id => (pin_model_for_triage id plane_id s).2
  end.

(** What the callers guarantee: sizes are [u64], a fresh UUID is not in use,
    and a discovered topology is well formed. *)
Definition op_ok (op : arbiter_op) (s : ArbiterState) : Prop :=
  match op with
  | AcquireLease _ _ fresh _ b _ _ _ => is_u64 b ∧ leases s !! fresh = None
  | UpdateTopology topo => planes_ok (t_planes topo)
  | _ => True
  end.

(** Iteration orders may differ from step to step. *)
Inductive reachable : ArbiterState → Prop :=
  | reachable_new topo : planes_ok (t_planes topo) → reachable (new_arbiter topo)
  | reachable_step s op ho hm :
      reachable s → op_ok op s → reachable (exec ho hm op s).

(** * Well-formed states *)

Record arbiter_ok (s : ArbiterState) : Prop := {
  ok_planes : planes_ok (planes s);
  ok_bytes : map_Forall (λ _ l, is_u64 (l_allocated_memory_bytes l)) (leases s);
  ok_keyed : map_Forall (λ k l, l_id l = k) (leases s);
}.

Section outcomes.
(** The operations on one lease, unfolded. *)
Implicit Types (s : ArbiterState) (l : ComputeLease).

Definition end_state (st : LeaseState) (id : LeaseId) s : ArbiterState :=
  match leases s !! id with
  | None => s
  | Some l =>
      if negb (is_active l) && negb (bool_decide (l_state l = Preempted)) then s
      else
        with_leases (<[id := set_state st l]> (leases s))
          (if is_active l then
             with_planes (restore_plane_memory (planes s) (l_plane_id l)
                            (l_allocated_memory_bytes l)) s
           else s)
  end.

Lemma release_lease_unfold id s :
  release_lease id s =
    (match leases s !! id with Some _ => Ok tt | None => Err (LeaseNotFound id) end,
     end_state Expired id s, []).
Proof.
  unfold release_lease, end_state, get_lease_or_fail, store_state, ebind, eget, elift, emodify, eret.
  destruct (leases s !! id) as [l|]; simpl; [|done].
  destruct (_ && _); [done|]. by destruct (is_active l).
Qed.

Lemma revoke_lease_unfold id s :
  revoke_lease id s =
    (match leases s !! id with Some _ => Ok tt | None => Err (LeaseNotFound id) end,
     end_state Revoked id s, []).
Proof.
  unfold revoke_lease, end_state, get_lease_or_fail, store_state, ebind, eget, elift, emodify, eret.
  destruct (leases s !! id) as [l|]; simpl; [|done].
  destruct (_ && _); [done|]. by destruct (is_active l).
Qed.

Definition mark_active (st : LeaseState) (id : LeaseId) s : ArbiterState :=
  match leases s !! id with
  | Some l => if is_active l then with_leases (<[id := set_state st l]> (leases s)) s else s
  | None => s
  end.

Lemma yield_lease_unfold id s :
  yield_lease id s =
    (match leases s !! id with Some _ => Ok tt | None => Err (LeaseNotFound id) end,
     mark_active Preempting id s, []).
Proof.
  unfold yield_lease, mark_active, get_lease_or_fail, store_state, ebind, eget, elift, emodify, eret.
  destruct (leases s !! id) as [l|]; simpl; [|done]. by destruct (is_active l).
Qed.

Lemma freeze_lease_unfold id s :
  freeze_lease id s =
    (match leases s !! id with Some _ => Ok tt | None => Err (LeaseNotFound id) end,
     mark_active Frozen id s, []).
Proof.
  unfold freeze_lease, mark_active, get_lease_or_fail, store_state, ebind, eget, elift, emodify, eret.
  destruct (leases s !! id) as [l|]; simpl; [|done]. by destruct (is_active l).
Qed.

Lemma thaw_lease_unfold id s :
  thaw_lease id s =
    match leases s !! id with
    | None => (Err (LeaseNotFound id), s, [])
    | Some l =>
        match l_state l with
        | Preempted =>
            match thaw_check (planes s) (l_plane_id l) (l_allocated_memory_bytes l) with
            | Err e => (Err e, s, [])
            | Ok _ =>
                (Ok tt,
                 with_leases (<[id := set_state Active l]> (leases s))
                   (with_planes (thaw_charge (planes s) (l_plane_id l)
                                   (l_allocated_memory_bytes l)) s), [])
            end
        | Frozen | Preempting =>
            (Ok tt, with_leases (<[id := set_state Active l]> (leases s)) s, [])
        | _ => (Ok tt, s, [])
        end
    end.
Proof.
  unfold thaw_lease, get_lease_or_fail, store_state, ebind, eget, elift, emodify, eret.
  destruct (leases s !! id) as [l|]; simpl; [|done].
  destruct (l_state l); try done. by destruct (thaw_check _ _ _) as [[]|e].
Qed.
End outcomes.

(** * Well-formedness is kept *)

Section kept.
Implicit Types (ps : list ComputePlane) (ls : gmap LeaseId ComputeLease) (s : ArbiterState).

Lemma restore_plane_memory_ok ps id b : planes_ok ps → planes_ok (restore_plane_memory ps id b).
Proof.
  intros Hok. rewrite restore_plane_memory_touch by apply Hok.
  apply touch_planes_ok; [apply memory_only_credit|intros p; apply credit_ok|done].
Qed.

Lemma touch_debit_ok ids ps b : 0 ≤ b → planes_ok ps → planes_ok (touch (debit b) ids ps).
Proof.
  intros Hb Hok. apply touch_planes_ok; [apply memory_only_debit| |done].
  intros p. by apply debit_ok.
Qed.

Lemma charge_plane_ok ps i b : 0 ≤ b → planes_ok ps → planes_ok (charge_plane ps i b).
Proof.
  intros Hb Hok. destruct (ps !! i) as [p|] eqn:Hi.
  - rewrite (charge_plane_touch ps i p) by (done || apply Hok). by apply touch_debit_ok.
  - unfold charge_plane. rewrite Hi. replace (alter (debit b) i ps) with ps; [done|].
    apply list_eq. intros j. rewrite list_lookup_alter.
    case_decide; subst; rewrite ?Hi; done.
Qed.

Lemma preempt_loop_kept (Q : LeaseId → ComputeLease → Prop) i pl b cands ps ls ps' ls' fz :
  (∀ k l, Q k l → Q k (set_state Preempted l)) →
  planes_ok ps → map_Forall Q ls →
  preempt_loop i pl b cands ps ls = (ps', ls', fz) →
  planes_ok ps' ∧ map_Forall Q ls'.
Proof.
  intros HQ. revert ps ls ps' ls' fz. induction cands as [|c cands IH]; intros ps ls ps' ls' fz Hok Hls; simpl.
  { by intros [= <- <- <-]. }
  destruct (_ <=? _); [by intros [= <- <- <-]|].
  destruct (ls !! c) as [l|] eqn:Hl; [|by apply IH].
  destruct (preempt_loop _ _ _ _ _ _) as [[ps1 ls1] fz1] eqn:Hloop. intros [= <- <- <-].
  eapply IH; [by apply restore_plane_memory_ok| |done].
  apply map_Forall_insert_2; [|done]. by apply HQ, Hls.
Qed.

Lemma sweep_kept (Q : LeaseId → ComputeLease → Prop) ls :
  map_Forall Q ls → map_Forall Q (sweep_leases ls).
Proof.
  intros HQ. unfold sweep_leases. destruct (_ <? _); [|done].
  intros k l [Hl _]%map_lookup_filter_Some. by apply HQ.
Qed.

(** Storing one lease over another with the same size and identifier. *)
Lemma arbiter_ok_store s ps k l st :
  arbiter_ok s → leases s !! k = Some l → planes_ok ps →
  arbiter_ok (with_leases (<[k := set_state st l]> (leases s)) (with_planes ps s)).
Proof.
  intros [Hp Hb Hk] Hl Hps. split; simpl; [done| |].
  - apply map_Forall_insert_2; [apply (Hb k l Hl)|done].
  - apply map_Forall_insert_2; [apply (Hk k l Hl)|done].
Qed.

Lemma with_planes_id s : with_planes (planes s) s = s.
Proof. by destruct s as [[? ? ? ? ?] ? ?]. Qed.

Lemma end_state_ok st id s : arbiter_ok s → arbiter_ok (end_state st id s).
Proof.
  intros Hs. unfold end_state. destruct (leases s !! id) as [l|] eqn:Hl; [|done].
  destruct (_ && _); [done|]. destruct (is_active l).
  - apply arbiter_ok_store; [done..|]. apply restore_plane_memory_ok, (ok_planes _ Hs).
  - rewrite <-(with_planes_id s) at 2. apply arbiter_ok_store; [done..|apply (ok_planes _ Hs)].
Qed.

Lemma mark_active_ok st id s : arbiter_ok s → arbiter_ok (mark_active st id s).
Proof.
  intros Hs. unfold mark_active. destruct (leases s !! id) as [l|] eqn:Hl; [|done].
  destruct (is_active l); [|done].
  rewrite <-(with_planes_id s) at 2. apply arbiter_ok_store; [done..|apply (ok_planes _ Hs)].
Qed.

Lemma thaw_lease_ok id s : arbiter_ok s → arbiter_ok (state_of (thaw_lease id s)).
Proof.
  intros Hs. rewrite thaw_lease_unfold. destruct (leases s !! id) as [l|] eqn:Hl; [|done].
  assert (Hstay : arbiter_ok (with_leases (<[id := set_state Active l]> (leases s)) s)).
  { rewrite <-(with_planes_id s) at 2. apply arbiter_ok_store; [done..|apply (ok_planes _ Hs)]. }
  destruct (l_state l); try done.
  destruct (thaw_check _ _ _); [|done]. apply arbiter_ok_store; [done..|].
  rewrite thaw_charge_touch by apply Hs. apply touch_debit_ok; [|apply Hs].
  apply (ok_bytes _ Hs id l Hl).
Qed.

Lemma acquire_lease_ok {ho : HashOrder LeaseId ComputeLease}
    psi now fresh pr b pref unit pid s :
  arbiter_ok s → is_u64 b →
  arbiter_ok (state_of (acquire_lease psi now fresh pr b pref unit pid s)).
Proof.
  intros Hs Hb. rewrite acquire_unfold. destruct (is_critical psi && _); [done|].
  destruct (select_plane _ _ _) as [i|e]; [|done].
  destruct (reclaimed i pr b s) as [[ps ls] fz] eqn:Hrec.
  assert (map_Forall (λ k l, is_u64 (l_allocated_memory_bytes l) ∧ l_id l = k) (leases s)) as H0.
  { intros k l Hl. split; [apply (ok_bytes _ Hs k l Hl)|apply (ok_keyed _ Hs k l Hl)]. }
  assert (planes_ok ps ∧
    map_Forall (λ k l, is_u64 (l_allocated_memory_bytes l) ∧ l_id l = k) ls) as [Hps Hls].
  { unfold reclaimed in Hrec. destruct (_ <? _).
    - eapply preempt_loop_kept; [| | |exact Hrec]; [done|apply Hs|done].
    - simplify_eq. split; [apply Hs|done]. }
  assert (arbiter_ok (with_leases ls (with_planes ps s))) as Hs1.
  { split; simpl; [done| |]; intros k l Hl; by apply (Hls k l). }
  destruct (_ && negb _); [done|]. destruct Hb as [Hb1 Hb2].
  split; simpl; [by apply charge_plane_ok| |].
  - apply map_Forall_insert_2; [done|]. apply sweep_kept, Hs1.
  - apply map_Forall_insert_2; [done|]. apply sweep_kept, Hs1.
Qed.

Lemma update_topology_ok {ho : HashOrder LeaseId ComputeLease} topo s :
  arbiter_ok s → planes_ok (t_planes topo) → arbiter_ok (update_topology topo s).
Proof.
  intros Hs Hok.
  assert (Hb : map_Forall (λ _ l, 0 ≤ l_allocated_memory_bytes l) (leases s)).
  { intros k l Hl. by apply (ok_bytes _ Hs k l). }
  rewrite update_topology_unfold by done. split; unfold planes; simpl.
  - apply less_planes_ok; [|done]. intros id. apply msum_nonneg.
    intros k l Hl. apply draw_nonneg, (Hb k l Hl).
  - intros k l. rewrite lookup_fmap, fmap_Some. intros (l' & Hl' & ->).
    rewrite after_unplug_cases. pose proof (ok_bytes _ Hs k l' Hl').
    destruct (l_state l'); try done; by case_bool_decide.
  - intros k l. rewrite lookup_fmap, fmap_Some. intros (l' & Hl' & ->).
    rewrite after_unplug_cases. pose proof (ok_keyed _ Hs k l' Hl').
    destruct (l_state l'); try done; by case_bool_decide.
Qed.

Lemma with_registry_ok s r : arbiter_ok s → arbiter_ok (with_registry r s).
Proof. by intros [? ? ?]. Qed.

Lemma exec_ok ho hm op s : arbiter_ok s → op_ok op s → arbiter_ok (exec ho hm op s).
Proof.
  intros Hs Hop. destruct op; simpl in *.
  - apply acquire_lease_ok; [done|apply Hop].
  - rewrite release_lease_unfold. by apply end_state_ok.
  - rewrite revoke_lease_unfold. by apply end_state_ok.
  - rewrite yield_lease_unfold. by apply mark_active_ok.
  - rewrite freeze_lease_unfold. by apply mark_active_ok.
  - by apply thaw_lease_ok.
  - by apply update_topology_ok.
  - by apply with_registry_ok.
  - by apply with_registry_ok.
  - unfold pin_model_for_triage. destruct (pin_for_triage _ _ _). by apply with_registry_ok.
Qed.
End kept.

Lemma reachable_ok s : reachable s → arbiter_ok s.
Proof.
  induction 1 as [topo Hok|s op ho hm Hreach IH Hop]; [|by apply exec_ok].
  split; simpl; [done|apply map_Forall_empty..].
Qed.
