(* ===== verification/Lifecycle.v ===== *)
(** The life cycle of a lease: which transitions each operation of arbiter.rs
    makes, and to which leases. *)
From Stdlib Require Import SpecFloat.
From S2P Require Import Prelude Lease Errors Topology Model Psi Arbiter Ledger Grant Hotplug.
From S2P Require Import Runs.
Local Open Scope Z_scope.

(** A lease that can still come back: [is_active() || state == Preempted]. *)
Definition is_live (st : LeaseState) : bool :=
  match st with Active | Preempting | Frozen | Preempted => true | Revoked | Expired => false end.
Definition is_running (st : LeaseState) : bool :=
  match st with Active | Preempting | Frozen => true | _ => false end.

(** The state machine of one lease, [k], under each operation. *)
Definition op_moves (op : arbiter_op) (k : LeaseId) (a b : LeaseState) : bool :=
  match op with
  | AcquireLease _ _ _ _ _ _ _ _ =>
      bool_decide (b = a) || is_running a && bool_decide (b = Preempted)
  | ReleaseLease id =>
      bool_decide (b = if bool_decide (k = id) && is_live a then Expired else a)
  | RevokeLease id =>
      bool_decide (b = if bool_decide (k = id) && is_live a then Revoked else a)
  | YieldLease id =>
      bool_decide (b = if bool_decide (k = id) && is_running a then Preempting else a)
  | FreezeLease id =>
      bool_decide (b = if bool_decide (k = id) && is_running a then Frozen else a)
  | ThawLease id =>
      bool_decide (b = a) || bool_decide (k = id) && is_live a && bool_decide (b = Active)
  | UpdateTopology _ => bool_decide (b = a) || is_live a && bool_decide (b = Revoked)
  | RegisterModel _ | RemoveModel _ | PinModel _ _ => bool_decide (b = a)
  end.

(** How the table of leases may change: a lease keeps its identity and moves
    along the state machine, or is swept when it is dead. *)
Definition leases_move (op : arbiter_op) (ls ls' : gmap LeaseId ComputeLease) : Prop :=
  ∀ k l, ls !! k = Some l →
    (∃ st, ls' !! k = Some (set_state st l) ∧ op_moves op k (l_state l) st = true) ∨
    (ls' !! k = None ∧ is_live (l_state l) = false ∧ 128 < Z.of_nat (size ls)).

Section lifecycle.
Implicit Types (s : ArbiterState) (l : ComputeLease) (op : arbiter_op).

Lemma set_state_same l : set_state (l_state l) l = l.
Proof. by destruct l. Qed.

Lemma is_active_running l : is_active l = is_running (l_state l).
Proof. done. Qed.

Lemma op_moves_refl_acquire psi now fresh pr b pref unit pid k a :
  op_moves (AcquireLease psi now fresh pr b pref unit pid) k a a = true.
Proof. simpl. by rewrite bool_decide_true. Qed.

(** An operation that stores one new state under one key. *)
Lemma leases_move_store op ls k l st :
  ls !! k = Some l → op_moves op k (l_state l) st = true →
  (∀ k' a, k' ≠ k → op_moves op k' a a = true) →
  leases_move op ls (<[k := set_state st l]> ls).
Proof.
  intros Hl Hmove Hother k' l' Hl'. left. destruct (decide (k' = k)) as [->|Hne].
  - simplify_eq. exists st. by rewrite lookup_insert_eq.
  - exists (l_state l'). rewrite lookup_insert_ne, set_state_same by done. auto.
Qed.

Lemma leases_move_refl op ls :
  (∀ k l, ls !! k = Some l → op_moves op k (l_state l) (l_state l) = true) → leases_move op ls ls.
Proof.
  intros Hrefl k l Hl. left. exists (l_state l). rewrite set_state_same. eauto.
Qed.

(** The four operations that store [st] when the state satisfies [P]. *)
Definition store_if (P : LeaseState → bool) (st : LeaseState) (id : LeaseId)
    (ls : gmap LeaseId ComputeLease) : gmap LeaseId ComputeLease :=
  match ls !! id with
  | Some l => if P (l_state l) then <[id := set_state st l]> ls else ls
  | None => ls
  end.

Lemma store_if_move op P st id ls :
  (∀ k a b, op_moves op k a b = bool_decide (b = if bool_decide (k = id) && P a then st else a)) →
  leases_move op ls (store_if P st id ls).
Proof.
  intros Hop. unfold store_if. destruct (ls !! id) as [l|] eqn:Hl.
  - destruct (P (l_state l)) eqn:HP; simpl.
    + apply leases_move_store; [done| |].
      * rewrite Hop, HP, (bool_decide_true (id = id)) by done. by apply bool_decide_true.
      * intros k a Hk. rewrite Hop, (bool_decide_false (k = id)) by done.
        by apply bool_decide_true.
    + apply leases_move_refl. intros k l' Hl'. rewrite Hop.
      destruct (decide (k = id)) as [->|Hne].
      * simplify_eq. rewrite HP, andb_false_r. by apply bool_decide_true.
      * rewrite (bool_decide_false (k = id)) by done. by apply bool_decide_true.
  - apply leases_move_refl. intros k l' Hl'. rewrite Hop.
    rewrite (bool_decide_false (k = id)) by congruence. by apply bool_decide_true.
Qed.

Lemma end_state_store st id s : leases (end_state st id s) = store_if is_live st id (leases s).
Proof.
  unfold end_state, store_if, is_active. destruct (leases s !! id) as [l|]; [|done].
  by destruct (l_state l).
Qed.

Lemma mark_active_store st id s :
  leases (mark_active st id s) = store_if is_running st id (leases s).
Proof.
  unfold mark_active, store_if, is_active. destruct (leases s !! id) as [l|]; [|done].
  by destruct (l_state l).
Qed.

Lemma thaw_lease_move id s :
  leases_move (ThawLease id) (leases s) (leases (state_of (thaw_lease id s))).
Proof.
  rewrite thaw_lease_unfold.
  assert (Hrefl : ∀ ls, leases_move (ThawLease id) ls ls).
  { intros ls. apply leases_move_refl. intros k l _. simpl. by rewrite bool_decide_true. }
  destruct (leases s !! id) as [l|] eqn:Hl; [|apply Hrefl].
  assert (Hgo : is_live (l_state l) = true →
    leases_move (ThawLease id) (leases s) (<[id := set_state Active l]> (leases s))).
  { intros Hlive. apply leases_move_store; [done| |].
    - simpl. rewrite Hlive, (bool_decide_true (id = id)) by done. apply orb_true_r.
    - intros k a _. simpl. by rewrite bool_decide_true. }
  destruct (l_state l) eqn:Hst; try apply Hrefl; try by apply Hgo.
  destruct (thaw_check _ _ _); [by apply Hgo|apply Hrefl].
Qed.

(** Sweeping drops dead leases only. *)
Lemma sweep_leases_spec (ls : gmap LeaseId ComputeLease) k l :
  ls !! k = Some l →
  sweep_leases ls !! k = Some l ∨
  (sweep_leases ls !! k = None ∧ is_live (l_state l) = false ∧ 128 < Z.of_nat (size ls)).
Proof.
  intros Hl. unfold sweep_leases. destruct (Z.ltb_spec 128 (Z.of_nat (size ls))); [|by left].
  destruct (is_live (l_state l)) eqn:Hlive.
  - left. apply map_lookup_filter_Some. split; [done|]. simpl.
    unfold is_active. by destruct (l_state l).
  - right. split_and!; [|done..]. apply map_lookup_filter_None_2. right.
    intros x Hx. simplify_eq. simpl. unfold is_active. by destruct (l_state l).
Qed.
End lifecycle.

Section lifecycle_of_operations.
Implicit Types (s : ArbiterState) (l : ComputeLease).

(** After room has been made: victims are [Preempted], nothing else moved. *)
Lemma reclaimed_move {ho : HashOrder LeaseId ComputeLease} i pr b s ps ls fz k l :
  map_Forall (λ k l, l_id l = k) (leases s) →
  reclaimed i pr b s = (ps, ls, fz) → leases s !! k = Some l →
  ∃ st, ls !! k = Some (set_state st l) ∧
    (st = l_state l ∨ is_active l = true ∧ st = Preempted).
Proof.
  intros Hkeyed Hrec Hl.
  destruct (reclaimed_spec _ _ _ _ _ _ _ Hkeyed Hrec)
    as (vs & rest & Hshort & Hroom & _ & -> & _ & _ & _).
  rewrite lookup_preempt_all, Hl. cbn [fmap option_fmap option_map].
  case_bool_decide as Hk.
  - exists Preempted. split; [done|]. right. split; [|done].
    destruct (Z.lt_ge_cases (available_at (planes s) i) b) as [Hlt|Hge].
    + assert (k ∈ preemptable (leases s) (id_at (planes s) i) pr) as Hin
        by (rewrite <-Hshort by done; set_solver).
      apply preemptable_elem in Hin as (l' & Hl' & Hp); [|done]. simplify_eq.
      unfold preemptable_on in Hp. by reflect_bools.
    + rewrite Hroom in Hk by done. set_solver.
  - exists (l_state l). rewrite set_state_same. auto.
Qed.

Lemma acquire_lease_move {ho : HashOrder LeaseId ComputeLease}
    psi now fresh pr b pref unit pid s :
  map_Forall (λ k l, l_id l = k) (leases s) → leases s !! fresh = None →
  leases_move (AcquireLease psi now fresh pr b pref unit pid) (leases s)
    (leases (state_of (acquire_lease psi now fresh pr b pref unit pid s))).
Proof.
  intros Hkeyed Hfresh.
  set (op := AcquireLease psi now fresh pr b pref unit pid).
  assert (Hrefl : leases_move op (leases s) (leases s)).
  { apply leases_move_refl. intros k l _. apply op_moves_refl_acquire. }
  rewrite acquire_unfold. destruct (is_critical psi && _); [done|].
  destruct (select_plane _ _ _) as [i|e]; [|done].
  destruct (reclaimed i pr b s) as [[ps ls] fz] eqn:Hrec.
  assert (Hrmove : ∀ k l, leases s !! k = Some l →
    ∃ st, ls !! k = Some (set_state st l) ∧ op_moves op k (l_state l) st = true ∧
      (is_live (l_state l) = false → st = l_state l) ∧
      (is_live st = true ∨ st = l_state l)).
  { intros k l Hl. destruct (reclaimed_move _ _ _ _ _ _ _ _ _ Hkeyed Hrec Hl)
      as (st & Hst & [->|[Hact ->]]); eexists; (split; [exact Hst|]); split_and!; auto.
    - apply op_moves_refl_acquire.
    - unfold op. simpl. unfold is_active in Hact. by destruct (l_state l).
    - unfold is_active in Hact. by destruct (l_state l). }
  destruct (_ && negb _); simpl.
  { intros k l Hl. destruct (Hrmove k l Hl) as (st & Hst & Hmove & _). left. eauto. }
  intros k l Hl. destruct (Hrmove k l Hl) as (st & Hst & Hmove & Hdead & _).
  rewrite lookup_insert_ne by congruence.
  assert (size ls = size (leases s)) as Hsize.
  { destruct (reclaimed_spec _ _ _ _ _ _ _ Hkeyed Hrec) as (vs & ? & _ & _ & _ & -> & _).
    unfold preempt_all. apply map_size_map_on. }
  destruct (sweep_leases_spec ls k _ Hst) as [Hs|(Hs & Hdl & H128)]; [left; eauto|].
  right. simpl in Hdl. split_and!; [done| |by rewrite <-Hsize].
  destruct (reclaimed_move _ _ _ _ _ _ _ _ _ Hkeyed Hrec Hl)
    as (st' & Hst' & [->|[_ ->]]); rewrite Hst in Hst'.
  - injection Hst' as Hst'. by rewrite <-Hst'.
  - injection Hst' as Hst'. by rewrite Hst' in Hdl.
Qed.

Lemma exec_move ho hm op s :
  arbiter_ok s → op_ok op s → leases_move op (leases s) (leases (exec ho hm op s)).
Proof.
  intros Hs Hop. destruct op as [| | | | | |topo| | |]; cbn [exec].
  - apply acquire_lease_move; [apply (ok_keyed _ Hs)|apply Hop].
  - rewrite release_lease_unfold. cbn [state_of fst snd]. rewrite end_state_store. by apply store_if_move.
  - rewrite revoke_lease_unfold. cbn [state_of fst snd]. rewrite end_state_store. by apply store_if_move.
  - rewrite yield_lease_unfold. cbn [state_of fst snd]. rewrite mark_active_store. by apply store_if_move.
  - rewrite freeze_lease_unfold. cbn [state_of fst snd]. rewrite mark_active_store. by apply store_if_move.
  - apply thaw_lease_move.
  - simpl in Hop. intros k l Hl. left.
    rewrite update_topology_unfold; [|done|intros k' l' Hl'; by apply (ok_bytes _ Hs k' l')].
    simpl. rewrite lookup_fmap, Hl. cbn [fmap option_fmap option_map].
    rewrite after_unplug_cases.
    assert (Hsame : l = set_state (l_state l) l) by (by rewrite set_state_same).
    destruct (l_state l) eqn:Hst; try case_bool_decide; eexists;
      (split; [f_equal; (exact Hsame || reflexivity)|reflexivity]).
  - apply leases_move_refl. intros k l _. by apply bool_decide_true.
  - apply leases_move_refl. intros k l _. by apply bool_decide_true.
  - unfold pin_model_for_triage. destruct (pin_for_triage _ _ _).
    apply leases_move_refl. intros k' l _. by apply bool_decide_true.
Qed.

Lemma sweep_leases_None (ls : gmap LeaseId ComputeLease) k :
  ls !! k = None → sweep_leases ls !! k = None.
Proof.
  intros Hk. unfold sweep_leases. destruct (_ <? _); [|done].
  apply map_lookup_filter_None_2. by left.
Qed.

Lemma reclaimed_None {ho : HashOrder LeaseId ComputeLease} i pr b s ps ls fz k :
  map_Forall (λ k l, l_id l = k) (leases s) →
  reclaimed i pr b s = (ps, ls, fz) → leases s !! k = None → ls !! k = None.
Proof.
  intros Hkeyed Hrec Hk.
  destruct (reclaimed_spec _ _ _ _ _ _ _ Hkeyed Hrec) as (vs & ? & _ & _ & _ & -> & _).
  by rewrite lookup_preempt_all, Hk.
Qed.

Lemma store_if_None P st id ls k : ls !! k = None → store_if P st id ls !! k = None.
Proof.
  intros Hk. unfold store_if. destruct (ls !! id) eqn:Hid; [|done].
  destruct (P _); [|done]. by rewrite lookup_insert_ne by congruence.
Qed.

(** Only a grant adds a lease, under the fresh identifier. *)
Lemma exec_new ho hm op s k l :
  arbiter_ok s → op_ok op s →
  leases s !! k = None → leases (exec ho hm op s) !! k = Some l →
  ∃ psi now pr b pref unit pid plane,
    op = AcquireLease psi now k pr b pref unit pid ∧ l = new_lease k now plane b pr unit pid.
Proof.
  intros Hs Hop Hk. pose proof (ok_keyed _ Hs) as Hkeyed.
  assert (Hno : ∀ P : Prop, leases s !! k = Some l → P) by congruence.
  destruct op as [psi now fresh pr b pref unit pid| | | | |id|topo| | |id plane]; cbn [exec].
  - rewrite acquire_unfold. destruct (is_critical psi && _); [exact (Hno _)|].
    destruct (select_plane _ _ _) as [i|e]; [|exact (Hno _)].
    destruct (reclaimed i pr b s) as [[ps ls] fz] eqn:Hrec.
    pose proof (reclaimed_None _ _ _ _ _ _ _ _ Hkeyed Hrec Hk) as Hls.
    destruct (_ && negb _); simpl; [congruence|].
    intros [[-> <-]|[_ Hin]]%lookup_insert_Some; [by eauto 10|].
    rewrite sweep_leases_None in Hin; congruence.
  - rewrite release_lease_unfold. cbn [state_of fst snd].
    rewrite end_state_store, store_if_None; done.
  - rewrite revoke_lease_unfold. cbn [state_of fst snd].
    rewrite end_state_store, store_if_None; done.
  - rewrite yield_lease_unfold. cbn [state_of fst snd].
    rewrite mark_active_store, store_if_None; done.
  - rewrite freeze_lease_unfold. cbn [state_of fst snd].
    rewrite mark_active_store, store_if_None; done.
  - rewrite thaw_lease_unfold. destruct (leases s !! id) eqn:Hid; [|exact (Hno _)].
    assert (k ≠ id) by congruence.
    destruct (l_state _); try destruct (thaw_check _ _ _); try exact (Hno _); cbn [state_of fst snd];
      unfold with_leases; cbn [leases]; rewrite lookup_insert_ne by done; exact (Hno _).
  - simpl in Hop. rewrite update_topology_unfold; [|done|intros k' l' Hl'; by apply (ok_bytes _ Hs k' l')].
    simpl. by rewrite lookup_fmap, Hk.
  - exact (Hno _).
  - exact (Hno _).
  - unfold pin_model_for_triage. destruct (pin_for_triage _ _ _). exact (Hno _).
Qed.

End lifecycle_of_operations.

(** C1: in every reachable state the planes are well formed (free memory within
    the total, identifiers unique), every lease has the size of a [u64] and is
    filed under its own identifier; each operation moves each lease along the
    state machine [op_moves] and changes nothing else of it; a lease leaves the
    table only when it is [Revoked] or [Expired] and only in the sweep of a
    table of more than 128 entries; and only a grant adds one. *)
Theorem lease_life_cycle (ho : HashOrder LeaseId ComputeLease)
    (hm : HashOrder string ModelDescriptor) op s :
  reachable s → op_ok op s →
  let s' := exec ho hm op s in
  arbiter_ok s' ∧
  (∀ k l, leases s !! k = Some l →
     match leases s' !! k with
     | Some l' => l' = set_state (l_state l') l ∧ op_moves op k (l_state l) (l_state l') = true
     | None => is_live (l_state l) = false ∧ 128 < Z.of_nat (size (leases s))
     end) ∧
  (∀ k l', leases s !! k = None → leases s' !! k = Some l' →
     ∃ psi now pr b pref unit pid plane,
       op = AcquireLease psi now k pr b pref unit pid ∧
       l' = new_lease k now plane b pr unit pid).
Proof.
  intros Hreach Hop s'. pose proof (reachable_ok s Hreach) as Hs.
  split_and!; [by apply exec_ok| |].
  - intros k l Hl. destruct (exec_move ho hm op s Hs Hop k l Hl)
      as [(st & Hst & Hmove)|(Hnone & Hdead & Hsize)]; unfold s'.
    + rewrite Hst. by split.
    + by rewrite Hnone.
  - intros k l'. by apply exec_new.
Qed.
