(* ===== verification/Acquire.v ===== *)
(** What [acquire_lease] of arbiter.rs promises: who is preempted, what a grant
    records and signals, what a refusal leaves behind. *)
From Stdlib Require Import SpecFloat.
From S2P Require Import Prelude Lease Errors Topology Model Psi Arbiter Ledger Grant Hotplug.
From S2P Require Import Runs Lifecycle.
Local Open Scope Z_scope.

Section acquire.
Context {ho : HashOrder LeaseId ComputeLease}.
Implicit Types (s : ArbiterState) (l : ComputeLease) (vs : list LeaseId).

(** [vs] are the leases preempted to make [b] bytes of room for priority [pr]
    on the plane at [i], [rest] the candidates that were spared. *)
Record victims (i : nat) (pr : LeasePriority) (b : Z) s vs rest : Prop := {
  victims_candidates :
    ∀ k, k ∈ vs ++ rest → ∃ l, leases s !! k = Some l ∧
      preemptable_on (id_at (planes s) i) pr l = true;
  victims_NoDup : NoDup (vs ++ rest);
  (** lower priorities first *)
  victims_order : ∀ v c lv lc, v ∈ vs → c ∈ rest →
    leases s !! v = Some lv → leases s !! c = Some lc →
    priority_rank (l_priority lv) ≤ priority_rank (l_priority lc);
  victims_sorted : ∀ vs1 v vs2 c lv lc, vs = vs1 ++ v :: vs2 → c ∈ vs2 →
    leases s !! v = Some lv → leases s !! c = Some lc →
    priority_rank (l_priority lv) ≤ priority_rank (l_priority lc);
  (** no more than needed: each was preempted while memory was short *)
  victims_minimal : ∀ vs1 v vs2, vs = vs1 ++ v :: vs2 →
    available_at (restore_all (planes s) (id_at (planes s) i) (leases s) vs1) i < b;
  (** and enough, unless every candidate was preempted *)
  victims_enough :
    b ≤ available_at (restore_all (planes s) (id_at (planes s) i) (leases s) vs) i ∨
    (rest = [] ∧ available_at (planes s) i < b);
  (** when the plane is short every preemptable lease is a candidate *)
  victims_all : available_at (planes s) i < b →
    ∀ k l, leases s !! k = Some l → preemptable_on (id_at (planes s) i) pr l = true →
    k ∈ vs ++ rest;
}.

Lemma sorted_app {A} (R : A → A → Prop) (xs ys : list A) x y :
  StronglySorted R (xs ++ ys) → x ∈ xs → y ∈ ys → R x y.
Proof.
  induction xs as [|z xs IH]; simpl; [by intros _ ?%not_elem_of_nil|].
  intros [Hs Hall]%StronglySorted_inv [->|Hx]%elem_of_cons Hy; [|by apply IH].
  rewrite Forall_forall in Hall. apply Hall. set_solver.
Qed.

(** The candidates come in order of priority. *)
Lemma preemptable_sorted s i pr v c lv lc :
  (∃ xs ys, preemptable (leases s) (id_at (planes s) i) pr = xs ++ ys ∧ v ∈ xs ∧ c ∈ ys) →
  leases s !! v = Some lv → leases s !! c = Some lc →
  priority_rank (l_priority lv) ≤ priority_rank (l_priority lc).
Proof.
  intros (xs & ys & Heq & Hv & Hc) Hlv Hlc.
  pose proof (sort_by_key_sorted (λ id, option_rank (l_priority <$> leases s !! id))
    (l_id <$> List.filter (preemptable_on (id_at (planes s) i) pr) (hash_iter (leases s)).*2)) as Hsort.
  change (StronglySorted (λ x y, option_rank (l_priority <$> leases s !! x) ≤
    option_rank (l_priority <$> leases s !! y)) (preemptable (leases s) (id_at (planes s) i) pr)) in Hsort.
  rewrite Heq in Hsort. pose proof (sorted_app _ _ _ _ _ Hsort Hv Hc) as Hle.
  simpl in Hle. by rewrite Hlv, Hlc in Hle.
Qed.

Lemma reclaimed_victims i pr b s ps ls fz :
  map_Forall (λ k l, l_id l = k) (leases s) →
  reclaimed i pr b s = (ps, ls, fz) →
  ∃ vs rest, victims i pr b s vs rest ∧
    ps = restore_all (planes s) (id_at (planes s) i) (leases s) vs ∧
    ls = preempt_all vs (leases s) ∧
    fz = omap (client_of (leases s)) vs.
Proof.
  intros Hkeyed Hrec.
  destruct (reclaimed_spec _ _ _ _ _ _ _ Hkeyed Hrec)
    as (vs & rest & Hshort & Hroom & -> & -> & -> & Hrest & Hmin).
  destruct (Z.lt_ge_cases (available_at (planes s) i) b) as [Hlt|Hge].
  - specialize (Hshort Hlt). exists vs, rest. split_and!; [|done..]. split.
    + intros k. rewrite Hshort. by apply preemptable_elem.
    + rewrite Hshort. by apply NoDup_preemptable.
    + intros v c lv lc Hv Hc Hlv Hlc.
      apply (preemptable_sorted s i pr v c lv lc); [|done..]. rewrite <-Hshort. by exists vs, rest.
    + intros vs1 v vs2 c lv lc -> Hc Hlv Hlc.
      apply (preemptable_sorted s i pr v c lv lc); [|done..]. rewrite <-Hshort.
      exists (vs1 ++ [v]), (vs2 ++ rest). split_and!; [by rewrite <-!app_assoc|set_solver|set_solver].
    + done.
    + destruct (Hrest Hlt) as [->|?]; auto.
    + intros _ k l Hk Hp. rewrite Hshort. apply preemptable_elem; eauto.
  - rewrite (Hroom Hge) in *. exists [], []. split_and!; [|done..]. split.
    + set_solver.
    + constructor.
    + set_solver.
    + intros [|? ?] ? ? ? ? ? ?; done.
    + intros [|? ?] ? ? ?; done.
    + by left.
    + lia.
Qed.

(** The first victim shows that the plane was short. *)
Lemma victims_short i pr b s vs rest v :
  victims i pr b s vs rest → v ∈ vs → available_at (planes s) i < b.
Proof.
  intros Hvs Hv. destruct vs as [|w vs]; [set_solver|].
  apply (victims_minimal _ _ _ _ _ _ Hvs [] w vs eq_refl).
Qed.
End acquire.

Section acquire_results.
Context {ho : HashOrder LeaseId ComputeLease}.
Implicit Types (s : ArbiterState) (l : ComputeLease) (vs : list LeaseId).

Lemma id_at_lookup ps i p : ps !! i = Some p → id_at ps i = p_id p.
Proof. unfold id_at. by intros ->. Qed.

Lemma sweep_size (ls : gmap LeaseId ComputeLease) :
  Z.of_nat (size (sweep_leases ls)) ≤
    Z.max 128 (Z.of_nat (size (filter (λ kl, is_live (l_state kl.2) = true) ls))).
Proof.
  unfold sweep_leases. destruct (Z.ltb_spec 128 (Z.of_nat (size ls))); [|lia].
  apply Z.max_le_iff. right. apply inj_le, map_subseteq_size, map_filter_subseteq_ext.
  intros k l _. simpl. unfold is_active. by destruct (l_state l).
Qed.

(** The two ways [acquire_lease] ends once a plane has been chosen. *)
Lemma acquire_inv psi now fresh pr b pref unit pid s r s' ws :
  map_Forall (λ k l, l_id l = k) (leases s) →
  acquire_lease psi now fresh pr b pref unit pid s = (r, s', ws) →
  (is_critical psi = true ∧ pr ≠ EmergencyTriage ∧
     r = Err (BusSaturation (memory_some_avg10 psi) (memory_full_avg10 psi)) ∧
     s' = s ∧ ws = []) ∨
  ((is_critical psi = false ∨ pr = EmergencyTriage) ∧
   ((∃ e, select_plane (planes s) pr pref = Err e ∧ r = Err e ∧ s' = s ∧ ws = []) ∨
    ∃ i p vs rest, select_plane (planes s) pr pref = Ok i ∧ planes s !! i = Some p ∧
      victims i pr b s vs rest ∧
      let ps := restore_all (planes s) (p_id p) (leases s) vs in
      let ls := preempt_all vs (leases s) in
      ((available_at ps i < b ∧ pr ≠ EmergencyTriage ∧
        r = Err (ResourceExhaustion (p_id p) b (available_at ps i)) ∧
        s' = with_leases ls (with_planes ps s) ∧ ws = []) ∨
       ((b ≤ available_at ps i ∨ pr = EmergencyTriage) ∧
        r = Ok (new_lease fresh now (p_id p) b pr unit pid) ∧
        s' = with_leases (<[fresh := new_lease fresh now (p_id p) b pr unit pid]> (sweep_leases ls))
               (with_planes (charge_plane ps i b) s) ∧
        ws = mjoin (freezer_calls <$> omap (client_of (leases s)) vs))))).
Proof.
  intros Hkeyed. rewrite acquire_unfold. unfold is_emergency.
  destruct (is_critical psi && negb (bool_decide (pr = EmergencyTriage))) eqn:Hgate.
  { intros [= <- <- <-]. left. by reflect_bools. }
  assert (is_critical psi = false ∨ pr = EmergencyTriage) as Hopen.
  { apply andb_false_iff in Hgate as [?|?]; reflect_bools; auto. }
  intros Hacq. right. split; [done|].
  destruct (select_plane (planes s) pr pref) as [i|e] eqn:Hsel.
  2: { left. simplify_eq. eauto 10. }
  right. destruct (select_plane_in_range _ _ _ _ Hsel) as [p Hp].
  destruct (reclaimed i pr b s) as [[ps ls] fz] eqn:Hrec.
  destruct (reclaimed_victims _ _ _ _ _ _ _ Hkeyed Hrec) as (vs & rest & Hvs & -> & -> & ->).
  rewrite (id_at_lookup _ _ _ Hp) in *.
  exists i, p, vs, rest. split_and!; [done..|]. cbn zeta.
  destruct (Z.ltb_spec (available_at (restore_all (planes s) (p_id p) (leases s) vs) i) b);
    [case_bool_decide|]; simplify_eq/=.
  - right. auto.
  - left. auto.
  - right. auto.
Qed.

Lemma preempted_lookup vs (ls : gmap LeaseId ComputeLease) k l :
  ls !! k = Some l →
  preempt_all vs ls !! k = Some (if bool_decide (k ∈ vs) then set_state Preempted l else l).
Proof. intros Hk. by rewrite lookup_preempt_all, Hk. Qed.

(** Preempting victims does not bring a dead lease back. *)
Lemma victims_live_size i pr b s vs rest :
  victims i pr b s vs rest →
  (size (filter (λ kl, is_live (l_state kl.2) = true) (preempt_all vs (leases s))) ≤
   size (filter (λ kl : LeaseId * ComputeLease, is_live (l_state kl.2) = true) (leases s)))%nat.
Proof.
  intros Hvs. rewrite <-!size_dom. apply subseteq_size. intros k. rewrite !elem_of_dom.
  intros [l [Hl Hlive]%map_lookup_filter_Some].
  rewrite lookup_preempt_all, fmap_Some in Hl. destruct Hl as (l0 & Hl0 & ->).
  exists l0. apply map_lookup_filter_Some. split; [done|]. simpl in *.
  case_bool_decide as Hk; [|done].
  destruct (victims_candidates _ _ _ _ _ _ Hvs k) as (l1 & Hl1 & Hp); [set_solver|].
  simplify_eq. unfold preemptable_on, is_active in Hp. reflect_bools.
  by destruct (l_state l0).
Qed.
End acquire_results.

(** C36: under critical memory pressure only emergencies are served: any other
    request fails with the readings, and neither the planes, the leases, the
    registry nor any client is touched. An emergency is never throttled:
    without a preferred plane it is granted on every machine that has a plane,
    however large the request and however full the planes. *)
Theorem emergency_bypass (ho : HashOrder LeaseId ComputeLease) psi now fresh pr b pref unit pid s :
  map_Forall (λ k l, l_id l = k) (leases s) →
  (level psi = Critical → pr ≠ EmergencyTriage →
     acquire_lease psi now fresh pr b pref unit pid s =
       (Err (BusSaturation (memory_some_avg10 psi) (memory_full_avg10 psi)), s, [])) ∧
  (pr = EmergencyTriage → pref = None → planes s ≠ [] →
     ∃ p s' ws, acquire_lease psi now fresh pr b pref unit pid s =
         (Ok (new_lease fresh now (p_id p) b pr unit pid), s', ws) ∧
       p ∈ planes s ∧ leases s' !! fresh = Some (new_lease fresh now (p_id p) b pr unit pid) ∧
       (p_is_triage_reserved p = true ∨
        (∀ q, q ∈ planes s → p_is_triage_reserved q = false) ∧
        (is_cpu p = true ∨
         (∀ q, q ∈ planes s → is_cpu q = false ∧
            p_total_memory_bytes q ≤ p_total_memory_bytes p)))).
Proof.
  intros Hkeyed. split.
  - intros Hcrit Hpr. rewrite acquire_unfold. unfold is_critical, is_emergency.
    by rewrite bool_decide_true, bool_decide_false.
  - intros -> -> Hne. destruct (select_plane_emergency _ Hne) as [i Hsel].
    destruct (acquire_lease psi now fresh EmergencyTriage b None unit pid s) as [[r s'] ws] eqn:Hacq.
    destruct (acquire_inv _ _ _ _ _ _ _ _ _ _ _ _ Hkeyed Hacq) as [(_ & [] & _)|[_ Hrun]]; [done|].
    destruct Hrun as [(e & He & _)|(j & p & vs & rest & Hj & Hp & _ & Hout)];
      [congruence|].
    assert (j = i) as -> by congruence.
    destruct Hout as [(_ & [] & _)|(_ & -> & -> & ->)]; [done|].
    destruct (select_plane_Ok _ _ _ _ Hsel) as [q Hq].
    assert (q = p) as -> by (inversion Hq; congruence).
    exists p. eexists _, _. split; [done|]. split_and!; [by eapply list_elem_of_lookup_2| |].
    + cbn [leases with_leases]. apply lookup_insert_eq.
    + inversion Hq; subst; [by left|right; split; [done|by left]| |done].
      right. split; [naive_solver|]. right. naive_solver.
Qed.

(** C4: preemption is disciplined. Whatever [acquire_lease] returns, there is one
    list of leases it preempts, in the order it preempts them, and every other
    running lease goes on as it was. Each of them ran on the chosen plane with a
    priority strictly below the request's; at each the plane was still short,
    also with the memory of those preempted before it; and it is preempted only
    after every preemptable lease of a lower priority on that plane. *)
Theorem preemption_discipline (ho : HashOrder LeaseId ComputeLease)
    psi now fresh pr b pref unit pid s r s' ws :
  map_Forall (λ k l, l_id l = k) (leases s) → leases s !! fresh = None →
  acquire_lease psi now fresh pr b pref unit pid s = (r, s', ws) →
  ∃ vs, NoDup vs ∧
    (∀ k l, leases s !! k = Some l → is_active l = true →
       leases s' !! k = Some (if bool_decide (k ∈ vs) then set_state Preempted l else l)) ∧
    ∀ vs1 v vs2, vs = vs1 ++ v :: vs2 →
      ∃ i p lv, select_plane (planes s) pr pref = Ok i ∧ planes s !! i = Some p ∧
        leases s !! v = Some lv ∧ is_active lv = true ∧ l_plane_id lv = p_id p ∧
        priority_rank (l_priority lv) < priority_rank pr ∧
        available_at (restore_all (planes s) (p_id p) (leases s) vs1) i < b ∧
        ∀ c lc, leases s !! c = Some lc → preemptable_on (p_id p) pr lc = true →
          priority_rank (l_priority lc) < priority_rank (l_priority lv) → c ∈ vs1.
Proof.
  intros Hkeyed Hfresh Hacq.
  assert (Hnobody : s' = s → ∃ vs, NoDup vs ∧
    (∀ k l, leases s !! k = Some l → is_active l = true →
       leases s' !! k = Some (if bool_decide (k ∈ vs) then set_state Preempted l else l)) ∧ vs = []).
  { intros ->. exists []. split_and!; [constructor| |done]. intros k l Hk _.
    by rewrite bool_decide_false by apply not_elem_of_nil. }
  destruct (acquire_inv _ _ _ _ _ _ _ _ _ _ _ _ Hkeyed Hacq)
    as [(_ & _ & _ & Hs & _)|[_ [(e & _ & _ & Hs & _)|(i & p & vs & rest & Hsel & Hp & Hvs & Hout)]]].
  1, 2: destruct (Hnobody Hs) as (vs & Hnd & Hlook & ->); exists []; split_and!; [done..|];
    by intros [|? ?].
  exists vs. split_and!.
  - pose proof (victims_NoDup _ _ _ _ _ _ Hvs) as Hnd. by apply NoDup_app in Hnd as [Hnd _].
  - intros k l Hk Hl. destruct Hout as [(_ & _ & _ & -> & _)|(_ & _ & -> & _)].
    + by apply preempted_lookup.
    + cbn [leases with_leases]. rewrite lookup_insert_ne by congruence.
      destruct (sweep_leases_spec _ _ _ (preempted_lookup vs _ _ _ Hk)) as [->|(_ & Hdead & _)]; [done|].
      exfalso. unfold is_active in Hl. case_bool_decide; [done|]. by destruct (l_state l).
  - intros vs1 v vs2 Heq. pose proof (id_at_lookup _ _ _ Hp) as Hid.
    destruct (victims_candidates _ _ _ _ _ _ Hvs v) as (lv & Hlv & Hpre); [rewrite Heq; set_solver|].
    pose proof (victims_minimal _ _ _ _ _ _ Hvs _ _ _ Heq) as Hshort.
    rewrite Hid in Hpre, Hshort. unfold preemptable_on in Hpre. reflect_bools.
    exists i, p, lv. split_and!; [done..|]. intros c lc Hc Hcp Hlow.
    assert (c ∈ vs ++ rest) as [Hin|Hrest]%elem_of_app.
    { eapply (victims_all _ _ _ _ _ _ Hvs); [|done|by rewrite Hid].
      eapply (victims_short _ _ _ _ _ _ v Hvs). rewrite Heq. set_solver. }
    + rewrite Heq in Hin. apply elem_of_app in Hin as [|[->|Hin]%elem_of_cons]; [done| |].
      * simplify_eq. lia.
      * pose proof (victims_sorted _ _ _ _ _ _ Hvs _ _ _ _ _ _ Heq Hin Hlv Hc). lia.
    + assert (v ∈ vs) as Hv by (rewrite Heq; set_solver).
      pose proof (victims_order _ _ _ _ _ _ Hvs v c lv lc Hv Hrest Hlv Hc). lia.
Qed.


(** C39: a request refused for lack of memory is not free of effects: every
    lower-priority lease running on the plane has been preempted and its
    memory returned, yet none of their clients is told to yield or frozen. *)
Theorem refusal_preempts_silently (ho : HashOrder LeaseId ComputeLease)
    psi now fresh pr b pref unit pid s q b' a s' ws :
  map_Forall (λ k l, l_id l = k) (leases s) →
  acquire_lease psi now fresh pr b pref unit pid s = (Err (ResourceExhaustion q b' a), s', ws) →
  ws = [] ∧
  ∃ i p, select_plane (planes s) pr pref = Ok i ∧ planes s !! i = Some p ∧
    q = p_id p ∧ b' = b ∧ a = available_at (planes s') i ∧ a < b ∧
    ∀ k, leases s' !! k =
      (λ l, if preemptable_on q pr l then set_state Preempted l else l) <$> leases s !! k.
Proof.
  intros Hkeyed Hacq.
  destruct (acquire_inv _ _ _ _ _ _ _ _ _ _ _ _ Hkeyed Hacq)
    as [(_ & _ & ? & _)|[_ [(e & Hsel & Hr & _)|(i & p & vs & rest & Hsel & Hp & Hvs & Hout)]]].
  - done.
  - apply select_plane_Err in Hsel as [x ->]. done.
  - destruct Hout as [(Hshort & _ & Hr & -> & ->)|(_ & ? & _)]; [|done]. simplify_eq.
    split; [done|]. exists i, p. split_and!; [done..|].
    intros k. cbn [leases with_leases]. rewrite lookup_preempt_all.
    destruct (leases s !! k) as [l|] eqn:Hk; [|done]. cbn [fmap option_fmap option_map].
    destruct (victims_enough _ _ _ _ _ _ Hvs) as [Hroom|[-> Hinit]];
      [rewrite (id_at_lookup _ _ _ Hp) in Hroom; lia|].
    assert (bool_decide (k ∈ vs) = preemptable_on (p_id p) pr l) as ->; [|done].
    case_bool_decide as Hin.
    + destruct (victims_candidates _ _ _ _ _ _ Hvs k) as (l' & Hl' & Hpre); [set_solver|].
      rewrite (id_at_lookup _ _ _ Hp) in Hpre. by simplify_eq.
    + destruct (preemptable_on (p_id p) pr l) eqn:Hpre; [|done].
      destruct Hin. rewrite <-(app_nil_r vs). eapply (victims_all _ _ _ _ _ _ Hvs); [done|done|].
      by rewrite (id_at_lookup _ _ _ Hp).
Qed.
