(* ===== verification/Spec.v ===== *)
(** The books of the arbiter: what its leases hold, which runs promise no memory
    that is not there, and that in those memory is conserved. *)
From Stdlib Require Import SpecFloat.
From S2P Require Import Prelude Lease Errors Topology Model Psi Arbiter Ledger Grant Hotplug.
From S2P Require Import Runs Lifecycle Acquire.
Local Open Scope Z_scope.

(** * Holdings *)

(** Who holds how much on which plane. *)
Notation holdings := (gmap LeaseId (string * Z)).

(** What the holdings draw on the account [id]. *)
Definition used (backing : string → list string) (h : holdings) (id : string) : Z :=
  msum (λ pb, if bool_decide (id ∈ backing pb.1) then pb.2 else 0) h.

(** The holdings of an arbiter: its running leases. *)
Definition holding (l : ComputeLease) : option (string * Z) :=
  if is_active l then Some (l_plane_id l, l_allocated_memory_bytes l) else None.
Definition abs (s : ArbiterState) : holdings := omap holding (leases s).

(** What the planes of a topology can lend. *)
Definition capacity (topo : HardwareTopology) (id : string) : Z :=
  match find_first (has_id id) (t_planes topo) with
  | Some p => p_available_memory_bytes p
  | None => 0
  end.

(** * Careful runs *)

#[export] Instance fits_dec ps id b : Decision (fits ps id b).
Proof. unfold fits. apply _. Defined.

(** What the topology can lend covers the running leases that draw on it. *)
Definition covered (topo : HardwareTopology) (ls : gmap LeaseId ComputeLease) : Prop :=
  Forall (λ p, held (t_planes topo) ls (p_id p) ≤ p_available_memory_bytes p) (t_planes topo).
#[export] Instance covered_dec topo ls : Decision (covered topo ls).
Proof. unfold covered. apply _. Defined.

(** The steps that promise memory that is not there: a grant when a plane it
    draws on has no room for it (an emergency that forces its way in, or a
    grant of unified memory the host does not have), and a new topology that
    does not cover the leases that go on. *)
Definition overcommits (ho : HashOrder LeaseId ComputeLease) (op : arbiter_op) (s : ArbiterState) :
    bool :=
  match op with
  | AcquireLease psi _ _ pr b pref _ _ =>
      if is_critical psi && negb (is_emergency pr) then false
      else match select_plane (planes s) pr pref with
           | Ok i =>
               let ps := (reclaimed i pr b s).1.1 in
               ((b <=? available_at ps i) || is_emergency pr)
               && negb (bool_decide (fits ps (id_at (planes s) i) b))
           | Err _ => false
           end
  | UpdateTopology topo => negb (bool_decide (covered topo (leases s)))
  | _ => false
  end.

Definition replaces_topology (op : arbiter_op) : bool :=
  match op with UpdateTopology _ => true | _ => false end.
Definition topology_after (op : arbiter_op) (topo : HardwareTopology) : HardwareTopology :=
  match op with UpdateTopology topo' => topo' | _ => topo end.

(** The runs in which no step overcommits, with the topology they came to. *)
Inductive careful : HardwareTopology → ArbiterState → Prop :=
  | careful_new topo : planes_ok (t_planes topo) → careful topo (new_arbiter topo)
  | careful_step topo s op ho hm :
      careful topo s → op_ok op s → overcommits ho op s = false →
      careful (topology_after op topo) (exec ho hm op s).

Section spec.
Implicit Types (h : holdings) (s : ArbiterState) (ls : gmap LeaseId ComputeLease).

Lemma used_nonneg k h a : (∀ i x, h !! i = Some x → 0 ≤ x.2) → 0 ≤ used k h a.
Proof.
  intros Hb. apply msum_nonneg. intros i x Hi. case_bool_decide; [by eapply Hb|done].
Qed.

Lemma used_subseteq k h h' a :
  (∀ i x, h !! i = Some x → 0 ≤ x.2) → h' ⊆ h → used k h' a ≤ used k h a.
Proof.
  intros Hb Hsub. rewrite <-(map_difference_union h' h Hsub).
  assert (h' ##ₘ h ∖ h') as Hdisj by (apply map_disjoint_difference_r1; reflexivity).
  unfold used. rewrite msum_union by done.
  match goal with |- ?a ≤ ?a' + ?b => enough (0 ≤ b) by lia end.
  apply used_nonneg. intros i x [Hi _]%lookup_difference_Some. by eapply Hb.
Qed.

Lemma lookup_abs s k : abs s !! k = leases s !! k ≫= holding.
Proof. apply lookup_omap. Qed.

(** What is held of a plane is what the holdings draw on it. *)
Lemma held_used ps ls id : held ps ls id = used (charges ps) (omap holding ls) id.
Proof.
  unfold held, used. rewrite msum_omap. apply msum_ext. intros k l _.
  unfold draw, holding. by destruct (is_active l).
Qed.
End spec.

(** * The planes of a machine stay the same planes *)

Definition same_hardware : relation (list ComputePlane) :=
  Forall2 (λ p p', p' = set_available (p_available_memory_bytes p') p).

#[export] Instance same_hardware_preorder : PreOrder same_hardware.
Proof.
  split.
  - intros ps. apply Forall2_same_length_lookup. split; [done|].
    intros i p p' Hp Hp'. simplify_eq. by destruct p.
  - intros a b c Hab Hbc. unfold same_hardware in *. revert c Hbc.
    induction Hab as [|p q a b Hpq Hab IH]; intros c Hbc; inversion Hbc as [|? r ? ? Hqr]; subst;
      constructor; [|by apply IH].
    rewrite Hqr, Hpq. done.
Qed.

Section hardware.
Implicit Types (ps : list ComputePlane) (s : ArbiterState).

Lemma touch_hardware f ids ps : memory_only f → same_hardware ps (touch f ids ps).
Proof.
  intros Hf. unfold same_hardware, touch. apply Forall2_fmap_r, Forall_Forall2_diag, Forall_forall.
  intros p _. simpl. destruct (bool_decide _); [apply Hf|by destruct p].
Qed.

Lemma same_hardware_ids ps ps' : same_hardware ps ps' → p_id <$> ps' = p_id <$> ps.
Proof. induction 1 as [|p p' ps ps' Hp _ IH]; [done|]. rewrite !fmap_cons, IH. by rewrite Hp. Qed.

Lemma find_first_hardware (P : ComputePlane → bool) ps ps' :
  (∀ p a, P (set_available a p) = P p) → same_hardware ps ps' →
  match find_first P ps, find_first P ps' with
  | Some p, Some p' => p' = set_available (p_available_memory_bytes p') p
  | None, None => True
  | _, _ => False
  end.
Proof.
  intros HP. induction 1 as [|p p' ps ps' Hp _ IH]; [done|]. simpl.
  assert (P p' = P p) as -> by (by rewrite Hp). by destruct (P p).
Qed.

(** The same planes back each other, and can lend the same. *)
Lemma charges_hardware ps ps' id : same_hardware ps ps' → charges ps' id = charges ps id.
Proof.
  intros Hsame. unfold charges.
  pose proof (find_first_hardware (has_id id) ps ps' (λ _ _, eq_refl) Hsame) as H1.
  pose proof (find_first_hardware is_cpu ps ps' (λ _ _, eq_refl) Hsame) as H2.
  destruct (find_first (has_id id) ps) as [p|], (find_first (has_id id) ps') as [p'|]; try done.
  assert (p_id p' = p_id p ∧ is_uma p' = is_uma p) as [-> ->] by (by rewrite H1).
  destruct (is_uma p); [|done].
  destruct (find_first is_cpu ps) as [c|], (find_first is_cpu ps') as [c'|]; try done.
  by rewrite H2.
Qed.

Lemma held_hardware ps ps' ls id : same_hardware ps ps' → held ps' ls id = held ps ls id.
Proof.
  intros Hsame. apply msum_ext. intros k l _. unfold draw. by rewrite (charges_hardware ps ps').
Qed.

Lemma restore_hardware ps id b : NoDup (p_id <$> ps) → same_hardware ps (restore_plane_memory ps id b).
Proof. intros Hnd. rewrite restore_plane_memory_touch by done. apply touch_hardware, memory_only_credit. Qed.

Lemma restore_all_hardware ps pl ls vs :
  NoDup (p_id <$> ps) → same_hardware ps (restore_all ps pl ls vs).
Proof.
  revert ps. induction vs as [|v vs IH]; intros ps Hnd; simpl; [reflexivity|].
  unfold restore_all in *. simpl. destruct (ls !! v) as [l|]; [|by apply IH].
  pose proof (restore_hardware ps pl (l_allocated_memory_bytes l) Hnd) as Hr.
  etrans; [exact Hr|]. apply IH. by rewrite (same_hardware_ids _ _ Hr).
Qed.

Lemma end_state_hardware st id s :
  NoDup (p_id <$> planes s) → same_hardware (planes s) (planes (end_state st id s)).
Proof.
  intros Hnd. unfold end_state. destruct (leases s !! id) as [l|]; [|reflexivity].
  destruct (_ && _); [reflexivity|]. destruct (is_active l); [|reflexivity].
  by apply restore_hardware.
Qed.

Lemma mark_active_planes st id s : planes (mark_active st id s) = planes s.
Proof. unfold mark_active. destruct (leases s !! id) as [l|]; [|done]. by destruct (is_active l). Qed.

Lemma exec_hardware ho hm op s :
  arbiter_ok s → replaces_topology op = false →
  same_hardware (planes s) (planes (exec ho hm op s)).
Proof.
  intros Hs Hop. pose proof (proj2 (ok_planes _ Hs)) as Hnd.
  destruct op as [psi now fresh pr b pref unit pid| | | | |id|topo| | |id plane]; cbn [exec];
    try done; try reflexivity.
  - destruct (acquire_lease _ _ _ _ _ _ _ _ s) as [[r s'] ws] eqn:Hacq.
    destruct (acquire_inv _ _ _ _ _ _ _ _ _ _ _ _ (ok_keyed _ Hs) Hacq)
      as [(_ & _ & _ & -> & _)|[_ [(e & _ & _ & -> & _)|(i & p & vs & rest & _ & Hp & _ & Hout)]]];
      [reflexivity..|].
    pose proof (restore_all_hardware (planes s) (p_id p) (leases s) vs Hnd) as Hr.
    destruct Hout as [(_ & _ & _ & -> & _)|(_ & _ & -> & _)]; [exact Hr|].
    etrans; [exact Hr|]. unfold planes at 2; simpl.
    unfold same_hardware in Hr. eapply Forall2_lookup_l in Hr as (p' & Hp' & _); [|exact Hp].
    rewrite (charge_plane_touch _ i p') by (done || by rewrite (same_hardware_ids _ _ (restore_all_hardware _ _ _ _ Hnd))).
    apply touch_hardware, memory_only_debit.
  - rewrite release_lease_unfold. by apply end_state_hardware.
  - rewrite revoke_lease_unfold. by apply end_state_hardware.
  - rewrite yield_lease_unfold. cbn [state_of fst snd]. by rewrite mark_active_planes.
  - rewrite freeze_lease_unfold. cbn [state_of fst snd]. by rewrite mark_active_planes.
  - rewrite thaw_lease_unfold. destruct (leases s !! id) as [l|]; [|reflexivity].
    destruct (l_state l); try reflexivity. destruct (thaw_check _ _ _); [|reflexivity].
    unfold planes at 2; simpl. rewrite thaw_charge_touch by done.
    apply touch_hardware, memory_only_debit.
  - unfold pin_model_for_triage. destruct (pin_for_triage _ _ _). reflexivity.
Qed.
End hardware.

(** * The ledger is kept *)

Section ledger_kept.
Context (base : string → Z).
Implicit Types (ps : list ComputePlane) (s : ArbiterState).

(** [thaw_lease] checks everything it is about to charge. *)
Lemma thaw_check_fits ps id b :
  NoDup (p_id <$> ps) → thaw_check ps id b = Ok tt → fits ps id b.
Proof.
  intros Hnd. unfold thaw_check, fits, charges, plane_is_uma.
  destruct (find_first (has_id id) ps) as [p|] eqn:Hp; [|done].
  apply find_first_Some in Hp as [Hp _].
  destruct (Z.ltb_spec (p_available_memory_bytes p) b) as [|Hroom]; [done|].
  intros Hcheck. apply Forall_forall. intros q Hq Hin.
  apply elem_of_cons in Hin as [Heq|Hin].
  { by rewrite (NoDup_ids_eq ps q p). }
  destruct (is_uma p); [|set_solver].
  destruct (find_first is_cpu ps) as [c|] eqn:Hc; simpl in Hin; [|set_solver].
  apply find_first_Some in Hc as [Hc _]. apply list_elem_of_singleton in Hin.
  destruct (Z.ltb_spec (p_available_memory_bytes c) b); [done|].
  by rewrite (NoDup_ids_eq ps q c).
Qed.

Lemma end_state_ledger st id s :
  is_live st = false → ledger base s → ledger base (end_state st id s).
Proof.
  intros Hst Hs. unfold end_state. destruct (leases s !! id) as [l|] eqn:Hl; [|done].
  assert (is_active (set_state st l) = false) as Hdead by (by destruct st).
  destruct (_ && _); [done|]. destruct (is_active l) eqn:Hact.
  - eapply ledger_stop; try done. apply (ledger_bytes _ _ Hs id l Hl).
  - eapply ledger_same; try done. congruence.
Qed.

Lemma mark_active_ledger st id s :
  is_running st = true → ledger base s → ledger base (mark_active st id s).
Proof.
  intros Hst Hs. unfold mark_active. destruct (leases s !! id) as [l|] eqn:Hl; [|done].
  destruct (is_active l) eqn:Hact; [|done]. eapply ledger_same; try done. by rewrite Hact.
Qed.

Lemma thaw_lease_ledger id s : ledger base s → ledger base (state_of (thaw_lease id s)).
Proof.
  intros Hs. rewrite thaw_lease_unfold. destruct (leases s !! id) as [l|] eqn:Hl; [|done].
  assert (Hsame : is_active l = true → ledger base (with_leases (<[id := set_state Active l]> (leases s)) s)).
  { intros Hact. by eapply ledger_same. }
  destruct (l_state l) eqn:Hst; try done; try (apply Hsame; unfold is_active; by rewrite Hst).
  destruct (thaw_check _ _ _) as [[]|e] eqn:Hcheck; [|done]. cbn [state_of fst snd].
  pose proof (proj2 (ledger_planes _ _ Hs)) as Hnd.
  rewrite thaw_charge_touch by done.
  apply (ledger_start base s id (set_state Active l)); try done.
  - intros l' Hl'. simplify_eq. unfold is_active. by rewrite Hst.
  - apply (ledger_keyed _ _ Hs id l Hl).
  - apply (ledger_bytes _ _ Hs id l Hl).
  - by apply thaw_check_fits.
Qed.

Lemma reclaimed_hardware {ho : HashOrder LeaseId ComputeLease} i pr b s ps ls fz :
  ledger base s → reclaimed i pr b s = (ps, ls, fz) → same_hardware (planes s) ps.
Proof.
  intros Hs Hrec.
  destruct (reclaimed_victims _ _ _ _ _ _ _ (ledger_keyed _ _ Hs) Hrec) as (vs & rest & _ & -> & _).
  apply restore_all_hardware, (proj2 (ledger_planes _ _ Hs)).
Qed.

(** What a grant within the means leaves, and that there was room for it. *)
Lemma acquire_ledger ho hm psi now fresh pr b pref unit pid s :
  let op := AcquireLease psi now fresh pr b pref unit pid in
  ledger base s → leases s !! fresh = None → overcommits ho op s = false →
  ∃ s1, ledger base s1 ∧ same_hardware (planes s) (planes s1) ∧
    leases s1 !! fresh = None ∧
    (exec ho hm op s = s1 ∨
     ∃ i p, planes s1 !! i = Some p ∧ fits (planes s1) (p_id p) b ∧
       exec ho hm op s =
         with_leases (<[fresh := new_lease fresh now (p_id p) b pr unit pid]> (leases s1))
           (with_planes (charge_plane (planes s1) i b) s1)).
Proof.
  intros op Hs Hfresh Hwithin. unfold op in *. cbn [exec overcommits] in *. rewrite acquire_unfold.
  assert (Hstop : ∃ s1, ledger base s1 ∧ same_hardware (planes s) (planes s1) ∧
    leases s1 !! fresh = None ∧ s = s1) by (exists s; split_and!; try done; reflexivity).
  destruct (is_critical psi && _).
  { destruct Hstop as (s1 & ? & ? & ? & ->). eauto 10. }
  destruct (select_plane (planes s) pr pref) as [i|e] eqn:Hsel.
  2: { destruct Hstop as (s1 & ? & ? & ? & ->). eauto 10. }
  destruct (reclaimed i pr b s) as [[ps ls] fz] eqn:Hrec. cbn [fst] in Hwithin.
  pose proof (ledger_keyed _ _ Hs) as Hkeyed.
  pose proof (reclaimed_ledger _ _ _ _ _ _ _ _ Hs Hrec) as Hs1.
  pose proof (reclaimed_hardware _ _ _ _ _ _ _ Hs Hrec) as Hsame.
  pose proof (reclaimed_None _ _ _ _ _ _ _ _ Hkeyed Hrec Hfresh) as Hfresh1.
  destruct ((available_at ps i <? b) && negb (is_emergency pr)) eqn:Hrefused.
  { eexists. split_and!; [exact Hs1|done|done|by left]. }
  exists (with_leases (sweep_leases ls) (with_planes ps s)). split_and!.
  - apply (ledger_sweep base _ Hs1).
  - done.
  - by apply sweep_leases_None.
  - right. destruct (select_plane_in_range _ _ _ _ Hsel) as [p0 Hp0].
    destruct (Forall2_lookup_l _ _ _ _ _ Hsame Hp0) as (p & Hp & Hpp).
    exists i, p. rewrite (id_at_lookup _ _ _ Hp0) in *.
    assert (p_id p = p_id p0) as Hid by (by rewrite Hpp). rewrite Hid. split_and!; [done| |done].
    apply andb_false_iff in Hwithin as [Hrefuse|Hroom];
      [|by apply negb_false_iff, bool_decide_eq_true in Hroom].
    exfalso. revert Hrefused Hrefuse.
    destruct (Z.ltb_spec (available_at ps i) b), (Z.leb_spec b (available_at ps i)); try lia;
      by destruct (is_emergency pr).
Qed.

(** A new topology that covers the leases that go on starts a new ledger. *)
Lemma capacity_lookup topo p :
  planes_ok (t_planes topo) → p ∈ t_planes topo → capacity topo (p_id p) = p_available_memory_bytes p.
Proof.
  intros [_ Hnd] [i Hi]%list_elem_of_lookup. unfold capacity.
  by rewrite (find_first_has_id _ i p).
Qed.

Lemma draw_after_unplug ps id l : draw ps id (after_unplug ps l) = draw ps id l.
Proof.
  unfold after_unplug. destruct (_ && _) eqn:Hgone; [|done].
  apply andb_true_iff in Hgone as [_ Hgone]. apply negb_true_iff in Hgone.
  rewrite (draw_inactive _ _ (set_state Revoked l)) by done. unfold draw.
  rewrite charges_missing, bool_decide_false by (done || set_solver). by rewrite andb_false_r.
Qed.

Lemma held_after_unplug ps ls id : held ps (after_unplug ps <$> ls) id = held ps ls id.
Proof.
  unfold held. rewrite msum_fmap. apply msum_ext. intros k l _. apply draw_after_unplug.
Qed.

Lemma less_hardware ps d : same_hardware ps (less ps d).
Proof. apply Forall2_fmap_r, Forall_Forall2_diag, Forall_forall. done. Qed.

Lemma refit_ledger ho topo s :
  arbiter_ok s → planes_ok (t_planes topo) → covered topo (leases s) →
  ledger (capacity topo) (update_topology (ho := ho) topo s) ∧
  same_hardware (t_planes topo) (planes (update_topology (ho := ho) topo s)).
Proof.
  intros Hs Hok Hcov.
  pose proof (update_topology_ok (ho := ho) topo s Hs Hok) as Hs'.
  assert (Hb : map_Forall (λ _ l, 0 ≤ l_allocated_memory_bytes l) (leases s)).
  { intros k l Hl. by apply (ok_bytes _ Hs k l). }
  revert Hs'. rewrite update_topology_unfold by done. intros Hs'.
  assert (Hsame := less_hardware (t_planes topo) (held (t_planes topo) (leases s))).
  split; [|done]. split.
  - apply (ok_planes _ Hs').
  - intros k l Hl. by apply (ok_bytes _ Hs' k l).
  - apply (ok_keyed _ Hs').
  - apply Forall_forall. intros p' (p & -> & Hp)%list_elem_of_fmap.
    simpl. rewrite capacity_lookup by done.
    pose proof (proj1 (Forall_forall _ _) (proj1 Hok) p Hp) as Hpok. unfold plane_ok in Hpok.
    lia.
  - apply Forall_forall. intros p' (p & -> & Hp)%list_elem_of_fmap.
    simpl. rewrite capacity_lookup by done. unfold planes; simpl.
    rewrite (held_hardware _ _ _ _ Hsame), held_after_unplug.
    pose proof (proj1 (Forall_forall _ _) Hcov p Hp) as Hroom; simpl in Hroom.
    rewrite saturating_sub_exact by done. lia.
Qed.
End ledger_kept.

(** * Balance *)

Section balance.
Implicit Types (s : ArbiterState) (op : arbiter_op).

Lemma abs_insert s k l ps :
  is_active l = true →
  abs (with_leases (<[k := l]> (leases s)) (with_planes ps s)) =
    <[k := (l_plane_id l, l_allocated_memory_bytes l)]> (abs s).
Proof.
  intros Hact. unfold abs; simpl. rewrite omap_insert. unfold holding at 1. by rewrite Hact.
Qed.

(** The arbiter's planes are those of [topo], less what its leases hold. *)
Definition balanced (topo : HardwareTopology) s : Prop :=
  same_hardware (t_planes topo) (planes s) ∧ ledger (capacity topo) s.

Lemma balance_used topo s p :
  balanced topo s → p ∈ planes s →
  p_available_memory_bytes p + used (charges (t_planes topo)) (abs s) (p_id p) = capacity topo (p_id p).
Proof.
  intros [Hsame Hs] Hp.
  pose proof (proj1 (Forall_forall _ _) (ledger_balance _ _ Hs) p Hp) as Hbal. simpl in Hbal.
  by rewrite (held_hardware (t_planes topo)), held_used in Hbal.
Qed.

(** No account is overdrawn: one that is no plane has nothing drawn on it. *)
Lemma balanced_covers topo s a :
  planes_ok (t_planes topo) → balanced topo s →
  used (charges (t_planes topo)) (abs s) a ≤ capacity topo a.
Proof.
  intros Hok Hs. destruct (decide (a ∈ p_id <$> planes s)) as [Ha|Ha].
  - apply list_elem_of_fmap in Ha as (p & -> & Hp). pose proof (balance_used topo s p Hs Hp).
    pose proof (proj1 (Forall_forall _ _) (proj1 (ledger_planes _ _ (proj2 Hs))) p Hp) as Hpok.
    unfold plane_ok in Hpok. lia.
  - rewrite (same_hardware_ids _ _ (proj1 Hs)) in Ha.
    assert (used (charges (t_planes topo)) (abs s) a = 0) as ->.
    { apply msum_zero. intros k x _. rewrite bool_decide_false; [done|].
      intros (p & Hp & <-)%charges_elem. apply Ha, list_elem_of_fmap. eauto. }
    unfold capacity. destruct (find_first _ _) as [p|] eqn:Hp; [|done].
    apply find_first_Some in Hp as [Hp _].
    pose proof (proj1 (Forall_forall _ _) (proj1 Hok) p Hp) as Hpok. unfold plane_ok in Hpok. lia.
Qed.

(** The operations that start no lease and keep the topology. *)
Definition only_ends op : bool :=
  match op with AcquireLease _ _ _ _ _ _ _ _ | ThawLease _ | UpdateTopology _ => false | _ => true end.

Lemma only_ends_ledger base ho hm op s :
  only_ends op = true → ledger base s → ledger base (exec ho hm op s).
Proof.
  intros Hop Hs. destruct op; try done; cbn [exec].
  - rewrite release_lease_unfold. by apply end_state_ledger.
  - rewrite revoke_lease_unfold. by apply end_state_ledger.
  - rewrite yield_lease_unfold. by apply mark_active_ledger.
  - rewrite freeze_lease_unfold. by apply mark_active_ledger.
  - by destruct Hs.
  - by destruct Hs.
  - unfold pin_model_for_triage. destruct (pin_for_triage _ _ _). by destruct Hs.
Qed.

Lemma exec_balanced topo ho hm op s :
  arbiter_ok s → balanced topo s → op_ok op s → overcommits ho op s = false →
  ledger (capacity (topology_after op topo)) (exec ho hm op s) ∧
  same_hardware (t_planes (topology_after op topo)) (planes (exec ho hm op s)).
Proof.
  intros Hok Hs Hop Hwithin.
  assert (Hsame : replaces_topology op = false →
    same_hardware (t_planes topo) (planes (exec ho hm op s))).
  { intros Hrep. etrans; [apply Hs|]. by apply exec_hardware. }
  destruct (only_ends op) eqn:Hends.
  { assert (topology_after op topo = topo) as -> by by destruct op.
    split; [|apply Hsame; by destruct op]. apply only_ends_ledger; [done|apply Hs]. }
  destruct op as [psi now fresh pr b pref unit pid| | | | |id|topo'| | |]; try done;
    cbn [topology_after].
  - split; [|by apply Hsame]. destruct Hop as [Hb Hfresh].
    destruct (acquire_ledger (capacity topo) ho hm psi now fresh pr b pref unit pid s (proj2 Hs) Hfresh Hwithin)
      as (s1 & Hs1 & Hsame1 & Hfresh1 & [->|(i & p & Hp & Hroom & ->)]); [done|].
    pose proof (ledger_planes _ _ Hs1) as [_ Hnd]. rewrite (charge_plane_touch _ i p) by done.
    apply (ledger_start _ s1 fresh (new_lease fresh now (p_id p) b pr unit pid)); try done.
    + congruence.
    + apply Hb.
  - split; [apply thaw_lease_ledger, Hs|by apply Hsame].
  - cbn [overcommits] in Hwithin. apply negb_false_iff, bool_decide_eq_true in Hwithin.
    by apply refit_ledger.
Qed.
End balance.

Lemma new_balanced topo : planes_ok (t_planes topo) → balanced topo (new_arbiter topo).
Proof.
  intros Hok. split; [reflexivity|]. split; [done|apply map_Forall_empty..| |]; simpl;
    apply Forall_forall; intros p Hp; unfold planes in Hp; simpl in Hp; rewrite capacity_lookup by done.
  - pose proof (proj1 (Forall_forall _ _) (proj1 Hok) p Hp) as Hpok. unfold plane_ok in Hpok. lia.
  - unfold held. rewrite msum_empty. lia.
Qed.

Lemma careful_invariant topo s :
  careful topo s → planes_ok (t_planes topo) ∧ arbiter_ok s ∧ balanced topo s.
Proof.
  induction 1 as [topo Hok|topo s op ho hm Hrun (Hok & Hs & Hbal) Hop Hwithin].
  - split_and!; [done|by apply reachable_ok; constructor|by apply new_balanced].
  - destruct (exec_balanced topo ho hm op s Hs Hbal Hop Hwithin) as (Hled & Hsame).
    split_and!; [by destruct op|by apply exec_ok|done].
Qed.

(** Without running leases all memory is free. *)
Lemma careful_planes topo s :
  careful topo s →
  planes s = (λ p, set_available
    (p_available_memory_bytes p - held (t_planes topo) (leases s) (p_id p)) p) <$> t_planes topo.
Proof.
  intros Hrun. destruct (careful_invariant topo s Hrun) as (Hok & _ & [Hsame Hled]).
  apply list_eq. intros i. rewrite list_lookup_fmap.
  pose proof (proj1 (Forall2_lookup _ _ _) Hsame i) as Hi.
  inversion Hi as [p0 p Hp Hp0 Hpi|]; [|done]. simpl. f_equal. symmetry in Hp0, Hpi.
  pose proof (Forall_lookup_1 _ _ _ _ (ledger_balance _ _ Hled) Hpi) as Heq. simpl in Heq.
  assert (p_id p = p_id p0) as Hid by (by rewrite Hp).
  rewrite Hid, capacity_lookup, (held_hardware (t_planes topo)) in Heq
    by (done || by eapply list_elem_of_lookup_2).
  rewrite Hp. f_equal. lia.
Qed.

Lemma careful_idle topo s :
  careful topo s → (∀ k l, leases s !! k = Some l → is_active l = false) →
  planes s = t_planes topo.
Proof.
  intros Hrun Hidle. rewrite (careful_planes topo) by done.
  rewrite <-(list_fmap_id (t_planes topo)) at 2. apply list_fmap_ext. intros i p _.
  assert (held (t_planes topo) (leases s) (p_id p) = 0) as ->.
  { apply msum_zero. intros k l Hl. apply draw_inactive. by eapply Hidle. }
  rewrite Z.sub_0_r. by destruct p.
Qed.

(** C3: memory is conserved, also where planes share the memory of the host
    and across changes of the hardware. In every careful run each plane is the
    plane discovered last but for its free memory, and what is free plus what
    the running leases draw on it is what was free at its discovery: memory is
    neither lost nor leased twice. *)
Theorem memory_conserved topo s i p0 :
  careful topo s → t_planes topo !! i = Some p0 →
  let drawn := used (charges (t_planes topo)) (abs s) (p_id p0) in
  ∃ p, planes s !! i = Some p ∧ p = set_available (p_available_memory_bytes p) p0 ∧
    0 ≤ p_available_memory_bytes p ∧ 0 ≤ drawn ∧
    p_available_memory_bytes p + drawn = p_available_memory_bytes p0.
Proof.
  intros Hrun Hi drawn.
  destruct (careful_invariant topo s Hrun) as (Hok & Hs & Hbal).
  destruct (Forall2_lookup_l _ _ _ _ _ (proj1 Hbal) Hi) as (p & Hp & Hpp).
  assert (Hid : p_id p = p_id p0) by (by rewrite Hpp).
  assert (Hin : p ∈ planes s) by by eapply list_elem_of_lookup_2.
  pose proof (proj1 (Forall_forall _ _) (proj1 (ok_planes _ Hs)) p Hin) as Hpok. unfold plane_ok in Hpok.
  exists p. split_and!; [done|done|lia| |].
  - apply used_nonneg. intros k x. rewrite lookup_abs. intros (l & Hl & Hx)%bind_Some.
    unfold holding in Hx. destruct (is_active l); simplify_eq. simpl.
    apply (ledger_bytes _ _ (proj2 Hbal) k l Hl).
  - pose proof (balance_used topo s p Hbal Hin) as Heq. rewrite Hid in Heq.
    rewrite capacity_lookup in Heq; [done|done|by eapply list_elem_of_lookup_2].
Qed.
