(* ===== verification/Books.v ===== *)
(** The abstract specification of the arbiter: books of running and suspended
    holdings, the events that change them, and the refinement of arbiter.rs to
    it, event by event. *)
From Stdlib Require Import SpecFloat.
From S2P Require Import Prelude Lease Errors Topology Model Psi Arbiter Ledger Grant Hotplug.
From S2P Require Import Runs Lifecycle Acquire Spec.
Local Open Scope Z_scope.

(** * The specification *)

(** The books of a broker: what each account can lend, the accounts behind a
    plane (its own, and the host's behind unified memory), the holdings that
    run and those that were called in and may be taken up again. *)
Record Book := mkBook {
  b_capacity : string → Z;
  b_backing : string → list string;
  b_running : holdings;
  b_suspended : holdings;
}.

(** What the outside sees of an operation. *)
Inductive event :=
  | Lends (id : LeaseId) (plane : string) (bytes : Z)
  | Declines (plane : string) (bytes : Z)
  | Ends (id : LeaseId)
  | Resumes (id : LeaseId)
  | Refits (capacity : string → Z) (backing : string → list string)
  | Keeps.

Definition with_holdings (run susp : holdings) (b : Book) : Book :=
  mkBook (b_capacity b) (b_backing b) run susp.

(** All accounts behind the plane have room; the plane's own has none. *)
Definition room (b : Book) (plane : string) (bytes : Z) : Prop :=
  ∀ a, a ∈ b_backing b plane → used (b_backing b) (b_running b) a + bytes ≤ b_capacity b a.
Definition short (b : Book) (plane : string) (bytes : Z) : Prop :=
  b_capacity b plane < used (b_backing b) (b_running b) plane + bytes.

Definition suspend (vs : list LeaseId) (b : Book) : Book :=
  with_holdings (filter (λ kx, kx.1 ∉ vs) (b_running b))
    (filter (λ kx, kx.1 ∈ vs) (b_running b) ∪ b_suspended b) b.
Definition lend (id : LeaseId) (plane : string) (bytes : Z) (b : Book) : Book :=
  with_holdings (<[id := (plane, bytes)]> (b_running b)) (delete id (b_suspended b)) b.
Definition forget (id : LeaseId) (b : Book) : Book :=
  with_holdings (delete id (b_running b)) (delete id (b_suspended b)) b.
Definition refit (c : string → Z) (k : string → list string) (b : Book) : Book :=
  mkBook c k (filter (λ kx, k kx.2.1 ≠ []) (b_running b)) (filter (λ kx, k kx.2.1 ≠ []) (b_suspended b)).

(** The holdings [vs] on a plane are called in for [bytes], each while the plane
    is still short of them. *)
Record called_in (b : Book) (plane : string) (bytes : Z) (vs : list LeaseId) : Prop := {
  called_once : NoDup vs;
  called_running : ∀ v, v ∈ vs → ∃ x, b_running b !! v = Some (plane, x);
  called_short : ∀ vs1 v vs2, vs = vs1 ++ v :: vs2 → short (suspend vs1 b) plane bytes;
}.

Inductive spec_step : event → Book → Book → Prop :=
  | spec_lend b vs id plane bytes :
      called_in b plane bytes vs → b_running b !! id = None → b_suspended b !! id = None →
      0 ≤ bytes → room (suspend vs b) plane bytes →
      spec_step (Lends id plane bytes) b (lend id plane bytes (suspend vs b))
  | spec_decline b vs plane bytes :
      called_in b plane bytes vs → short (suspend vs b) plane bytes →
      spec_step (Declines plane bytes) b (suspend vs b)
  | spec_end b id : spec_step (Ends id) b (forget id b)
  | spec_resume b id plane bytes :
      b_suspended b !! id = Some (plane, bytes) → b_running b !! id = None → room b plane bytes →
      spec_step (Resumes id) b (lend id plane bytes b)
  | spec_resume_none b id :
      b_suspended b !! id = None → spec_step (Resumes id) b b
  | spec_refit c k b :
      (∀ a, used k (b_running (refit c k b)) a ≤ c a) → spec_step (Refits c k) b (refit c k b)
  | spec_keep b : spec_step Keeps b b.

(** * The books of an arbiter *)

Definition waiting (l : ComputeLease) : option (string * Z) :=
  if bool_decide (l_state l = Preempted) then Some (l_plane_id l, l_allocated_memory_bytes l) else None.
Definition book_of (topo : HardwareTopology) (s : ArbiterState) : Book :=
  mkBook (capacity topo) (charges (t_planes topo)) (abs s) (omap waiting (leases s)).
Definition empty_book (topo : HardwareTopology) : Book :=
  mkBook (capacity topo) (charges (t_planes topo)) ∅ ∅.

(** What an operation shows, from its arguments and its answer. *)
Definition event_of (ho : HashOrder LeaseId ComputeLease) (op : arbiter_op) (s : ArbiterState) : event :=
  match op with
  | AcquireLease psi now fresh pr b pref unit pid =>
      match res_of (acquire_lease psi now fresh pr b pref unit pid s) with
      | Ok l => Lends (l_id l) (l_plane_id l) (l_allocated_memory_bytes l)
      | Err (ResourceExhaustion plane needed _) => Declines plane needed
      | Err _ => Keeps
      end
  | ReleaseLease id => if is_ok (res_of (release_lease id s)) then Ends id else Keeps
  | RevokeLease id => if is_ok (res_of (revoke_lease id s)) then Ends id else Keeps
  | ThawLease id => if is_ok (res_of (thaw_lease id s)) then Resumes id else Keeps
  | UpdateTopology topo => Refits (capacity topo) (charges (t_planes topo))
  | _ => Keeps
  end.

(** No account is overdrawn. *)
Definition solvent (b : Book) : Prop :=
  (∀ k x, b_running b !! k = Some x → 0 ≤ x.2) ∧ (∀ k x, b_suspended b !! k = Some x → 0 ≤ x.2) ∧
  ∀ a, used (b_backing b) (b_running b) a ≤ b_capacity b a.

Section books.
Implicit Types (b : Book) (s : ArbiterState) (l : ComputeLease) (vs : list LeaseId).

Lemma lookup_waiting s k : omap waiting (leases s) !! k = leases s !! k ≫= waiting.
Proof. apply lookup_omap. Qed.

Lemma lookup_suspend_running vs b k :
  b_running (suspend vs b) !! k = if decide (k ∈ vs) then None else b_running b !! k.
Proof.
  simpl. destruct (decide (k ∈ vs)) as [Hk|Hk].
  - apply map_lookup_filter_None. right. simpl. by intros x _ [].
  - destruct (b_running b !! k) as [x|] eqn:Hx.
    + by apply map_lookup_filter_Some.
    + apply map_lookup_filter_None. by left.
Qed.

Lemma lookup_suspend_suspended vs b k :
  b_suspended (suspend vs b) !! k =
    if decide (k ∈ vs) then
      match b_running b !! k with Some h => Some h | None => b_suspended b !! k end
    else b_suspended b !! k.
Proof.
  simpl. rewrite lookup_union. destruct (decide (k ∈ vs)) as [Hk|Hk].
  - destruct (b_running b !! k) as [x|] eqn:Hx.
    + rewrite (proj2 (map_lookup_filter_Some _ _ _ x)) by done. by destruct (b_suspended b !! k).
    + rewrite (proj2 (map_lookup_filter_None _ _ _)) by (by left).
      by destruct (b_suspended b !! k).
  - rewrite (proj2 (map_lookup_filter_None _ _ _)) by (by right; intros x _ ?).
    by destruct (b_suspended b !! k).
Qed.

Lemma Book_eq b b' :
  b_capacity b = b_capacity b' → b_backing b = b_backing b' →
  (∀ k, b_running b !! k = b_running b' !! k) → (∀ k, b_suspended b !! k = b_suspended b' !! k) → b = b'.
Proof.
  destruct b, b'; simpl. intros -> -> Hr Hs. f_equal; apply map_eq; [apply Hr|apply Hs].
Qed.

(** ** What the specification promises *)

Lemma suspend_solvent vs b : solvent b → solvent (suspend vs b).
Proof.
  intros (Hr & Hs & Hu). split_and!.
  - intros k x. rewrite lookup_suspend_running. destruct (decide _); [done|apply Hr].
  - intros k x. rewrite lookup_suspend_suspended. destruct (decide _); [|apply Hs].
    destruct (b_running b !! k) as [y|] eqn:Hy; [|apply Hs]. intros [= <-]. by eapply Hr.
  - intros a. etrans; [|apply Hu]. apply used_subseteq; [apply Hr|]. apply map_filter_subseteq.
Qed.

Lemma lend_solvent id plane bytes b :
  solvent b → b_running b !! id = None → 0 ≤ bytes → room b plane bytes → solvent (lend id plane bytes b).
Proof.
  intros (Hr & Hs & Hu) Hid Hpos Hroom. split_and!; simpl.
  - intros k x [[_ <-]|[_ ?]]%lookup_insert_Some; [done|by eapply Hr].
  - intros k x [_ ?]%lookup_delete_Some. by eapply Hs.
  - intros a. unfold used. rewrite msum_insert_None by done. simpl.
    specialize (Hu a). specialize (Hroom a). unfold used in *.
    case_bool_decide as Ha; [specialize (Hroom Ha)|]; lia.
Qed.

(** The specification never overdraws an account. *)
Lemma spec_step_solvent e b b' : spec_step e b b' → solvent b → solvent b'.
Proof.
  intros Hstep Hb. destruct Hstep as [b vs id plane bytes Hvs Hr Hs Hpos Hroom|b vs plane bytes Hvs Hshort
    |b id|b id plane bytes Hs Hr Hroom|b id Hs|c k b Hfit|b]; try done.
  - apply lend_solvent; try done; [by apply suspend_solvent|].
    rewrite lookup_suspend_running, Hr. by destruct (decide _).
  - by apply suspend_solvent.
  - destruct Hb as (Hr & Hs & Hu). split_and!; simpl.
    + intros k x [_ ?]%lookup_delete_Some. by eapply Hr.
    + intros k x [_ ?]%lookup_delete_Some. by eapply Hs.
    + intros a. etrans; [|apply Hu]. apply used_subseteq; [apply Hr|]. apply delete_subseteq.
  - apply lend_solvent; [done..| |done]. by apply (proj1 (proj2 Hb) _ _ Hs).
  - destruct Hb as (Hr & Hs & Hu). split_and!; simpl; [..|done].
    + intros k' x [? _]%map_lookup_filter_Some. by eapply Hr.
    + intros k' x [? _]%map_lookup_filter_Some. by eapply Hs.
Qed.

(** ** The books of changed arbiters *)

Lemma book_suspend topo s vs ps :
  (∀ v, v ∈ vs → ∃ l, leases s !! v = Some l ∧ is_active l = true) →
  book_of topo (with_leases (preempt_all vs (leases s)) (with_planes ps s)) = suspend vs (book_of topo s).
Proof.
  intros Hvs. apply Book_eq; [done..| |]; intros k.
  - rewrite lookup_suspend_running. cbn [book_of b_running]. rewrite !lookup_abs.
    cbn [leases with_leases]. rewrite lookup_preempt_all.
    destruct (leases s !! k) as [l|]; cbn; [|by destruct (decide _)].
    case_bool_decide; destruct (decide _); done.
  - rewrite lookup_suspend_suspended. cbn [book_of b_suspended b_running]. rewrite lookup_abs, !lookup_waiting.
    cbn [leases with_leases]. rewrite lookup_preempt_all. destruct (decide (k ∈ vs)) as [Hk|Hk].
    + destruct (Hvs k Hk) as (l & -> & Hact). cbn. rewrite bool_decide_true by done.
      unfold holding. by rewrite Hact.
    + destruct (leases s !! k) as [l|]; cbn; [|done]. by rewrite bool_decide_false.
Qed.

Lemma book_sweep topo s ps :
  book_of topo (with_leases (sweep_leases (leases s)) (with_planes ps s)) = book_of topo s.
Proof.
  assert (Hkeep : ∀ k, (∃ l, leases s !! k = Some l ∧ sweep_leases (leases s) !! k = None ∧
      is_active l = false ∧ l_state l ≠ Preempted) ∨ sweep_leases (leases s) !! k = leases s !! k).
  { intros k. destruct (leases s !! k) as [l|] eqn:Hl; [|right; by apply sweep_leases_None].
    destruct (sweep_leases_spec _ _ _ Hl) as [->|(Hnone & Hdead & _)]; [by right|].
    left. exists l. split_and!; [done|done|unfold is_active; by destruct (l_state l)|].
    by destruct (l_state l). }
  apply Book_eq; [done..| |]; intros k; cbn [book_of b_running b_suspended];
    rewrite ?lookup_abs, ?lookup_waiting; cbn [leases with_leases];
    destruct (Hkeep k) as [(l & -> & -> & Hact & Hst)| ->]; try done; cbn.
  - unfold holding. by rewrite Hact.
  - unfold waiting. by rewrite bool_decide_false.
Qed.

Lemma book_store topo s k l ps :
  book_of topo (with_leases (<[k := l]> (leases s)) (with_planes ps s)) =
    with_holdings (match holding l with Some h => <[k := h]> (abs s) | None => delete k (abs s) end)
      (match waiting l with
       | Some h => <[k := h]> (omap waiting (leases s))
       | None => delete k (omap waiting (leases s))
       end) (book_of topo s).
Proof.
  unfold book_of, with_holdings, abs. cbn [leases with_leases]. f_equal.
  - destruct (holding l) eqn:Hh; [by apply omap_insert_Some|by apply omap_insert_None].
  - destruct (waiting l) eqn:Hh; [by apply omap_insert_Some|by apply omap_insert_None].
Qed.

(** A lease that starts. *)
Lemma book_lend topo s k l ps :
  is_active l = true →
  book_of topo (with_leases (<[k := l]> (leases s)) (with_planes ps s)) =
    lend k (l_plane_id l) (l_allocated_memory_bytes l) (book_of topo s).
Proof.
  intros Hact. rewrite book_store. unfold holding, waiting. rewrite Hact.
  rewrite bool_decide_false; [done|]. intros Hst. unfold is_active in Hact. by rewrite Hst in Hact.
Qed.

(** A lease that changes state only among the running, or the ended, ones. *)
Lemma book_same topo s k l st ps :
  leases s !! k = Some l → is_active l = is_active (set_state st l) →
  (l_state l = Preempted ↔ st = Preempted) →
  book_of topo (with_leases (<[k := set_state st l]> (leases s)) (with_planes ps s)) = book_of topo s.
Proof.
  intros Hk Hact Hst. apply Book_eq; [done..| |]; intros k'; cbn [book_of b_running b_suspended];
    rewrite ?lookup_abs, ?lookup_waiting; cbn [leases with_leases];
    (destruct (decide (k' = k)) as [->|]; [rewrite lookup_insert_eq, Hk|by rewrite lookup_insert_ne by done]);
    cbn.
  - unfold holding. by rewrite Hact.
  - unfold waiting. cbn. by rewrite (bool_decide_ext _ _ Hst).
Qed.

Lemma book_planes topo s ps : book_of topo (with_planes ps s) = book_of topo s.
Proof. done. Qed.
End books.

(** * The refinement *)

Section refinement.
Implicit Types (s : ArbiterState) (op : arbiter_op) (vs : list LeaseId).

(** Preempting running leases of a plane, one by one, keeps the balance. *)
Lemma preempted_ledger base plane_id vs s ps ls :
  ledger base (with_leases ls (with_planes ps s)) → NoDup vs →
  (∀ v, v ∈ vs → ∃ l, ls !! v = Some l ∧ is_active l = true ∧ l_plane_id l = plane_id) →
  ledger base (with_leases (preempt_all vs ls) (with_planes (restore_all ps plane_id ls vs) s)).
Proof.
  revert ps ls. induction vs as [|v vs IH]; intros ps ls Hled Hnd Hvs.
  { unfold preempt_all. by rewrite map_on_nil. }
  apply NoDup_cons in Hnd as [Hv Hnd]. destruct (Hvs v ltac:(left)) as (l & Hl & Hact & Hpl).
  unfold preempt_all. rewrite <-(map_on_cons _ v vs ls l) by done.
  assert (restore_all ps plane_id ls (v :: vs) =
    restore_all (restore_plane_memory ps (l_plane_id l) (l_allocated_memory_bytes l)) plane_id
      (<[v := set_state Preempted l]> ls) vs) as ->.
  { rewrite restore_all_insert by done. unfold restore_all. simpl. by rewrite Hl, Hpl. }
  apply IH; [|done|].
  - apply (ledger_stop base _ v l (set_state Preempted l) Hled Hl Hact eq_refl eq_refl).
    apply (ledger_bytes _ _ Hled v l Hl).
  - intros w Hw. rewrite lookup_insert_ne by (intros ->; done). apply Hvs. by right.
Qed.

Lemma preempted_balanced topo s plane_id vs :
  balanced topo s → NoDup vs →
  (∀ v, v ∈ vs → ∃ l, leases s !! v = Some l ∧ is_active l = true ∧ l_plane_id l = plane_id) →
  balanced topo (with_leases (preempt_all vs (leases s))
    (with_planes (restore_all (planes s) plane_id (leases s) vs) s)).
Proof.
  intros [Hsame Hled] Hnd Hvs. split.
  - etrans; [exact Hsame|]. apply restore_all_hardware, (proj2 (ledger_planes _ _ Hled)).
  - apply preempted_ledger; [by rewrite with_id|done..].
Qed.

(** Room on the planes is room on the books. *)
Lemma books_room topo s plane b :
  balanced topo s → fits (planes s) plane b → room (book_of topo s) plane b.
Proof.
  intros Hs Hfits a Ha. cbn [book_of b_backing b_running b_capacity] in *.
  rewrite <-(charges_hardware _ (planes s)) in Ha by apply Hs.
  destruct (charges_elem _ _ _ Ha) as (p & Hp & <-).
  pose proof (balance_used topo s p Hs Hp).
  pose proof (proj1 (Forall_forall _ _) Hfits p Hp Ha). simpl in *. lia.
Qed.

Lemma available_short topo s i p b :
  balanced topo s → planes s !! i = Some p → available_at (planes s) i < b →
  short (book_of topo s) (p_id p) b.
Proof.
  intros Hs Hp Hav. unfold available_at in Hav. rewrite Hp in Hav. unfold short.
  pose proof (balance_used topo s p Hs ltac:(by eapply list_elem_of_lookup_2)). simpl. lia.
Qed.

(** The victims of a request are holdings called in. *)
Section request.
Context {ho : HashOrder LeaseId ComputeLease} (topo : HardwareTopology) (s : ArbiterState).
Context (i : nat) (p0 : ComputePlane) (pr : LeasePriority) (b : Z) (vs rest : list LeaseId).
Hypothesis Hbal : balanced topo s.
Hypothesis Hp0 : planes s !! i = Some p0.
Hypothesis Hvs : victims i pr b s vs rest.

Lemma victim_running v :
  v ∈ vs → ∃ l, leases s !! v = Some l ∧ is_active l = true ∧ l_plane_id l = p_id p0.
Proof.
  intros Hv. destruct (victims_candidates _ _ _ _ _ _ Hvs v) as (l & Hl & Hp); [set_solver|].
  rewrite (id_at_lookup _ _ _ Hp0) in Hp. unfold preemptable_on in Hp. reflect_bools. eauto.
Qed.

Definition after (vs : list LeaseId) : ArbiterState :=
  with_leases (preempt_all vs (leases s))
    (with_planes (restore_all (planes s) (p_id p0) (leases s) vs) s).

Lemma after_prefix vs1 vs2 :
  vs = vs1 ++ vs2 →
  balanced topo (after vs1) ∧ book_of topo (after vs1) = suspend vs1 (book_of topo s) ∧
  (∃ p, planes (after vs1) !! i = Some p ∧ p_id p = p_id p0).
Proof.
  intros Heq. assert (Hin : ∀ v, v ∈ vs1 → ∃ l, leases s !! v = Some l ∧ is_active l = true ∧ l_plane_id l = p_id p0).
  { intros v Hv. apply victim_running. rewrite Heq. set_solver. }
  assert (Hafter : balanced topo (after vs1)).
  { apply preempted_balanced; [done| |done]. pose proof (victims_NoDup _ _ _ _ _ _ Hvs) as Hnd.
    rewrite Heq in Hnd. by apply NoDup_app in Hnd as [[Hnd _]%NoDup_app _]. }
  split_and!; [done|apply book_suspend; naive_solver|].
  assert (Hsame : same_hardware (planes s) (planes (after vs1))).
  { apply restore_all_hardware, (proj2 (ledger_planes _ _ (proj2 Hbal))). }
  destruct (Forall2_lookup_l _ _ _ _ _ Hsame Hp0) as (p & Hp & Hpp). exists p. split; [done|].
  by rewrite Hpp.
Qed.

Lemma prefix_short vs1 vs2 :
  vs = vs1 ++ vs2 → available_at (planes (after vs1)) i < b →
  short (suspend vs1 (book_of topo s)) (p_id p0) b.
Proof.
  intros Heq Hav. destruct (after_prefix _ _ Heq) as (Hb & <- & p & Hp & <-).
  by eapply available_short.
Qed.

Lemma victims_called_in : called_in (book_of topo s) (p_id p0) b vs.
Proof.
  split.
  - pose proof (victims_NoDup _ _ _ _ _ _ Hvs) as Hnd. by apply NoDup_app in Hnd as [Hnd _].
  - intros v Hv. destruct (victim_running v Hv) as (l & Hl & Hact & <-).
    exists (l_allocated_memory_bytes l). simpl. rewrite lookup_abs, Hl. simpl. unfold holding.
    by rewrite Hact.
  - intros vs1 v vs2 Heq. eapply prefix_short; [done|].
    pose proof (victims_minimal _ _ _ _ _ _ Hvs _ _ _ Heq) as Hshort.
    by rewrite (id_at_lookup _ _ _ Hp0) in Hshort.
Qed.
End request.

(** ** Each operation *)

Lemma acquire_refines topo ho psi now fresh pr b pref unit pid s :
  let op := AcquireLease psi now fresh pr b pref unit pid in
  arbiter_ok s → balanced topo s → op_ok op s → overcommits ho op s = false →
  spec_step (event_of ho op s) (book_of topo s)
    (book_of topo (state_of (acquire_lease psi now fresh pr b pref unit pid s))).
Proof.
  intros op Hok Hs [Hb Hfresh] Hwithin. unfold op in *. cbn [event_of overcommits] in *. clear op.
  rewrite acquire_unfold. destruct (is_critical psi && _); [apply spec_keep|].
  destruct (select_plane (planes s) pr pref) as [i|e] eqn:Hsel.
  2: { apply select_plane_Err in Hsel as [x ->]. apply spec_keep. }
  destruct (select_plane_in_range _ _ _ _ Hsel) as [p Hp].
  destruct (reclaimed i pr b s) as [[ps ls] fz] eqn:Hrec. cbn [fst] in Hwithin.
  destruct (reclaimed_victims _ _ _ _ _ _ _ (ok_keyed _ Hok) Hrec) as (vs & rest & Hvs & -> & -> & _).
  rewrite (id_at_lookup _ _ _ Hp) in *.
  destruct (after_prefix topo s i p pr b vs rest Hs Hp Hvs vs [] ltac:(by rewrite app_nil_r))
    as (Hafter & Hbook & _).
  pose proof (victims_called_in topo s i p pr b vs rest Hs Hp Hvs) as Hcalled.
  destruct ((available_at _ i <? b) && negb (is_emergency pr)) eqn:Hrefused; cbn [res_of state_of fst snd].
  - change (spec_step (Declines (p_id p) b) (book_of topo s) (book_of topo (after s p vs))).
    rewrite Hbook. apply spec_decline; [done|].
    eapply (prefix_short topo s i p pr b vs rest Hs Hp Hvs vs []); [by rewrite app_nil_r|].
    by apply andb_true_iff in Hrefused as [?%Z.ltb_lt _].
  - assert (Hfits : fits (planes (after s p vs)) (p_id p) b).
    { apply andb_false_iff in Hwithin as [Hwithin|Hroom].
      - exfalso. revert Hrefused Hwithin. rewrite Z.ltb_antisym.
        destruct (b <=? _), (is_emergency pr); done.
      - by apply negb_false_iff, bool_decide_eq_true in Hroom. }
    set (l := new_lease fresh now (p_id p) b pr unit pid).
    set (swept := with_leases (sweep_leases (leases (after s p vs)))
      (with_planes (planes (after s p vs)) (after s p vs))).
    match goal with |- spec_step _ _ (book_of _ (with_leases _ (with_planes ?ps _))) =>
      change (spec_step (Lends fresh (p_id p) b) (book_of topo s)
        (book_of topo (with_leases (<[fresh := l]> (leases swept)) (with_planes ps swept)))) end.
    rewrite book_lend by done. unfold swept.
    rewrite book_sweep, Hbook. apply spec_lend; try done.
    + simpl. by rewrite lookup_abs, Hfresh.
    + simpl. by rewrite lookup_waiting, Hfresh.
    + apply Hb.
    + rewrite <-Hbook. by apply books_room.
Qed.

Lemma end_state_refines topo st id s :
  is_live st = false → book_of topo (end_state st id s) = 
    match leases s !! id with Some _ => forget id (book_of topo s) | None => book_of topo s end.
Proof.
  intros Hst. unfold end_state. destruct (leases s !! id) as [l|] eqn:Hl; [|done].
  assert (Hgone : ∀ ps, book_of topo (with_leases (<[id := set_state st l]> (leases s)) (with_planes ps s))
    = forget id (book_of topo s)).
  { intros ps. rewrite book_store. unfold holding, waiting, is_active. by destruct st. }
  destruct (is_active l) eqn:Hact; simpl; [apply Hgone|].
  case_bool_decide as Hp; simpl; [apply (Hgone (planes s))|].
  apply Book_eq; [done..| |]; intros k; cbn [book_of b_running b_suspended forget with_holdings];
    (destruct (decide (k = id)) as [->|]; [rewrite lookup_delete_eq|by rewrite lookup_delete_ne by done]).
  - rewrite lookup_abs, Hl. simpl. unfold holding. by rewrite Hact.
  - rewrite lookup_waiting, Hl. simpl. unfold waiting. by rewrite bool_decide_false.
Qed.

Lemma mark_active_book topo st id s :
  is_running st = true → book_of topo (mark_active st id s) = book_of topo s.
Proof.
  intros Hst. unfold mark_active. destruct (leases s !! id) as [l|] eqn:Hl; [|done].
  destruct (is_active l) eqn:Hact; [|done].
  apply (book_same topo s id l st (planes s)); [done|rewrite Hact; by destruct st|].
  unfold is_active in Hact. by destruct (l_state l), st.
Qed.

Lemma thaw_refines topo ho id s :
  balanced topo s →
  spec_step (event_of ho (ThawLease id) s) (book_of topo s) (book_of topo (state_of (thaw_lease id s))).
Proof.
  intros Hs. cbn [event_of]. rewrite thaw_lease_unfold.
  destruct (leases s !! id) as [l|] eqn:Hl; [|apply spec_keep].
  assert (Hsusp : omap waiting (leases s) !! id = waiting l) by (by rewrite lookup_waiting, Hl).
  assert (Hsame : l_state l = Frozen ∨ l_state l = Preempting →
    book_of topo (with_leases (<[id := set_state Active l]> (leases s)) s) = book_of topo s).
  { intros Hst. apply (book_same topo s id l Active (planes s)); [done|unfold is_active|];
      by destruct Hst as [-> | ->]. }
  destruct (l_state l) eqn:Hst; cbn [res_of state_of fst snd is_ok];
    try (rewrite Hsame by auto); try (apply spec_resume_none; simpl; rewrite Hsusp; unfold waiting;
      by rewrite Hst).
  destruct (thaw_check _ _ _) as [[]|e] eqn:Hcheck; [|apply spec_keep].
  cbn [res_of state_of fst snd is_ok]. rewrite book_lend by done.
  apply spec_resume.
  - simpl. rewrite Hsusp. unfold waiting. by rewrite Hst, bool_decide_true.
  - simpl. rewrite lookup_abs, Hl. simpl. unfold holding, is_active. by rewrite Hst.
  - apply books_room; [done|]. apply thaw_check_fits; [|done].
    apply (proj2 (ledger_planes _ _ (proj2 Hs))).
Qed.

Lemma refit_refines topo topo' ho s :
  arbiter_ok s → planes_ok (t_planes topo') →
  book_of topo' (update_topology (ho := ho) topo' s) =
    refit (capacity topo') (charges (t_planes topo')) (book_of topo s).
Proof.
  intros Hs Hok. rewrite update_topology_unfold; [|done|].
  2: { intros k l Hl. by apply (ok_bytes _ Hs k l). }
  assert (Hgone : ∀ l, after_unplug (t_planes topo') l =
    if (is_active l || bool_decide (l_state l = Preempted))
       && bool_decide (charges (t_planes topo') (l_plane_id l) = []) then set_state Revoked l else l).
  { intros l. unfold after_unplug. rewrite existsb_find_first. unfold charges.
    destruct (find_first _ (t_planes topo')).
    - rewrite (bool_decide_false (_ :: _ = _)) by done. by rewrite !andb_false_r.
    - by rewrite (bool_decide_true ([] = [])). }
  assert (Hfilter : ∀ (f : ComputeLease → option (string * Z)) k,
    (∀ l, f (set_state Revoked l) = None) →
    (∀ l x, f l = Some x → is_active l || bool_decide (l_state l = Preempted) = true ∧ x.1 = l_plane_id l) →
    omap f (after_unplug (t_planes topo') <$> leases s) !! k =
      filter (λ kx, charges (t_planes topo') kx.2.1 ≠ []) (omap f (leases s)) !! k).
  { intros f k Hrev Hf. rewrite lookup_omap, lookup_fmap, map_lookup_filter, lookup_omap.
    destruct (leases s !! k) as [l|]; [|done]. simpl. rewrite Hgone.
    destruct (f l) as [x|] eqn:Hx; simpl.
    - destruct (Hf l x Hx) as [-> Hpl]. simpl. rewrite Hpl. case_guard as Hc; simpl in Hc.
      + by rewrite bool_decide_false, Hx.
      + rewrite bool_decide_true, Hrev; [done|]. exact Hc.
    - destruct (_ && _); [apply Hrev|done]. }
  apply Book_eq; [done..| |]; intros k; cbn [book_of b_running b_suspended refit leases]; apply Hfilter.
  - done.
  - intros l x. unfold holding. destruct (is_active l); [|done].
    intros [= <-]. by split.
  - intros l. unfold waiting. by rewrite bool_decide_false.
  - intros l x. unfold waiting. case_bool_decide; [|done]. intros [= <-]. by rewrite orb_true_r.
Qed.
End refinement.

(** C2: the arbiter implements the books of a lender that never overdraws an
    account. Its books start empty, and as long as no step promises memory that
    is not there each operation is exactly the one step of the specification
    that its answer announces: a grant begins that one holding, under an
    identifier that is new, where every account behind the plane has room,
    calling in holdings of that plane only and each only while the plane is
    still short; a refusal calls in and begins nothing; releasing or revoking
    ends that holding for good; thawing resumes exactly what was suspended,
    where there is room; a new topology keeps the holdings whose plane it has;
    and everything else leaves the books alone. *)
Theorem arbiter_refines_ledger topo ho hm op s :
  careful topo s → op_ok op s → overcommits ho op s = false →
  (∀ topo0, book_of topo0 (new_arbiter topo0) = empty_book topo0) ∧
  solvent (book_of topo s) ∧
  spec_step (event_of ho op s) (book_of topo s)
    (book_of (topology_after op topo) (exec ho hm op s)).
Proof.
  intros Hrun Hop Hwithin. destruct (careful_invariant topo s Hrun) as (Htopo & Hok & Hs).
  split_and!.
  - intros topo0. unfold book_of, empty_book, abs. simpl. by rewrite !omap_empty.
  - split_and!.
    + intros k x. simpl. rewrite lookup_abs. intros (l & Hl & Hx)%bind_Some. unfold holding in Hx.
      destruct (is_active l); simplify_eq. apply (ok_bytes _ Hok k l Hl).
    + intros k x. simpl. rewrite lookup_waiting. intros (l & Hl & Hx)%bind_Some. unfold waiting in Hx.
      case_bool_decide; simplify_eq. apply (ok_bytes _ Hok k l Hl).
    + intros a. by apply balanced_covers.
  - destruct op as [psi now fresh pr b pref unit pid|id|id|id|id|id|topo'|d|m|m pl];
      cbn [topology_after exec].
    + by apply acquire_refines.
    + cbn [event_of]. rewrite release_lease_unfold. cbn [state_of res_of fst snd].
      rewrite end_state_refines by done. destruct (leases s !! id); [apply spec_end|apply spec_keep].
    + cbn [event_of]. rewrite revoke_lease_unfold. cbn [state_of res_of fst snd].
      rewrite end_state_refines by done. destruct (leases s !! id); [apply spec_end|apply spec_keep].
    + rewrite yield_lease_unfold. cbn [state_of fst snd]. rewrite mark_active_book by done. apply spec_keep.
    + rewrite freeze_lease_unfold. cbn [state_of fst snd]. rewrite mark_active_book by done. apply spec_keep.
    + by apply thaw_refines.
    + rewrite (refit_refines topo) by done. apply spec_refit. intros a.
      rewrite <-(refit_refines topo topo' ho) by done. apply balanced_covers; [done|].
      cbn [overcommits] in Hwithin. apply negb_false_iff, bool_decide_eq_true in Hwithin.
      by destruct (refit_ledger ho topo' s Hok Hop Hwithin).
    + apply spec_keep.
    + unfold arbiter_remove_model. destruct (remove_model _ _). apply spec_keep.
    + unfold pin_model_for_triage. destruct (pin_for_triage _ _ _). apply spec_keep.
Qed.
