(* ===== verification/Admission.v ===== *)
(** Which requests [acquire_lease] of arbiter.rs grants, in closed form: a
    specification that knows nothing of candidates, of their order or of the
    loop that preempts them. *)
From Stdlib Require Import SpecFloat.
From S2P Require Import Prelude Lease Errors Topology Model Psi Arbiter Ledger Grant Hotplug.
From S2P Require Import Runs Lifecycle Acquire Spec.
Local Open Scope Z_scope.

(** What a request of priority [pr] cannot have of the plane named [id]: the
    memory drawn on it by leases that do not run on it (they run on the unified
    memory it backs) or that rank no lower. *)
Definition firm (ps : list ComputePlane) (pr : LeasePriority) (ls : gmap LeaseId ComputeLease)
    (id : string) : Z :=
  msum (λ l, if preemptable_on id pr l then 0 else draw ps id l) ls.

(** What is left for it of the [i]-th plane. *)
Definition reach (topo : HardwareTopology) (pr : LeasePriority) (ls : gmap LeaseId ComputeLease)
    (i : nat) : Z :=
  available_at (t_planes topo) i - firm (t_planes topo) pr ls (id_at (t_planes topo) i).

(** The answer to a request. *)
Definition admission (topo : HardwareTopology) (psi : PressureMetrics) (now : Z) (fresh : LeaseId)
    (pr : LeasePriority) (b : Z) (pref unit : option string) (pid : option Z) (s : ArbiterState) :
    result Error ComputeLease :=
  if is_critical psi && negb (is_emergency pr)
  then Err (BusSaturation (memory_some_avg10 psi) (memory_full_avg10 psi))
  else match select_plane (planes s) pr pref with
       | Err e => Err e
       | Ok i =>
           let id := id_at (t_planes topo) i in
           let free := reach topo pr (leases s) i in
           if (free <? b) && negb (is_emergency pr) then Err (ResourceExhaustion id b free)
           else Ok (new_lease fresh now id b pr unit pid)
       end.

Section admission.
Implicit Types (ps : list ComputePlane) (ls : gmap LeaseId ComputeLease) (vs : list LeaseId).

(** All the leases that must yield have yielded. *)
Definition yielded (pr : LeasePriority) (id : string) ls : gmap LeaseId ComputeLease :=
  (λ l, if preemptable_on id pr l then set_state Preempted l else l) <$> ls.

Lemma held_yielded ps pr ls id : held ps (yielded pr id ls) id = firm ps pr ls id.
Proof.
  unfold held, yielded. rewrite msum_fmap. apply msum_ext. intros k l _.
  by destruct (preemptable_on id pr l).
Qed.

Lemma firm_le ps pr ls id vs :
  map_Forall (λ _ l, 0 ≤ l_allocated_memory_bytes l) ls →
  (∀ k, k ∈ vs → ∃ l, ls !! k = Some l ∧ preemptable_on id pr l = true) →
  firm ps pr ls id ≤ held ps (preempt_all vs ls) id.
Proof.
  intros Hb Hvs. rewrite <-held_yielded. apply msum_le_maps. intros k.
  unfold yielded. rewrite lookup_fmap, lookup_preempt_all.
  destruct (ls !! k) as [l|] eqn:Hk; cbn [fmap option_fmap option_map]; [|done].
  case_bool_decide as Hin.
  - destruct (Hvs k Hin) as (l' & Hl' & Hp). simplify_eq. by rewrite Hp.
  - destruct (preemptable_on id pr l); [|done]. rewrite draw_inactive by done.
    apply draw_nonneg, (Hb k l Hk).
Qed.

Lemma firm_all ps pr ls id vs :
  (∀ k, k ∈ vs → ∃ l, ls !! k = Some l ∧ preemptable_on id pr l = true) →
  (∀ k l, ls !! k = Some l → preemptable_on id pr l = true → k ∈ vs) →
  held ps (preempt_all vs ls) id = firm ps pr ls id.
Proof.
  intros Hvs Hall. rewrite <-held_yielded. f_equal. apply map_eq. intros k.
  unfold yielded. rewrite lookup_fmap, lookup_preempt_all.
  destruct (ls !! k) as [l|] eqn:Hk; cbn [fmap option_fmap option_map]; [|done].
  assert (bool_decide (k ∈ vs) = preemptable_on id pr l) as ->; [|done].
  case_bool_decide as Hin.
  - destruct (Hvs k Hin) as (l' & Hl' & Hp). by simplify_eq.
  - destruct (preemptable_on id pr l) eqn:Hp; [|done]. destruct Hin. eauto.
Qed.

(** What is free once the loop has made room, in terms of what it can reach: as
    much only if everyone had to yield, and never more. *)
Lemma reclaimed_reach {ho : HashOrder LeaseId ComputeLease} topo i pr b s ps ls fz :
  planes_ok (t_planes topo) → balanced topo s → is_Some (planes s !! i) →
  reclaimed i pr b s = (ps, ls, fz) →
  id_at (planes s) i = id_at (t_planes topo) i ∧
  available_at ps i ≤ reach topo pr (leases s) i ∧
  (available_at ps i < b → available_at ps i = reach topo pr (leases s) i).
Proof.
  intros Hok [Hsame Hled] [p Hp] Hrec.
  destruct (Forall2_lookup_r _ _ _ _ _ Hsame Hp) as (p0 & Hp0 & Hpp).
  assert (Hid : p_id p = p_id p0) by (by rewrite Hpp).
  pose proof (reclaimed_ledger _ _ _ _ _ _ _ _ Hled Hrec) as Hled'.
  destruct (reclaimed_victims _ _ _ _ _ _ _ (ledger_keyed _ _ Hled) Hrec)
    as (vs & rest & Hvs & -> & -> & _).
  rewrite (id_at_lookup _ _ _ Hp) in *. unfold reach. rewrite (id_at_lookup _ _ _ Hp0).
  pose proof (restore_all_hardware (planes s) (p_id p) (leases s) vs
    (proj2 (ledger_planes _ _ Hled))) as Hhw.
  destruct (Forall2_lookup_l _ _ _ _ _ Hhw Hp) as (p' & Hp' & Hpp').
  pose proof (Forall_lookup_1 _ _ _ _ (ledger_balance _ _ Hled') Hp') as Hbal.
  cbn [planes leases with_leases with_planes] in Hbal.
  assert (p_id p' = p_id p0) as Hid' by (by rewrite Hpp', <-Hid).
  change (planes (with_leases _ (with_planes ?ps s))) with ps in Hbal.
  change (leases (with_leases ?ls _)) with ls in Hbal.
  rewrite Hid', capacity_lookup in Hbal by (done || by eapply list_elem_of_lookup_2).
  rewrite (held_hardware (planes s)), (held_hardware (t_planes topo)) in Hbal by done.
  unfold available_at. rewrite Hp', Hp0. split; [done|].
  assert (Hcand : ∀ k, k ∈ vs → ∃ l, leases s !! k = Some l ∧ preemptable_on (p_id p0) pr l = true).
  { intros k Hk. rewrite <-Hid, <-(id_at_lookup _ _ _ Hp).
    apply (victims_candidates _ _ _ _ _ _ Hvs). set_solver. }
  split.
  - pose proof (firm_le (t_planes topo) pr (leases s) (p_id p0) vs
      (ledger_bytes _ _ Hled) Hcand). lia.
  - intros Hshort. rewrite <-(firm_all (t_planes topo) pr (leases s) (p_id p0) vs Hcand); [lia|].
    intros k l Hk Hpre.
    destruct (victims_enough _ _ _ _ _ _ Hvs) as [Hroom|[-> Hinit]].
    { rewrite (id_at_lookup _ _ _ Hp) in Hroom. unfold available_at in Hroom.
      rewrite Hp' in Hroom. lia. }
    rewrite <-(app_nil_r vs). eapply (victims_all _ _ _ _ _ _ Hvs); [done|done|].
    by rewrite (id_at_lookup _ _ _ Hp), Hid.
Qed.
End admission.

