(* ===== verification/Crowd.v ===== *)
(** Clients next to each other: what many of them, taking and returning leases
    in any order, may rely on. The stress tests under qa/edge/ and qa/fuzz/ are
    instances. *)
From Stdlib Require Import SpecFloat.
From S2P Require Import Prelude Lease Errors Topology Model Psi Arbiter Ledger Grant Hotplug.
From S2P Require Import Runs Lifecycle Acquire Spec.
Local Open Scope Z_scope.

(** * A grant where there is room *)

Section room.
Context {ho : HashOrder LeaseId ComputeLease}.
Implicit Types (s : ArbiterState) (ps : list ComputePlane).

(** It preempts nobody and signals nobody. *)
Lemma acquire_with_room psi now fresh pr b pref unit pid s i p :
  arbiter_ok s → is_critical psi = false ∨ pr = EmergencyTriage →
  select_plane (planes s) pr pref = Ok i → planes s !! i = Some p →
  b ≤ p_available_memory_bytes p →
  acquire_lease psi now fresh pr b pref unit pid s =
  (Ok (new_lease fresh now (p_id p) b pr unit pid),
   with_leases (<[fresh := new_lease fresh now (p_id p) b pr unit pid]> (sweep_leases (leases s)))
     (with_planes (charge_plane (planes s) i b) s), []).
Proof.
  intros Hs Hgate Hsel Hp Hroom. rewrite acquire_unfold, Hsel.
  assert (is_critical psi && negb (is_emergency pr) = false) as ->.
  { destruct Hgate as [->| ->]; [done|]. by rewrite andb_false_r. }
  assert (available_at (planes s) i = p_available_memory_bytes p) as Hav
    by (unfold available_at; by rewrite Hp).
  unfold reclaimed. rewrite Hav, (proj2 (Z.ltb_ge _ _)) by done.
  rewrite Hav, (proj2 (Z.ltb_ge _ _)) by done. cbn [andb].
  rewrite (id_at_lookup _ _ _ Hp). by rewrite with_id.
Qed.

Lemma fits_room ps i p b :
  NoDup (p_id <$> ps) → ps !! i = Some p → fits ps (p_id p) b → b ≤ p_available_memory_bytes p.
Proof.
  intros Hnd Hp Hfits. apply (Forall_lookup_1 _ _ _ _ Hfits Hp).
  unfold charges. erewrite find_first_has_id by done. left.
Qed.

(** It promises nothing that is not there. *)
Lemma fits_no_overcommit psi now fresh pr b pref unit pid s i p :
  arbiter_ok s → select_plane (planes s) pr pref = Ok i → planes s !! i = Some p →
  fits (planes s) (p_id p) b →
  overcommits ho (AcquireLease psi now fresh pr b pref unit pid) s = false.
Proof.
  intros Hs Hsel Hp Hfits. cbn [overcommits]. destruct (_ && _); [done|]. rewrite Hsel.
  pose proof (fits_room _ _ _ _ (proj2 (ok_planes _ Hs)) Hp Hfits) as Hroom.
  assert (reclaimed i pr b s = (planes s, leases s, [])) as ->.
  { unfold reclaimed, available_at. rewrite Hp. by rewrite (proj2 (Z.ltb_ge _ _)). }
  cbn [fst]. rewrite (id_at_lookup _ _ _ Hp), bool_decide_true by done. by rewrite andb_false_r.
Qed.

(** Whether a plane is found does not depend on the memory that is free. *)
Lemma position_hardware (P : ComputePlane → bool) ps ps' :
  (∀ p a, P (set_available a p) = P p) → same_hardware ps ps' → position P ps' = position P ps.
Proof.
  intros HP. induction 1 as [|p p' ps ps' Hp _ IH]; [done|]. cbn [position].
  assert (P p' = P p) as -> by (by rewrite Hp). by rewrite IH.
Qed.

Lemma open_hardware ps ps' i p :
  same_hardware ps ps' → ps !! i = Some p → open_plane p = true →
  ∃ p', ps' !! i = Some p' ∧ open_plane p' = true.
Proof.
  intros Hsame Hp Hopen. destruct (Forall2_lookup_l _ _ _ _ _ Hsame Hp) as (p' & Hp' & Heq).
  exists p'. split; [done|]. by rewrite Heq.
Qed.

Lemma select_plane_open ps pr i p :
  pr ≠ EmergencyTriage → ps !! i = Some p → open_plane p = true →
  ∃ j, select_plane ps pr None = Ok j.
Proof.
  intros Hpr Hp Hopen. unfold select_plane, is_emergency. rewrite bool_decide_false by done.
  match goal with |- context [List.filter ?f _] => set (usable := f) end.
  assert (Hin : (i, p) ∈ List.filter usable (imap pair ps)).
  { apply elem_of_filter_imap. split; [done|]. unfold usable. simpl. by rewrite orb_false_r. }
  destruct (List.filter usable (imap pair ps)) as [|x l]; [by apply not_elem_of_nil in Hin|].
  simpl. eauto.
Qed.

Lemma select_plane_hardware ps ps' pr pref :
  same_hardware ps ps' → is_ok (select_plane ps pr pref) = true →
  ∃ i, select_plane ps' pr pref = Ok i.
Proof.
  intros Hsame Hok. destruct (select_plane ps pr pref) as [i|e] eqn:Hsel; [|done].
  destruct pref as [pref|].
  { unfold select_plane in *. rewrite (position_hardware _ ps) by done.
    destruct (position _ ps); [eauto|done]. }
  destruct (decide (pr = EmergencyTriage)) as [->|Hpr].
  { apply select_plane_emergency. destruct (select_plane_in_range _ _ _ _ Hsel) as [p Hp].
    destruct (Forall2_lookup_l _ _ _ _ _ Hsame Hp) as (p' & Hp' & _). by intros ->. }
  destruct (select_plane_Ok _ _ _ _ Hsel) as [p Hs]. inversion Hs; subst; try done.
  destruct (open_hardware _ _ _ _ Hsame ltac:(eassumption) ltac:(eassumption)) as (p' & Hp' & Ho).
  by eapply select_plane_open.
Qed.
End room.

(** * What the running leases hold in all *)

Section total.
Implicit Types (s : ArbiterState) (ls : gmap LeaseId ComputeLease).

Definition weight (l : ComputeLease) : Z := if is_active l then l_allocated_memory_bytes l else 0.
Definition total ls : Z := msum weight ls.

Lemma weight_active l : is_active l = true → weight l = l_allocated_memory_bytes l.
Proof. unfold weight. by intros ->. Qed.
Lemma weight_inactive l : is_active l = false → weight l = 0.
Proof. unfold weight. by intros ->. Qed.

Lemma held_total ps ls id :
  map_Forall (λ _ l, 0 ≤ l_allocated_memory_bytes l) ls → held ps ls id ≤ total ls.
Proof.
  intros Hb. apply msum_le. intros k l Hl. pose proof (Hb k l Hl) as H0; simpl in H0. unfold draw, weight.
  destruct (is_active l); [|done]. simpl. case_bool_decide; lia.
Qed.

Lemma total_sweep ls : total (sweep_leases ls) = total ls.
Proof.
  unfold sweep_leases. destruct (128 <? _); [|done]. apply msum_filter. intros k l _ Hdead.
  apply weight_inactive. simpl in Hdead. destruct (is_active l); [|done]. by destruct Hdead.
Qed.

(** Where everything that can be lent covers the total and [b] more, [b] fits. *)
Lemma total_fits topo s id b :
  planes_ok (t_planes topo) → balanced topo s →
  Forall (λ p, total (leases s) + b ≤ p_available_memory_bytes p) (t_planes topo) →
  fits (planes s) id b.
Proof.
  intros Hok [Hsame Hled] Hroom. apply Forall_forall. intros p Hp _.
  pose proof (proj1 (Forall_forall _ _) (ledger_balance _ _ Hled) p Hp) as Hbal; simpl in Hbal.
  pose proof (held_total (planes s) (leases s) (p_id p) (ledger_bytes _ _ Hled)) as Hle.
  apply list_elem_of_lookup in Hp as [i Hi].
  destruct (Forall2_lookup_r _ _ _ _ _ Hsame Hi) as (p0 & Hp0 & Hpp).
  assert (p_id p = p_id p0) as Hid by (by rewrite Hpp).
  rewrite Hid, capacity_lookup in Hbal by (done || by eapply list_elem_of_lookup_2).
  pose proof (Forall_lookup_1 _ _ _ _ Hroom Hp0) as H0; simpl in H0. rewrite Hid in Hle. lia.
Qed.
End total.

(** * A crowd of clients *)

(** What a client asks for, and how far it got. *)
Record Demand := mkDemand {
  dm_priority : LeasePriority;
  dm_bytes : Z;
  dm_plane : option string;
  dm_unit : option string;
  dm_pid : option Z;
}.
Inductive Phase :=
  | Waiting
  | Refused (e : Error)
  | Holding (id : LeaseId)
  | Left.

Section crowd.
Context (topo : HardwareTopology) (start : ArbiterState) (demands : list Demand).
Implicit Types (s : ArbiterState) (ps : list Phase).

(** From [start] on, each client acquires a lease and releases it, at any time:
    the arbiter, the phases of the clients, and what was asked of the freezer. *)
Inductive crowd : ArbiterState → list Phase → list FreezerCall → Prop :=
  | crowd_open : crowd start ((λ _, Waiting) <$> demands) []
  | crowd_arrive s ps log i d ho psi now fresh :
      crowd s ps log → ps !! i = Some Waiting → demands !! i = Some d →
      leases s !! fresh = None → is_critical psi = false ∨ dm_priority d = EmergencyTriage →
      let o := acquire_lease (ho := ho) psi now fresh (dm_priority d) (dm_bytes d) (dm_plane d)
                 (dm_unit d) (dm_pid d) s in
      crowd (state_of o)
        (<[i := match res_of o with Ok l => Holding (l_id l) | Err e => Refused e end]> ps)
        (log ++ calls_of o)
  | crowd_leave s ps log i id :
      crowd s ps log → ps !! i = Some (Holding id) →
      crowd (state_of (release_lease id s)) (<[i := Left]> ps) log.

(** What those still to come will ask for. *)
Definition expected (d : Demand) (ph : Phase) : Z :=
  match ph with Waiting => dm_bytes d | _ => 0 end.
Definition expectation ps : Z := foldr Z.add 0 (zip_with expected demands ps).
Definition demand : Z := foldr (λ d, Z.add (dm_bytes d)) 0 demands.

(** No lease is left of earlier times, every demand is for a size and a plane
    there is, and every plane could serve all of them. *)
Record roomy : Prop := {
  roomy_start : careful topo start;
  roomy_idle : ∀ id l, leases start !! id = Some l → l_state l = Expired;
  roomy_sizes : Forall (λ d, is_u64 (dm_bytes d)) demands;
  roomy_found : Forall (λ d, is_ok (select_plane (t_planes topo) (dm_priority d) (dm_plane d)) = true)
                  demands;
  roomy_enough : Forall (λ p, demand ≤ p_available_memory_bytes p) (t_planes topo);
}.

Record crowd_inv s ps (log : list FreezerCall) : Prop := {
  inv_careful : careful topo s;
  inv_silent : log = [];
  inv_length : length ps = length demands;
  inv_served : ∀ i e, ps !! i ≠ Some (Refused e);
  inv_held : ∀ i id, ps !! i = Some (Holding id) → ∃ d l,
    demands !! i = Some d ∧ leases s !! id = Some l ∧ l_state l = Active ∧
    l_priority l = dm_priority d ∧ l_allocated_memory_bytes l = dm_bytes d ∧
    l_client_unit l = dm_unit d ∧ l_client_pid l = dm_pid d;
  inv_leases : ∀ id l, leases s !! id = Some l →
    l_state l = Expired ∨ l_state l = Active ∧ ∃ i, ps !! i = Some (Holding id);
  inv_apart : ∀ i j id, ps !! i = Some (Holding id) → ps !! j = Some (Holding id) → i = j;
  inv_total : total (leases s) + expectation ps ≤ demand;
}.

Lemma expectation_insert i d ph ps :
  demands !! i = Some d → ps !! i = Some ph → ∀ ph', 
  expectation (<[i := ph']> ps) = expectation ps - expected d ph + expected d ph'.
Proof.
  unfold expectation. revert ps i. induction demands as [|d0 ds IH]; intros ps i Hd Hp ph'; [done|].
  destruct ps as [|ph0 ps]; [done|]. destruct i as [|i]; simpl in *.
  - simplify_eq. lia.
  - rewrite (IH ps i Hd Hp ph'). lia.
Qed.

Lemma expectation_start : expectation ((λ _, Waiting) <$> demands) = demand.
Proof.
  unfold expectation, demand. induction demands as [|d ds IH]; [done|].
  rewrite fmap_cons. cbn [zip_with foldr expected]. by rewrite IH.
Qed.

Lemma expectation_nonneg ps : Forall (λ d, is_u64 (dm_bytes d)) demands → 0 ≤ expectation ps.
Proof.
  unfold expectation. revert ps. induction demands as [|d ds IH]; intros ps Hd; [done|].
  apply Forall_cons in Hd as [Hb Hd]. destruct ps as [|ph ps]; simpl; [done|].
  specialize (IH ps Hd). unfold is_u64 in Hb. destruct ph; simpl; lia.
Qed.

Lemma expectation_waiting ps i d :
  Forall (λ d, is_u64 (dm_bytes d)) demands → demands !! i = Some d → ps !! i = Some Waiting →
  dm_bytes d ≤ expectation ps.
Proof.
  intros Hsize Hd Hp.
  pose proof (expectation_insert i d Waiting ps Hd Hp Left) as Heq. simpl in Heq.
  pose proof (expectation_nonneg (<[i := Left]> ps) Hsize). lia.
Qed.

Lemma crowd_inv_open : roomy → crowd_inv start ((λ _, Waiting) <$> demands) [].
Proof.
  intros Hr. split; try done.
  - apply Hr.
  - by rewrite length_fmap.
  - intros i e. rewrite list_lookup_fmap. by destruct (demands !! i).
  - intros i id. rewrite list_lookup_fmap. by destruct (demands !! i).
  - intros id l Hl. left. by apply (roomy_idle Hr id).
  - intros i j id. rewrite list_lookup_fmap. by destruct (demands !! i).
  - rewrite expectation_start. unfold total. rewrite msum_zero; [lia|].
    intros id l Hl. apply weight_inactive. unfold is_active. by rewrite (roomy_idle Hr id l Hl).
Qed.

(** An arrival is granted what it asks for, and nobody else notices. *)
Lemma crowd_granted ho s ps log i d psi now fresh :
  roomy → crowd_inv s ps log → ps !! i = Some Waiting → demands !! i = Some d →
  leases s !! fresh = None → is_critical psi = false ∨ dm_priority d = EmergencyTriage →
  ∃ l planes', acquire_lease (ho := ho) psi now fresh (dm_priority d) (dm_bytes d) (dm_plane d)
      (dm_unit d) (dm_pid d) s
    = (Ok l, with_leases (<[fresh := l]> (sweep_leases (leases s))) (with_planes planes' s), []) ∧
    l = new_lease fresh now (l_plane_id l) (dm_bytes d) (dm_priority d) (dm_unit d) (dm_pid d) ∧
    overcommits ho (AcquireLease psi now fresh (dm_priority d) (dm_bytes d) (dm_plane d)
      (dm_unit d) (dm_pid d)) s = false.
Proof.
  intros Hr Hinv Hi Hd Hfresh Hgate.
  destruct (careful_invariant topo s (inv_careful _ _ _ Hinv)) as (Hok & Hs & Hbal).
  destruct (select_plane_hardware _ (planes s) (dm_priority d) (dm_plane d) (proj1 Hbal)
    (Forall_lookup_1 _ _ _ _ (roomy_found Hr) Hd)) as [j Hsel].
  destruct (select_plane_in_range _ _ _ _ Hsel) as [p Hp].
  assert (Hfits : fits (planes s) (p_id p) (dm_bytes d)).
  { apply (total_fits topo); [done..|]. eapply Forall_impl; [apply (roomy_enough Hr)|].
    intros q Hq. simpl in Hq. pose proof (inv_total _ _ _ Hinv).
    pose proof (expectation_waiting ps i d (roomy_sizes Hr) Hd Hi). lia. }
  pose proof (fits_room _ _ _ _ (proj2 (ok_planes _ Hs)) Hp Hfits) as Hroom.
  eexists _, _. split; [by apply acquire_with_room|]. split; [done|]. by eapply fits_no_overcommit.
Qed.

Lemma crowd_inv_arrive ho s ps log i d psi now fresh :
  roomy → crowd_inv s ps log → ps !! i = Some Waiting → demands !! i = Some d →
  leases s !! fresh = None → is_critical psi = false ∨ dm_priority d = EmergencyTriage →
  let o := acquire_lease (ho := ho) psi now fresh (dm_priority d) (dm_bytes d) (dm_plane d)
             (dm_unit d) (dm_pid d) s in
  crowd_inv (state_of o)
    (<[i := match res_of o with Ok l => Holding (l_id l) | Err e => Refused e end]> ps)
    (log ++ calls_of o).
Proof.
  intros Hr Hinv Hi Hd Hfresh Hgate o.
  destruct (crowd_granted ho s ps log i d psi now fresh Hr Hinv Hi Hd Hfresh Hgate)
    as (l & planes' & Ho & Hl & Hover).
  assert (Hcare : careful topo (state_of o)).
  { apply (careful_step topo s (AcquireLease psi now fresh (dm_priority d) (dm_bytes d) (dm_plane d)
      (dm_unit d) (dm_pid d)) ho canonical_order); [apply Hinv| |done].
    split; [apply (Forall_lookup_1 _ _ _ _ (roomy_sizes Hr) Hd)|done]. }
  unfold o in *. rewrite Ho in *. cbn [state_of res_of calls_of fst snd leases with_leases] in *.
  assert (Hlid : l_id l = fresh) by (by rewrite Hl). rewrite Hlid.
  assert (Hfree : ∀ j, ps !! j ≠ Some (Holding fresh)).
  { intros j Hj. destruct (inv_held _ _ _ Hinv j fresh Hj) as (? & ? & _ & ? & _). congruence. }
  assert (Hlt : (i < length ps)%nat) by by eapply lookup_lt_Some.
  assert (Hback : ∀ k l', sweep_leases (leases s) !! k = Some l' → leases s !! k = Some l').
  { intros k l'. unfold sweep_leases. destruct (128 <? _); [|done]. by intros [? _]%map_lookup_filter_Some. }
  split; cbn [leases with_leases with_planes]; try done.
  - by rewrite (inv_silent _ _ _ Hinv).
  - rewrite length_insert. apply Hinv.
  - intros j e [[_ ?]|[_ Hj]]%list_lookup_insert_Some; [naive_solver|]. by eapply inv_served.
  - intros j id [(<- & [= <-] & _)|[Hne Hj]]%list_lookup_insert_Some.
    + exists d, l. split; [done|]. split; [apply lookup_insert_eq|]. by rewrite Hl.
    + destruct (inv_held _ _ _ Hinv j id Hj) as (d' & l' & Hd' & Hl' & Hst & Hrest).
      exists d', l'. split; [done|]. split; [|done].
      rewrite lookup_insert_ne by (intros <-; by apply (Hfree j)).
      destruct (sweep_leases_spec _ _ _ Hl') as [->|(_ & Hdead & _)]; [done|].
      by rewrite Hst in Hdead.
  - intros k l' [[<- <-]|[Hne Hk]]%lookup_insert_Some.
    + right. split; [by rewrite Hl|]. exists i. by rewrite list_lookup_insert_eq.
    + destruct (inv_leases _ _ _ Hinv k l' (Hback _ _ Hk)) as [?|(Hst & j & Hj)]; [by left|].
      right. split; [done|]. exists j. rewrite list_lookup_insert_ne; [done|]. intros ->. congruence.
  - intros j1 j2 id [(<- & [= <-] & _)|[Hne1 Hj1]]%list_lookup_insert_Some
      [(<- & ? & _)|[Hne2 Hj2]]%list_lookup_insert_Some; simplify_eq; try done.
    + by apply Hfree in Hj2.
    + by apply Hfree in Hj1.
    + by eapply inv_apart.
  - rewrite (expectation_insert i d Waiting) by done.
    assert (Hsweep : sweep_leases (leases s) !! fresh = None).
    { destruct (sweep_leases (leases s) !! fresh) eqn:Hk; [|done]. apply Hback in Hk. congruence. }
    unfold total. rewrite msum_insert_None by done.
    assert (weight l = dm_bytes d) as -> by (by rewrite Hl).
    pose proof (inv_total _ _ _ Hinv). pose proof (total_sweep (leases s)). unfold total in *.
    simpl. lia.
Qed.

Lemma crowd_inv_leave s ps log i id :
  roomy → crowd_inv s ps log → ps !! i = Some (Holding id) →
  crowd_inv (state_of (release_lease id s)) (<[i := Left]> ps) log.
Proof.
  intros Hr Hinv Hi.
  assert (Hcare : careful topo (state_of (release_lease id s))).
  { by apply (careful_step topo s (ReleaseLease id) canonical_order canonical_order); [apply Hinv|..]. }
  destruct (inv_held _ _ _ Hinv i id Hi) as (d & l & Hd & Hl & Hst & _ & Hb & _).
  assert (Hleases : leases (state_of (release_lease id s)) = <[id := set_state Expired l]> (leases s)).
  { rewrite release_lease_unfold. cbn [state_of fst snd]. rewrite end_state_store.
    unfold store_if. by rewrite Hl, Hst. }
  split; rewrite ?Hleases.
  - done.
  - apply Hinv.
  - rewrite length_insert. apply Hinv.
  - intros j e [[_ ?]|[_ Hj]]%list_lookup_insert_Some; [naive_solver|]. by eapply inv_served.
  - intros j k [(_ & ? & _)|[Hne Hj]]%list_lookup_insert_Some; [done|].
    rewrite lookup_insert_ne; [by eapply inv_held|]. intros <-. apply Hne. by eapply inv_apart.
  - intros k l' [[<- <-]|[Hne Hk]]%lookup_insert_Some; [by left|].
    destruct (inv_leases _ _ _ Hinv k l' Hk) as [?|(Hst' & j & Hj)]; [by left|].
    right. split; [done|]. exists j. rewrite list_lookup_insert_ne; [done|]. intros ->. congruence.
  - intros j1 j2 k [(_ & ? & _)|[_ Hj1]]%list_lookup_insert_Some
      [(_ & ? & _)|[_ Hj2]]%list_lookup_insert_Some; try done. by eapply inv_apart.
  - rewrite (expectation_insert i d (Holding id)) by done. simpl.
    unfold total. rewrite (msum_insert_Some _ _ _ l) by done.
    rewrite (weight_inactive (set_state Expired l)) by done.
    rewrite weight_active by (unfold is_active; by rewrite Hst).
    pose proof (inv_total _ _ _ Hinv). unfold total in *.
    pose proof (Forall_lookup_1 _ _ _ _ (roomy_sizes Hr) Hd) as H0. unfold is_u64 in H0. lia.
Qed.

Lemma crowd_invariant s ps log :
  roomy → crowd s ps log → crowd_inv s ps log.
Proof.
  intros Hr. induction 1; [by apply crowd_inv_open|by apply crowd_inv_arrive|].
  by eapply crowd_inv_leave.
Qed.

(** When nobody holds a lease, everything is as before. *)
Lemma crowd_over s ps log :
  roomy → crowd s ps log → (∀ i id, ps !! i ≠ Some (Holding id)) →
  planes s = t_planes topo ∧ ∀ id l, leases s !! id = Some l → l_state l = Expired.
Proof.
  intros Hr Hrun Hgone. destruct (crowd_invariant s ps log Hr Hrun).
  assert (Hexp : ∀ id l, leases s !! id = Some l → l_state l = Expired).
  { intros id l Hl. destruct (inv_leases0 id l Hl) as [?|(_ & i & Hi)]; [done|]. by apply Hgone in Hi. }
  split; [|done]. apply (careful_idle topo); [done|]. intros k l Hl. unfold is_active.
  by rewrite (Hexp k l Hl).
Qed.
End crowd.

(** C11: clients that fit beside each other do not disturb each other. When every
    plane could serve all the demands of a crowd of clients together, then from
    an arbiter with no lease left of earlier times, in whatever order they
    acquire and release their leases, and whatever planes are chosen for them,
    no request is refused, nobody is told to yield or frozen, each holds an
    active lease of the size, rank and owner it asked for until it releases it,
    and when nobody holds one all memory is free. *)
Theorem crowd_undisturbed topo start demands s ps log :
  roomy topo start demands → crowd start demands s ps log →
  log = [] ∧ (∀ i e, ps !! i ≠ Some (Refused e)) ∧
  (∀ i id, ps !! i = Some (Holding id) → ∃ d l,
     demands !! i = Some d ∧ leases s !! id = Some l ∧ l_state l = Active ∧
     l_priority l = dm_priority d ∧ l_allocated_memory_bytes l = dm_bytes d ∧
     l_client_unit l = dm_unit d ∧ l_client_pid l = dm_pid d) ∧
  ((∀ i id, ps !! i ≠ Some (Holding id)) →
     planes s = t_planes topo ∧ ∀ id l, leases s !! id = Some l → l_state l = Expired).
Proof.
  intros Hr Hrun. destruct (crowd_invariant topo start demands s ps log Hr Hrun).
  split_and!; [done..|]. by eapply crowd_over.
Qed.

(** * Memory behind memory *)

(** The two books of unified memory agree. While nobody but the leases on
    a unified-memory plane draws on the host's memory, what the plane has lent
    and what the host has lent is the same, after every careful run: equal
    planes stay equally free. *)
Theorem dual_accounting topo s i j u c :
  careful topo s → t_planes topo !! i = Some u → t_planes topo !! j = Some c →
  is_uma u = true → find_first is_cpu (t_planes topo) = Some c →
  (∀ k l, leases s !! k = Some l → is_active l = true →
     l_plane_id l = p_id u ∨ p_id c ∉ charges (t_planes topo) (l_plane_id l)) →
  ∃ u' c', planes s !! i = Some u' ∧ planes s !! j = Some c' ∧
    p_available_memory_bytes u - p_available_memory_bytes u'
    = p_available_memory_bytes c - p_available_memory_bytes c'.
Proof.
  intros Hrun Hu Hc Huma Hcpu Honly.
  destruct (careful_invariant topo s Hrun) as (Hok & _ & Hbal).
  assert (Hfree : ∀ n p, t_planes topo !! n = Some p → ∃ p', planes s !! n = Some p' ∧
    p_available_memory_bytes p' + used (charges (t_planes topo)) (abs s) (p_id p)
    = p_available_memory_bytes p).
  { intros n p Hp. destruct (Forall2_lookup_l _ _ _ _ _ (proj1 Hbal) Hp) as (p' & Hp' & Hpp).
    assert (p_id p' = p_id p) as Hid by (by rewrite Hpp). exists p'. split; [done|].
    pose proof (balance_used topo s p' Hbal ltac:(by eapply list_elem_of_lookup_2)) as Heq.
    by rewrite Hid, capacity_lookup in Heq by (done || by eapply list_elem_of_lookup_2). }
  destruct (Hfree i u Hu) as (u' & Hu' & Hueq). destruct (Hfree j c Hc) as (c' & Hc' & Hceq).
  exists u', c'. split_and!; [done..|].
  enough (used (charges (t_planes topo)) (abs s) (p_id u)
          = used (charges (t_planes topo)) (abs s) (p_id c)) by lia.
  apply msum_ext. intros k [plane b] Hk. rewrite lookup_abs in Hk.
  destruct (leases s !! k) as [l|] eqn:Hl; [|done]. simpl in Hk. unfold holding in Hk.
  destruct (is_active l) eqn:Hact; [|done]. injection Hk as <- <-. cbn [fst snd].
  pose proof (proj2 Hok) as Hnd.
  assert (Hown : charges (t_planes topo) (p_id u) = [p_id u; p_id c]).
  { unfold charges. erewrite find_first_has_id by done. by rewrite Huma, Hcpu. }
  destruct (decide (l_plane_id l = p_id u)) as [->|Hne].
  { rewrite Hown. by rewrite !bool_decide_true by set_solver. }
  destruct (Honly k l Hl Hact) as [?|Hnc]; [done|]. rewrite (bool_decide_false (p_id c ∈ _)) by done.
  rewrite bool_decide_false; [done|]. intros Hin. unfold charges in Hin.
  destruct (find_first (has_id (l_plane_id l)) (t_planes topo)) as [q|] eqn:Hq; [|set_solver].
  apply find_first_Some in Hq as [_ Hqid]. unfold has_id in Hqid. reflect_bools.
  apply elem_of_cons in Hin as [Hin|Hin]; [congruence|].
  destruct (is_uma q); [|set_solver]. rewrite Hcpu in Hin. apply list_elem_of_singleton in Hin.
  assert (u = c) as ->.
  { apply (NoDup_ids_eq (t_planes topo)); [done|by eapply list_elem_of_lookup_2..|done]. }
  apply find_first_Some in Hcpu as [_ Hcpu]. unfold is_uma, is_cpu in *. reflect_bools. congruence.
Qed.

(** * The thaw storm *)

(** Some leases are returned and the preempted ones resumed, each of which may
    be tried again and again. *)
Inductive storm_op :=
  | Return (id : LeaseId)
  | Resume (id : LeaseId).

Definition weather (op : storm_op) (s : ArbiterState) : ArbiterState :=
  match op with
  | Return id => state_of (release_lease id s)
  | Resume id => state_of (thaw_lease id s)
  end.
Definition weathered (ops : list storm_op) (s : ArbiterState) : ArbiterState :=
  foldl (λ s op, weather op s) s ops.

(** The leases once [guests] have returned theirs and [sleepers] run again. *)
Definition after_storm (guests sleepers : list LeaseId) (ls : gmap LeaseId ComputeLease) :
    gmap LeaseId ComputeLease :=
  map_on (set_state Active) sleepers (map_on (set_state Expired) guests ls).

Section storm.
Context (topo : HardwareTopology) (guests sleepers : list LeaseId) (s0 : ArbiterState).
Implicit Types (s : ArbiterState) (l : ComputeLease).

(** What the storm starts from: live leases to be returned, preempted ones on
    planes that are there, and room for all that will run in the end. *)
Record brewing : Prop := {
  brew_careful : careful topo s0;
  brew_apart : ∀ id, id ∈ guests → id ∉ sleepers;
  brew_guests : ∀ id, id ∈ guests → ∃ l, leases s0 !! id = Some l ∧ is_live (l_state l) = true;
  brew_sleepers : ∀ id, id ∈ sleepers → ∃ l p, leases s0 !! id = Some l ∧ l_state l = Preempted ∧
    p ∈ t_planes topo ∧ p_id p = l_plane_id l;
  brew_room : covered topo (after_storm guests sleepers (leases s0));
}.

Definition storm_ok (op : storm_op) : Prop :=
  match op with Return id => id ∈ guests | Resume id => id ∈ sleepers end.

(** In the storm: each lease is as it was or as it will be. *)
Record in_storm (s : ArbiterState) : Prop := {
  storm_careful : careful topo s;
  storm_leases : ∀ k, leases s !! k = leases s0 !! k ∨
    (k ∈ guests ∨ k ∈ sleepers) ∧
    leases s !! k = after_storm guests sleepers (leases s0) !! k;
}.

Lemma lookup_after_storm ls k :
  after_storm guests sleepers ls !! k =
  (λ l, if bool_decide (k ∈ sleepers)
        then set_state Active (if bool_decide (k ∈ guests) then set_state Expired l else l)
        else if bool_decide (k ∈ guests) then set_state Expired l else l) <$> ls !! k.
Proof. unfold after_storm. rewrite !lookup_map_on. by destruct (ls !! k). Qed.

Lemma weather_careful op s : careful topo s → careful topo (weather op s).
Proof.
  intros Hs. destruct op as [id|id].
  - by apply (careful_step topo s (ReleaseLease id) canonical_order canonical_order).
  - by apply (careful_step topo s (ThawLease id) canonical_order canonical_order).
Qed.

Lemma weather_elsewhere op s k :
  k ≠ match op with Return id | Resume id => id end →
  leases (weather op s) !! k = leases s !! k.
Proof.
  intros Hk. destruct op as [id|id]; cbn [weather].
  - rewrite release_lease_unfold. cbn [state_of fst snd]. rewrite end_state_store. unfold store_if.
    destruct (leases s !! id); [|done]. destruct (is_live _); [|done]. by rewrite lookup_insert_ne.
  - rewrite thaw_lease_unfold. destruct (leases s !! id) as [l|]; [|done].
    destruct (l_state l); try destruct (thaw_check _ _ _); cbn [state_of fst snd leases with_leases];
      rewrite ?lookup_insert_ne; done.
Qed.

Lemma return_guest s id :
  brewing → in_storm s → id ∈ guests →
  leases (weather (Return id) s) !! id = after_storm guests sleepers (leases s0) !! id.
Proof.
  intros Hb Hs Hid. destruct (brew_guests Hb id Hid) as (l & Hl & Hlive).
  rewrite lookup_after_storm, Hl. cbn [fmap option_fmap option_map].
  rewrite (bool_decide_false (id ∈ sleepers)) by by apply (brew_apart Hb).
  rewrite bool_decide_true by done. cbn [weather]. rewrite release_lease_unfold.
  cbn [state_of fst snd]. rewrite end_state_store. unfold store_if.
  destruct (storm_leases _ Hs id) as [Hsame|[_ Hdone]].
  - rewrite Hsame, Hl, Hlive. by rewrite lookup_insert_eq.
  - rewrite lookup_after_storm, Hl in Hdone. cbn [fmap option_fmap option_map] in Hdone.
    rewrite (bool_decide_false (id ∈ sleepers)), bool_decide_true in Hdone
      by first [done | by apply (brew_apart Hb)].
    rewrite Hdone. cbn [l_state set_state is_live]. done.
Qed.

(** Resuming: it works or the sleeper is told that memory is short. *)
Lemma resume_sleeper s id :
  brewing → in_storm s → id ∈ sleepers →
  (res_of (thaw_lease id s) = Ok tt ∧
   leases (weather (Resume id) s) !! id = after_storm guests sleepers (leases s0) !! id) ∨
  (∃ plane b a, res_of (thaw_lease id s) = Err (ResourceExhaustion plane b a)) ∧ weather (Resume id) s = s.
Proof.
  intros Hb Hs Hid. destruct (brew_sleepers Hb id Hid) as (l & p & Hl & Hst & Hp & Hpl).
  assert (Hend : after_storm guests sleepers (leases s0) !! id = Some (set_state Active l)).
  { rewrite lookup_after_storm, Hl. cbn [fmap option_fmap option_map].
    rewrite bool_decide_true by done. rewrite bool_decide_false; [done|].
    intros Hg. by apply (brew_apart Hb id Hg). }
  rewrite Hend. cbn [weather]. rewrite thaw_lease_unfold.
  destruct (storm_leases _ Hs id) as [Hsame|[_ Hdone]].
  2: { rewrite Hdone, Hend. cbn [l_state set_state state_of res_of fst snd]. left. by rewrite Hdone. }
  rewrite Hsame, Hl, Hst. destruct (thaw_check _ _ _) as [[]|err] eqn:Hcheck.
  - left. cbn [state_of res_of fst snd leases with_leases]. by rewrite lookup_insert_eq.
  - right. cbn [state_of res_of fst snd]. split; [|done]. revert Hcheck. unfold thaw_check.
    destruct (find_first (has_id (l_plane_id l)) (planes s)) as [q|] eqn:Hq.
    + destruct (_ <? _); [intros [= <-]; eauto|]. destruct (plane_is_uma _ _); [|done].
      destruct (find_first is_cpu (planes s)); [|done]. destruct (_ <? _); [|done].
      intros [= <-]; eauto.
    + exfalso. destruct (careful_invariant topo s (storm_careful _ Hs)) as (_ & _ & Hbal).
      apply list_elem_of_lookup in Hp as [i Hi].
      destruct (Forall2_lookup_l _ _ _ _ _ (proj1 Hbal) Hi) as (p' & Hp' & Hpp).
      eapply find_first_None in Hq; [|by eapply list_elem_of_lookup_2].
      unfold has_id in Hq. rewrite bool_decide_true in Hq; [done|]. by rewrite Hpp.
Qed.

Lemma weather_storm op s : brewing → in_storm s → storm_ok op → in_storm (weather op s).
Proof.
  intros Hb Hs Hop. split; [by apply weather_careful, storm_careful|]. intros k.
  destruct (decide (k = match op with Return id | Resume id => id end)) as [->|Hne].
  2: { rewrite weather_elsewhere by done. by apply storm_leases. }
  destruct op as [id|id]; simpl in Hop.
  - right. split; [by left|]. by apply return_guest.
  - destruct (resume_sleeper s id Hb Hs Hop) as [[_ Hdone]|[_ ->]]; [|by apply storm_leases].
    right. split; [by right|done].
Qed.

(** A lease that is where it is going. *)
Definition settled s (k : LeaseId) : Prop :=
  leases s !! k = after_storm guests sleepers (leases s0) !! k.

Lemma weather_settled op s k :
  brewing → in_storm s → storm_ok op → settled s k → settled (weather op s) k.
Proof.
  unfold settled. intros Hb Hs Hop Hk.
  destruct (decide (k = match op with Return id | Resume id => id end)) as [->|Hne].
  2: { by rewrite weather_elsewhere. }
  destruct op as [id|id]; simpl in Hop; [by apply return_guest|].
  by destruct (resume_sleeper s id Hb Hs Hop) as [[_ ?]|[_ ->]].
Qed.

Lemma after_storm_other k :
  k ∉ guests → k ∉ sleepers → after_storm guests sleepers (leases s0) !! k = leases s0 !! k.
Proof.
  intros Hg Hx. rewrite lookup_after_storm. destruct (leases s0 !! k); [|done].
  cbn [fmap option_fmap option_map]. by rewrite !bool_decide_false.
Qed.

(** Once the guests are gone, what is drawn and one sleeper more is no more than
    what is drawn in the end. *)
Lemma sleeper_fits s id l :
  brewing → in_storm s → (∀ g, g ∈ guests → settled s g) → id ∈ sleepers →
  leases s !! id = Some l → l_state l = Preempted →
  fits (planes s) (l_plane_id l) (l_allocated_memory_bytes l).
Proof.
  intros Hb Hs Hguests Hid Hl Hst.
  destruct (careful_invariant topo s (storm_careful _ Hs)) as (Hok & _ & [Hsame Hled]).
  apply Forall_forall. intros p Hp Hin.
  pose proof (proj1 (Forall_forall _ _) (ledger_balance _ _ Hled) p Hp) as Hbal; simpl in Hbal.
  assert (held (planes s) (<[id := set_state Active l]> (leases s)) (p_id p)
          ≤ held (planes s) (after_storm guests sleepers (leases s0)) (p_id p)) as Hle.
  { apply msum_le_maps. intros k.
    pose proof (λ l, draw_nonneg (planes s) (p_id p) l) as Hpos.
    pose proof (ledger_bytes _ _ Hled) as Hbytes.
    destruct (decide (k = id)) as [->|Hne].
    - rewrite lookup_insert_eq, lookup_after_storm.
      destruct (storm_leases _ Hs id) as [Heq|[_ Heq]].
      + rewrite <-Heq, Hl. cbn [fmap option_fmap option_map]. rewrite bool_decide_true by done.
        rewrite bool_decide_false; [done|]. intros Hg. by apply (brew_apart Hb id Hg).
      + exfalso. rewrite lookup_after_storm, Hl in Heq. destruct (leases s0 !! id); [|done].
        cbn [fmap option_fmap option_map] in Heq. rewrite bool_decide_true in Heq by done.
        by injection Heq as ->.
    - rewrite lookup_insert_ne by done. destruct (storm_leases _ Hs k) as [Heq|[_ Heq]].
      2: { rewrite Heq. by destruct (after_storm _ _ _ !! k). }
      destruct (decide (k ∈ guests)) as [Hg|Hg].
      { rewrite (Hguests k Hg). by destruct (after_storm _ _ _ !! k). }
      destruct (decide (k ∈ sleepers)) as [Hx|Hx].
      2: { rewrite after_storm_other, Heq by done. by destruct (leases s0 !! k). }
      destruct (brew_sleepers Hb k Hx) as (l' & p' & Hl' & Hst' & _).
      rewrite lookup_after_storm, Heq, Hl'. cbn [fmap option_fmap option_map].
      rewrite bool_decide_true, bool_decide_false by done.
      rewrite (draw_inactive _ _ l') by (unfold is_active; by rewrite Hst').
      apply Hpos. cbn [l_allocated_memory_bytes set_state].
      apply (Hbytes k). by rewrite Heq, Hl'. }
  rewrite held_insert in Hle. unfold draw_at in Hle. rewrite Hl in Hle.
  rewrite (draw_inactive _ _ l) in Hle by (unfold is_active; by rewrite Hst).
  rewrite draw_active in Hle by done. cbn [l_plane_id l_allocated_memory_bytes set_state] in Hle.
  rewrite bool_decide_true in Hle by done.
  apply list_elem_of_lookup in Hp as [i Hi].
  destruct (Forall2_lookup_r _ _ _ _ _ Hsame Hi) as (p0 & Hp0 & Hpp).
  assert (p_id p = p_id p0) as Hpid by (by rewrite Hpp).
  rewrite Hpid, capacity_lookup in Hbal by (done || by eapply list_elem_of_lookup_2).
  pose proof (Forall_lookup_1 _ _ _ _ (brew_room Hb) Hp0) as Hroom; simpl in Hroom.
  rewrite Hpid, !(held_hardware (t_planes topo) (planes s)) in * by done. lia.
Qed.

Lemma fits_thaw_check ps pl b p :
  NoDup (p_id <$> ps) → p ∈ ps → p_id p = pl → fits ps pl b → thaw_check ps pl b = Ok tt.
Proof.
  intros Hnd [i Hi]%list_elem_of_lookup <- Hfits. unfold thaw_check, plane_is_uma.
  pose proof (fits_room _ _ _ _ Hnd Hi Hfits) as Hroom.
  pose proof (find_first_has_id ps i p Hnd Hi) as Hfind.
  rewrite Hfind, (proj2 (Z.ltb_ge _ _)) by done. destruct (is_uma p) eqn:Huma; [|done].
  destruct (find_first is_cpu ps) as [c|] eqn:Hc; [|done].
  rewrite (proj2 (Z.ltb_ge _ _)); [done|].
  pose proof (find_first_Some _ _ _ Hc) as [Hcin _].
  apply (proj1 (Forall_forall _ _) Hfits c Hcin). unfold charges. rewrite Hfind, Huma, Hc. set_solver.
Qed.

Lemma calm_resume s id :
  brewing → in_storm s → (∀ g, g ∈ guests → settled s g) → id ∈ sleepers →
  settled (weather (Resume id) s) id.
Proof.
  intros Hb Hs Hguests Hid.
  destruct (resume_sleeper s id Hb Hs Hid) as [[_ ?]|[(plane & b & a & Herr) _]]; [done|].
  destruct (brew_sleepers Hb id Hid) as (l & p & Hl & Hst & Hp & Hpl).
  exfalso. revert Herr. rewrite thaw_lease_unfold.
  destruct (storm_leases _ Hs id) as [Hsame|[_ Hdone]].
  2: { rewrite Hdone, lookup_after_storm, Hl. cbn [fmap option_fmap option_map].
       by rewrite bool_decide_true. }
  rewrite Hsame, Hl, Hst.
  destruct (careful_invariant topo s (storm_careful _ Hs)) as (_ & Harb & Hbal).
  apply list_elem_of_lookup in Hp as [i Hi].
  destruct (Forall2_lookup_l _ _ _ _ _ (proj1 Hbal) Hi) as (p' & Hp' & Hpp).
  rewrite (fits_thaw_check (planes s) (l_plane_id l) _ p'); [done|apply (ok_planes _ Harb)| | |].
  - by eapply list_elem_of_lookup_2.
  - by rewrite Hpp.
  - apply (sleeper_fits s id); try done. by rewrite Hsame.
Qed.

Lemma weathered_storm ops s :
  brewing → Forall storm_ok ops → in_storm s →
  in_storm (weathered ops s) ∧ (∀ k, settled s k → settled (weathered ops s) k) ∧
  (∀ g, Return g ∈ ops → settled (weathered ops s) g) ∧
  ((∀ g, g ∈ guests → settled s g) → ∀ x, Resume x ∈ ops → settled (weathered ops s) x).
Proof.
  intros Hb Hops. revert s. induction Hops as [|op ops Hop Hops IH]; intros s Hs.
  { split_and!; [done..| |]; [intros g|intros _ g]; by intros ?%not_elem_of_nil. }
  pose proof (weather_storm op s Hb Hs Hop) as Hs'.
  destruct (IH (weather op s) Hs') as (H1 & H2 & H3 & H4).
  change (weathered (op :: ops) s) with (weathered ops (weather op s)). split_and!; [done|..].
  - intros k Hk. by apply H2, weather_settled.
  - intros g [<-|Hg]%elem_of_cons; [|by apply H3]. apply H2. by apply return_guest.
  - intros Hguests x [<-|Hx]%elem_of_cons.
    + apply H2. by apply calm_resume.
    + apply H4; [|done]. intros g Hg. by apply weather_settled, Hguests.
Qed.

Lemma in_storm_start : brewing → in_storm s0.
Proof. intros Hb. split; [apply Hb|]. intros k. by left. Qed.

(** A lease that was resumed once is where it is going from then on. *)
Lemma resumed_settles ops1 x ops2 :
  brewing → Forall storm_ok (ops1 ++ Resume x :: ops2) →
  res_of (thaw_lease x (weathered ops1 s0)) = Ok tt →
  settled (weathered (ops1 ++ Resume x :: ops2) s0) x.
Proof.
  intros Hb Hops Hres. apply Forall_app in Hops as [Hops1 Hops2].
  apply Forall_cons in Hops2 as [Hx Hops2].
  destruct (weathered_storm ops1 s0 Hb Hops1 (in_storm_start Hb)) as (H1 & _).
  unfold weathered. rewrite foldl_app. fold (weathered ops1 s0).
  change (settled (weathered ops2 (weather (Resume x) (weathered ops1 s0))) x).
  destruct (weathered_storm ops2 _ Hb Hops2 (weather_storm (Resume x) _ Hb H1 Hx))
    as (_ & Hkeep & _).
  apply Hkeep.
  destruct (resume_sleeper _ x Hb H1 Hx) as [[_ ?]|[(? & ? & ? & Herr) _]]; [done|].
  by rewrite Hres in Herr.
Qed.

Lemma storm_over s :
  in_storm s → (∀ g, g ∈ guests → settled s g) → (∀ x, x ∈ sleepers → settled s x) →
  leases s = after_storm guests sleepers (leases s0).
Proof.
  intros Hs Hg Hx. apply map_eq. intros k.
  destruct (decide (k ∈ guests)) as [Hk|Hk]; [by apply Hg|].
  destruct (decide (k ∈ sleepers)) as [Hk'|Hk']; [by apply Hx|].
  destruct (storm_leases _ Hs k) as [->|[_ ?]]; [|done]. by rewrite after_storm_other.
Qed.

(** No attempt fails but for lack of memory. *)
Lemma resume_outcomes ops1 x ops2 :
  brewing → Forall storm_ok (ops1 ++ Resume x :: ops2) →
  res_of (thaw_lease x (weathered ops1 s0)) = Ok tt ∨
  (∃ plane b a, res_of (thaw_lease x (weathered ops1 s0)) = Err (ResourceExhaustion plane b a)) ∧
  state_of (thaw_lease x (weathered ops1 s0)) = weathered ops1 s0.
Proof.
  intros Hb Hops. apply Forall_app in Hops as [Hops1 Hops2]. apply Forall_cons in Hops2 as [Hx _].
  destruct (weathered_storm ops1 s0 Hb Hops1 (in_storm_start Hb)) as (H1 & _).
  destruct (resume_sleeper _ x Hb H1 Hx) as [[? _]|?]; [by left|by right].
Qed.
End storm.

(** C13: a thaw storm calms down. Preempted leases are resumed, again and again,
    while others are being returned, in any interleaving. No attempt fails but
    for lack of memory, and then it changes nothing; and when the planes cover
    what is to run in the end, one attempt for each after the last return is
    enough: all of them run again, the returned leases have expired, no other
    lease has changed, and memory is accounted for. *)
Theorem storm_calms topo guests sleepers s0 gusts calm :
  brewing topo guests sleepers s0 →
  Forall (storm_ok guests sleepers) (gusts ++ calm) →
  (∀ g, g ∈ guests → Return g ∈ gusts) → (∀ x, x ∈ sleepers → Resume x ∈ calm) →
  (∀ ops1 id ops2, gusts ++ calm = ops1 ++ Resume id :: ops2 →
     res_of (thaw_lease id (weathered ops1 s0)) = Ok tt ∨
     (∃ plane b a, res_of (thaw_lease id (weathered ops1 s0)) = Err (ResourceExhaustion plane b a)) ∧
     state_of (thaw_lease id (weathered ops1 s0)) = weathered ops1 s0) ∧
  let s := weathered (gusts ++ calm) s0 in
  careful topo s ∧ leases s = after_storm guests sleepers (leases s0).
Proof.
  intros Hb Hops Hguests Hsleepers. split.
  { intros ops1 id ops2 Heq. rewrite Heq in Hops.
    by apply (resume_outcomes topo guests sleepers s0 ops1 id ops2). }
  apply Forall_app in Hops as [Hgusts Hcalm]. unfold weathered. rewrite foldl_app.
  fold (weathered gusts s0). fold (weathered calm (weathered gusts s0)).
  destruct (weathered_storm topo guests sleepers s0 gusts s0 Hb Hgusts
    (in_storm_start _ _ _ _ Hb)) as (H1 & _ & Hg & _).
  destruct (weathered_storm topo guests sleepers s0 calm _ Hb Hcalm H1) as (H2 & Hkeep & _ & Hx).
  split; [apply H2|]. apply (storm_over topo guests sleepers s0); [done|auto|].
  intros x Hk. apply Hx; auto.
Qed.
