(* ===== verification/Wave.v ===== *)
(** Many requests of one priority for one plane, in any order: what they get
    does not depend on what of lower priority runs there. *)
From Stdlib Require Import SpecFloat.
From S2P Require Import Prelude Lease Errors Topology Model Psi Arbiter Ledger Grant Hotplug.
From S2P Require Import Runs Lifecycle Acquire Spec Admission Crowd.
Local Open Scope Z_scope.

(** A request, and what the arbiter happens to find when it comes. *)
Record request := mkRequest {
  rq_order : HashOrder LeaseId ComputeLease;
  rq_psi : PressureMetrics;
  rq_now : Z;
  rq_fresh : LeaseId;
  rq_bytes : Z;
  rq_unit : option string;
  rq_pid : option Z;
}.

Section wave.
Context (pr : LeasePriority) (plane : string).

Definition ask (rq : request) : Arb ComputeLease :=
  acquire_lease (ho := rq_order rq) (rq_psi rq) (rq_now rq) (rq_fresh rq) pr (rq_bytes rq) (Some plane)
    (rq_unit rq) (rq_pid rq).
Definition ask_op (rq : request) : arbiter_op :=
  AcquireLease (rq_psi rq) (rq_now rq) (rq_fresh rq) pr (rq_bytes rq) (Some plane) (rq_unit rq) (rq_pid rq).
Definition granted (rq : request) : ComputeLease :=
  new_lease (rq_fresh rq) (rq_now rq) plane (rq_bytes rq) pr (rq_unit rq) (rq_pid rq).

(** The requests one after the other. *)
Definition after_wave (wave : list request) (s : ArbiterState) : ArbiterState :=
  foldl (λ s rq, state_of (ask rq s)) s wave.
Definition demanded (wave : list request) : Z := foldr (λ rq, Z.add (rq_bytes rq)) 0 wave.

(** Nobody but leases on the plane draws on the memory behind it, of which there
    is no less than of the plane's. *)
Record alone (topo : HardwareTopology) (ls : gmap LeaseId ComputeLease) : Prop := {
  alone_covered : ∀ p, p ∈ t_planes topo → p_id p ∈ charges (t_planes topo) plane →
    capacity topo plane ≤ p_available_memory_bytes p;
  alone_draws : ∀ k l a, ls !! k = Some l → is_active l = true →
    a ∈ charges (t_planes topo) plane → a ∈ charges (t_planes topo) (l_plane_id l) →
    plane ∈ charges (t_planes topo) (l_plane_id l);
}.

(** A request the plane can take. *)
Record timely (s : ArbiterState) (rq : request) : Prop := {
  timely_psi : is_critical (rq_psi rq) = false ∨ pr = EmergencyTriage;
  timely_size : is_u64 (rq_bytes rq);
  timely_fresh : leases s !! rq_fresh rq = None;
}.

Section facts.
Implicit Types (s : ArbiterState) (ls : gmap LeaseId ComputeLease) (vs : list LeaseId).

(** ** What cannot be had is not changed by preempting *)

Lemma yielded_preempted ls vs :
  (∀ k, k ∈ vs → ∃ l, ls !! k = Some l ∧ preemptable_on plane pr l = true) →
  yielded pr plane (preempt_all vs ls) = yielded pr plane ls.
Proof.
  intros Hvs. apply map_eq. intros k. unfold yielded. rewrite !lookup_fmap, lookup_preempt_all.
  destruct (ls !! k) as [l|] eqn:Hk; cbn [fmap option_fmap option_map]; [|done].
  case_bool_decide as Hin; [|done]. destruct (Hvs k Hin) as (l' & Hl' & Hp). simplify_eq. rewrite Hp.
  assert (preemptable_on plane pr (set_state Preempted l) = false) as ->; [|done].
  unfold preemptable_on. by rewrite andb_false_r.
Qed.

Lemma firm_sweep ps ls id : firm ps pr (sweep_leases ls) id = firm ps pr ls id.
Proof.
  unfold sweep_leases. destruct (128 <? _); [|done]. unfold firm. apply msum_filter. intros k l _ Hdead.
  simpl in Hdead. rewrite draw_inactive; [by destruct (preemptable_on _ _ _)|].
  destruct (is_active l); [|done]. by destruct Hdead.
Qed.

Lemma firm_granted ps ls vs rq :
  (∀ k, k ∈ vs → ∃ l, ls !! k = Some l ∧ preemptable_on plane pr l = true) →
  ls !! rq_fresh rq = None → plane ∈ charges ps plane →
  firm ps pr (<[rq_fresh rq := granted rq]> (sweep_leases (preempt_all vs ls))) plane
  = firm ps pr ls plane + rq_bytes rq.
Proof.
  intros Hvs Hfresh Hcharged. unfold firm at 1. rewrite msum_insert_None.
  - fold (firm ps pr (sweep_leases (preempt_all vs ls)) plane). rewrite firm_sweep.
    rewrite <-!held_yielded, yielded_preempted by done.
    assert (preemptable_on plane pr (granted rq) = false) as ->.
    { unfold preemptable_on, granted, new_lease. simpl. by rewrite Z.ltb_irrefl, andb_false_r. }
    rewrite draw_active by done. change (l_plane_id (granted rq)) with plane.
    rewrite bool_decide_true by done. simpl. lia.
  - apply sweep_leases_None. by rewrite lookup_preempt_all, Hfresh.
Qed.

(** ** One request *)

Lemma preferred_plane topo s i p0 :
  planes_ok (t_planes topo) → same_hardware (t_planes topo) (planes s) →
  t_planes topo !! i = Some p0 → p_id p0 = plane → select_plane (planes s) pr (Some plane) = Ok i.
Proof.
  intros [_ Hnd] Hsame Hp0 Hid. unfold select_plane.
  rewrite (position_hardware _ (t_planes topo)) by done.
  destruct (position (has_id plane) (t_planes topo)) as [j|] eqn:Hpos.
  - simpl. f_equal. apply position_Some in Hpos as (q & Hq & Hqid).
    unfold has_id in Hqid. reflect_bools. eapply (NoDup_lookup _ _ _ _ Hnd).
    + rewrite list_lookup_fmap, Hq. done.
    + rewrite list_lookup_fmap, Hp0. simpl. congruence.
  - pose proof (position_None _ _ p0 Hpos ltac:(by eapply list_elem_of_lookup_2)) as Hnone.
    unfold has_id in Hnone. by reflect_bools.
Qed.

(** Where the plane has room, so has the memory behind it. *)
Lemma reclaimed_fits {ho : HashOrder LeaseId ComputeLease} topo s i p0 b ps ls fz :
  planes_ok (t_planes topo) → balanced topo s → alone topo (leases s) →
  t_planes topo !! i = Some p0 → p_id p0 = plane →
  reclaimed i pr b s = (ps, ls, fz) → b ≤ available_at ps i → fits ps plane b.
Proof.
  intros Hok [Hsame Hled] Halone Hp0 Hid Hrec Hroom.
  pose proof (reclaimed_ledger _ _ _ _ _ _ _ _ Hled Hrec) as Hled'.
  pose proof (reclaimed_hardware _ _ _ _ _ _ _ _ Hled Hrec) as Hhw.
  assert (Hall : same_hardware (t_planes topo) ps) by by etrans.
  destruct (reclaimed_victims _ _ _ _ _ _ _ (ledger_keyed _ _ Hled) Hrec) as (vs & rest & _ & _ & Hls & _).
  destruct (Forall2_lookup_l _ _ _ _ _ Hall Hp0) as (p' & Hp' & Hpp').
  assert (Hid' : p_id p' = plane) by (by rewrite Hpp').
  pose proof (proj1 (Forall_forall _ _) (ledger_balance _ _ Hled')) as Hbal.
  change (∀ p, p ∈ ps → p_available_memory_bytes p + held ps ls (p_id p) = capacity topo (p_id p)) in Hbal.
  pose proof (Hbal p' ltac:(by eapply list_elem_of_lookup_2)) as Hbal'.
  unfold available_at in Hroom. rewrite Hp' in Hroom. rewrite Hid' in Hbal'.
  apply Forall_forall. intros q Hq Hcharged. pose proof (Hbal q Hq) as Hbalq.
  rewrite (charges_hardware (t_planes topo)) in Hcharged by done.
  apply list_elem_of_lookup in Hq as [j Hj].
  destruct (Forall2_lookup_r _ _ _ _ _ Hall Hj) as (q0 & Hq0 & Hqq).
  assert (Hqid : p_id q = p_id q0) by (by rewrite Hqq). rewrite Hqid in Hbalq, Hcharged.
  assert (Hq0in : q0 ∈ t_planes topo) by by eapply list_elem_of_lookup_2.
  rewrite (capacity_lookup topo q0 Hok Hq0in) in Hbalq.
  pose proof (alone_covered _ _ Halone q0 Hq0in Hcharged) as Hcap.
  assert (held ps ls (p_id q0) ≤ held ps ls plane); [|lia].
  apply msum_le. intros k l Hk. pose proof (ledger_bytes _ _ Hled' k l Hk) as Hbytes; simpl in Hbytes.
  destruct (is_active l) eqn:Hact; [|by rewrite !draw_inactive].
  rewrite !draw_active by done. rewrite !(charges_hardware (t_planes topo)) by done.
  case_bool_decide as Hdraw; [|case_bool_decide; lia].
  rewrite bool_decide_true; [lia|].
  rewrite Hls, lookup_preempt_all in Hk. destruct (leases s !! k) as [l0|] eqn:Hk0; simplify_eq/=.
  case_bool_decide; [done|]. by eapply (alone_draws _ _ Halone).
Qed.

Lemma ask_granted topo s i p0 rq :
  careful topo s → alone topo (leases s) → t_planes topo !! i = Some p0 → p_id p0 = plane →
  timely s rq → rq_bytes rq ≤ reach topo pr (leases s) i →
  ∃ vs planes' calls, (∀ k, k ∈ vs → ∃ l, leases s !! k = Some l ∧ preemptable_on plane pr l = true) ∧
    ask rq s =
      (Ok (granted rq),
       with_leases (<[rq_fresh rq := granted rq]> (sweep_leases (preempt_all vs (leases s))))
         (with_planes planes' s), calls) ∧
    careful topo (state_of (ask rq s)).
Proof.
  intros Hrun Halone Hp0 Hid [Hpsi Hsize Hfresh] Hroom.
  destruct (careful_invariant topo s Hrun) as (Hok & Hs & Hbal). pose proof Hbal as [Hsame Hled].
  pose proof (preferred_plane topo s i p0 Hok Hsame Hp0 Hid) as Hsel.
  destruct (select_plane_in_range _ _ _ _ Hsel) as [p Hp].
  assert (Hgate : is_critical (rq_psi rq) && negb (is_emergency pr) = false).
  { destruct Hpsi as [->| ->]; [done|]. by rewrite andb_false_r. }
  destruct (reclaimed (ho := rq_order rq) i pr (rq_bytes rq) s) as [[ps ls] fz] eqn:Hrec.
  destruct (reclaimed_reach topo i pr _ s ps ls fz Hok Hbal ltac:(by eexists) Hrec) as (Hidat & _ & Hreach).
  assert (Hav : rq_bytes rq ≤ available_at ps i) by lia.
  assert (Hplane : id_at (planes s) i = plane) by (by rewrite Hidat, (id_at_lookup _ _ _ Hp0)).
  pose proof (reclaimed_fits topo s i p0 _ ps ls fz Hok Hbal Halone Hp0 Hid Hrec Hav) as Hfits.
  assert (Hover : overcommits (rq_order rq) (ask_op rq) s = false).
  { cbn [overcommits ask_op]. rewrite Hgate, Hsel, Hrec. cbn [fst]. rewrite Hplane.
    rewrite (bool_decide_true (fits _ _ _)) by done. by rewrite andb_false_r. }
  pose proof (careful_step topo s (ask_op rq) (rq_order rq) canonical_order Hrun (conj Hsize Hfresh) Hover)
    as Hrun'. change (careful topo (state_of (ask rq s))) in Hrun'.
  destruct (reclaimed_victims _ _ _ _ _ _ _ (ledger_keyed _ _ Hled) Hrec) as (vs & rest & Hvs & _ & -> & _).
  exists vs, (charge_plane ps i (rq_bytes rq)), (mjoin (freezer_calls <$> fz)). split_and!; [| |done].
  - intros k Hk. rewrite <-Hplane. apply (victims_candidates _ _ _ _ _ _ Hvs). set_solver.
  - unfold ask. rewrite acquire_unfold, Hgate, Hsel, Hrec, Hplane. cbn [fst snd].
    rewrite (proj2 (Z.ltb_ge _ _)) by done. cbn [andb]. done.
Qed.

(** ** The whole wave *)

(** What a wave that began at [s0] leaves: those it may not preempt
    are untouched, those that can still run are there, nothing else is new. *)
Record washed (topo : HardwareTopology) (i : nat) (s0 : ArbiterState) (wave : list request) s : Prop := {
  washed_careful : careful topo s;
  washed_alone : alone topo (leases s);
  washed_reach : reach topo pr (leases s) i = reach topo pr (leases s0) i - demanded wave;
  washed_granted : ∀ rq, rq ∈ wave → leases s !! rq_fresh rq = Some (granted rq);
  washed_spared : ∀ k l, leases s0 !! k = Some l → is_active l = true →
    preemptable_on plane pr l = false → leases s !! k = Some l;
  washed_live : ∀ k l, leases s0 !! k = Some l → is_live (l_state l) = true →
    leases s !! k = Some l ∨
    preemptable_on plane pr l = true ∧ leases s !! k = Some (set_state Preempted l);
  washed_origin : ∀ k l, leases s !! k = Some l →
    (∃ rq, rq ∈ wave ∧ k = rq_fresh rq ∧ l = granted rq) ∨
    ∃ l0, leases s0 !! k = Some l0 ∧
      (l = l0 ∨ preemptable_on plane pr l0 = true ∧ l = set_state Preempted l0);
}.

Lemma demanded_app w1 w2 : demanded (w1 ++ w2) = demanded w1 + demanded w2.
Proof. induction w1 as [|rq w1 IH]; simpl; [done|]. rewrite IH. lia. Qed.

Lemma live_sweep (ls : gmap LeaseId ComputeLease) k l :
  ls !! k = Some l → is_live (l_state l) = true → sweep_leases ls !! k = Some l.
Proof.
  intros Hk Hl. destruct (sweep_leases_spec _ _ _ Hk) as [->|(_ & Hdead & _)]; [done|]. congruence.
Qed.

Lemma sweep_back (ls : gmap LeaseId ComputeLease) k l : sweep_leases ls !! k = Some l → ls !! k = Some l.
Proof. unfold sweep_leases. destruct (128 <? _); [|done]. by intros [? _]%map_lookup_filter_Some. Qed.

Lemma washed_start topo i s : careful topo s → alone topo (leases s) → washed topo i s [] s.
Proof.
  intros Hrun Halone. split; try done.
  - simpl. lia.
  - by intros rq Hrq%not_elem_of_nil.
  - intros k l Hk _. by left.
  - intros k l Hk. right. exists l. auto.
Qed.

(** Preempting or starting a lease on the plane leaves nobody else on the
    memory behind it. *)
Lemma alone_after topo s vs rq :
  alone topo (leases s) → plane ∈ charges (t_planes topo) plane →
  alone topo (<[rq_fresh rq := granted rq]> (sweep_leases (preempt_all vs (leases s)))).
Proof.
  intros [Hcov Hdraws] Hplane. split; [done|]. intros k l a [[<- <-]|[_ Hk]]%lookup_insert_Some Hact Ha Hl.
  - done.
  - apply sweep_back in Hk. rewrite lookup_preempt_all in Hk.
    destruct (leases s !! k) as [l0|] eqn:Hk0; simplify_eq/=.
    case_bool_decide; [done|]. by eapply Hdraws.
Qed.

Lemma charges_self topo i p0 :
  planes_ok (t_planes topo) → t_planes topo !! i = Some p0 → p_id p0 = plane →
  plane ∈ charges (t_planes topo) plane.
Proof.
  intros [_ Hnd] Hp0 <-. unfold charges. rewrite (find_first_has_id _ i p0) by done. left.
Qed.

Lemma washed_fresh topo i s0 wave s rq :
  washed topo i s0 wave s → leases s0 !! rq_fresh rq = None → rq_fresh rq ∉ rq_fresh <$> wave →
  leases s !! rq_fresh rq = None.
Proof.
  intros Hw H0 Hnew. destruct (leases s !! rq_fresh rq) as [l|] eqn:Hl; [|done].
  destruct (washed_origin _ _ _ _ _ Hw _ _ Hl) as [(rq' & Hin & Heq & _)|(l0 & Hl0 & _)]; [|congruence].
  destruct Hnew. rewrite Heq. by apply list_elem_of_fmap_2.
Qed.

Lemma washed_step topo i p0 s0 wave s rq :
  t_planes topo !! i = Some p0 → p_id p0 = plane → washed topo i s0 wave s →
  timely s0 rq → rq_fresh rq ∉ rq_fresh <$> wave →
  demanded wave + rq_bytes rq ≤ reach topo pr (leases s0) i →
  res_of (ask rq s) = Ok (granted rq) ∧ washed topo i s0 (wave ++ [rq]) (state_of (ask rq s)).
Proof.
  intros Hp0 Hid Hw [Hpsi Hsize Hnone] Hnew Hroom.
  pose proof (washed_fresh _ _ _ _ _ _ Hw Hnone Hnew) as Hfresh.
  pose proof Hw as [Hrun Halone Hreach Hgranted Hspared Hlive Horigin].
  pose proof (proj1 (careful_invariant topo s Hrun)) as Hok.
  destruct (ask_granted topo s i p0 rq Hrun Halone Hp0 Hid) as (vs & planes' & calls & Hvs & Hask & Hrun');
    [done|lia|].
  rewrite Hask in *. cbn [res_of state_of fst snd] in *. split; [done|].
  assert (Hkeep : ∀ k l, leases s !! k = Some l → k ∉ vs → is_live (l_state l) = true →
    <[rq_fresh rq := granted rq]> (sweep_leases (preempt_all vs (leases s))) !! k = Some l).
  { intros k l Hk Hvk Hl. rewrite lookup_insert_ne by congruence.
    apply live_sweep; [|done]. by rewrite lookup_preempt_all, Hk; simpl; rewrite bool_decide_false. }
  assert (Hstay : ∀ k l, leases s !! k = Some l → preemptable_on plane pr l = false → k ∉ vs).
  { intros k l Hk Hp Hin. destruct (Hvs k Hin) as (l' & Hl' & Hp'). congruence. }
  split; cbn [leases with_leases with_planes]; [done| | | | | |].
  - apply alone_after; [done|]. by eapply charges_self.
  - rewrite demanded_app. simpl. unfold reach in *. rewrite (id_at_lookup _ _ _ Hp0), Hid in *.
    rewrite firm_granted by (done || by eapply charges_self). lia.
  - intros rq' [Hin| ->%list_elem_of_singleton]%elem_of_app; [|apply lookup_insert_eq].
    apply Hkeep; [by apply Hgranted| |done]. apply (Hstay _ (granted rq')); [by apply Hgranted|].
    unfold preemptable_on, granted, new_lease. simpl. by rewrite Z.ltb_irrefl, andb_false_r.
  - intros k l Hk Hact Hp. apply Hkeep; [by apply Hspared|by apply (Hstay _ l); [apply Hspared|]|].
    unfold is_active in Hact. by destruct (l_state l).
  - intros k l Hk Hl. destruct (Hlive k l Hk Hl) as [Hs|[Hp Hs]].
    + destruct (decide (k ∈ vs)) as [Hin|Hin]; [|left; by apply Hkeep].
      right. destruct (Hvs k Hin) as (l' & Hl' & Hp). assert (l' = l) as -> by congruence.
      split; [done|]. rewrite lookup_insert_ne by congruence.
      apply live_sweep; [|done]. by rewrite lookup_preempt_all, Hs; simpl; rewrite bool_decide_true.
    + right. split; [done|]. apply Hkeep; [done| |done]. apply (Hstay _ _ Hs).
      unfold preemptable_on. by rewrite andb_false_r.
  - intros k l [[<- <-]|[Hne Hk]]%lookup_insert_Some.
    + left. exists rq. set_solver.
    + apply sweep_back in Hk. rewrite lookup_preempt_all in Hk.
      destruct (leases s !! k) as [l1|] eqn:Hk1; [|done]. simpl in Hk.
      destruct (Horigin k l1 Hk1) as [(rq' & Hin & -> & ->)|(l0 & Hl0 & Hor)].
      * left. exists rq'. split; [set_solver|]. split; [done|]. case_bool_decide as Hv; [|congruence].
        destruct (Hstay _ _ Hk1) with (2 := Hv). unfold preemptable_on, granted, new_lease. simpl.
        by rewrite Z.ltb_irrefl, andb_false_r.
      * right. exists l0. split; [done|]. case_bool_decide as Hv; simplify_eq; [|done].
        destruct (Hvs k Hv) as (l' & Hl' & Hp). assert (l' = l1) as -> by congruence.
        right. destruct Hor as [->|[? ->]]; [done|]. by destruct l0.
Qed.

(** The conditions for a wave at [s]. *)
Record wave_ok (topo : HardwareTopology) (i : nat) (s : ArbiterState) (wave : list request) : Prop := {
  wave_careful : careful topo s;
  wave_alone : alone topo (leases s);
  wave_plane : ∃ p0, t_planes topo !! i = Some p0 ∧ p_id p0 = plane;
  wave_timely : Forall (timely s) wave;
  wave_apart : NoDup (rq_fresh <$> wave);
  wave_room : demanded wave ≤ reach topo pr (leases s) i;
}.

Lemma demanded_nonneg s wave : Forall (timely s) wave → 0 ≤ demanded wave.
Proof. induction 1 as [|rq wave [_ [H0 _] _] _ IH]; simpl; lia. Qed.

Lemma wave_prefix topo i s w1 w2 : wave_ok topo i s (w1 ++ w2) → wave_ok topo i s w1.
Proof.
  intros [Hrun Halone Hp Htimely Hapart Hroom]. apply Forall_app in Htimely as [H1 H2].
  rewrite fmap_app in Hapart. apply NoDup_app in Hapart as (Hn & _ & _).
  rewrite demanded_app in Hroom. pose proof (demanded_nonneg s w2 H2). split; try done. lia.
Qed.

(** The last request of a wave, after the others. *)
Lemma wave_last topo i s wave rq s' :
  wave_ok topo i s (wave ++ [rq]) → washed topo i s wave s' →
  res_of (ask rq s') = Ok (granted rq) ∧ washed topo i s (wave ++ [rq]) (state_of (ask rq s')).
Proof.
  intros [_ _ (p0 & Hp0 & Hid) Htimely Hapart Hroom] Hw.
  apply Forall_app in Htimely as [_ [Htimely _]%Forall_cons].
  rewrite fmap_app in Hapart. apply NoDup_app in Hapart as (_ & Hnew & _).
  rewrite demanded_app in Hroom. cbn [demanded foldr] in Hroom.
  apply (washed_step _ _ p0 _ _ _ _ Hp0 Hid Hw Htimely); [|lia].
  intros Hin. apply (Hnew _ Hin). simpl. left.
Qed.

Lemma wave_washes topo i s wave : wave_ok topo i s wave → washed topo i s wave (after_wave wave s).
Proof.
  induction wave as [|rq wave IH] using rev_ind; intros Hok.
  - apply washed_start; apply Hok.
  - unfold after_wave in *. rewrite foldl_app. cbn [foldl].
    by apply (wave_last _ _ _ _ _ _ Hok), IH, (wave_prefix _ _ _ _ [rq]).
Qed.

Lemma wave_answers topo i s w1 rq w2 :
  wave_ok topo i s (w1 ++ rq :: w2) → res_of (ask rq (after_wave w1 s)) = Ok (granted rq).
Proof.
  intros Hok. assert (Hok' : wave_ok topo i s (w1 ++ [rq])).
  { apply (wave_prefix topo i s _ w2). by rewrite <-app_assoc. }
  by apply (wave_last _ _ _ _ _ _ Hok'), wave_washes, (wave_prefix _ _ _ _ [rq]).
Qed.
End facts.
End wave.

(** C12: a wave of requests passes whatever runs below it. Take any careful
    state, requests of one priority for one plane, with other identifiers, that
    together fit next to the leases they may not preempt, where nobody else draws
    on the memory behind the plane. Then, in whatever order they come (any list
    is an order), every single one is granted what it asks for and keeps it to
    the end, no lease of the same or higher priority nor of another plane is
    touched, no lease that can still run is lost, the lower ones are left as they
    were or preempted, and nothing is promised that is not there. *)
Theorem wave_granted pr plane topo i s wave :
  wave_ok pr plane topo i s wave →
  (∀ w1 rq w2, wave = w1 ++ rq :: w2 →
     res_of (ask pr plane rq (after_wave pr plane w1 s)) = Ok (granted pr plane rq)) ∧
  let s' := after_wave pr plane wave s in
  careful topo s' ∧ reach topo pr (leases s') i = reach topo pr (leases s) i - demanded wave ∧
  (∀ rq, rq ∈ wave → leases s' !! rq_fresh rq = Some (granted pr plane rq)) ∧
  (∀ k l, leases s !! k = Some l → is_active l = true → preemptable_on plane pr l = false →
     leases s' !! k = Some l) ∧
  (∀ k l, leases s !! k = Some l → is_live (l_state l) = true →
     leases s' !! k = Some l ∨
     preemptable_on plane pr l = true ∧ leases s' !! k = Some (set_state Preempted l)).
Proof.
  intros Hok. split.
  - intros w1 rq w2 ->. by eapply wave_answers.
  - cbv zeta. destruct (wave_washes _ _ _ _ _ _ Hok). done.
Qed.
