(* ===== verification/Ending.v ===== *)
(** Ending, suspending and resuming a lease: release, revoke, yield, freeze and
    thaw of arbiter.rs, and where grants and releases do not cancel out. *)
From Stdlib Require Import SpecFloat.
From S2P Require Import Prelude Lease Errors Topology Model Psi Arbiter Ledger Grant Hotplug.
From S2P Require Import Runs Lifecycle Acquire Spec.
Local Open Scope Z_scope.

Section restore.
Implicit Types (ps : list ComputePlane) (s : ArbiterState) (l : ComputeLease).

(** What was charged within the room there was is given back exactly. *)
Lemma restore_charged ps id b :
  planes_ok ps → 0 ≤ b → fits ps id b →
  restore_plane_memory (touch (debit b) (charges ps id) ps) id b = ps.
Proof.
  intros [Hall Hnd] Hb Hfits.
  rewrite restore_plane_memory_touch by (by rewrite touch_ids).
  rewrite charges_touch by done. unfold touch. rewrite <-list_fmap_compose.
  etrans; [|apply list_fmap_id]. apply list_fmap_ext. intros i p Hi. simpl.
  pose proof (Forall_lookup_1 _ _ _ _ Hall Hi) as Hp. unfold plane_ok in Hp.
  pose proof (Forall_lookup_1 _ _ _ _ Hfits Hi) as Hroom; simpl in Hroom.
  destruct (bool_decide_reflect (p_id p ∈ charges ps id)) as [Hin|Hin].
  - specialize (Hroom Hin). simpl. rewrite bool_decide_true by done.
    unfold credit, debit; simpl. rewrite saturating_sub_exact by lia.
    rewrite wrapping_add_exact by lia. rewrite Z.min_l by lia.
    destruct p; unfold set_available, set_memory; simpl in *. f_equal. lia.
  - by rewrite bool_decide_false by done.
Qed.

Lemma running_live st : is_live st = false → is_running st = false.
Proof. by destruct st. Qed.

Lemma planes_with ls ps s : planes (with_leases ls (with_planes ps s)) = ps.
Proof. done. Qed.

Lemma lookup_with_leases k l ls s : leases (with_leases (<[k := l]> ls) s) !! k = Some l.
Proof. apply lookup_insert_eq. Qed.

Lemma end_state_active st id s l :
  leases s !! id = Some l → is_active l = true →
  end_state st id s = with_leases (<[id := set_state st l]> (leases s))
    (with_planes (restore_plane_memory (planes s) (l_plane_id l) (l_allocated_memory_bytes l)) s).
Proof. intros Hl Hact. unfold end_state. by rewrite Hl, Hact. Qed.

(** A dead lease is left alone by every operation on it. *)
Lemma end_state_dead st id s l :
  leases s !! id = Some l → is_live (l_state l) = false → end_state st id s = s.
Proof.
  intros Hl Hdead. unfold end_state, is_active. rewrite Hl. by destruct (l_state l).
Qed.

Lemma mark_active_dead st id s l :
  leases s !! id = Some l → is_running (l_state l) = false → mark_active st id s = s.
Proof. intros Hl Hdead. unfold mark_active. by rewrite Hl, is_active_running, Hdead. Qed.

Lemma end_state_lookup st id s l :
  leases s !! id = Some l →
  leases (end_state st id s) !! id =
    Some (if is_live (l_state l) then set_state st l else l).
Proof.
  intros Hl. rewrite end_state_store. unfold store_if. rewrite Hl.
  destruct (is_live _); [apply lookup_insert_eq|done].
Qed.
End restore.

(** An ended lease stays ended. Releasing or revoking a known lease
    succeeds, leaves it [Expired] or [Revoked] (or as it was, when it had
    already ended), gives its memory back only if it was running, and after
    that every further operation on it succeeds and changes nothing, so
    memory is never returned twice. *)
Theorem ended_is_final id s l (revoked : bool) :
  leases s !! id = Some l →
  let s' := state_of (if revoked then revoke_lease id s else release_lease id s) in
  let st := if revoked then Revoked else Expired in
  res_of (if revoked then revoke_lease id s else release_lease id s) = Ok tt ∧
  leases s' = <[id := if is_live (l_state l) then set_state st l else l]> (leases s) ∧
  planes s' = (if is_active l
               then restore_plane_memory (planes s) (l_plane_id l) (l_allocated_memory_bytes l)
               else planes s) ∧
  release_lease id s' = (Ok tt, s', []) ∧ revoke_lease id s' = (Ok tt, s', []) ∧
  yield_lease id s' = (Ok tt, s', []) ∧ freeze_lease id s' = (Ok tt, s', []) ∧
  thaw_lease id s' = (Ok tt, s', []).
Proof.
  intros Hl s' st.
  assert (Hs' : s' = end_state st id s).
  { unfold s', st. destruct revoked; [by rewrite revoke_lease_unfold|by rewrite release_lease_unfold]. }
  assert (Hl' : leases s' !! id = Some (if is_live (l_state l) then set_state st l else l)).
  { rewrite Hs'. by apply end_state_lookup. }
  assert (Hdead : is_live (l_state (if is_live (l_state l) then set_state st l else l)) = false).
  { destruct (is_live (l_state l)) eqn:Hlive; [|done]. unfold st. by destruct revoked. }
  assert (Hrun : is_running (l_state (if is_live (l_state l) then set_state st l else l)) = false)
    by (by apply running_live).
  split_and!.
  - destruct revoked; rewrite ?revoke_lease_unfold, ?release_lease_unfold, Hl; done.
  - rewrite Hs', end_state_store. unfold store_if. rewrite Hl.
    destruct (is_live _); [done|]. by rewrite insert_id.
  - rewrite Hs'. unfold end_state. rewrite Hl. unfold is_active. by destruct (l_state l).
  - by rewrite release_lease_unfold, Hl', (end_state_dead _ _ _ _ Hl').
  - by rewrite revoke_lease_unfold, Hl', (end_state_dead _ _ _ _ Hl').
  - by rewrite yield_lease_unfold, Hl', (mark_active_dead _ _ _ _ Hl').
  - by rewrite freeze_lease_unfold, Hl', (mark_active_dead _ _ _ _ Hl').
  - rewrite thaw_lease_unfold, Hl'. revert Hdead.
    generalize (if is_live (l_state l) then set_state st l else l).
    by intros [? ? ? ? ? ? [] ? ?].
Qed.

(** A grant that fits preempts nobody, and its release undoes it. *)
Lemma granted_then_released (ho : HashOrder LeaseId ComputeLease)
    psi now fresh pr b pref unit pid s l s1 ws :
  arbiter_ok s → is_u64 b → leases s !! fresh = None →
  acquire_lease psi now fresh pr b pref unit pid s = (Ok l, s1, ws) →
  fits (planes s) (l_plane_id l) b →
  ws = [] ∧
  release_lease fresh s1 =
    (Ok tt, with_leases (<[fresh := set_state Expired l]> (sweep_leases (leases s))) s, []).
Proof.
  intros Hs Hb Hfresh Hacq Hfits.
  destruct (acquire_inv _ _ _ _ _ _ _ _ _ _ _ _ (ok_keyed _ Hs) Hacq)
    as [(_ & _ & ? & _)|[_ [(e & _ & ? & _)|(i & p & vs & rest & Hsel & Hp & Hvs & Hout)]]];
    [done..|].
  destruct Hout as [(_ & _ & ? & _)|(_ & Hl & -> & ->)]; [done|]. simplify_eq.
  pose proof (ok_planes _ Hs) as [Hall Hnd].
  assert (Hin : p_id p ∈ charges (planes s) (p_id p)).
  { unfold charges. erewrite find_first_has_id by done. left. }
  assert (Hroom : b ≤ p_available_memory_bytes p) by (by apply (Forall_lookup_1 _ _ _ _ Hfits Hp)).
  assert (vs = []) as ->.
  { destruct vs as [|v vs]; [done|]. exfalso.
    assert (Hshort := victims_short _ _ _ _ _ _ v Hvs ltac:(left)).
    unfold available_at in Hshort. rewrite Hp in Hshort. lia. }
  split; [done|]. unfold preempt_all. rewrite map_on_nil. cbn [restore_all foldl].
  rewrite release_lease_unfold. rewrite lookup_with_leases.
  rewrite (end_state_active _ _ _ _ (lookup_with_leases _ _ _ _)) by done.
  cbn [leases with_leases]. rewrite insert_insert_eq. do 2 f_equal.
  cbn [l_plane_id l_allocated_memory_bytes new_lease].
  assert (planes (with_leases (<[fresh := new_lease fresh now (p_id p) b pr unit pid]>
    (sweep_leases (leases s))) (with_planes (charge_plane (planes s) i b) s)) =
    touch (debit b) (charges (planes s) (p_id p)) (planes s)) as Hpl.
  { unfold planes at 1; simpl. by apply charge_plane_touch. }
  rewrite Hpl, restore_charged by (done || by destruct Hb).
  by destruct s as [[? ? ? ? ?] ? ?].
Qed.

(** C21: granting and releasing cancel out: when the plane, and for a
    unified-memory plane the host memory behind it, has room for the request,
    the grant preempts and signals nobody, and releasing it at once gives every
    plane back exactly the memory it had. *)
Theorem acquire_release_roundtrip (ho : HashOrder LeaseId ComputeLease)
    psi now fresh pr b pref unit pid s l s1 ws :
  arbiter_ok s → is_u64 b → leases s !! fresh = None →
  acquire_lease psi now fresh pr b pref unit pid s = (Ok l, s1, ws) →
  fits (planes s) (l_plane_id l) b →
  ws = [] ∧
  release_lease fresh s1 =
    (Ok tt, with_leases (<[fresh := set_state Expired l]> (sweep_leases (leases s))) s, []).
Proof. apply granted_then_released. Qed.

(** Thawing a preempted lease takes its memory back only when all of it is
    there: it resumes and is charged exactly when the plane, and the host
    memory behind a unified-memory plane, has room; otherwise the error names a
    plane that is short and nothing changes. *)
Theorem thaw_preempted id s l :
  arbiter_ok s → leases s !! id = Some l → l_state l = Preempted →
  let b := l_allocated_memory_bytes l in
  let touched := charges (planes s) (l_plane_id l) in
  (l_plane_id l ∉ p_id <$> planes s → thaw_lease id s = (Err (PlaneNotFound (l_plane_id l)), s, [])) ∧
  (l_plane_id l ∈ p_id <$> planes s → fits (planes s) (l_plane_id l) b →
     thaw_lease id s =
       (Ok tt, with_leases (<[id := set_state Active l]> (leases s))
                 (with_planes (touch (debit b) touched (planes s)) s), [])) ∧
  (¬ fits (planes s) (l_plane_id l) b →
     ∃ p, p ∈ planes s ∧ p_id p ∈ touched ∧ p_available_memory_bytes p < b ∧
       thaw_lease id s = (Err (ResourceExhaustion (p_id p) b (p_available_memory_bytes p)), s, [])).
Proof.
  intros Hs Hl Hst b touched. pose proof (proj2 (ok_planes _ Hs)) as Hnd.
  rewrite thaw_lease_unfold, Hl, Hst. fold b. rewrite thaw_charge_touch by done. fold touched.
  destruct (thaw_check (planes s) (l_plane_id l) b) as [[]|e] eqn:Hcheck.
  - pose proof (thaw_check_fits _ _ _ Hnd Hcheck) as Hfits. split_and!; [|done..].
    intros Hgone. exfalso. unfold thaw_check in Hcheck.
    destruct (find_first _ _) as [p|] eqn:Hp; [|done].
    apply find_first_Some in Hp as [Hp Hid]. unfold has_id in Hid. reflect_bools.
    apply Hgone, list_elem_of_fmap. eauto.
  - unfold thaw_check, plane_is_uma in Hcheck.
    destruct (find_first (has_id (l_plane_id l)) (planes s)) as [p|] eqn:Hp.
    + pose proof Hp as Hp'. apply find_first_Some in Hp' as [Hpin Hid].
      unfold has_id in Hid. reflect_bools.
      assert (Hshort : ∃ q, q ∈ planes s ∧ p_id q ∈ touched ∧ p_available_memory_bytes q < b ∧
        e = ResourceExhaustion (p_id q) b (p_available_memory_bytes q)).
      { unfold touched, charges. rewrite Hp.
        destruct (Z.ltb_spec (p_available_memory_bytes p) b).
        - exists p. split_and!; [done|left|done|congruence].
        - destruct (is_uma p); [|done].
          destruct (find_first is_cpu (planes s)) as [c|] eqn:Hc; [|done].
          destruct (Z.ltb_spec (p_available_memory_bytes c) b); [|done].
          apply find_first_Some in Hc as [Hc _]. exists c.
          split_and!; [done|simpl; set_solver|done|congruence]. }
      destruct Hshort as (q & Hq & Hqt & Hlt & ->). split_and!.
      * intros Hgone. destruct Hgone. apply list_elem_of_fmap. eauto.
      * intros _ Hfits. pose proof (proj1 (Forall_forall _ _) Hfits q Hq Hqt). lia.
      * eauto.
    + assert (Hgone : l_plane_id l ∉ p_id <$> planes s).
      { intros (q & Hid & Hq)%list_elem_of_fmap.
        pose proof (find_first_None _ _ _ Hp Hq) as Hne. unfold has_id in Hne.
        by rewrite bool_decide_true in Hne. }
      simplify_eq. split_and!; [done|done|].
      intros Hnf. destruct Hnf. unfold fits, charges. rewrite Hp.
      apply Forall_forall. set_solver.
Qed.

(** Suspending is lossless: a running lease that yields or is frozen keeps
    its memory, and thawing it makes it run again, with no other change. *)
Theorem suspend_resume_roundtrip id s l (frozen : bool) :
  leases s !! id = Some l → is_active l = true →
  let s1 := state_of (if frozen then freeze_lease id s else yield_lease id s) in
  leases s1 !! id = Some (set_state (if frozen then Frozen else Preempting) l) ∧
  planes s1 = planes s ∧
  thaw_lease id s1 = (Ok tt, with_leases (<[id := set_state Active l]> (leases s)) s, []).
Proof.
  intros Hl Hact s1. set (st := if frozen then Frozen else Preempting).
  assert (Hs1 : s1 = with_leases (<[id := set_state st l]> (leases s)) s).
  { unfold s1, st. destruct frozen; rewrite ?freeze_lease_unfold, ?yield_lease_unfold;
      cbn [state_of fst snd]; unfold mark_active; by rewrite Hl, Hact. }
  rewrite Hs1. split_and!; [apply lookup_insert_eq|done|].
  rewrite thaw_lease_unfold, lookup_with_leases. simpl l_state.
  assert (Hdo : st = Frozen ∨ st = Preempting) by (unfold st; destruct frozen; auto).
  destruct Hdo as [-> | ->]; cbn [leases with_leases]; by rewrite insert_insert_eq.
Qed.

(** ** Where grants and releases do not cancel out *)

Section imbalance.
Context {ho : HashOrder LeaseId ComputeLease}.
Implicit Types (s : ArbiterState) (p : ComputePlane).

(** A grant on a named plane when there is nobody to preempt. *)
Lemma acquire_named psi now fresh pr b unit pid s i p :
  arbiter_ok s → planes s !! i = Some p →
  (is_critical psi = false ∨ pr = EmergencyTriage) →
  (b ≤ p_available_memory_bytes p ∨
   (pr = EmergencyTriage ∧ ∀ k l, leases s !! k = Some l → preemptable_on (p_id p) pr l = false)) →
  acquire_lease psi now fresh pr b (Some (p_id p)) unit pid s =
    (Ok (new_lease fresh now (p_id p) b pr unit pid),
     with_leases (<[fresh := new_lease fresh now (p_id p) b pr unit pid]> (sweep_leases (leases s)))
       (with_planes (touch (debit b) (charges (planes s) (p_id p)) (planes s)) s), []).
Proof.
  intros Hs Hp Hpsi Hroom. pose proof (proj2 (ok_planes _ Hs)) as Hnd.
  destruct (acquire_lease psi now fresh pr b (Some (p_id p)) unit pid s) as [[r s'] ws] eqn:Hacq.
  assert (Hsel : select_plane (planes s) pr (Some (p_id p)) = Ok i).
  { pose proof (find_first_has_id _ _ _ Hnd Hp) as Hf. unfold select_plane.
    rewrite find_first_position in Hf.
    destruct (position (has_id (p_id p)) (planes s)) as [j|] eqn:Hj; [|done].
    simpl in *. f_equal. eapply NoDup_lookup; [exact Hnd| |].
    - rewrite list_lookup_fmap, Hf. done.
    - by rewrite list_lookup_fmap, Hp. }
  destruct (acquire_inv _ _ _ _ _ _ _ _ _ _ _ _ (ok_keyed _ Hs) Hacq)
    as [(Hc & Hpr & _)|[_ [(e & He & _)|(j & q & vs & rest & Hj & Hq & Hvs & Hout)]]];
    [by destruct Hpsi; congruence|congruence|].
  assert (j = i) as -> by congruence. assert (q = p) as -> by congruence.
  assert (vs = []) as ->.
  { destruct vs as [|v vs]; [done|]. exfalso.
    pose proof (victims_short _ _ _ _ _ _ v Hvs ltac:(left)) as Hshort.
    destruct (victims_candidates _ _ _ _ _ _ Hvs v) as (l & Hl & Hpre); [set_solver|].
    unfold available_at in Hshort. rewrite (id_at_lookup _ _ _ Hp) in Hpre. rewrite Hp in Hshort.
    destruct Hroom as [?|[_ Hnone]]; [lia|]. by rewrite (Hnone v l Hl) in Hpre. }
  cbn zeta in Hout. cbn [restore_all foldl] in Hout. unfold preempt_all in Hout.
  rewrite map_on_nil in Hout. unfold available_at in Hout. rewrite Hp in Hout.
  destruct Hout as [(? & ? & _)|(_ & -> & -> & ->)]; [destruct Hroom as [?|[? _]]; [lia|done]|].
  by rewrite (charge_plane_touch _ i p).
Qed.

(** A plane charged with more than it had, and the release of that charge. *)
Lemma overcharged_cycle s fresh l j q b :
  arbiter_ok s → is_u64 b → planes s !! j = Some q →
  p_id q ∈ charges (planes s) (l_plane_id l) → p_available_memory_bytes q < b →
  is_active l = true → l_allocated_memory_bytes l = b →
  let s1 := with_leases (<[fresh := l]> (sweep_leases (leases s)))
    (with_planes (touch (debit b) (charges (planes s) (l_plane_id l)) (planes s)) s) in
  planes s1 !! j = Some (set_available 0 q) ∧
  planes (state_of (release_lease fresh s1)) !! j =
    Some (set_available (Z.min b (p_total_memory_bytes q)) q).
Proof.
  intros Hs [Hb1 Hb2] Hq Hin Hshort Hact Hbytes s1. pose proof (ok_planes _ Hs) as [Hall Hnd].
  assert (Hj : touch (debit b) (charges (planes s) (l_plane_id l)) (planes s) !! j =
    Some (set_available 0 q)).
  { rewrite lookup_touch, Hq. cbn [fmap option_fmap option_map].
    rewrite bool_decide_true by done. unfold debit. do 2 f_equal. u64_lia. }
  split; [exact Hj|]. unfold s1.
  rewrite release_lease_unfold. cbn [state_of fst snd].
  rewrite (end_state_active _ _ _ _ (lookup_with_leases _ _ _ _)) by done.
  rewrite !planes_with, restore_plane_memory_touch by (by rewrite touch_ids).
  rewrite charges_touch by done.
  rewrite lookup_touch, Hj. cbn [fmap option_fmap option_map].
  rewrite bool_decide_true by done. rewrite Hbytes.
  assert (wrapping_add 0 b = b) as Hadd by (by rewrite wrapping_add_exact by lia).
  unfold credit. cbn [p_available_memory_bytes p_total_memory_bytes set_available set_memory].
  by rewrite Hadd.
Qed.
End imbalance.

(** An emergency that forces its way onto a plane without room is charged
    only what was free, but its release gives back all it asked for: the plane
    then shows memory that was never there (up to its total). *)
Theorem forced_grant_overcredits (ho : HashOrder LeaseId ComputeLease)
    psi now fresh b unit pid s i p :
  arbiter_ok s → is_u64 b → planes s !! i = Some p → is_uma p = false →
  (∀ k l, leases s !! k = Some l → preemptable_on (p_id p) EmergencyTriage l = false) →
  p_available_memory_bytes p < b →
  ∃ l s1, acquire_lease psi now fresh EmergencyTriage b (Some (p_id p)) unit pid s = (Ok l, s1, []) ∧
    planes s1 !! i = Some (set_available 0 p) ∧
    planes (state_of (release_lease fresh s1)) !! i =
      Some (set_available (Z.min b (p_total_memory_bytes p)) p).
Proof.
  intros Hs Hb Hp Huma Hnone Hshort. pose proof (proj2 (ok_planes _ Hs)) as Hnd.
  eexists _, _. split; [eapply (acquire_named psi now fresh EmergencyTriage b unit pid s i p); auto|].
  apply (overcharged_cycle s fresh (new_lease fresh now (p_id p) b EmergencyTriage unit pid) i p b);
    try done.
  simpl. rewrite (charges_discrete _ _ _ Hnd Hp Huma). set_solver.
Qed.

(** A grant on a unified-memory plane looks only at the plane: when the host
    memory behind it is short the request is granted all the same (thawing the
    same lease would be refused), the host is charged what it had, and the
    release gives the host all the bytes back. *)
Theorem uma_grant_ignores_host (ho : HashOrder LeaseId ComputeLease)
    psi now fresh pr b unit pid s i j p c :
  arbiter_ok s → is_u64 b → level psi ≠ Critical →
  planes s !! i = Some p → is_uma p = true → b ≤ p_available_memory_bytes p →
  planes s !! j = Some c → find_first is_cpu (planes s) = Some c → p_available_memory_bytes c < b →
  thaw_check (planes s) (p_id p) b =
    Err (ResourceExhaustion (p_id c) b (p_available_memory_bytes c)) ∧
  ∃ l s1, acquire_lease psi now fresh pr b (Some (p_id p)) unit pid s = (Ok l, s1, []) ∧
    planes s1 !! j = Some (set_available 0 c) ∧
    planes (state_of (release_lease fresh s1)) !! j =
      Some (set_available (Z.min b (p_total_memory_bytes c)) c).
Proof.
  intros Hs Hb Hpsi Hp Huma Hroom Hc Hcpu Hshort. pose proof (proj2 (ok_planes _ Hs)) as Hnd.
  pose proof (find_first_has_id _ _ _ Hnd Hp) as Hfind. split.
  - unfold thaw_check, plane_is_uma. rewrite Hfind, Huma, Hcpu.
    rewrite (proj2 (Z.ltb_ge _ _)) by lia. by rewrite (proj2 (Z.ltb_lt _ _)) by lia.
  - eexists _, _. split.
    { eapply (acquire_named psi now fresh pr b unit pid s i p); auto.
      left. unfold is_critical. by apply bool_decide_eq_false. }
    apply (overcharged_cycle s fresh (new_lease fresh now (p_id p) b pr unit pid) j c b); try done.
    simpl. unfold charges. rewrite Hfind, Huma, Hcpu. simpl. set_solver.
Qed.
