(* ===== verification/Freezer.v ===== *)
(** Freezing and signalling clients: crates/inferenced-core/src/freezer.rs. *)
From S2P Require Import Prelude Text Host Errors.
Local Open Scope Z_scope.

Definition CGROUP_ROOT : string := "/sys/fs/cgroup".

Inductive Signal := Usr1 | Stop | Cont.

(** What the code asks of the kernel. *)
Inductive SysCall :=
  | Kill (pid : Z) (sig : Signal)
  | WriteFile (path val : string).

(** The answers: the conversion [Pid::from_raw] of rustix, the outcome of
    [kill] (an error number, or none), and of opening (creating if need be),
    writing and flushing a file. *)
Record Kernel := mkKernel {
  k_fs : Fs;
  k_pid_from_raw : Z → option Z;
  k_kill : Z → Signal → option Z;
  k_open : string → result string unit;
  k_write : string → string → result string unit;
  k_flush : string → result string unit;
}.

(** [Pid::from_raw] is documented to give [Some] for positive numbers. *)
Definition from_raw_documented (k : Kernel) : Prop :=
  k_pid_from_raw k 0 = None ∧ ∀ n, 0 < n → k_pid_from_raw k n = Some n.

(** * Paths *)

(** [path.ends_with(name)] for an absolute path and one component. *)
Definition last_component_is (path name : string) : bool :=
  match last (List.filter (λ c, negb (is_empty c) && negb (String.eqb c ".")) (split "/" path)) with
  | Some c => String.eqb c name
  | None => false
  end.

Definition resolve_freeze_path (fs : Fs) (path : string) : string :=
  if is_absolute path then
    if last_component_is path "cgroup.freeze" then path else join_path path "cgroup.freeze"
  else
    let direct := join_path (join_path CGROUP_ROOT path) "cgroup.freeze" in
    if fs_exists fs direct then direct
    else
      match split_once "-" path with
      | Some (parent, _) =>
          let nested :=
            join_path (join_path (join_path CGROUP_ROOT (parent +:+ ".slice")) path) "cgroup.freeze" in
          if fs_exists fs nested then nested else direct
      | None => direct
      end.

(** * Operations *)

Section operations.
Context {S : Type} (k : Kernel).
Definition Sys (A : Type) : Type := eff S SysCall Error A.

(** [result.map_err(|e| Error::Freezer(format!(..)))?] *)
Definition or_freezer_error (what path : string) (r : result string unit) : Sys unit :=
  match r with
  | Ok _ => eret tt
  | Err e => ethrow (FreezerError (what +:+ path +:+ ": " +:+ e))
  end.

Definition write_cgroup_freeze (path val : string) : Sys unit :=
  (let freeze_file := resolve_freeze_path (k_fs k) path in
   or_freezer_error "Failed to open " freeze_file (k_open k freeze_file) ;!
   etell [WriteFile freeze_file val] ;!
   or_freezer_error "Failed to write to " freeze_file (k_write k freeze_file val) ;!
   or_freezer_error "Failed to flush " freeze_file (k_flush k freeze_file))%eff.

Definition freeze_cgroup (unit_name : string) : Sys unit := write_cgroup_freeze unit_name "1".
Definition thaw_cgroup (unit_name : string) : Sys unit := write_cgroup_freeze unit_name "0".

Definition is_cgroup_frozen (path : string) : result Error bool :=
  let freeze_file := resolve_freeze_path (k_fs k) path in
  match fs_read (k_fs k) freeze_file with
  | Some content => Ok (String.eqb (trim content) "1")
  | None => Err (FreezerError ("Failed to read " +:+ freeze_file))
  end.

Definition signal_process (pid : Z) (sig : Signal) : Sys unit :=
  match k_pid_from_raw k (u32_as_i32 pid) with
  | Some proc_pid =>
      (etell [Kill proc_pid sig] ;!
       match k_kill k proc_pid sig with
       | None => eret tt
       | Some errno => ethrow (SystemCall errno)
       end)%eff
  | None => ethrow (FreezerError ("Invalid PID: " +:+ pretty pid))
  end.

Definition send_cooperative_yield_signal (pid : Z) : Sys unit := signal_process pid Usr1.
Definition freeze_process_signal (pid : Z) : Sys unit := signal_process pid Stop.
Definition thaw_process_signal (pid : Z) : Sys unit := signal_process pid Cont.
End operations.

(** * Facts *)

Section facts.
Implicit Types (k : Kernel) (fs : Fs).

(** System calls leave the state of the program alone. *)
Lemma signal_process_state {S} k pid sig (s : S) :
  signal_process k pid sig s =
    (res_of (signal_process k pid sig tt), s, calls_of (signal_process k pid sig tt)).
Proof.
  unfold signal_process. destruct (k_pid_from_raw k _) as [p|]; [|done].
  unfold ebind, etell. by destruct (k_kill k p sig).
Qed.

Lemma write_cgroup_freeze_state {S} k path val (s : S) :
  write_cgroup_freeze k path val s =
    (res_of (write_cgroup_freeze k path val tt), s, calls_of (write_cgroup_freeze k path val tt)).
Proof.
  unfold write_cgroup_freeze, or_freezer_error, ebind, etell, eret, ethrow.
  destruct (k_open k _); [|done]. destruct (k_write k _ _); [|done]. by destruct (k_flush k _).
Qed.

(** Signals reach the process named and no other. *)
Lemma signal_process_target k pid sig :
  from_raw_documented k → 0 < pid < 2 ^ 31 →
  calls_of (signal_process k pid sig tt) = [Kill pid sig].
Proof.
  intros [_ Hraw] Hpid. unfold signal_process, u32_as_i32.
  rewrite (proj2 (Z.ltb_lt _ _)) by lia. rewrite Hraw by lia.
  unfold ebind, etell. by destruct (k_kill k pid sig).
Qed.

Lemma ends_with_false s p : (∀ l, s ≠ l +:+ p) → ends_with s p = false.
Proof.
  intros Hne. destruct (ends_with s p) eqn:H; [|done]. exfalso.
  apply ends_with_true in H as [l Hl]. by eapply Hne.
Qed.

(** A name without slash is one component. *)
Lemma lacks_not_absolute s : lacks "/" s = true → is_absolute s = false.
Proof.
  intros Hs. unfold is_absolute. destruct (starts_with s "/") eqn:H; [|done].
  apply starts_with_true in H as [r ->].
  change ("/" +:+ r) with (String "/" r) in Hs. unfold lacks in Hs. by cbn in Hs.
Qed.

Lemma string_app_cancel_last s1 s2 a b :
  s1 +:+ String a "" = s2 +:+ String b "" → a = b.
Proof.
  revert s2. induction s1 as [|c s1 IH]; intros [|d s2] Heq.
  - by injection Heq.
  - injection Heq as _ Heq. destruct s2; discriminate Heq.
  - injection Heq as _ Heq. destruct s1; discriminate Heq.
  - injection Heq as _ Heq. by apply (IH s2).
Qed.

Lemma lacks_no_final_slash s : lacks "/" s = true → ends_with s "/" = false.
Proof.
  intros Hs. apply ends_with_false. intros l ->. rewrite lacks_app in Hs.
  apply andb_true_iff in Hs as [_ Hs]. by vm_compute in Hs.
Qed.

Lemma ends_with_app_slash base s :
  lacks "/" s = true → s ≠ "" → ends_with (base +:+ s) "/" = false.
Proof.
  intros Hs Hne. apply ends_with_false. intros l Heq.
  assert (∃ s' a, s = s' +:+ String a "" ∧ a ≠ "/"%char) as (s' & a & -> & Ha).
  { clear Heq. induction s as [|b s IH]; [done|].
    unfold lacks in Hs. cbn [string_forallb] in Hs. apply andb_true_iff in Hs as [Hb Hs].
    apply negb_true_iff, Ascii.eqb_neq in Hb. destruct s as [|c s].
    - by exists "", b.
    - destruct IH as (s' & a & Heq & Ha); [done|done|]. exists (String b s'), a.
      change (String b s' +:+ String a "") with (String b (s' +:+ String a "")).
      by rewrite <-Heq. }
  apply Ha. rewrite (assoc_L String.append) in Heq. by eapply string_app_cancel_last.
Qed.

Lemma join_one base name :
  base ≠ "" → ends_with base "/" = false → lacks "/" name = true →
  join_path base name = base +:+ "/" +:+ name.
Proof.
  intros Hb He Hn. unfold join_path. rewrite lacks_not_absolute, He by done.
  destruct (is_empty base) eqn:H; [|done]. by apply is_empty_true in H.
Qed.
End facts.

(** A unit name cannot lead the daemon outside the cgroup tree: for a name
    without a slash the file written is the unit's own [cgroup.freeze] at the
    top of the tree, or inside the slice named by the part of the unit before
    its first dash, and the nested one is chosen only when it exists and the
    direct one does not. *)
Theorem freeze_path_of_unit fs unit_name :
  lacks "/" unit_name = true → unit_name ≠ "" →
  let direct := "/sys/fs/cgroup/" +:+ unit_name +:+ "/cgroup.freeze" in
  let nested parent := "/sys/fs/cgroup/" +:+ parent +:+ ".slice/" +:+ unit_name +:+ "/cgroup.freeze" in
  (resolve_freeze_path fs unit_name = direct ∧
     (fs_exists fs direct = true ∨
      ∀ parent rest, unit_name = parent +:+ String "-" rest → lacks "-" parent = true →
        fs_exists fs (nested parent) = false)) ∨
  ∃ parent rest, unit_name = parent +:+ String "-" rest ∧ lacks "-" parent = true ∧
    fs_exists fs direct = false ∧ fs_exists fs (nested parent) = true ∧
    resolve_freeze_path fs unit_name = nested parent.
Proof.
  intros Hslash Hne direct nested.
  assert (Hdirect : join_path (join_path CGROUP_ROOT unit_name) "cgroup.freeze" = direct).
  { rewrite (join_one CGROUP_ROOT) by done. rewrite join_one; [|done| |done].
    - unfold direct. by rewrite <-!(assoc_L String.append).
    - rewrite (assoc_L String.append). by apply ends_with_app_slash. }
  unfold resolve_freeze_path. rewrite lacks_not_absolute by done. rewrite Hdirect.
  destruct (fs_exists fs direct) eqn:Hd; [by left; auto|].
  destruct (split_once "-" unit_name) as [[parent rest]|] eqn:Hsplit.
  - destruct (split_once_Some _ _ _ _ Hsplit) as [Heq Hparent].
    assert (Hnested : join_path (join_path (join_path CGROUP_ROOT (parent +:+ ".slice")) unit_name)
      "cgroup.freeze" = nested parent).
    { assert (lacks "/" (parent +:+ ".slice") = true) as Hps.
      { rewrite Heq, lacks_app in Hslash. apply andb_true_iff in Hslash as [Hp _].
        by rewrite lacks_app, Hp. }
      rewrite (join_one CGROUP_ROOT) by done.
      rewrite (join_one _ unit_name); [|done| |done].
      - rewrite join_one; [|done| |done].
        + unfold nested. by rewrite <-!(assoc_L String.append).
        + rewrite (assoc_L String.append). by apply ends_with_app_slash.
      - rewrite (assoc_L String.append). apply ends_with_app_slash; [done|]. by destruct parent. }
    rewrite Hnested. destruct (fs_exists fs (nested parent)) eqn:Hn.
    + right. exists parent, rest. by split_and!.
    + left. split; [done|]. right. intros parent' rest' Heq' Hlacks'.
      rewrite Heq', split_once_app in Hsplit by done. by simplify_eq.
  - left. split; [done|]. right. intros parent rest Heq Hlacks.
    by rewrite Heq, split_once_app in Hsplit by done.
Qed.
