(* ===== verification/Preempt.v ===== *)
(** Two-tier preemption: crates/inferenced-core/src/preempt.rs. *)
From S2P Require Import Prelude Lease Errors Topology Text Host Arbiter Ledger Runs Freezer.
Local Open Scope Z_scope.

Inductive PreemptTier := Tier1Cooperative | Tier2ForcedFreeze | TierRevoked.

#[export] Instance PreemptTier_eq_dec : EqDecision PreemptTier.
Proof. solve_decision. Defined.

Record PreemptRecord := mkPreemptRecord {
  rec_lease_id : LeaseId;
  rec_plane_id : string;
  rec_client_pid : option Z;
  rec_client_unit : option string;
  rec_tier : PreemptTier;
  rec_completed : bool;
  rec_deadline_ms : Z;
}.

(** [rec.tier = ..; rec.completed = ..] *)
Definition set_record (tier : PreemptTier) (completed : bool) (r : PreemptRecord) : PreemptRecord :=
  mkPreemptRecord (rec_lease_id r) (rec_plane_id r) (rec_client_pid r) (rec_client_unit r)
    tier completed (rec_deadline_ms r).

(** What the coordinator shares with other tasks: the arbiter and the records,
    each behind its lock. *)
Record Shared := mkShared {
  sh_arbiter : ArbiterState;
  sh_records : gmap LeaseId PreemptRecord;
}.

(** A run of the coordinator: the shared state, the clock in nanoseconds, and
    the number of times a lock was taken. *)
Record Coord := mkCoord {
  c_shared : Shared;
  c_now : Z;
  c_locks : nat;
}.

(** The surroundings: [others n] is what the other tasks do before the [n]-th
    lock is obtained, [naps n] how long a sleep that follows [n] locks takes. *)
Record World := mkWorld {
  others : nat → Shared → Shared;
  naps : nat → Z;
  kernel : Kernel;
}.

Definition POLL_INTERVAL : Z := 25 * 1000000.
Definition DEFAULT_PREEMPT_TIMEOUT : Z := 250 * 1000000.

(** [sleep] does not return early. *)
Definition sleeps_enough (w : World) : Prop := ∀ n, POLL_INTERVAL ≤ naps w n.

Section preempt.
Context (w : World).
Definition Co (A : Type) : Type := eff Coord SysCall Error A.

(** Take a lock: the others have run before. *)
Definition lock : Co unit :=
  λ c, (Ok tt, mkCoord (others w (c_locks c) (c_shared c)) (c_now c) (S (c_locks c)), []).

(** An operation of the arbiter; those called here make no system call. *)
Definition on_arbiter {A} (m : Arb A) : Co A :=
  (lock ;!
   λ c, match m (sh_arbiter (c_shared c)) with
        | (r, s, _) =>
            (r, mkCoord (mkShared s (sh_records (c_shared c))) (c_now c) (c_locks c), [])
        end)%eff.

Definition on_records (f : gmap LeaseId PreemptRecord → gmap LeaseId PreemptRecord) : Co unit :=
  (lock ;!
   emodify (λ c, mkCoord (mkShared (sh_arbiter (c_shared c)) (f (sh_records (c_shared c))))
                   (c_now c) (c_locks c)))%eff.

Definition peek_lease (id : LeaseId) : Co (option ComputeLease) :=
  on_arbiter (λ s, (Ok (get_lease id s), s, [])).

Definition nap : Co unit :=
  emodify (λ c, mkCoord (c_shared c) (c_now c + naps w (c_locks c)) (c_locks c)).

(** One test of the loop: the client has given the lease up. *)
Definition given_up (o : option ComputeLease) : bool :=
  match o with
  | Some curr =>
      negb (is_active curr) || bool_decide (l_state curr = Preempted)
      || bool_decide (l_state curr = Expired) || bool_decide (l_state curr = Revoked)
  | None => true
  end.

(** [while Instant::now() < deadline { .. }]: whether the client yielded;
    [None] when the fuel runs out, which [poll_fuel] excludes. *)
Fixpoint poll (fuel : nat) (deadline : Z) (id : LeaseId) : Co (option bool) :=
  match fuel with
  | O => eret None
  | S fuel' =>
      (let! c := eget in
       if c_now c <? deadline then
         nap ;!
         let! curr := peek_lease id in
         if given_up curr then eret (Some true) else poll fuel' deadline id
       else eret (Some false))%eff
  end.

(** Each round takes at least [POLL_INTERVAL]. *)
Definition poll_fuel (duration : Z) : nat := S (S (Z.to_nat (duration / POLL_INTERVAL))).

Definition insert_record (id : LeaseId) (r : PreemptRecord) (recs : gmap LeaseId PreemptRecord) :
    gmap LeaseId PreemptRecord :=
  <[id := r]>
    (if 128 <? Z.of_nat (size recs)
     then filter (λ kr, rec_completed kr.2 = false) recs else recs).

Definition tier1_record (duration : Z) (id : LeaseId) (lease : ComputeLease) : PreemptRecord :=
  mkPreemptRecord id (l_plane_id lease) (l_client_pid lease) (l_client_unit lease)
    Tier1Cooperative false (duration / 1000000).

(** Tier 2: freeze the unit and stop the process; whether one succeeded. *)
Definition force_freeze (lease : ComputeLease) : Co bool :=
  (let! b1 := match l_client_unit lease with
              | Some u => etry (freeze_cgroup (kernel w) u)
              | None => eret false
              end in
   let! b2 := match l_client_pid lease with
              | Some pid => etry (freeze_process_signal (kernel w) pid)
              | None => eret false
              end in
   eret (b1 || b2))%eff.

Definition preempt_lease (duration : Z) (id : LeaseId) : Co unit :=
  (let! found := peek_lease id in
   let! lease := elift (ok_or found (LeaseNotFound id)) in
   if negb (is_active lease) then eret tt
   else
     on_arbiter (yield_lease id) ;!
     let! _ := match l_client_pid lease with
               | Some pid => etry (send_cooperative_yield_signal (kernel w) pid)
               | None => eret false
               end in
     on_records (insert_record id (tier1_record duration id lease)) ;!
     let! c := eget in
     let! yielded := poll (poll_fuel duration) (c_now c + duration) id in
     if default false yielded then
       on_records (alter (λ r, set_record (rec_tier r) true r) id)
     else
       let! frozen := force_freeze lease in
       on_arbiter (freeze_lease id) ;!
       on_records (alter (set_record Tier2ForcedFreeze frozen) id))%eff.

(** [PreemptCoordinator::thaw_lease] and [revoke_lease] *)
Definition coord_thaw_lease (id : LeaseId) : Co unit :=
  (let! found := peek_lease id in
   let! lease := elift (ok_or found (LeaseNotFound id)) in
   let! _ := match l_client_unit lease with
             | Some u => etry (thaw_cgroup (kernel w) u)
             | None => eret false
             end in
   let! _ := match l_client_pid lease with
             | Some pid => etry (thaw_process_signal (kernel w) pid)
             | None => eret false
             end in
   on_arbiter (thaw_lease id))%eff.

Definition coord_revoke_lease (id : LeaseId) : Co unit :=
  (on_arbiter (revoke_lease id) ;!
   on_records (alter (set_record TierRevoked true) id))%eff.

Definition get_record (id : LeaseId) (c : Coord) : option PreemptRecord :=
  sh_records (c_shared c) !! id.
Definition list_records {ho : HashOrder LeaseId PreemptRecord} (c : Coord) : list PreemptRecord :=
  (hash_iter (sh_records (c_shared c))).*2.
End preempt.

(** * Facts *)

Section poll_facts.
Context (w : World) (id : LeaseId).
Implicit Types (c : Coord) (sh : Shared).

Lemma shared_eta sh : mkShared (sh_arbiter sh) (sh_records sh) = sh.
Proof. by destruct sh. Qed.

(** The locked sections, one by one. *)
Lemma on_arbiter_spec {A} (m : Arb A) c r s ws :
  m (sh_arbiter (others w (c_locks c) (c_shared c))) = (r, s, ws) →
  on_arbiter w m c =
    (r, mkCoord (mkShared s (sh_records (others w (c_locks c) (c_shared c)))) (c_now c)
          (S (c_locks c)), []).
Proof. intros Hm. unfold on_arbiter, lock, ebind. cbn [c_shared c_now c_locks]. by rewrite Hm. Qed.

Lemma on_records_spec f c :
  on_records w f c =
    (Ok tt, mkCoord (mkShared (sh_arbiter (others w (c_locks c) (c_shared c)))
                       (f (sh_records (others w (c_locks c) (c_shared c))))) (c_now c)
              (S (c_locks c)), []).
Proof. done. Qed.

Lemma peek_lease_spec c :
  peek_lease w id c =
    (Ok (leases (sh_arbiter (others w (c_locks c) (c_shared c))) !! id),
     mkCoord (others w (c_locks c) (c_shared c)) (c_now c) (S (c_locks c)), []).
Proof.
  unfold peek_lease. erewrite on_arbiter_spec by done. unfold get_lease. by rewrite shared_eta.
Qed.

(** What the poll at lock [n] sees when the shared state was [sh]. *)
Definition seen (n : nat) sh : option ComputeLease :=
  leases (sh_arbiter (others w n sh)) !! id.

Lemma poll_unfold fuel deadline c :
  poll w (S fuel) deadline id c =
    if c_now c <? deadline then
      let c' := mkCoord (others w (c_locks c) (c_shared c)) (c_now c + naps w (c_locks c))
                  (S (c_locks c)) in
      if given_up (seen (c_locks c) (c_shared c)) then (Ok (Some true), c', [])
      else poll w fuel deadline id c'
    else (Ok (Some false), c, []).
Proof.
  cbn [poll]. rewrite (ebind_silent eget _ _ c c eq_refl).
  destruct (c_now c <? deadline); [|done].
  rewrite (ebind_silent (nap w) _ _ tt _ eq_refl).
  rewrite (ebind_silent _ _ _ _ _ (peek_lease_spec _)). cbn [c_shared c_now c_locks].
  unfold seen. by destruct (given_up _).
Qed.

(** The loop ends within its fuel, having looked at least until a client
    gave up or the deadline passed, and makes no system call. *)
Lemma poll_ends fuel deadline c :
  sleeps_enough w →
  deadline - c_now c ≤ Z.of_nat fuel * POLL_INTERVAL →
  ∃ b c', poll w (S fuel) deadline id c = (Ok (Some b), c', []) ∧
    (c_locks c ≤ c_locks c' ≤ c_locks c + fuel)%nat ∧ c_now c ≤ c_now c' ∧
    (b = false → deadline ≤ c_now c') ∧
    (b = true → given_up (leases (sh_arbiter (c_shared c')) !! id) = true) ∧
    (** what the others maintain still holds *)
    ∀ P : Shared → Prop, (∀ n sh, P sh → P (others w n sh)) → P (c_shared c) → P (c_shared c').
Proof.
  intros Hw. revert c. induction fuel as [|fuel IH]; intros c Hfuel; rewrite poll_unfold.
  - rewrite (proj2 (Z.ltb_ge _ _)) by lia. exists false, c. split_and!; try done; lia.
  - destruct (Z.ltb_spec (c_now c) deadline); [|exists false, c; split_and!; try done; lia].
    pose proof (Hw (c_locks c)) as Hnap. cbn zeta.
    set (c1 := mkCoord (others w (c_locks c) (c_shared c)) (c_now c + naps w (c_locks c))
                 (S (c_locks c))).
    assert (Hpos : 0 < POLL_INTERVAL) by done.
    destruct (given_up (seen (c_locks c) (c_shared c))) eqn:Hgu.
    + exists true, c1. split_and!; simpl; try done; try lia. intros P HP. apply HP.
    + destruct (IH c1) as (b & c' & -> & Hlocks & Hnow & Hf & Ht & HP); [simpl; lia|].
      exists b, c'. split_and!; try done; simpl in *; try lia.
      intros P Hothers HPc. apply HP; [done|]. by apply Hothers.
Qed.

(** How long [j] naps take, from the [n]-th lock on. *)
Fixpoint nap_time (n j : nat) : Z :=
  match j with O => 0 | S j' => naps w n + nap_time (S n) j' end.

Lemma nap_time_nonneg n j : sleeps_enough w → 0 ≤ nap_time n j.
Proof.
  intros Hw. revert n. induction j as [|j IH]; intros n; simpl; [done|].
  pose proof (Hw n). specialize (IH (S n)). assert (0 < POLL_INTERVAL) by done. lia.
Qed.

(** A client that has given up by the [j]-th poll is seen. *)
Lemma poll_cooperative j fuel deadline c :
  sleeps_enough w →
  deadline - c_now c ≤ Z.of_nat fuel * POLL_INTERVAL →
  c_now c + nap_time (c_locks c) j < deadline →
  (∀ sh, given_up (seen (c_locks c + j) sh) = true) →
  ∃ c', poll w (S fuel) deadline id c = (Ok (Some true), c', []) ∧
    (c_locks c ≤ c_locks c' ≤ c_locks c + fuel)%nat.
Proof.
  intros Hw. revert j c. induction fuel as [|fuel IH]; intros j c Hfuel Htime Hseen;
    rewrite poll_unfold.
  { pose proof (nap_time_nonneg (c_locks c) j Hw). simpl in Hfuel. lia. }
  pose proof (nap_time_nonneg (c_locks c) j Hw).
  rewrite (proj2 (Z.ltb_lt _ _)) by lia. cbn zeta.
  pose proof (Hw (c_locks c)) as Hnap. assert (0 < POLL_INTERVAL) by done.
  destruct (given_up (seen (c_locks c) (c_shared c))) eqn:Hgu.
  { eexists. split; [done|]. simpl. lia. }
  destruct j as [|j]; [rewrite Nat.add_0_r in Hseen; by rewrite Hseen in Hgu|].
  set (c1 := mkCoord (others w (c_locks c) (c_shared c)) (c_now c + naps w (c_locks c))
               (S (c_locks c))).
  destruct (IH j c1) as (c' & Hpoll & Hlocks).
  - simpl. lia.
  - simpl in *. lia.
  - intros sh. simpl. rewrite <-Nat.add_succ_r. apply Hseen.
  - exists c'. split; [done|]. simpl in Hlocks. lia.
Qed.
End poll_facts.

Section preempt_facts.
Context (w : World) (id : LeaseId).
Implicit Types (c : Coord) (sh : Shared) (l : ComputeLease).

(** The calls of each tier for the client of [l]. *)
Definition tell_calls l : list SysCall :=
  match l_client_pid l with
  | Some pid => calls_of (signal_process (kernel w) pid Usr1 tt)
  | None => []
  end.
Definition unit_frozen l : bool :=
  match l_client_unit l with
  | Some u => is_ok (res_of (freeze_cgroup (kernel w) u tt))
  | None => false
  end.
Definition process_stopped l : bool :=
  match l_client_pid l with
  | Some pid => is_ok (res_of (signal_process (kernel w) pid Stop tt))
  | None => false
  end.
Definition force_calls l : list SysCall :=
  match l_client_unit l with
  | Some u => calls_of (freeze_cgroup (kernel w) u tt)
  | None => []
  end ++
  match l_client_pid l with
  | Some pid => calls_of (signal_process (kernel w) pid Stop tt)
  | None => []
  end.

Lemma force_freeze_spec l c :
  force_freeze w l c = (Ok (unit_frozen l || process_stopped l), c, force_calls l).
Proof.
  unfold force_freeze, unit_frozen, process_stopped, force_calls, freeze_cgroup,
    freeze_process_signal, ebind, etry, eret.
  destruct (l_client_unit l) as [u|], (l_client_pid l) as [pid|];
    rewrite ?(write_cgroup_freeze_state _ _ _ c); cbn zeta beta iota;
    rewrite ?(signal_process_state _ _ _ c); cbn; by rewrite ?app_nil_r.
Qed.

(** The shared state once tier 1 has been set up. *)
Definition tier1_shared (duration : Z) l n sh : Shared :=
  let sh0 := others w n sh in
  let sh1 := others w (S n) sh0 in
  let sh2 := others w (S (S n))
    (mkShared (mark_active Preempting id (sh_arbiter sh1)) (sh_records sh1)) in
  mkShared (sh_arbiter sh2) (insert_record id (tier1_record duration id l) (sh_records sh2)).

Lemma preempt_lease_unfold duration c l :
  leases (sh_arbiter (others w (c_locks c) (c_shared c))) !! id = Some l → is_active l = true →
  is_Some (leases (sh_arbiter (others w (S (c_locks c)) (others w (c_locks c) (c_shared c)))) !! id) →
  let c1 := mkCoord (tier1_shared duration l (c_locks c) (c_shared c)) (c_now c)
              (S (S (S (c_locks c)))) in
  preempt_lease w duration id c =
    let '(r, c', ws) :=
      (let! yielded := poll w (poll_fuel duration) (c_now c + duration) id in
       if default false yielded then on_records w (alter (λ r, set_record (rec_tier r) true r) id)
       else
         let! frozen := force_freeze w l in
         on_arbiter w (freeze_lease id) ;!
         on_records w (alter (set_record Tier2ForcedFreeze frozen) id))%eff c1 in
    (r, c', tell_calls l ++ ws).
Proof.
  intros Hl Hact [l1 Hl1] c1. unfold preempt_lease.
  rewrite (ebind_silent _ _ _ _ _ (peek_lease_spec w id c)). cbv beta. rewrite Hl. cbn [ok_or].
  rewrite (ebind_silent (elift _) _ _ l _ eq_refl). rewrite Hact. cbn [negb].
  set (c0 := mkCoord (others w (c_locks c) (c_shared c)) (c_now c) (S (c_locks c))).
  set (sh1 := others w (c_locks c0) (c_shared c0)).
  set (c2 := mkCoord (mkShared (mark_active Preempting id (sh_arbiter sh1)) (sh_records sh1))
               (c_now c) (S (S (c_locks c)))).
  assert (Hy : on_arbiter w (yield_lease id) c0 = (Ok tt, c2, [])).
  { rewrite (on_arbiter_spec w (yield_lease id) c0 (Ok tt)
      (mark_active Preempting id (sh_arbiter sh1)) []); [done|].
    fold sh1. rewrite yield_lease_unfold.
    by unfold sh1, c0; cbn [c_locks c_shared]; rewrite Hl1. }
  rewrite (ebind_silent _ _ _ _ _ Hy).
  assert (Htell : match l_client_pid l with
    | Some pid => etry (send_cooperative_yield_signal (kernel w) pid)
    | None => eret false end c2 = (Ok (match l_client_pid l with
    | Some pid => is_ok (res_of (signal_process (kernel w) pid Usr1 tt)) | None => false end),
    c2, tell_calls l)).
  { unfold tell_calls, etry, send_cooperative_yield_signal. destruct (l_client_pid l) as [pid|]; [|done].
    by rewrite (signal_process_state (kernel w) pid Usr1 c2). }
  rewrite (ebind_Ok _ _ _ _ _ _ Htell).
  rewrite (ebind_silent _ _ _ _ _ (on_records_spec w _ c2)).
  by rewrite (ebind_silent eget _ _ _ _ eq_refl).
Qed.
End preempt_facts.

(** The other tasks do not touch the record of the lease. *)
Definition others_mind_records (w : World) (id : LeaseId) : Prop :=
  ∀ n sh, sh_records (others w n sh) !! id = sh_records sh !! id.

Section tiers.
Context (w : World) (id : LeaseId) (duration : Z).

Lemma poll_fuel_enough : 0 ≤ duration → duration ≤ Z.of_nat (S (Z.to_nat (duration / POLL_INTERVAL))) * POLL_INTERVAL.
Proof.
  intros Hd. assert (0 < POLL_INTERVAL) by done.
  pose proof (Z.div_mod duration POLL_INTERVAL ltac:(lia)).
  pose proof (Z.mod_pos_bound duration POLL_INTERVAL ltac:(lia)).
  pose proof (Z.div_pos duration POLL_INTERVAL ltac:(lia) ltac:(lia)). nia.
Qed.

(** What the arbiter says to an operation on a lease it has or has not. *)
Definition on_found (found : option ComputeLease) : result Error unit :=
  match found with Some _ => Ok tt | None => Err (LeaseNotFound id) end.

(** The end of a yielded preemption, and of a forced one. *)
Lemma finish_record f c :
  ∃ c', on_records w (alter f id) c = (Ok tt, c', []) ∧ c_locks c' = S (c_locks c) ∧
    (others_mind_records w id → sh_records (c_shared c') !! id = f <$> sh_records (c_shared c) !! id).
Proof.
  rewrite on_records_spec. eexists. split; [done|]. split; [done|]. intros Hrecs. simpl.
  by rewrite lookup_alter_eq, Hrecs.
Qed.

Lemma freeze_step c :
  ∃ c', on_arbiter w (freeze_lease id) c = (on_found (seen w id (c_locks c) (c_shared c)), c', []) ∧
    c_locks c' = S (c_locks c) ∧
    (others_mind_records w id → sh_records (c_shared c') !! id = sh_records (c_shared c) !! id).
Proof.
  unfold seen. erewrite (on_arbiter_spec w (freeze_lease id) c); [|by rewrite freeze_lease_unfold].
  eexists. split; [done|]. split; [done|]. intros Hrecs. simpl. by rewrite Hrecs.
Qed.

Lemma forced_end l c :
  let found := seen w id (c_locks c) (c_shared c) in
  ∃ c', (let! frozen := force_freeze w l in
         on_arbiter w (freeze_lease id) ;!
         on_records w (alter (set_record Tier2ForcedFreeze frozen) id))%eff c
      = (on_found found, c', force_calls w l) ∧ (c_locks c' ≤ c_locks c + 2)%nat ∧
    (others_mind_records w id → ∀ r, sh_records (c_shared c) !! id = Some r →
     sh_records (c_shared c') !! id =
       Some match found with
            | Some _ => set_record Tier2ForcedFreeze (unit_frozen w l || process_stopped w l) r
            | None => r
            end).
Proof.
  intros found. rewrite (ebind_Ok _ _ _ _ _ _ (force_freeze_spec w l c)).
  destruct (freeze_step c) as (c1 & Hc1 & Hlocks & Hrec). fold found in Hc1.
  destruct found as [l1|]; cbn [on_found] in Hc1.
  - rewrite (ebind_silent _ _ _ _ _ Hc1).
    destruct (finish_record (set_record Tier2ForcedFreeze (unit_frozen w l || process_stopped w l)) c1)
      as (c2 & Hc2 & Hlocks2 & Hrec2).
    rewrite Hc2. exists c2. rewrite app_nil_r. split_and!; [done|lia|].
    intros Hmind r Hr. by rewrite Hrec2, Hrec, Hr.
  - rewrite (ebind_Err _ _ _ _ _ _ Hc1). exists c1. rewrite app_nil_r. split_and!; [done|lia|].
    intros Hmind r Hr. by rewrite Hrec.
Qed.

(** Before tier 1: the lease is not there, not running, or gone when it is to be
    asked. *)
Lemma preempt_lease_missing c :
  seen w id (c_locks c) (c_shared c) = None →
  ∃ c', preempt_lease w duration id c = (Err (LeaseNotFound id), c', []) ∧ c_locks c' = S (c_locks c).
Proof.
  intros Hnone. unfold preempt_lease. rewrite (ebind_silent _ _ _ _ _ (peek_lease_spec w id c)).
  cbv beta. unfold seen in Hnone. rewrite Hnone. by eexists.
Qed.
Lemma preempt_lease_idle c l :
  seen w id (c_locks c) (c_shared c) = Some l → is_active l = false →
  ∃ c', preempt_lease w duration id c = (Ok tt, c', []) ∧ c_locks c' = S (c_locks c).
Proof.
  intros Hl Hact. unfold preempt_lease. rewrite (ebind_silent _ _ _ _ _ (peek_lease_spec w id c)).
  cbv beta. unfold seen in Hl. rewrite Hl. cbn [ok_or]. rewrite (ebind_silent (elift _) _ _ l _ eq_refl), Hact.
  by eexists.
Qed.
Lemma preempt_lease_gone c l :
  seen w id (c_locks c) (c_shared c) = Some l → is_active l = true →
  seen w id (S (c_locks c)) (others w (c_locks c) (c_shared c)) = None →
  ∃ c', preempt_lease w duration id c = (Err (LeaseNotFound id), c', []) ∧ c_locks c' = S (S (c_locks c)).
Proof.
  intros Hl Hact Hgone. unfold preempt_lease. rewrite (ebind_silent _ _ _ _ _ (peek_lease_spec w id c)).
  cbv beta. unfold seen in Hl. rewrite Hl. cbn [ok_or]. rewrite (ebind_silent (elift _) _ _ l _ eq_refl), Hact. cbn [negb].
  match goal with |- context [ebind _ _ ?c0] =>
    pose proof (on_arbiter_spec w (yield_lease id) c0 (Err (LeaseNotFound id))) as Hy end.
  erewrite (ebind_Err _ _ _ _ _ _ (Hy _ _ _)). by eexists.
  Unshelve. 3: { rewrite yield_lease_unfold. unfold seen in Hgone. cbn [c_locks c_shared]. by rewrite Hgone. }
Qed.
End tiers.

(** C7: preemption in two tiers, against any behaviour of the other tasks, the end
    of the lease and its removal from the table included. The coordinator always
    comes to an end, within a number of steps fixed by the deadline. A lease that
    is not there, that does not run, or that is gone when its client is to be
    asked ends the call without a signal. Otherwise the client is asked to yield;
    its unit is frozen and its process stopped exactly when the polls report that
    it has not yielded, which they do only once the whole deadline has passed; that
    it has yielded they report only when they find the lease given up: ended,
    suspended or gone from the table. A client that has given it up at some poll
    before the deadline is never frozen. Only a lease that vanishes between the
    last poll and the freezing makes the call fail, after its client was frozen;
    and where the others leave the record alone it says which tier was reached
    and whether it took effect, in that one case that tier 1 goes on. *)
Theorem preempt_two_tier w duration id c :
  sleeps_enough w → 0 ≤ duration →
  let n := c_locks c in
  ∃ r c' calls, preempt_lease w duration id c = (r, c', calls) ∧
  Z.of_nat (c_locks c') ≤ Z.of_nat n + duration / POLL_INTERVAL + 6 ∧
  match seen w id n (c_shared c), seen w id (S n) (others w n (c_shared c)) with
  | None, _ => r = Err (LeaseNotFound id) ∧ calls = []
  | Some l, asked =>
      if negb (is_active l) then r = Ok tt ∧ calls = []
      else match asked with
      | None => r = Err (LeaseNotFound id) ∧ calls = []
      | Some _ =>
          ∃ (yielded : bool) (c2 : Coord),
            poll w (poll_fuel duration) (c_now c + duration) id
              (mkCoord (tier1_shared w id duration l n (c_shared c)) (c_now c) (n + 3))
            = (Ok (Some yielded), c2, []) ∧
            calls = tell_calls w l ++ (if yielded then [] else force_calls w l) ∧
            (yielded = true → given_up (leases (sh_arbiter (c_shared c2)) !! id) = true) ∧
            (yielded = false → c_now c + duration ≤ c_now c2) ∧
            (∀ j, nap_time w (n + 3) j < duration →
               (∀ sh, given_up (seen w id (n + 3 + j) sh) = true) → yielded = true) ∧
            let found := seen w id (c_locks c2) (c_shared c2) in
            r = (if yielded then Ok tt else on_found id found) ∧
            (others_mind_records w id →
             sh_records (c_shared c') !! id =
               Some (if yielded then set_record Tier1Cooperative true (tier1_record duration id l)
                     else match found with
                     | Some _ => set_record Tier2ForcedFreeze (unit_frozen w l || process_stopped w l)
                                   (tier1_record duration id l)
                     | None => tier1_record duration id l
                     end))
      end
  end.
Proof.
  intros Hsleep Hd n. assert (Hdiv : 0 ≤ duration / POLL_INTERVAL) by (by apply Z.div_pos).
  destruct (seen w id n (c_shared c)) as [l|] eqn:Hl.
  2: { destruct (preempt_lease_missing w id duration c Hl) as (c' & -> & Hn).
       eexists _, c', _. split_and!; [done|lia|done..]. }
  destruct (is_active l) eqn:Hact; cbn [negb].
  2: { destruct (preempt_lease_idle w id duration c l Hl Hact) as (c' & -> & Hn).
       eexists _, c', _. split_and!; [done|lia|done..]. }
  destruct (seen w id (S n) (others w n (c_shared c))) as [l1|] eqn:Hl1.
  2: { destruct (preempt_lease_gone w id duration c l Hl Hact Hl1) as (c' & -> & Hn).
       eexists _, c', _. split_and!; [done|lia|done..]. }
  rewrite (preempt_lease_unfold w id duration c l Hl Hact) by (by exists l1). fold n.
  change (S (S (S n))) with (3 + n)%nat. rewrite (Nat.add_comm 3 n).
  set (c1 := mkCoord _ _ (n + 3)).
  assert (Hfuel : c_now c + duration - c_now c1 ≤
    Z.of_nat (S (Z.to_nat (duration / POLL_INTERVAL))) * POLL_INTERVAL).
  { pose proof (poll_fuel_enough duration Hd). simpl c_now. lia. }
  destruct (poll_ends w id _ _ c1 Hsleep Hfuel) as (b & c2 & Hpoll & Hlocks & Hnow & Hf & Ht & HP).
  assert (Hrec2 : others_mind_records w id →
    sh_records (c_shared c2) !! id = Some (tier1_record duration id l)).
  { intros Hmind. apply (HP (λ sh, sh_records sh !! id = Some (tier1_record duration id l))).
    - intros k sh Hsh. by rewrite Hmind.
    - simpl. unfold insert_record. apply lookup_insert_eq. }
  assert (Hcoop : ∀ j, nap_time w (n + 3) j < duration →
    (∀ sh, given_up (seen w id (n + 3 + j) sh) = true) → b = true).
  { intros j Hj Hseen.
    destruct (poll_cooperative w id j _ (c_now c + duration) c1 Hsleep Hfuel) as (c3 & Hc3 & _);
      [simpl in *; lia|done|]. rewrite Hc3 in Hpoll. by simplify_eq. }
  change (S (S (Z.to_nat (duration / POLL_INTERVAL)))) with (poll_fuel duration) in Hpoll.
  rewrite (ebind_silent _ _ _ _ _ Hpoll). change (default false (Some b)) with b.
  simpl c_locks in Hlocks. destruct b.
  - destruct (finish_record w id (λ r, set_record (rec_tier r) true r) c2) as (c3 & Hc3 & Hk3 & Hr3).
    rewrite Hc3. eexists _, c3, _. split_and!; [done|lia|]. exists true, c2.
    split_and!; [done|done|done|done|done|done|]. intros Hmind. by rewrite Hr3, Hrec2.
  - destruct (forced_end w id l c2) as (c3 & Hc3 & Hk3 & Hr3).
    rewrite Hc3. eexists _, c3, _. split_and!; [done|lia|]. exists false, c2.
    split_and!; [done|done|done|by intros _; apply Hf|done|done|].
    intros Hmind. apply Hr3; [done|]. by apply Hrec2.
Qed.
