(* ===== verification/FdLease.v ===== *)
(** Sealed memory files and passing descriptors:
    crates/inferenced-core/src/fd_lease.rs, and the calls to it in paging.rs. *)
From S2P Require Import Prelude Text Host Errors Discovery.
Local Open Scope Z_scope.

(** * Creating a sealed file *)

Inductive Seal := SealSeal | SealGrow | SealShrink | SealWrite.

#[export] Instance Seal_eq_dec : EqDecision Seal.
Proof. solve_decision. Defined.

(** A memory file as its descriptors refer to it: what was written to it from
    the start, its size (what was not written is zero), the offset all who have
    a descriptor of it share, and its seals. *)
Record Memfd := mkMemfd {
  m_name : string;
  m_written : string;
  m_size : Z;
  m_offset : Z;
  m_seals : list Seal;
}.

Definition all_seals : list Seal := [SealSeal; SealGrow; SealShrink; SealWrite].
Definition m_sealed (fd : Memfd) : bool :=
  forallb (λ seal, bool_decide (seal ∈ m_seals fd)) all_seals.

(** What a successful call does to a file nobody else has yet. *)
Definition fresh_memfd (name : string) : Memfd := mkMemfd name "" 0 0 [].
Definition resized (size : Z) (fd : Memfd) : Memfd :=
  mkMemfd (m_name fd) (m_written fd) size (m_offset fd) (m_seals fd).
Definition filled_with (bytes : string) (fd : Memfd) : Memfd :=
  mkMemfd (m_name fd) bytes (Z.max (m_size fd) (Z.of_nat (String.length bytes)))
    (Z.of_nat (String.length bytes)) (m_seals fd).
Definition sought (offset : Z) (fd : Memfd) : Memfd :=
  mkMemfd (m_name fd) (m_written fd) (m_size fd) offset (m_seals fd).
Definition sealed_with (seals : list Seal) (fd : Memfd) : Memfd :=
  mkMemfd (m_name fd) (m_written fd) (m_size fd) (m_offset fd) (seals ++ m_seals fd).

(** The kernel's answers, an error number on failure; [mk_write n rest] is the
    answer to the [n]-th write, with [rest] still to be written. *)
Record MemfdKernel := mkMemfdKernel {
  mk_create : string → option Z;
  mk_truncate : Z → option Z;
  mk_write : nat → string → result Z nat;
  mk_seek : option Z;
  mk_seal : option Z;
}.

Definition or_syscall_error (errno : option Z) : result Error unit :=
  match errno with Some e => Err (SystemCall e) | None => Ok tt end.

(** The loop [while written < data.len()]: the number of bytes written. *)
Fixpoint write_loop (k : MemfdKernel) (fuel call written : nat) (data : string) :
    result Error nat :=
  match fuel with
  | O => Ok written
  | S fuel' =>
      if (written <? String.length data)%nat then
        match mk_write k call (String.substring written (String.length data - written) data) with
        | Err e => Err (SystemCall e)
        | Ok n =>
            if (n =? 0)%nat then Ok written
            else write_loop k fuel' (S call) (written + n)%nat data
        end
      else Ok written
  end.

Definition create_sealed_memfd (k : MemfdKernel) (name : string) (size_bytes : Z)
    (initial_data : option string) : result Error Memfd :=
  match or_syscall_error (mk_create k name) with
  | Err e => Err e
  | Ok _ =>
      let fd := fresh_memfd name in
      match or_syscall_error (mk_truncate k size_bytes) with
      | Err e => Err e
      | Ok _ =>
          let fd := resized size_bytes fd in
          let data := default "" initial_data in
          match write_loop k (String.length data) 0 0 data with
          | Err e => Err e
          | Ok written =>
              let fd := filled_with (String.substring 0 written data) fd in
              match or_syscall_error (mk_seek k) with
              | Err e => Err e
              | Ok _ =>
                  let fd := sought 0 fd in
                  let seals := [SealSeal; SealGrow; SealShrink; SealWrite] in
                  match or_syscall_error (mk_seal k) with
                  | Err e => Err e
                  | Ok _ => Ok (sealed_with seals fd)
                  end
              end
          end
      end
  end.

(** [MemfdPaging::create_sealed_model] *)
Definition create_sealed_model (k : MemfdKernel) (name data : string) : result Error Memfd :=
  create_sealed_memfd k name (Z.of_nat (String.length data)) (Some data).

(** * Sending a descriptor *)

(** [send_fd_over_unix]: whether the control message fits its buffer, and the
    answer to [sendmsg]. *)
Definition send_fd_over_unix (pushed : bool) (sendmsg : result Z nat) : result Error nat :=
  if negb pushed then Err (Fd "Failed to push fd to ancillary buffer")
  else match sendmsg with Ok sent => Ok sent | Err errno => Err (SystemCall errno) end.

(** [MemfdPaging::send_model_fd]: the payload is the model's name. *)
Definition send_model_fd (pushed : bool) (sendmsg : string → result Z nat) (model_id : string) :
    result Error nat :=
  send_fd_over_unix pushed (sendmsg model_id).

(** * Receiving a descriptor *)

(** What [recvmsg] delivered: payload bytes and the descriptors of the control
    message, or an error number. *)
Record Received := mkReceived { rx_payload : string; rx_fds : list Z }.

(** [for owned in fds { if received_fd.is_none() { .. } }]: the descriptor kept
    and those dropped, that is closed. *)
Fixpoint keep_first (kept : option Z) (fds : list Z) : option Z * list Z :=
  match fds with
  | [] => (kept, [])
  | fd :: fds' =>
      match kept with
      | None => keep_first (Some fd) fds'
      | Some _ => let '(k, closed) := keep_first kept fds' in (k, fd :: closed)
      end
  end.

(** [recv_fd_from_unix] into a buffer of [buf_len] bytes: the result, and the
    descriptors it closed. *)
Definition recv_fd_from_unix (answer : result Z Received) (buf_len : nat) :
    result Error (string * option Z) * list Z :=
  match answer with
  | Err e => (Err (SystemCall e), [])
  | Ok msg =>
      let bytes := String.substring 0 buf_len (rx_payload msg) in
      if (String.length bytes =? buf_len)%nat then
        let '(received_fd, closed) := keep_first None (rx_fds msg) in
        (Err (Fd ("recvmsg filled " +:+ pretty buf_len +:+ " bytes; caller-supplied buffer too small")),
         option_list received_fd ++ closed)
      else
        let '(received_fd, closed) := keep_first None (rx_fds msg) in
        (Ok (bytes, received_fd), closed)
  end.

(** [MemfdPaging::recv_model_fd], into 1024 bytes. *)
Definition recv_model_fd {uc : Unicode} (answer : result Z Received) :
    result Error (string * Z) * list Z :=
  let '(r, closed) := recv_fd_from_unix answer 1024 in
  match r with
  | Err e => (Err e, closed)
  | Ok (bytes, fd_opt) =>
      match fd_opt with
      | None => (Err (Fd "No file descriptor received in SCM_RIGHTS message"), closed)
      | Some fd => (Ok (to_string_lossy bytes, fd), closed)
      end
  end.

(** * Compressed swap: ZswapMetrics of paging.rs *)

Record ZswapMetrics := mkZswapMetrics {
  z_enabled : bool;
  z_compressor : string;
  z_zswap_bytes : Z;
  z_zswapped_bytes : Z;
  z_max_pool_percent : Z;
  z_accept_threshold_percent : Z;
}.

Fixpoint zswap_of_lines (ls : list string) (zswap zswapped : Z) : Z * Z :=
  match ls with
  | [] => (zswap, zswapped)
  | line :: ls' =>
      match strip_prefix "Zswap:" line with
      | Some rest => zswap_of_lines ls' (parse_kb rest) zswapped
      | None =>
          match strip_prefix "Zswapped:" line with
          | Some rest => zswap_of_lines ls' zswap (parse_kb rest)
          | None => zswap_of_lines ls' zswap zswapped
          end
      end
  end.

Definition parse_metrics (fs : Fs) (meminfo sysfs_params_dir : string) : ZswapMetrics :=
  let '(zswap, zswapped) := zswap_of_lines (lines meminfo) 0 0 in
  let param name := fs_read fs (path_join sysfs_params_dir name) in
  let percent name dflt := default dflt (s ← param name; parse_u32 (trim s)) in
  mkZswapMetrics
    match param "enabled" with
    | Some s => String.eqb (trim s) "Y" || String.eqb (trim s) "1"
    | None => false
    end
    match param "compressor" with Some s => trim s | None => "zstd" end
    zswap zswapped (percent "max_pool_percent" 20) (percent "accept_threshold_percent" 90).

Definition read_zswap_metrics (fs : Fs) : ZswapMetrics :=
  parse_metrics fs (default "" (fs_read fs "/proc/meminfo")) "/sys/module/zswap/parameters".

(** * Facts *)

Section facts.
Implicit Types (k : MemfdKernel) (data : string).

(** [write] is documented to report at most what it was given. *)
Definition writes_bounded k : Prop :=
  ∀ call rest n, mk_write k call rest = Ok n → (n ≤ String.length rest)%nat.
(** It makes progress on a regular file. *)
Definition writes_progress k : Prop :=
  ∀ call rest n, mk_write k call rest = Ok n → rest ≠ "" → n ≠ 0%nat.

Lemma length_substring_rest data written :
  (written ≤ String.length data)%nat →
  String.length (String.substring written (String.length data - written) data) =
    (String.length data - written)%nat.
Proof.
  revert written. induction data as [|a data IH]; intros [|written] Hle; simpl in *; try done; try lia.
  - f_equal. specialize (IH 0%nat ltac:(lia)). by rewrite Nat.sub_0_r in IH.
  - apply IH. lia.
Qed.

(** The loop ends within its fuel; with progress, everything is written. *)
Lemma write_loop_spec k fuel call written data m :
  writes_bounded k → (written ≤ String.length data)%nat →
  (String.length data - written ≤ fuel)%nat →
  write_loop k fuel call written data = Ok m →
  (written ≤ m ≤ String.length data)%nat ∧ (writes_progress k → m = String.length data).
Proof.
  intros Hbound. revert call written. induction fuel as [|fuel IH]; intros call written Hle Hfuel; simpl.
  - intros [= <-]. split; [lia|]. intros _. lia.
  - destruct (Nat.ltb_spec written (String.length data)) as [Hlt|Hge].
    2: { intros [= <-]. split; [lia|]. intros _. lia. }
    destruct (mk_write k call _) as [n|e] eqn:Hwrite; [|done].
    pose proof (Hbound _ _ _ Hwrite) as Hn. rewrite length_substring_rest in Hn by lia.
    destruct (Nat.eqb_spec n 0) as [->|Hne].
    + intros [= <-]. split; [lia|]. intros Hprog. exfalso.
      apply (Hprog _ _ _ Hwrite); [|done]. intros Hempty.
      assert (String.length (String.substring written (String.length data - written) data) = 0%nat)
        as Hz by (by rewrite Hempty).
      rewrite length_substring_rest in Hz by lia. lia.
    + intros Hloop. apply IH in Hloop as [Hm Hprog]; [|lia|lia]. split; [lia|done].
Qed.

Lemma keep_first_perm kept fds r closed :
  keep_first kept fds = (r, closed) → option_list r ++ closed ≡ₚ option_list kept ++ fds.
Proof.
  revert kept r closed. induction fds as [|fd fds IH]; intros kept r closed; simpl.
  - by intros [= <- <-].
  - destruct kept as [f|].
    + destruct (keep_first (Some f) fds) as [k' c'] eqn:Hrec. intros [= <- <-].
      apply IH in Hrec. rewrite <-Permutation_middle, Hrec. simpl. apply Permutation_swap.
    + intros Hrec. by apply IH in Hrec.
Qed.

Lemma substring_length_le n data : (String.length (String.substring 0 n data) ≤ n)%nat.
Proof.
  revert n. induction data as [|a data IH]; intros [|n]; simpl; try lia. specialize (IH n). lia.
Qed.

Lemma substring_whole data : String.substring 0 (String.length data) data = data.
Proof. induction data as [|a data IH]; simpl; [done|by rewrite IH]. Qed.

(** A file made with all its data, and one made without data. *)
Lemma created_model k name data fd :
  writes_bounded k → writes_progress k → create_sealed_model k name data = Ok fd →
  fd = mkMemfd name data (Z.of_nat (String.length data)) 0 all_seals.
Proof.
  intros Hb Hp. unfold create_sealed_model, create_sealed_memfd.
  destruct (or_syscall_error (mk_create k name)); [|done].
  destruct (or_syscall_error (mk_truncate k _)); [|done].
  change (default "" (Some data)) with data.
  destruct (write_loop k (String.length data) 0 0 data) as [m|e] eqn:Hloop; [|done].
  apply write_loop_spec in Hloop as [_ Hall]; [|done|lia|lia]. rewrite (Hall Hp), substring_whole.
  destruct (or_syscall_error (mk_seek k)); [|done].
  destruct (or_syscall_error (mk_seal k)); [|done]. intros [= <-].
  unfold sealed_with, sought, filled_with; simpl. f_equal. lia.
Qed.

Lemma created_empty k name size fd :
  create_sealed_memfd k name size None = Ok fd → fd = mkMemfd name "" (Z.max size 0) 0 all_seals.
Proof.
  unfold create_sealed_memfd.
  destruct (or_syscall_error (mk_create k name)); [|done].
  destruct (or_syscall_error (mk_truncate k size)); [|done]. simpl.
  destruct (or_syscall_error (mk_seek k)); [|done].
  destruct (or_syscall_error (mk_seal k)); [|done]. by intros [= <-].
Qed.
End facts.

(** A model published as a memory file is complete and immutable: whatever
    sizes the kernel's writes come in, creation either fails or gives a file of
    exactly the model's bytes, with all seals on. *)
Theorem sealed_model_complete k name data fd :
  writes_bounded k → writes_progress k →
  create_sealed_model k name data = Ok fd →
  m_written fd = data ∧ m_size fd = Z.of_nat (String.length data) ∧ m_sealed fd = true.
Proof. intros Hb Hp Hfd. by rewrite (created_model k name data fd Hb Hp Hfd). Qed.

(** Receiving never leaks a descriptor: every descriptor of the message is
    either the one returned or has been closed, also when the payload does not
    fit; and a payload is returned only when it was received whole. *)
Theorem recv_never_leaks msg buf_len r closed :
  recv_fd_from_unix (Ok msg) buf_len = (r, closed) →
  match r with
  | Ok (bytes, fd) => option_list fd ++ closed ≡ₚ rx_fds msg ∧ bytes = rx_payload msg
  | Err _ => closed ≡ₚ rx_fds msg ∧ (buf_len ≤ String.length (rx_payload msg))%nat
  end.
Proof.
  unfold recv_fd_from_unix.
  assert (Hshort : ∀ n s, String.length (String.substring 0 n s) ≠ n → String.substring 0 n s = s).
  { intros n s. revert n. induction s as [|a s IH]; intros [|n]; simpl; try done.
    intros Hne. f_equal. apply IH. lia. }
  assert (Hlong : ∀ n s, String.length (String.substring 0 n s) = n → (n ≤ String.length s)%nat).
  { intros n s. revert n. induction s as [|a s IH]; intros [|n]; simpl; try done; try lia.
    intros [= Heq]. specialize (IH n Heq). lia. }
  destruct (keep_first None (rx_fds msg)) as [kept c] eqn:Hkeep. apply keep_first_perm in Hkeep.
  destruct (Nat.eqb_spec (String.length (String.substring 0 buf_len (rx_payload msg))) buf_len)
    as [Heq|Hne]; intros [= <- <-].
  - split; [done|by apply Hlong].
  - split; [done|by apply Hshort].
Qed.
