(* ===== verification/Madvise.v ===== *)
(** Page advice and mappings: crates/inferenced-core/src/madvise.rs, and the
    part of paging.rs that maps received files. *)
From S2P Require Import Prelude Errors.
Local Open Scope Z_scope.

Inductive Advice :=
  | WillNeed | LinuxDontNeed | LinuxHugepage | Sequential | Random | LinuxDontDump.

#[export] Instance Advice_eq_dec : EqDecision Advice.
Proof. solve_decision. Defined.

(** The system calls made. *)
Inductive MemoryCall :=
  | Madvise (addr len : Z) (advice : Advice)
  | Mmap (fd len : Z)
  | Munmap (addr len : Z).

(** The kernel's answers: an error number or, for [mmap], an address. *)
Record MemoryKernel := mkMemoryKernel {
  mk_madvise : Z → Z → Advice → option Z;
  mk_mmap : Z → Z → result Z Z;
  mk_munmap : Z → Z → option Z;
}.

(** The regions this process has mapped, with the advice given on each. *)
Record Region := mkRegion { r_addr : Z; r_len : Z; r_advice : list Advice }.

Section paging.
Context (k : MemoryKernel).

Definition Paging (A : Type) : Type := eff (list Region) MemoryCall Error A.

Definition is_region (addr len : Z) (r : Region) : bool := (r_addr r =? addr) && (r_len r =? len).
Definition add_advice (advice : Advice) (r : Region) : Region :=
  mkRegion (r_addr r) (r_len r) (advice :: r_advice r).

(** [madvise(addr, len, advice).map_err(Error::SystemCall)] *)
Definition advise (advice : Advice) (addr len : Z) : Paging unit :=
  (etell [Madvise addr len advice] ;!
   match mk_madvise k addr len advice with
   | Some errno => ethrow (SystemCall errno)
   | None => emodify (update_first (is_region addr len) (add_advice advice))
   end)%eff.

Definition advise_willneed : Z → Z → Paging unit := advise WillNeed.
Definition advise_dontneed : Z → Z → Paging unit := advise LinuxDontNeed.
Definition advise_hugepage : Z → Z → Paging unit := advise LinuxHugepage.
Definition advise_sequential : Z → Z → Paging unit := advise Sequential.
Definition advise_random : Z → Z → Paging unit := advise Random.
Definition advise_dontdump : Z → Z → Paging unit := advise LinuxDontDump.

(** ** paging.rs *)

Definition reclaim_pages : Z → Z → Paging unit := advise_dontneed.
Definition prefetch_pages : Z → Z → Paging unit := advise_willneed.
Definition advise_hugepages : Z → Z → Paging unit := advise_hugepage.
Definition advise_exclude_coredump : Z → Z → Paging unit := advise_dontdump.

Definition map_and_protect_memfd (fd len : Z) : Paging Z :=
  (etell [Mmap fd len] ;!
   match mk_mmap k fd len with
   | Err errno => ethrow (SystemCall errno)
   | Ok ptr =>
       emodify (λ regions, mkRegion ptr len [] :: regions) ;!
       advise_dontdump ptr len ;!
       eret ptr
   end)%eff.

Definition unmap_memfd (addr len : Z) : Paging unit :=
  (etell [Munmap addr len] ;!
   match mk_munmap k addr len with
   | Some errno => ethrow (SystemCall errno)
   | None => emodify (List.filter (λ r, negb (is_region addr len r)))
   end)%eff.

(** A mapping that is returned is kept out of core dumps; one whose advice
    fails is not returned, and stays mapped. *)
Theorem map_and_protect_outcomes fd len regions :
  let '(r, regions', calls) := map_and_protect_memfd fd len regions in
  match r with
  | Ok ptr => regions' = mkRegion ptr len [LinuxDontDump] :: regions
  | Err _ =>
      (regions' = regions ∧ calls = [Mmap fd len]) ∨
      (∃ ptr, regions' = mkRegion ptr len [] :: regions ∧
              calls = [Mmap fd len; Madvise ptr len LinuxDontDump])
  end.
Proof.
  unfold map_and_protect_memfd, advise_dontdump, advise, ebind. cbn.
  destruct (mk_mmap k fd len) as [ptr|errno]; [|by left].
  cbn. destruct (mk_madvise k ptr len LinuxDontDump) as [errno|]; cbn.
  - right. by exists ptr.
  - unfold is_region at 1. cbn. by rewrite !Z.eqb_refl.
Qed.

(** A mapping unmapped is gone, the others stay. *)
Lemma map_unmap fd len regions ptr calls :
  Forall (λ r, is_region ptr len r = false) regions →
  map_and_protect_memfd fd len regions = (Ok ptr, mkRegion ptr len [LinuxDontDump] :: regions, calls) →
  mk_munmap k ptr len = None →
  state_of (unmap_memfd ptr len (mkRegion ptr len [LinuxDontDump] :: regions)) = regions.
Proof.
  intros Hfresh _ Hun. unfold unmap_memfd, ebind. cbn. rewrite Hun. cbn.
  unfold is_region at 1. cbn. rewrite !Z.eqb_refl. cbn.
  induction Hfresh as [|r regions Hr _ IH]; [done|]. cbn. by rewrite Hr, IH.
Qed.
End paging.
