(* ===== verification/FdQuota.v ===== *)
(** The quota of the descriptor server:
    crates/inferenced-daemon/src/fd_quota.rs. *)
From S2P Require Import Prelude Text Host.
Local Open Scope Z_scope.

Definition MAX_MEMFD_BYTES : Z := 16 * 1024 * 1024 * 1024.

(** The ceiling of [FdQuota::from_half_of_total_ram]. *)
Definition half_of_total_ram (fs : Fs) : Z :=
  let total :=
    s ← fs_read fs "/proc/meminfo";
    l ← find_first (λ l, starts_with l "MemTotal:") (lines s);
    n ← split_whitespace l !! 1%nat;
    kb ← parse_u64 n;
    Some (wrapping_mul kb 1024) in
  default (32 * 1024 * 1024 * 1024) total / 2.

(** * One task at a time *)

(** [try_reserve], when nobody interferes: the result and the new count. *)
Definition try_reserve (ceiling allocated bytes : Z) : result Z Z * Z :=
  let next := saturating_add allocated bytes in
  if ceiling <? next then (Err allocated, allocated) else (Ok bytes, next).

(** [release], when nobody interferes. *)
Definition release (allocated amount : Z) : Z := wrapping_sub allocated (Z.min amount allocated).

(** * Many tasks

    Each atomic access is a step of its own, on the value the accesses before it
    have left; between a load and the compare-and-swap or subtraction that uses
    it, others may run. *)

(** What a task calls and gets back, as the descriptor server sees it. *)
Inductive quota_event :=
  | CallReserve (t : nat) (bytes : Z)
  | ReturnReserve (t : nat) (r : result Z Z)
  | CallRelease (t : nat) (amount : Z)
  | ReturnRelease (t : nat).

(** A run of steps, with all that it shows, in order. *)
Inductive history {St : Type} (act : St → list quota_event → St → Prop) (s : St) :
    list quota_event → St → Prop :=
  | history_nil : history act s [] s
  | history_snoc es s1 es' s2 :
      history act s es s1 → act s1 es' s2 → history act s (es ++ es') s2.

Inductive task :=
  | Starting (bytes : Z)
  | Looping (bytes current : Z)
  | Refused (bytes current : Z)
  | Holding (bytes : Z)
  | Subtracting (amount current : Z)
  | Finished.

Record quota := mkQuota {
  allocated_bytes : Z;
  tasks : gmap nat task;
}.

Section steps.
Context (ceiling_bytes : Z).

Inductive quota_act : quota → list quota_event → quota → Prop :=
  | step_arrive a ts t bytes :
      ts !! t = None → is_u64 bytes →
      quota_act (mkQuota a ts) [CallReserve t bytes] (mkQuota a (<[t := Starting bytes]> ts))
  | step_load a ts t bytes :
      ts !! t = Some (Starting bytes) →
      quota_act (mkQuota a ts) [] (mkQuota a (<[t := Looping bytes a]> ts))
  | step_refuse a ts t bytes current :
      ts !! t = Some (Looping bytes current) →
      ceiling_bytes < saturating_add current bytes →
      quota_act (mkQuota a ts) [ReturnReserve t (Err current)] (mkQuota a (<[t := Refused bytes current]> ts))
  | step_swap a ts t bytes :
      ts !! t = Some (Looping bytes a) →
      saturating_add a bytes ≤ ceiling_bytes →
      quota_act (mkQuota a ts) [ReturnReserve t (Ok bytes)]
        (mkQuota (saturating_add a bytes) (<[t := Holding bytes]> ts))
  | step_retry a ts t bytes current :
      ts !! t = Some (Looping bytes current) → current ≠ a →
      saturating_add current bytes ≤ ceiling_bytes →
      quota_act (mkQuota a ts) [] (mkQuota a (<[t := Looping bytes a]> ts))
  | step_release a ts t bytes :
      ts !! t = Some (Holding bytes) →
      quota_act (mkQuota a ts) [CallRelease t bytes] (mkQuota a (<[t := Subtracting bytes a]> ts))
  | step_subtract a ts t amount current :
      ts !! t = Some (Subtracting amount current) →
      quota_act (mkQuota a ts) [ReturnRelease t]
        (mkQuota (wrapping_sub a (Z.min amount current)) (<[t := Finished]> ts)).

Definition quota_step (q q' : quota) : Prop := ∃ es, quota_act q es q'.

(** What a task has reserved and not given back. *)
Definition reserved (tk : task) : Z :=
  match tk with Holding b | Subtracting b _ => b | _ => 0 end.

Definition outstanding (ts : gmap nat task) : Z := msum reserved ts.

Definition task_ok (tk : task) : Prop :=
  match tk with
  | Starting b | Holding b | Refused b _ => 0 ≤ b
  | Looping b c => 0 ≤ b ∧ 0 ≤ c
  | Subtracting b c => 0 ≤ b ≤ c
  | Finished => True
  end.

Record quota_ok (q : quota) : Prop := {
  quota_tasks : map_Forall (λ _ tk, task_ok tk) (tasks q);
  quota_exact : allocated_bytes q = outstanding (tasks q);
  quota_ceiling : allocated_bytes q ≤ ceiling_bytes;
}.

Lemma reserved_nonneg tk : task_ok tk → 0 ≤ reserved tk.
Proof. destruct tk; simpl; lia. Qed.

Lemma outstanding_insert ts t tk tk' :
  ts !! t = Some tk →
  outstanding (<[t := tk']> ts) = outstanding ts - reserved tk + reserved tk'.
Proof. apply msum_insert_Some. Qed.

Lemma outstanding_at_least ts t tk :
  map_Forall (λ _ tk, task_ok tk) ts → ts !! t = Some tk →
  reserved tk ≤ outstanding ts.
Proof.
  intros Hall Ht. unfold outstanding. apply (msum_lookup_le _ _ t); [|done].
  intros k v Hk. apply reserved_nonneg, (Hall k v Hk).
Qed.

Lemma outstanding_nonneg q : quota_ok q → 0 ≤ outstanding (tasks q).
Proof.
  intros Hq. apply msum_nonneg. intros k v Hk. by apply reserved_nonneg, (quota_tasks q Hq k).
Qed.

(** A task moves without touching the counter. *)
Lemma quota_ok_move a ts t tk tk' :
  quota_ok (mkQuota a ts) → ts !! t = Some tk → task_ok tk' → reserved tk' = reserved tk →
  quota_ok (mkQuota a (<[t := tk']> ts)).
Proof.
  intros [Ht He Hc] Htk Hok Hres. split; simpl in *; [|  |done].
  - by apply map_Forall_insert_2.
  - rewrite (outstanding_insert ts t tk tk') by done. rewrite He. lia.
Qed.

Lemma quota_ok_start : 0 ≤ ceiling_bytes → quota_ok (mkQuota 0 ∅).
Proof.
  split; simpl; [apply map_Forall_empty| |done]. unfold outstanding; simpl. by rewrite msum_empty.
Qed.

Lemma quota_step_ok q q' :
  ceiling_bytes < u64_max → quota_step q q' → quota_ok q → quota_ok q'.
Proof.
  intros Hceil Hstep Hq. pose proof (outstanding_nonneg q Hq) as Hnonneg.
  assert (0 ≤ allocated_bytes q) as Ha by (rewrite (quota_exact q Hq); exact Hnonneg).
  destruct Hstep as [es Hstep]. destruct Hstep as [a ts t bytes Hnone [Hb _]|a ts t bytes Ht|a ts t bytes current Ht Hover
    |a ts t bytes Ht Hroom|a ts t bytes current Ht Hne Hroom|a ts t bytes Ht|a ts t amount current Ht];
    pose proof Hq as [Htasks Hexact Hc]; simpl in Htasks, Hexact, Hc, Ha.
  - split; simpl; [by apply map_Forall_insert_2| |done]. unfold outstanding; simpl.
    rewrite msum_insert_None by done. simpl. by rewrite Hexact.
  - eapply quota_ok_move; [done|done| |done]. pose proof (Htasks t _ Ht) as Hok; simpl in *. lia.
  - eapply quota_ok_move; [done|done| |done]. pose proof (Htasks t _ Ht) as Hok; simpl in *. lia.
  - pose proof (Htasks t _ Ht) as Hok; simpl in Hok.
    assert (saturating_add a bytes = a + bytes) as Hsum by u64_lia.
    split; simpl; [by apply map_Forall_insert_2; [simpl; lia|]| |done].
    rewrite Hsum. unfold outstanding; simpl. rewrite (msum_insert_Some _ _ _ (Looping bytes a)) by done.
    unfold outstanding in Hexact; simpl in *. lia.
  - eapply quota_ok_move; [done|done| |done]. pose proof (Htasks t _ Ht) as Hok; simpl in *. lia.
  - eapply quota_ok_move; [done|done| |done]. pose proof (Htasks t _ Ht) as Hok; simpl in *.
    pose proof (outstanding_at_least ts t _ Htasks Ht). simpl in *. lia.
  - pose proof (Htasks t _ Ht) as Hok; simpl in Hok.
    pose proof (outstanding_at_least ts t _ Htasks Ht) as Hle; simpl in Hle.
    assert (u64_max < u64_limit) by done.
    assert (wrapping_sub a (Z.min amount current) = a - amount) as Hsub.
    { rewrite Z.min_l by lia. unfold wrapping_sub. apply Z.mod_small. lia. }
    split; simpl; [by apply map_Forall_insert_2| |lia].
    rewrite Hsub. unfold outstanding; simpl.
    rewrite (msum_insert_Some _ _ _ (Subtracting amount current)) by done.
    unfold outstanding in Hexact; simpl in *. lia.
Qed.
End steps.

(** C18: however the tasks of the descriptor server interleave at the level of
    single atomic accesses, the counter is exactly the sum of what they have
    reserved and not yet released: it never exceeds the ceiling, never wraps
    below zero, and is zero again when every task has finished. *)
Theorem quota_exact_always ceiling_bytes q :
  0 ≤ ceiling_bytes < u64_max →
  rtc (quota_step ceiling_bytes) (mkQuota 0 ∅) q →
  allocated_bytes q = outstanding (tasks q) ∧ 0 ≤ allocated_bytes q ≤ ceiling_bytes ∧
  ((∀ t tk, tasks q !! t = Some tk → tk = Finished ∨ ∃ b c, tk = Refused b c) →
   allocated_bytes q = 0).
Proof.
  intros Hceil Hrun.
  assert (quota_ok ceiling_bytes q) as Hq.
  { revert Hrun. apply (rtc_ind_r (quota_ok ceiling_bytes)).
    - apply quota_ok_start. lia.
    - intros q1 q2 _ Hstep Hq1. by eapply quota_step_ok; [apply Hceil|..]. }
  pose proof (outstanding_nonneg _ _ Hq) as Hnonneg. pose proof (quota_exact _ _ Hq) as He.
  split_and!; [done|lia|apply (quota_ceiling _ _ Hq)|].
  intros Hdone. rewrite He. unfold outstanding.
  rewrite (msum_ext _ (λ _, 0)).
  - unfold msum. apply (map_fold_weak_ind (λ r _, r = 0)); [done|]. intros; lia.
  - intros t tk Ht. by destruct (Hdone t tk Ht) as [->|(b & c & ->)].
Qed.

(** The clamp of [release] protects against releasing more than is
    allocated only as long as releases do not overlap: two tasks that release
    the same bytes at the same time take the counter below zero, to almost
    2^64, after which nothing can be reserved. *)
Theorem overlapping_releases_underflow ceiling_bytes bytes :
  0 < bytes → bytes < u64_limit → ceiling_bytes < u64_limit - bytes →
  let start := mkQuota bytes {[ 0%nat := Holding bytes; 1%nat := Holding bytes ]} in
  ∃ q, rtc (quota_step ceiling_bytes) start q ∧
    allocated_bytes q = u64_limit - bytes ∧
    ∀ more, 0 ≤ more → is_ok (try_reserve ceiling_bytes (allocated_bytes q) more).1 = false.
Proof.
  intros Hb Hmax Hceil start. unfold start. eexists. split.
  { eapply rtc_l; [eexists; apply (step_release _ _ _ 0%nat bytes); reflexivity|].
    eapply rtc_l; [eexists; apply (step_release _ _ _ 1%nat bytes); reflexivity|].
    eapply rtc_l; [eexists; apply (step_subtract _ _ _ 0%nat bytes bytes); reflexivity|].
    eapply rtc_l; [eexists; apply (step_subtract _ _ _ 1%nat bytes bytes); reflexivity|].
    apply rtc_refl. }
  cbn [allocated_bytes]. rewrite Z.min_id.
  assert (wrapping_sub bytes bytes = 0) as -> by (unfold wrapping_sub; by rewrite Z.sub_diag).
  assert (wrapping_sub 0 bytes = u64_limit - bytes) as -> by u64_lia.
  split; [done|]. intros more Hmore. unfold try_reserve.
  rewrite (proj2 (Z.ltb_lt _ _)); [done|]. u64_lia.
Qed.

(** * Atomic operations

    A quota each of whose operations takes effect in one step, at some time
    between its call and its return: a reservation that [try_reserve] decides on
    the count of that moment, a release that subtracts. *)

Inductive phase :=
  | Asked (bytes : Z)
  | Answered (r : result Z Z)
  | Granted (bytes : Z)
  | Denied
  | Giving (bytes : Z)
  | Given
  | Returned.

Record account := mkAccount {
  counted : Z;
  phases : gmap nat phase;
}.

Section atomic.
Context (ceiling_bytes : Z).

Inductive atomic_act : account → list quota_event → account → Prop :=
  | atomic_call a ps t bytes :
      ps !! t = None → is_u64 bytes →
      atomic_act (mkAccount a ps) [CallReserve t bytes] (mkAccount a (<[t := Asked bytes]> ps))
  | atomic_reserve a ps t bytes r a' :
      ps !! t = Some (Asked bytes) → try_reserve ceiling_bytes a bytes = (r, a') →
      atomic_act (mkAccount a ps) [] (mkAccount a' (<[t := Answered r]> ps))
  | atomic_return a ps t r :
      ps !! t = Some (Answered r) →
      atomic_act (mkAccount a ps) [ReturnReserve t r]
        (mkAccount a (<[t := match r with Ok b => Granted b | Err _ => Denied end]> ps))
  | atomic_call_release a ps t bytes :
      ps !! t = Some (Granted bytes) →
      atomic_act (mkAccount a ps) [CallRelease t bytes] (mkAccount a (<[t := Giving bytes]> ps))
  | atomic_release a ps t bytes :
      ps !! t = Some (Giving bytes) →
      atomic_act (mkAccount a ps) [] (mkAccount (release a bytes) (<[t := Given]> ps))
  | atomic_return_release a ps t :
      ps !! t = Some Given →
      atomic_act (mkAccount a ps) [ReturnRelease t] (mkAccount a (<[t := Returned]> ps)).

(** Where a task is: its reservation has been refused as soon as it has read a
    count that leaves no room, and its release is to come until it has
    subtracted. *)
Definition phase_of (tk : task) : phase :=
  match tk with
  | Starting bytes => Asked bytes
  | Looping bytes current =>
      if ceiling_bytes <? saturating_add current bytes then Answered (Err current) else Asked bytes
  | Refused _ _ => Denied
  | Holding bytes => Granted bytes
  | Subtracting bytes _ => Giving bytes
  | Finished => Returned
  end.
Definition account_of (q : quota) : account := mkAccount (allocated_bytes q) (phase_of <$> tasks q).

Lemma lookup_phase (ts : gmap nat task) t tk p :
  ts !! t = Some tk → phase_of tk = p → (phase_of <$> ts) !! t = Some p.
Proof. intros Ht <-. by rewrite lookup_fmap, Ht. Qed.

(** A task that reads the count is refused there and then, or nothing happens. *)
Lemma reading_act s es a ts t tk bytes :
  ts !! t = Some tk → phase_of tk = Asked bytes →
  history atomic_act s es (account_of (mkQuota a ts)) →
  history atomic_act s (es ++ []) (account_of (mkQuota a (<[t := Looping bytes a]> ts))).
Proof.
  intros Ht Hask Hs. unfold account_of in *. simpl in *. rewrite fmap_insert. simpl.
  pose proof (lookup_phase _ _ _ _ Ht Hask) as Hl.
  destruct (ceiling_bytes <? saturating_add a bytes) eqn:Hover.
  - eapply history_snoc; [exact Hs|]. apply (atomic_reserve a _ t bytes); [done|].
    unfold try_reserve. by rewrite Hover.
  - by rewrite app_nil_r, insert_id.
Qed.

(** A step in which an operation takes effect and returns at once. *)
Lemma acting_returns s es a a1 ps t p p' e :
  history atomic_act s es (mkAccount a ps) →
  atomic_act (mkAccount a ps) [] (mkAccount a1 (<[t := p]> ps)) →
  atomic_act (mkAccount a1 (<[t := p]> ps)) [e] (mkAccount a1 (<[t := p']> (<[t := p]> ps))) →
  history atomic_act s (es ++ [e]) (mkAccount a1 (<[t := p']> ps)).
Proof.
  intros Hs H1 H2. rewrite insert_insert_eq in H2. rewrite <-(app_nil_r es).
  eapply history_snoc; [eapply history_snoc; [exact Hs|exact H1]|exact H2].
Qed.

Lemma quota_simulated s es q es' q' :
  quota_ok ceiling_bytes q → quota_act ceiling_bytes q es' q' →
  history atomic_act s es (account_of q) → history atomic_act s (es ++ es') (account_of q').
Proof.
  intros Hq Hstep Hs.
  destruct Hstep as [a ts t bytes Hnone Hb|a ts t bytes Ht|a ts t bytes current Ht Hover
    |a ts t bytes Ht Hroom|a ts t bytes current Ht Hne Hroom|a ts t bytes Ht|a ts t amount current Ht];
    try (by eapply reading_act; [done| |done]; simpl; rewrite ?(proj2 (Z.ltb_ge _ _)));
    unfold account_of in *; simpl in *; rewrite fmap_insert.
  - eapply history_snoc; [exact Hs|]. apply atomic_call; [|done]. by rewrite lookup_fmap, Hnone.
  - eapply history_snoc; [exact Hs|]. apply (atomic_return a _ t (Err current)).
    eapply lookup_phase; [done|]. simpl. by rewrite (proj2 (Z.ltb_lt _ _)).
  - eapply (acting_returns _ _ _ _ _ _ (Answered (Ok bytes))); [exact Hs| |].
    + apply (atomic_reserve _ _ _ bytes).
      * eapply lookup_phase; [done|]. simpl. by rewrite (proj2 (Z.ltb_ge _ _)).
      * unfold try_reserve. by rewrite (proj2 (Z.ltb_ge _ _)).
    + apply (atomic_return _ _ t (Ok bytes)), lookup_insert_eq.
  - eapply history_snoc; [exact Hs|]. apply atomic_call_release. by eapply lookup_phase.
  - pose proof (quota_tasks _ _ Hq t _ Ht) as Hok; simpl in Hok.
    pose proof (outstanding_at_least ts t _ (quota_tasks _ _ Hq) Ht) as Hle; simpl in Hle.
    pose proof (quota_exact _ _ Hq) as Hexact; simpl in Hexact.
    assert (Z.min amount current = Z.min amount a) as -> by lia.
    eapply (acting_returns _ _ _ _ _ _ Given); [exact Hs| |].
    + apply (atomic_release _ _ _ amount). by eapply lookup_phase.
    + apply atomic_return_release, lookup_insert_eq.
Qed.
End atomic.

(** C19: the quota is linearizable. However the tasks of the descriptor server
    interleave their atomic accesses, the history of their calls and returns, in
    the order in which they happen and with the answers they get, is a history of
    the quota whose operations are atomic, each reservation and each release
    taking effect in one step after its call and before its return: so a
    reservation is granted or refused as [try_reserve] decides alone on the count
    of a moment while it is under way, and a refusal reports that count. *)
Theorem quota_linearizable ceiling_bytes es q :
  0 ≤ ceiling_bytes < u64_max →
  history (quota_act ceiling_bytes) (mkQuota 0 ∅) es q →
  history (atomic_act ceiling_bytes) (mkAccount 0 ∅) es (account_of ceiling_bytes q).
Proof.
  intros Hceil Hrun.
  assert (quota_ok ceiling_bytes q ∧
    history (atomic_act ceiling_bytes) (mkAccount 0 ∅) es (account_of ceiling_bytes q)) as [_ ?]; [|done].
  induction Hrun as [|es q1 es' q2 _ [Hok Hsim] Hact].
  - split; [apply quota_ok_start; lia|]. unfold account_of. simpl. rewrite fmap_empty. apply history_nil.
  - split; [by eapply quota_step_ok; [apply Hceil|eexists|]|]. by eapply quota_simulated.
Qed.

(** * The end of the loops *)

Section progress.
Context (ceiling_bytes : Z).

(** A step of the tasks that are there. *)
Definition works (q q' : quota) : Prop :=
  quota_step ceiling_bytes q q' ∧ size (tasks q') = size (tasks q).

(** How often a task still changes the counter, and how far it is from the
    next change while nobody else changes it. *)
Definition changes (tk : task) : Z :=
  match tk with
  | Starting _ | Looping _ _ => 2
  | Holding _ | Subtracting _ _ => 1
  | Refused _ _ | Finished => 0
  end.
Definition distance (a : Z) (tk : task) : Z :=
  match tk with
  | Starting _ => 2
  | Looping _ current => if current =? a then 0 else 1
  | Holding _ => 1
  | _ => 0
  end.
Definition work_left (q : quota) : Z :=
  msum changes (tasks q) * (2 * Z.of_nat (size (tasks q)) + 1)
  + msum (distance (allocated_bytes q)) (tasks q).

Lemma distance_bounds a tk : 0 ≤ distance a tk ≤ 2.
Proof. destruct tk; simpl; try case_match; lia. Qed.
Lemma changes_bounds tk : 0 ≤ changes tk ≤ 2.
Proof. destruct tk; simpl; lia. Qed.
Lemma distances_bounds a (ts : gmap nat task) : 0 ≤ msum (distance a) ts ≤ 2 * Z.of_nat (size ts).
Proof.
  split; [apply msum_nonneg|apply msum_le_size]; intros k tk _; apply (distance_bounds a tk).
Qed.
Lemma work_left_bounds q :
  let n := Z.of_nat (size (tasks q)) in 0 ≤ work_left q ≤ 2 * n * (2 * n + 1) + 2 * n.
Proof.
  unfold work_left. pose proof (distances_bounds (allocated_bytes q) (tasks q)).
  assert (0 ≤ msum changes (tasks q) ≤ 2 * Z.of_nat (size (tasks q))).
  { split; [apply msum_nonneg|apply msum_le_size]; intros k tk _; apply (changes_bounds tk). }
  simpl. nia.
Qed.

(** A step that changes the counter pays for all the loops it disturbs; another
    one brings its task closer. *)
Lemma work_counter a a' (ts : gmap nat task) t tk tk' :
  ts !! t = Some tk → changes tk' + 1 ≤ changes tk →
  work_left (mkQuota a' (<[t := tk']> ts)) < work_left (mkQuota a ts).
Proof.
  intros Ht Hc. unfold work_left. simpl.
  rewrite map_size_insert_Some, (msum_insert_Some changes _ _ tk) by (done || by eexists).
  pose proof (distances_bounds a ts). pose proof (distances_bounds a' (<[t := tk']> ts)) as H'.
  rewrite map_size_insert_Some in H' by by eexists. nia.
Qed.
Lemma work_closer a (ts : gmap nat task) t tk tk' :
  ts !! t = Some tk → changes tk' = changes tk → distance a tk' < distance a tk →
  work_left (mkQuota a (<[t := tk']> ts)) < work_left (mkQuota a ts).
Proof.
  intros Ht Hc Hd. unfold work_left. simpl.
  rewrite map_size_insert_Some by by eexists.
  rewrite (msum_insert_Some changes _ _ tk), (msum_insert_Some (distance a) _ _ tk) by done. nia.
Qed.

Lemma works_less q q' : works q q' → work_left q' < work_left q.
Proof.
  intros [[es Hstep] Hsize].
  destruct Hstep as [a ts t bytes Hnone Hb|a ts t bytes Ht|a ts t bytes current Ht Hover
    |a ts t bytes Ht Hroom|a ts t bytes current Ht Hne Hroom|a ts t bytes Ht|a ts t amount current Ht].
  - simpl in Hsize. rewrite map_size_insert_None in Hsize by done. lia.
  - eapply work_closer; [done..|]. simpl. rewrite Z.eqb_refl. lia.
  - eapply work_counter; [done|]. simpl. lia.
  - eapply work_counter; [done|]. simpl. lia.
  - eapply work_closer; [done..|]. simpl. rewrite Z.eqb_refl, (proj2 (Z.eqb_neq _ _)) by done. lia.
  - eapply work_closer; [done..|]. simpl. lia.
  - eapply work_counter; [done|]. simpl. lia.
Qed.

Lemma works_possible a (ts : gmap nat task) t tk :
  ts !! t = Some tk → tk ≠ Finished → (∀ b c, tk ≠ Refused b c) → ∃ q, works (mkQuota a ts) q.
Proof.
  intros Ht Hfin Href. assert (Hsize : ∀ tk', size (<[t := tk']> ts) = size ts).
  { intros tk'. by apply map_size_insert_Some. }
  unfold works. destruct tk as [b|b c|b c|b|b c|]; try done.
  - eexists. split; [by eexists; apply (step_load _ a _ t b)|apply Hsize].
  - destruct (Z.lt_ge_cases ceiling_bytes (saturating_add c b)) as [Hover|Hroom].
    { eexists. split; [by eexists; apply (step_refuse _ a _ t b c)|apply Hsize]. }
    destruct (decide (c = a)) as [->|Hne].
    + eexists. split; [by eexists; apply (step_swap _ a _ t b)|apply Hsize].
    + eexists. split; [by eexists; apply (step_retry _ a _ t b c)|apply Hsize].
  - by destruct (Href b c).
  - eexists. split; [by eexists; apply (step_release _ a _ t b)|apply Hsize].
  - eexists. split; [by eexists; apply (step_subtract _ a _ t b c)|apply Hsize].
Qed.
End progress.

(** C20: no task of the descriptor server loops for ever. [n] tasks together take
    at most [2 n (2 n + 1) + 2 n] steps, however they interleave and however
    often they make each other's compare-and-swap fail; and while one of them is
    neither refused nor finished, some task can take a step. *)
Theorem quota_tasks_finish ceiling_bytes steps q q' :
  nsteps (works ceiling_bytes) steps q q' →
  let n := Z.of_nat (size (tasks q)) in
  Z.of_nat steps ≤ 2 * n * (2 * n + 1) + 2 * n ∧
  ((∀ q'', ¬ works ceiling_bytes q' q'') →
   ∀ t tk, tasks q' !! t = Some tk → tk = Finished ∨ ∃ b c, tk = Refused b c).
Proof.
  intros Hrun n. split.
  - pose proof (work_left_bounds q) as [_ Hq]. pose proof (work_left_bounds q') as [Hq' _].
    fold n in Hq. enough (Z.of_nat steps + work_left q' ≤ work_left q) by lia.
    clear -Hrun. induction Hrun as [q|steps q1 q2 q3 Hstep _ IH]; [lia|].
    pose proof (works_less _ _ _ Hstep). lia.
  - intros Hstuck t tk Ht. destruct q' as [a ts].
    destruct tk as [b|b c|b c|b|b c|]; try by eauto.
    all: destruct (works_possible ceiling_bytes a ts t _ Ht) as [q'' ?]; [done..|].
    all: by destruct (Hstuck q'').
Qed.
