(* ===== verification/Json.v ===== *)
(** What the Varlink and HTTP front ends use of serde_json, uuid and the
    formatting of numbers, as an interface. *)
From Stdlib Require Import SpecFloat.
From S2P Require Import Prelude Text Lease Errors.
Local Open Scope Z_scope.

(** JSON values: the accessors the code calls and the values it builds. *)
Class Json := {
  Value : Type;
  (** [v.get(key)], [v.as_str()], [v.as_u64()], [v.as_bool()], [v.as_array()] *)
  jget : string → Value → option Value;
  as_str : Value → option string;
  as_u64 : Value → option Z;
  as_bool : Value → option bool;
  as_array : Value → option (list Value);
  (** [json!] *)
  jnull : Value;
  jbool : bool → Value;
  jstr : string → Value;
  jnum : Z → Value;
  jfloat : spec_float → Value;
  jarr : list Value → Value;
  jobj : list (string * Value) → Value;
  jget_obj key fields :
    jget key (jobj fields) = snd <$> last (List.filter (λ kv, String.eqb kv.1 key) fields);
  as_str_jstr s : as_str (jstr s) = Some s;
  as_str_jnull : as_str jnull = None;
  as_u64_jnum n : is_u64 n → as_u64 (jnum n) = Some n;
  as_bool_jbool b : as_bool (jbool b) = Some b;
  as_array_jarr vs : as_array (jarr vs) = Some vs;
  as_u64_bounds v n : as_u64 v = Some n → is_u64 n;
}.

(** The text of JSON values: [serde_json::to_vec] and [serde_json::from_slice]. *)
Class JsonText {js : Json} := {
  to_vec : Value → result string string;
  value_from_slice : string → result string Value;
}.

(** [Uuid::parse_str] and the display of an identifier. *)
Class UuidText := {
  parse_uuid : string → option N;
  uuid_to_string : N → string;
  parse_uuid_to_string u : parse_uuid (uuid_to_string u) = Some u;
}.

(** The display of numbers that are not integers, and of foreign errors. *)
Class Display := {
  (** [{:.2}] *)
  show_f32_2 : spec_float → string;
  show_errno : Z → string;
}.

Section display.
Context {uu : UuidText} {dp : Display}.

Definition show_lease_id (id : LeaseId) : string := uuid_to_string (uuid id).

(** The messages [derive(thiserror::Error)] generates for error.rs. *)
Definition error_to_string (e : Error) : string :=
  match e with
  | TopologyDiscovery m => "Hardware topology discovery failed: " +:+ m
  | PlaneNotFound p => "Compute plane not found: " +:+ p
  | ResourceExhaustion plane requested available =>
      "Resource exhaustion: insufficient memory on plane " +:+ plane +:+ " (requested "
      +:+ pretty requested +:+ " bytes, available " +:+ pretty available +:+ " bytes)"
  | BusSaturation mem_some mem_full =>
      "Memory bus saturation / Pressure stall critical: Memory bus saturated (PSI mem_some: "
      +:+ show_f32_2 mem_some +:+ "%, mem_full: " +:+ show_f32_2 mem_full +:+ "%). Throttling."
  | LeaseNotFound id => "Lease not found: " +:+ show_lease_id id
  | PreemptionFailed m => "Lease preemption failed: " +:+ m
  | ModelNotFound m => "Model not found: " +:+ m
  | EngineCommunication m => "Engine communication error: " +:+ m
  | Fd m => "Zero-copy FD error: " +:+ m
  | FreezerError m => "Cgroup freezer error: " +:+ m
  | Madvise m => "Madvise page management error: " +:+ m
  | Systemd m => "Systemd interface error: " +:+ m
  | SystemCall errno => "System call error: " +:+ show_errno errno
  | Io m => "I/O error: " +:+ m
  | Serialization m => "Serialization error: " +:+ m
  end.
End display.

(** * A concrete instance, for runs *)

Inductive json_value :=
  | JNull
  | JBool (b : bool)
  | JStr (s : string)
  | JNum (n : Z)
  | JFloat (f : spec_float)
  | JArr (vs : list json_value)
  | JObj (fields : list (string * json_value)).

Definition json_get (key : string) (v : json_value) : option json_value :=
  match v with
  | JObj fields => snd <$> last (List.filter (λ kv, String.eqb kv.1 key) fields)
  | _ => None
  end.
Definition json_u64 (v : json_value) : option Z :=
  match v with JNum n => if decide (is_u64 n) then Some n else None | _ => None end.

Lemma json_u64_num n : is_u64 n → json_u64 (JNum n) = Some n.
Proof. intros Hn. unfold json_u64. by rewrite decide_True. Qed.
Lemma json_u64_bounds v n : json_u64 v = Some n → is_u64 n.
Proof. destruct v; try done. simpl. case_decide; [|done]. by intros [= <-]. Qed.

Definition plain_json : Json :=
  {| Value := json_value;
     jget := json_get;
     as_str v := match v with JStr s => Some s | _ => None end;
     as_u64 := json_u64;
     as_bool v := match v with JBool b => Some b | _ => None end;
     as_array v := match v with JArr vs => Some vs | _ => None end;
     jnull := JNull; jbool := JBool; jstr := JStr; jnum := JNum; jfloat := JFloat;
     jarr := JArr; jobj := JObj;
     jget_obj _ _ := eq_refl;
     as_str_jstr _ := eq_refl;
     as_str_jnull := eq_refl;
     as_u64_jnum := json_u64_num;
     as_bool_jbool _ := eq_refl;
     as_array_jarr _ := eq_refl;
     as_u64_bounds := json_u64_bounds |}.

(** Identifiers as text: their bits. *)
Fixpoint bits (p : positive) : string :=
  match p with xH => "h" | xO p => String "0" (bits p) | xI p => String "1" (bits p) end.
Fixpoint of_bits (s : string) : option positive :=
  match s with
  | String "h" EmptyString => Some xH
  | String "0" s => xO <$> of_bits s
  | String "1" s => xI <$> of_bits s
  | _ => None
  end.
Lemma of_bits_bits p : of_bits (bits p) = Some p.
Proof. induction p as [p IH|p IH|]; simpl; [by rewrite IH|by rewrite IH|done]. Qed.

Definition bit_uuid : UuidText.
Proof.
  refine {| uuid_to_string u := match u with N0 => "z" | Npos p => bits p end;
            parse_uuid s := if String.eqb s "z" then Some 0%N else Npos <$> of_bits s |}.
  intros [|p]; [done|]. rewrite of_bits_bits. by destruct p.
Defined.

Definition some_display : Display := {| show_f32_2 _ := "?"; show_errno := pretty |}.
