(* ===== verification/FdServer.v ===== *)
(** The descriptor server: crates/inferenced-daemon/src/fd_server.rs. *)
From S2P Require Import Prelude Text Errors Json FdLease FdQuota.
Local Open Scope Z_scope.

Record FdRequest := mkFdRequest {
  action : string;
  name : option string;
  size_bytes : option Z;
}.

Record FdResponse := mkFdResponse {
  status : string;
  message : option string;
}.

(** JSON is the business of serde_json. *)
Class FdCodec := {
  decode_request : string → result string FdRequest;
  encode_response : FdResponse → result string string;
}.

(** * Framing *)

(** [read_framed_request]: each read gives at least one byte, nothing at the
    end of the stream, or an error. *)
Fixpoint read_framed_request {codec : FdCodec} (reads : list (result string string)) (scratch : string) :
    result string (option FdRequest) :=
  match reads with
  | [] => Ok None
  | Err e :: _ => Err e
  | Ok chunk :: reads' =>
      if is_empty chunk then Ok None
      else
        let scratch := scratch +:+ chunk in
        match split_once nul scratch with
        | Some (payload, _) =>
            match decode_request payload with
            | Ok req => Ok (Some req)
            | Err e => Err e
            end
        | None =>
            if 65536 <? Z.of_nat (String.length scratch)
            then Err "FD request exceeded 64 KiB without NUL terminator"
            else read_framed_request reads' scratch
        end
  end.

(** * A connection *)

(** What goes out: a framed response, or a payload with a descriptor. *)
Inductive FdOutput :=
  | Respond (bytes : string)
  | SendFd (fd : Memfd) (payload : string).

(** What the connection meets: whether a write of a response succeeds, the
    kernel's answers for the memory file, whether the descriptor was sent. *)
Record FdWorld := mkFdWorld {
  w_write_response : result string unit;
  w_kernel : MemfdKernel;
  w_send : result Error nat;
}.

Section connection.
Context {codec : FdCodec} {uu : UuidText} {dp : Display}.
Context (ceiling_bytes : Z) (w : FdWorld).

(** The state is the counter of the quota. *)
Definition Conn (A : Type) : Type := eff Z FdOutput string A.

Definition write_response (resp : FdResponse) : Conn unit :=
  (let! bytes := elift (encode_response resp) in
   etell [Respond (bytes +:+ String nul "")] ;!
   elift (w_write_response w))%eff.

Definition reserve (bytes : Z) : Conn (result Z Z) :=
  λ a, let '(r, a') := try_reserve ceiling_bytes a bytes in (Ok r, a', []).
Definition give_back (bytes : Z) : Conn unit := emodify (λ a, release a bytes).

Definition handle_connection (reads : list (result string string)) : Conn unit :=
  (let! req := elift (read_framed_request reads "") in
   match req with
   | None => eret tt
   | Some req =>
       if negb (String.eqb (action req) "create") && negb (String.eqb (action req) "lease") then
         write_response (mkFdResponse "error" (Some
           ("Unknown action '" +:+ action req +:+ "'. Supported actions: 'create', 'lease'")))
       else
         let name := default "inferenced-shm" (name req) in
         let size := default (4 * 1024 * 1024) (size_bytes req) in
         if MAX_MEMFD_BYTES <? size then
           write_response (mkFdResponse "error" (Some
             ("Requested size " +:+ pretty size +:+ " exceeds limit of "
              +:+ pretty MAX_MEMFD_BYTES +:+ " bytes")))
         else
           let! r := reserve size in
           match r with
           | Err current =>
               write_response (mkFdResponse "error" (Some
                 ("Quota exceeded: " +:+ pretty current +:+ " bytes already allocated, request "
                  +:+ pretty size +:+ " bytes")))
           | Ok reserved =>
               match create_sealed_memfd (w_kernel w) name size None with
               | Err e =>
                   give_back reserved ;!
                   write_response (mkFdResponse "error" (Some
                     ("Failed to create sealed memfd: " +:+ error_to_string e)))
               | Ok memfd =>
                   let resp := mkFdResponse "ok" (Some
                     ("Created sealed memfd '" +:+ name +:+ "' (" +:+ pretty size +:+ " bytes)")) in
                   let payload := match encode_response resp with Ok text => text | Err _ => "" end in
                   etell [SendFd memfd payload] ;!
                   match w_send w with
                   | Ok _ => give_back reserved
                   | Err e => give_back reserved
                   end
               end
           end
   end)%eff.
End connection.

(** * Facts *)

Section framing.
Context `{codec : FdCodec}.

(** Cut a message into reads. *)
Definition chunks (cs : list string) : list (result string string) := Ok <$> cs.

Lemma split_once_lacks c s : lacks c s = true → split_once c s = None.
Proof.
  induction s as [|a s IH]; [done|]. intros [Ha Hs]%andb_true_iff. simpl.
  apply negb_true_iff in Ha. by rewrite Ha, IH.
Qed.

Lemma split_once_prefix c payload s t :
  lacks c payload = true → s +:+ t = payload +:+ String c "" → t ≠ "" → split_once c s = None.
Proof.
  intros Hl Heq Ht. apply split_once_lacks. revert payload Hl Heq.
  induction s as [|a s IH]; intros payload Hl Heq; [done|].
  destruct payload as [|b payload].
  - injection Heq as -> Heq. destruct s; [|done]. by destruct t.
  - injection Heq as -> Heq. unfold lacks in *. cbn [string_forallb] in *.
    apply andb_true_iff in Hl as [Hb Hl]. rewrite Hb. by apply (IH payload).
Qed.

Lemma read_framed_split payload cs scratch :
  lacks nul payload = true →
  Z.of_nat (String.length payload) ≤ 65536 →
  Forall (λ c, c ≠ "") cs → cs ≠ [] →
  scratch +:+ concat_all cs = payload +:+ String nul "" →
  read_framed_request (chunks cs) scratch =
    match decode_request payload with Ok req => Ok (Some req) | Err e => Err e end.
Proof.
  intros Hl Hlen. revert scratch. induction cs as [|c cs IH]; intros scratch Hne Hnil Heq; [done|].
  apply Forall_cons in Hne as [Hc Hne]. unfold chunks. rewrite fmap_cons. cbn [read_framed_request].
  destruct (is_empty c) eqn:He; [by apply is_empty_true in He|].
  cbn [concat_all foldr] in Heq. rewrite (assoc_L String.append) in Heq.
  destruct cs as [|c' cs].
  - cbn [foldr] in Heq. rewrite string_app_empty in Heq. rewrite Heq.
    by rewrite split_once_app by done.
  - assert (Hrest : foldr String.append "" (c' :: cs) ≠ "").
    { apply Forall_cons in Hne as [Hc' _]. simpl. by destruct c'. }
    rewrite (split_once_prefix nul payload _ _ Hl Heq Hrest).
    assert (String.length (scratch +:+ c) ≤ String.length payload)%nat as Hle.
    { pose proof (f_equal String.length Heq) as Hlength. rewrite !string_length_app in Hlength.
      rewrite string_length_app. simpl in Hlength.
      assert (String.length (foldr String.append "" (c' :: cs)) ≠ 0%nat) as Hpos.
      { simpl in *. destruct (c' +:+ _); [done|]. simpl. lia. }
      simpl in *. rewrite string_length_app in *. lia. }
    rewrite (proj2 (Z.ltb_ge _ _)) by lia. by apply IH.
Qed.
End framing.

(** C27: framing does not depend on how the bytes arrive: a request of up to
    64 KiB followed by a NUL is decoded to the same result however the stream
    cuts it into reads. *)
Theorem framing_independent_of_reads (codec : FdCodec) payload cs :
  lacks nul payload = true → Z.of_nat (String.length payload) ≤ 65536 →
  Forall (λ c, c ≠ "") cs → concat_all cs = payload +:+ String nul "" →
  read_framed_request (chunks cs) "" =
    match decode_request payload with Ok req => Ok (Some req) | Err e => Err e end.
Proof.
  intros Hl Hlen Hne Heq. apply read_framed_split; try done.
  intros ->. simpl in Heq. by destruct payload.
Qed.

Section connection_facts.
Context (codec : FdCodec) (w : FdWorld).

Lemma read_framed_decoded reads scratch req :
  read_framed_request reads scratch = Ok (Some req) → ∃ payload, decode_request payload = Ok req.
Proof.
  revert scratch. induction reads as [|[chunk|e] reads IH]; intros scratch; simpl; [done| |done].
  destruct (is_empty chunk); [done|].
  destruct (split_once nul _) as [[payload rest]|].
  - destruct (decode_request payload) as [req'|e] eqn:Hd; [|done]. intros [= <-]. eauto.
  - destruct (65536 <? _); [done|apply IH].
Qed.

Lemma write_response_neutral resp a r a' outs :
  write_response w resp a = (r, a', outs) → a' = a ∧ ∀ fd payload, SendFd fd payload ∉ outs.
Proof.
  unfold write_response, ebind, etell, elift.
  destruct (encode_response resp); intros [= <- <- <-]; (split; [done|]);
    intros fd payload Hin; simpl in Hin; set_solver.
Qed.

Lemma create_empty_memfd k name size fd :
  0 ≤ size → create_sealed_memfd k name size None = Ok fd →
  m_sealed fd = true ∧ m_size fd = size ∧ m_name fd = name ∧ m_written fd = "".
Proof.
  intros Hsize Hfd. rewrite (created_empty k name size fd Hfd). split_and!; try done. simpl. lia.
Qed.

(** What a request asks for. *)
Definition requested_name (req : FdRequest) : string := default "inferenced-shm" (name req).
Definition requested_size (req : FdRequest) : Z := default (4 * 1024 * 1024) (size_bytes req).
Definition wants_memory (req : FdRequest) : bool :=
  String.eqb (action req) "create" || String.eqb (action req) "lease".

(** What is asked for can be had. *)
Definition servable (ceiling a : Z) (req : FdRequest) : Prop :=
  wants_memory req = true ∧ requested_size req ≤ MAX_MEMFD_BYTES ∧ a + requested_size req ≤ ceiling.
Definition new_memfd (req : FdRequest) : result Error Memfd :=
  create_sealed_memfd (w_kernel w) (requested_name req) (requested_size req) None.

Lemma handle_connection_cases {uu : UuidText} {dp : Display} ceiling reads a req r a' outs :
  0 ≤ a → ceiling < u64_max → 0 ≤ requested_size req →
  read_framed_request reads "" = Ok (Some req) →
  handle_connection ceiling w reads a = (r, a', outs) →
  a' = a ∧
  ((servable ceiling a req ∧ ∃ fd payload, new_memfd req = Ok fd ∧ outs = [SendFd fd payload]) ∨
   ((servable ceiling a req → is_ok (new_memfd req) = false) ∧ ∀ fd payload, SendFd fd payload ∉ outs)).
Proof.
  intros Ha Hceil Hpos Hreq. unfold handle_connection, servable. rewrite Hreq.
  rewrite (ebind_silent (elift _) _ _ (Some req) a eq_refl).
  change (default (4 * 1024 * 1024) (size_bytes req)) with (requested_size req).
  change (default "inferenced-shm" (name req)) with (requested_name req).
  assert (Hwants : wants_memory req =
    negb (negb (String.eqb (action req) "create") && negb (String.eqb (action req) "lease"))).
  { unfold wants_memory. by destruct (String.eqb _ "create"), (String.eqb _ "lease"). }
  destruct (negb _ && _) in Hwants |- *; cbn [negb] in Hwants.
  { intros [-> Hnone]%write_response_neutral. split; [done|right]. split; [by intros [? _]; congruence|done]. }
  destruct (Z.ltb_spec MAX_MEMFD_BYTES (requested_size req)) as [|Hmax].
  { intros [-> Hnone]%write_response_neutral. split; [done|right]. split; [lia|done]. }
  destruct (Z.ltb_spec ceiling (saturating_add a (requested_size req))) as [Hover|Hroom].
  { rewrite (ebind_silent (reserve ceiling _) _ a (Err a) a).
    2: { unfold reserve, try_reserve. by rewrite (proj2 (Z.ltb_lt _ _)) by lia. }
    intros [-> Hnone]%write_response_neutral. split; [done|right]. split; [|done].
    intros (_ & _ & Hfit). exfalso. revert Hover. u64_lia. }
  rewrite (ebind_silent (reserve ceiling _) _ a (Ok (requested_size req)) (saturating_add a (requested_size req))).
  2: { unfold reserve, try_reserve. by rewrite (proj2 (Z.ltb_ge _ _)) by lia. }
  assert (Hsum : saturating_add a (requested_size req) = a + requested_size req) by u64_lia.
  assert (Hback : release (saturating_add a (requested_size req)) (requested_size req) = a).
  { unfold release. rewrite Hsum, Z.min_l by lia. rewrite Hsum in Hroom.
    assert (u64_max < u64_limit) by done. unfold wrapping_sub. rewrite Z.mod_small; lia. }
  fold (new_memfd req). destruct (new_memfd req) as [fd|e].
  - unfold give_back, ebind, etell, emodify. intros Hconn.
    destruct (w_send w); simplify_eq/=; rewrite Hback; (split; [done|left]);
      (split; [split_and!; [done|done|lia]|eauto]).
  - rewrite (ebind_silent (give_back _) _ _ tt _ eq_refl), Hback.
    by intros [-> Hnone]%write_response_neutral; auto.
Qed.

End connection_facts.

(** C26: a connection leaves the quota as it found it, whatever the client sends
    and whichever call fails; and a descriptor is sent exactly when a request for
    memory was read whose size is within the limit of one request and the room
    left in the quota, and the file could be made: one descriptor, of a sealed
    file of the name and of exactly the size that request asks for. *)
Theorem connection_quota_neutral (codec : FdCodec) (uu : UuidText) (dp : Display) ceiling_bytes w reads a r a' outs :
  0 ≤ a → ceiling_bytes < u64_max →
  (∀ payload req, decode_request payload = Ok req →
     match size_bytes req with Some n => is_u64 n | None => True end) →
  handle_connection ceiling_bytes w reads a = (r, a', outs) →
  a' = a ∧
  (∀ fd payload, SendFd fd payload ∈ outs →
     outs = [SendFd fd payload] ∧ ∃ req, read_framed_request reads "" = Ok (Some req) ∧
       wants_memory req = true ∧ requested_size req ≤ MAX_MEMFD_BYTES ∧
       a + requested_size req ≤ ceiling_bytes ∧
       m_sealed fd = true ∧ m_size fd = requested_size req ∧ m_name fd = requested_name req) ∧
  (∀ req fd, read_framed_request reads "" = Ok (Some req) → wants_memory req = true →
     requested_size req ≤ MAX_MEMFD_BYTES → a + requested_size req ≤ ceiling_bytes →
     create_sealed_memfd (w_kernel w) (requested_name req) (requested_size req) None = Ok fd →
     ∃ payload, outs = [SendFd fd payload]).
Proof.
  intros Ha Hceil Hcodec Hconn.
  destruct (read_framed_request reads "") as [[req|]|e] eqn:Hreq.
  2, 3: unfold handle_connection, ebind, elift, eret in Hconn; rewrite Hreq in Hconn; simplify_eq;
    split_and!; set_solver.
  assert (Hpos : 0 ≤ requested_size req).
  { destruct (read_framed_decoded _ _ _ _ Hreq) as [payload Hpayload]. specialize (Hcodec payload req Hpayload).
    unfold requested_size. destruct (size_bytes req); [apply Hcodec|done]. }
  destruct (handle_connection_cases codec w ceiling_bytes reads a req r a' outs Ha Hceil Hpos Hreq Hconn)
    as [-> [[(Hw & Hmax & Hroom) (fd & payload & Hfd & ->)]|[Hnot Hnone]]]; (split; [done|split]).
  - intros fd' p' [= -> ->]%list_elem_of_singleton. split; [done|]. exists req.
    destruct (create_empty_memfd _ _ _ _ Hpos Hfd) as (? & ? & ? & _). done.
  - intros req' fd' [= <-] _ _ _ Hfd'. unfold new_memfd in Hfd. rewrite Hfd in Hfd'. simplify_eq. eauto.
  - by intros fd p ?%Hnone.
  - intros req' fd [= <-] Hw Hmax Hroom Hfd. unfold new_memfd, servable in Hnot. rewrite Hfd in Hnot.
    by specialize (Hnot (conj Hw (conj Hmax Hroom))).
Qed.
