(* ===== verification/Sharing.v ===== *)
(** Weights shared by descriptor: what becomes of a memory file of fd_lease.rs
    once its descriptor has been handed to other tasks, each of which may do with
    it whatever the kernel lets it do. *)
From S2P Require Import Prelude Text Host Errors Discovery FdLease FdQuota Json FdServer.
Local Open Scope Z_scope.

(** * The kernel *)

(** What was not written reads as zero. *)
Fixpoint zeros (n : nat) : string :=
  match n with O => "" | S n' => String nul (zeros n') end.
Definition contents (fd : Memfd) : string :=
  m_written fd +:+ zeros (Z.to_nat (m_size fd) - String.length (m_written fd)).

(** What a task may try with a descriptor: write where the offset is, truncate,
    map the file shared and writable, add seals, move the offset, read where the
    offset is, look at the file through a read-only mapping. *)
Inductive Access :=
  | TryWrite (bytes : string)
  | TryTruncate (size : N)
  | TryMapWritable
  | TrySeal (seals : list Seal)
  | SeekTo (offset : N)
  | ReadBytes (count : nat)
  | View.

(** The kernel's answer, the bytes read or an error number, and the file. *)
Class MemfdAccess := access : Access → Memfd → result Z string * Memfd.

Definition EPERM : Z := 1.

(** What fcntl(2) says of seals, and lseek(2), read(2) and mmap(2) of files. *)
Record access_documented {ma : MemfdAccess} : Prop := {
  doc_write fd bytes : SealWrite ∈ m_seals fd → bytes ≠ "" →
    access (TryWrite bytes) fd = (Err EPERM, fd);
  doc_write_nothing fd : (access (TryWrite "") fd).2 = fd;
  doc_map fd : SealWrite ∈ m_seals fd → access TryMapWritable fd = (Err EPERM, fd);
  doc_shrink fd size : SealShrink ∈ m_seals fd → Z.of_N size < m_size fd →
    access (TryTruncate size) fd = (Err EPERM, fd);
  doc_grow fd size : SealGrow ∈ m_seals fd → m_size fd < Z.of_N size →
    access (TryTruncate size) fd = (Err EPERM, fd);
  doc_same_size fd size : Z.of_N size = m_size fd → (access (TryTruncate size) fd).2 = fd;
  doc_seal fd seals : SealSeal ∈ m_seals fd → access (TrySeal seals) fd = (Err EPERM, fd);
  doc_seek fd offset : access (SeekTo offset) fd = (Ok "", sought (Z.of_N offset) fd);
  doc_read fd count :
    match access (ReadBytes count) fd with
    | (Err _, fd') => fd' = fd
    | (Ok got, fd') =>
        got = String.substring (Z.to_nat (m_offset fd)) (String.length got) (contents fd) ∧
        (String.length got ≤ count)%nat ∧
        fd' = sought (m_offset fd + Z.of_nat (String.length got)) fd
    end;
  doc_view fd : match access View fd with (r, fd') => fd' = fd ∧ ∀ got, r = Ok got → got = contents fd end;
}.

(** * One file, any holder of a descriptor *)

Section file.
Context {ma : MemfdAccess} (Hdoc : access_documented).
Implicit Types (fd : Memfd) (a : Access).

(** The same file, but for the offset. *)
Definition same_file (fd fd' : Memfd) : Prop := fd' = sought (m_offset fd') fd.

#[export] Instance same_file_preorder : PreOrder same_file.
Proof.
  split; [by intros []|]. intros x y z -> ->. by destruct x, z.
Qed.

Lemma same_file_fields fd fd' :
  same_file fd fd' → contents fd' = contents fd ∧ m_size fd' = m_size fd ∧ m_seals fd' = m_seals fd.
Proof. by intros ->. Qed.

(** An access that would change the file or what may be done with it. *)
Definition tampers (fd : Memfd) (a : Access) : bool :=
  match a with
  | TryWrite bytes => negb (is_empty bytes)
  | TryTruncate size => negb (Z.of_N size =? m_size fd)
  | TryMapWritable | TrySeal _ => true
  | SeekTo _ | ReadBytes _ | View => false
  end.

Lemma sealed_seal fd s : m_sealed fd = true → s ∈ m_seals fd.
Proof.
  intros Hs. unfold m_sealed in Hs. rewrite forallb_forall in Hs.
  apply (bool_decide_eq_true_1 _), Hs. by destruct s; simpl; auto.
Qed.

Lemma sealed_tamper fd a :
  m_sealed fd = true → tampers fd a = true → access a fd = (Err EPERM, fd).
Proof.
  intros Hs. pose proof (sealed_seal fd) as Hseal. destruct a as [bytes|size| |seals| | |]; simpl; intros Ht; try done.
  - apply (doc_write Hdoc); [auto|]. by intros ->.
  - apply negb_true_iff, Z.eqb_neq in Ht. destruct (Z.lt_total (Z.of_N size) (m_size fd)) as [?|[?|?]].
    + apply (doc_shrink Hdoc); auto.
    + lia.
    + apply (doc_grow Hdoc); auto.
  - apply (doc_map Hdoc). auto.
  - apply (doc_seal Hdoc). auto.
Qed.

Lemma sealed_access fd a : m_sealed fd = true → same_file fd (access a fd).2.
Proof.
  intros Hs. destruct (tampers fd a) eqn:Ht; [by rewrite sealed_tamper|].
  destruct a as [bytes|size| |seals|offset|count|]; simpl in Ht; try done.
  - apply negb_false_iff, is_empty_true in Ht as ->. by rewrite (doc_write_nothing Hdoc).
  - apply negb_false_iff, Z.eqb_eq in Ht. by rewrite (doc_same_size Hdoc).
  - by rewrite (doc_seek Hdoc).
  - pose proof (doc_read Hdoc fd count) as Hr.
    destruct (access (ReadBytes count) fd) as [[got|e] fd']; [|by subst]. by destruct Hr as (_ & _ & ->).
  - pose proof (doc_view Hdoc fd) as Hv. destruct (access View fd) as [r fd']. by destruct Hv as [-> _].
Qed.

(** Any number of accesses, by whoever. *)
Definition accesses (fd : Memfd) (l : list Access) : Memfd := foldl (λ fd a, (access a fd).2) fd l.

Lemma sealed_accesses fd l : m_sealed fd = true → same_file fd (accesses fd l).
Proof.
  revert fd. induction l as [|a l IH]; intros fd Hs; [done|]. cbn [accesses foldl].
  pose proof (sealed_access fd a Hs) as Hsame. etrans; [exact Hsame|]. apply IH.
  unfold m_sealed. by destruct (same_file_fields _ _ Hsame) as (_ & _ & ->).
Qed.
End file.

(** * A server and its clients *)

(** Where a client is: before the server has sent, with the message on its way,
    with a descriptor and the header it came with, or through. *)
Inductive Receiver :=
  | Awaiting
  | Sent (header : string)
  | Has (fd : Z) (header : string)
  | Through.

(** The file, the server's descriptor of it while it keeps it open, the open
    descriptors of the process, and the clients, tasks of the same process. *)
Record share := mkShare {
  sh_file : Memfd;
  sh_server : option Z;
  sh_open : gset Z;
  sh_clients : list Receiver;
}.

Definition fd_of (c : Receiver) : option Z := match c with Has fd _ => Some fd | _ => None end.
Definition client_fds (cs : list Receiver) : list Z := omap fd_of cs.
Definition holders (s : share) : list Z := option_list (sh_server s) ++ client_fds (sh_clients s).

(** The numbers the kernel gives to the descriptors of a message are not in use. *)
Definition deliverable (s : share) (header : string) (answer : result Z Received) : Prop :=
  match answer with
  | Ok msg => rx_payload msg = header ∧ NoDup (rx_fds msg) ∧ ∀ fd, fd ∈ rx_fds msg → fd ∉ sh_open s
  | Err _ => True
  end.
Definition delivered_fds (answer : result Z Received) : list Z :=
  match answer with Ok msg => rx_fds msg | Err _ => [] end.

(** One action of one task. The server sends the file with [header] to a client
    that has connected, and [sendmsg] answers as [sends] allows; a client receives into a buffer of [buf_len] bytes and is
    through when no descriptor comes; whoever has a descriptor uses it; a client
    closes its own, the server closes its own. *)
Inductive share_step {ma : MemfdAccess} (sends : result Z nat → Prop) (header : string) (buf_len : nat) :
    relation share :=
  | server_sends s fd i pushed sendmsg :
      sh_server s = Some fd → sh_clients s !! i = Some Awaiting → sends sendmsg →
      share_step sends header buf_len s
        (mkShare (sh_file s) (sh_server s) (sh_open s)
           (<[i := match send_fd_over_unix pushed sendmsg with
                   | Ok sent => Sent (String.substring 0 sent header)
                   | Err _ => Through
                   end]> (sh_clients s)))
  | client_receives s i sent answer r closed :
      sh_clients s !! i = Some (Sent sent) → deliverable s sent answer →
      recv_fd_from_unix answer buf_len = (r, closed) →
      share_step sends header buf_len s
        (mkShare (sh_file s) (sh_server s)
           ((sh_open s ∪ list_to_set (delivered_fds answer)) ∖ list_to_set closed)
           (<[i := match r with Ok (bytes, Some fd) => Has fd bytes | _ => Through end]> (sh_clients s)))
  | holder_accesses s fd a :
      fd ∈ holders s →
      share_step sends header buf_len s
        (mkShare (access a (sh_file s)).2 (sh_server s) (sh_open s) (sh_clients s))
  | client_closes s i fd got :
      sh_clients s !! i = Some (Has fd got) →
      share_step sends header buf_len s
        (mkShare (sh_file s) (sh_server s) (sh_open s ∖ {[fd]}) (<[i := Through]> (sh_clients s)))
  | server_closes s fd :
      sh_server s = Some fd →
      share_step sends header buf_len s
        (mkShare (sh_file s) None (sh_open s ∖ {[fd]}) (sh_clients s)).

(** The server has made the file; [n] clients will connect. *)
Definition published (fd : Memfd) (number : Z) (base : gset Z) (n : nat) : share :=
  mkShare fd (Some number) ({[number]} ∪ base) (replicate n Awaiting).

Section sharing.
Context {ma : MemfdAccess} (Hdoc : access_documented).
Context (sends : result Z nat → Prop) (header : string) (buf_len : nat).
Context (file : Memfd) (Hsealed : m_sealed file = true) (base : gset Z).
Implicit Types (s : share) (cs : list Receiver).

(** What a client may have been sent or hold. *)
Definition header_ok (c : Receiver) : Prop :=
  match c with
  | Sent h => ∃ k, sends (Ok k) ∧ h = String.substring 0 k header
  | Has _ h => (∃ k, sends (Ok k) ∧ h = String.substring 0 k header) ∧ (String.length h < buf_len)%nat
  | _ => True
  end.

(** The descriptors of the process are those it had, the server's and the
    clients', all different. *)
Record sharing s : Prop := {
  sharing_file : same_file file (sh_file s);
  sharing_open : sh_open s = base ∪ list_to_set (holders s);
  sharing_distinct : NoDup (holders s);
  sharing_fresh : ∀ fd, fd ∈ holders s → fd ∉ base;
  sharing_headers : Forall header_ok (sh_clients s);
}.

Lemma client_fds_insert cs i c c' :
  cs !! i = Some c →
  client_fds (<[i := c']> cs) ++ option_list (fd_of c) ≡ₚ client_fds cs ++ option_list (fd_of c').
Proof.
  unfold client_fds. revert i. induction cs as [|c0 cs IH]; intros [|i] Hi; [done..| |].
  - simplify_eq/=. destruct (fd_of c), (fd_of c'); simpl; solve_Permutation.
  - specialize (IH i Hi). simpl in IH |- *. destruct (fd_of c0); simpl; by rewrite IH.
Qed.

(** A descriptor more, and one less. *)
Lemma holders_grow s s' kept closed fds :
  sharing s → NoDup fds → (∀ fd, fd ∈ fds → fd ∉ sh_open s) →
  option_list kept ++ closed ≡ₚ fds → holders s' ≡ₚ holders s ++ option_list kept →
  sh_open s' = (sh_open s ∪ list_to_set fds) ∖ list_to_set closed →
  sh_open s' = base ∪ list_to_set (holders s') ∧ NoDup (holders s') ∧
  ∀ fd, fd ∈ holders s' → fd ∉ base.
Proof.
  intros [_ Hopen Hnd Hfresh _] Hfds Hnew Hkept Hh Hopen'.
  rewrite <-Hkept in Hfds. apply NoDup_app in Hfds as (Hk & Hkc & _).
  assert (Hin : ∀ fd, fd ∈ fds ↔ fd ∈ option_list kept ∨ fd ∈ closed)
    by (intros fd; by rewrite <-Hkept, elem_of_app).
  assert (Hin' : ∀ fd, fd ∈ holders s' ↔ fd ∈ holders s ∨ fd ∈ option_list kept)
    by (intros fd; by rewrite Hh, elem_of_app).
  rewrite Hopen in Hnew. split_and!.
  - rewrite Hopen', Hopen. apply set_eq. intros fd.
    rewrite elem_of_difference, !elem_of_union, !elem_of_list_to_set, Hin, Hin'.
    specialize (Hnew fd). specialize (Hkc fd). rewrite elem_of_union, elem_of_list_to_set, Hin in Hnew.
    destruct (decide (fd ∈ closed)); tauto.
  - rewrite Hh. apply NoDup_app. split_and!; [done| |done]. intros fd Hfd Hfd'.
    apply (Hnew fd); [by apply Hin; left|]. set_solver.
  - intros fd [?|?]%Hin'; [by apply Hfresh|]. intros Hb. apply (Hnew fd); [by apply Hin; left|set_solver].
Qed.

Lemma holders_shrink s s' fd :
  sharing s → holders s ≡ₚ fd :: holders s' → sh_open s' = sh_open s ∖ {[fd]} →
  sh_open s' = base ∪ list_to_set (holders s') ∧ NoDup (holders s') ∧
  ∀ fd, fd ∈ holders s' → fd ∉ base.
Proof.
  intros [_ Hopen Hnd Hfresh _] Hh Hopen'. rewrite Hh in Hnd. apply NoDup_cons in Hnd as [Hfd Hnd].
  assert (Hin : ∀ x, x ∈ holders s ↔ x = fd ∨ x ∈ holders s') by (intros x; by rewrite Hh, elem_of_cons).
  split_and!; [|done|].
  - rewrite Hopen', Hopen. apply set_eq. intros x.
    rewrite elem_of_difference, !elem_of_union, !elem_of_list_to_set, elem_of_singleton, Hin.
    pose proof (Hfresh fd) as Hf. rewrite Hin in Hf. split; [tauto|].
    intros [Hx|Hx]; split; try tauto; intros ->; tauto.
  - intros x Hx. apply Hfresh, Hin. by right.
Qed.

Lemma recv_keeps answer r closed :
  recv_fd_from_unix answer buf_len = (r, closed) →
  option_list (match r with Ok (_, fd) => fd | Err _ => None end) ++ closed ≡ₚ delivered_fds answer ∧
  ∀ bytes fd, r = Ok (bytes, fd) → (String.length bytes < buf_len)%nat ∧
    ∃ msg, answer = Ok msg ∧ bytes = rx_payload msg.
Proof.
  destruct answer as [msg|e]; intros Hr.
  - pose proof (recv_never_leaks msg buf_len r closed Hr) as Hleak. destruct r as [[bytes fd]|e].
    + destruct Hleak as [Hperm Hbytes]. split; [done|]. intros bytes' fd' [= <- <-].
      split; [|eauto]. unfold recv_fd_from_unix in Hr.
      destruct (keep_first None (rx_fds msg)) as [kept c].
      pose proof (substring_length_le buf_len (rx_payload msg)) as Hle.
      destruct (Nat.eqb_spec (String.length (String.substring 0 buf_len (rx_payload msg))) buf_len);
        injection Hr as <- <- <- || done. lia.
    + by destruct Hleak as [Hperm _].
  - simpl in Hr. simplify_eq. split; [done|]. by intros.
Qed.

Lemma sharing_start fd n : fd ∉ base → sharing (published file fd base n).
Proof.
  intros Hfd. assert (Hn : client_fds (replicate n Awaiting) = []) by (by induction n).
  assert (Hh : holders (published file fd base n) = [fd]) by (unfold holders; simpl; by rewrite Hn).
  split; rewrite ?Hh.
  - reflexivity.
  - simpl. set_solver.
  - apply NoDup_singleton.
  - by intros x ->%list_elem_of_singleton.
  - apply Forall_replicate. exact I.
Qed.

Lemma sharing_step s s' : sharing s → share_step sends header buf_len s s' → sharing s'.
Proof.
  intros Hs Hstep. pose proof Hs as [Hfile Hopen Hnd Hfresh Hhead].
  assert (Hins : ∀ i c c', sh_clients s !! i = Some c →
    option_list (sh_server s) ++ client_fds (<[i := c']> (sh_clients s)) ++ option_list (fd_of c) ≡ₚ
    holders s ++ option_list (fd_of c')).
  { intros i c c' Hi. unfold holders. rewrite <-app_assoc. by rewrite (client_fds_insert _ _ _ _ Hi). }
  destruct Hstep as [s fd i pushed sendmsg Hserver Hi Hsends|s i sent answer r closed Hi Hdel Hrecv
    |s fd a Hfd|s i fd got Hi|s fd Hserver].
  - set (c' := match send_fd_over_unix pushed sendmsg with Ok n => _ | Err _ => _ end).
    assert (Hc' : fd_of c' = None ∧ header_ok c').
    { unfold c', send_fd_over_unix. destruct pushed, sendmsg; simpl; eauto. }
    destruct Hc' as [Hnone Hok]. specialize (Hins i _ c' Hi). rewrite Hnone in Hins. simpl in Hins.
    rewrite !app_nil_r in Hins. change (holders s) with (holders s) in Hins.
    split; simpl; [done| | | |by apply Forall_insert]; unfold holders; simpl; try rewrite Hins; try done.
    intros x. rewrite Hins. apply Hfresh.
  - set (c' := match r with Ok _ => _ | Err _ => _ end).
    destruct (recv_keeps _ _ _ Hrecv) as [Hkept Hbytes].
    assert (Hc' : fd_of c' = match r with Ok (_, fd) => fd | Err _ => None end ∧ header_ok c').
    { pose proof (Forall_lookup_1 _ _ _ _ Hhead Hi) as Hsent. unfold c'.
      destruct r as [[bytes [fd|]]|e]; try done. split; [done|].
      destruct (Hbytes bytes (Some fd) eq_refl) as (Hlen & msg & -> & ->). simpl. split; [|done].
      by destruct Hdel as [-> _]. }
    destruct Hc' as [Hfd Hok]. specialize (Hins i _ c' Hi). simpl in Hins.
    rewrite app_nil_r, Hfd in Hins.
    assert (NoDup (delivered_fds answer) ∧ ∀ fd, fd ∈ delivered_fds answer → fd ∉ sh_open s)
      as [Hnd' Hnew].
    { destruct answer as [msg|e]; [apply Hdel|]. split; [constructor|]. intros x []%not_elem_of_nil. }
    match goal with |- sharing ?s1 =>
      destruct (holders_grow s s1 _ closed _ Hs Hnd' Hnew Hkept Hins eq_refl) as (? & ? & ?) end.
    split; [done..|by apply Forall_insert].
  - split; [|done..]. simpl. etrans; [done|]. apply (sealed_access Hdoc).
    unfold m_sealed. by destruct (same_file_fields _ _ Hfile) as (_ & _ & ->).
  - specialize (Hins i _ Through Hi). simpl in Hins. rewrite app_nil_r in Hins.
    match goal with |- sharing ?s1 => destruct (holders_shrink s s1 fd Hs) as (? & ? & ?) end; [|done|].
    + rewrite <-Hins. unfold holders. simpl. solve_Permutation.
    + split; [done..|]. apply Forall_insert; [done|exact I].
  - match goal with |- sharing ?s1 => destruct (holders_shrink s s1 fd Hs) as (? & ? & ?) end; [|done|].
    + unfold holders. by rewrite Hserver.
    + by split.
Qed.
End sharing.

Lemma sharing_run {ma : MemfdAccess} sends header buf_len file fd base n s :
  access_documented → m_sealed file = true → fd ∉ base →
  rtc (share_step sends header buf_len) (published file fd base n) s → sharing sends header buf_len file base s.
Proof.
  intros Hdoc Hsealed Hfd. apply rtc_ind_r; [by apply sharing_start|].
  intros s1 s2 _ Hstep Hs. by eapply sharing_step.
Qed.

Lemma client_fds_elem cs i fd got : cs !! i = Some (Has fd got) → fd ∈ client_fds cs.
Proof.
  intros Hi. unfold client_fds. apply list_elem_of_omap. exists (Has fd got).
  split; [by eapply list_elem_of_lookup_2|done].
Qed.
Lemma client_fds_none cs : (∀ i fd got, cs !! i ≠ Some (Has fd got)) → client_fds cs = [].
Proof.
  intros Hno. unfold client_fds. induction cs as [|c cs IH]; [done|].
  pose proof (Hno 0%nat) as H0. destruct c; try (by apply IH; intros i; apply (Hno (S i))).
  by destruct (H0 fd header).
Qed.

Lemma model_contents name data offset seals :
  contents (mkMemfd name data (Z.of_nat (String.length data)) offset seals) = data.
Proof. unfold contents; simpl. by rewrite Nat2Z.id, Nat.sub_diag, string_app_empty. Qed.

(** A model, made and then shared. *)
Lemma model_shared {ma : MemfdAccess} k name data file fd base n sends header buf_len s :
  access_documented → writes_bounded k → writes_progress k →
  create_sealed_model k name data = Ok file → fd ∉ base →
  rtc (share_step sends header buf_len) (published file fd base n) s →
  sharing sends header buf_len file base s ∧ contents (sh_file s) = data ∧
  m_size (sh_file s) = Z.of_nat (String.length data) ∧ m_sealed (sh_file s) = true.
Proof.
  intros Hdoc Hb Hp Hfile Hfd Hrun. pose proof (created_model _ _ _ _ Hb Hp Hfile) as Hmade.
  assert (Hsealed : m_sealed file = true) by (by rewrite Hmade).
  pose proof (sharing_run _ _ _ _ _ _ _ _ Hdoc Hsealed Hfd Hrun) as Hs.
  destruct (same_file_fields _ _ (sharing_file _ _ _ _ _ _ Hs)) as (-> & -> & Hseals).
  split_and!; [done|..]; [by rewrite Hmade, model_contents|by rewrite Hmade|].
  unfold m_sealed. by rewrite Hseals.
Qed.

Lemma sharing_over sends header buf_len file base s :
  sharing sends header buf_len file base s →
  sh_server s = None → (∀ i fd' got, sh_clients s !! i ≠ Some (Has fd' got)) → sh_open s = base.
Proof.
  intros [_ Hopen _ _ _] Hserver Hno. rewrite Hopen. unfold holders.
  rewrite Hserver, client_fds_none by done. simpl. set_solver.
Qed.

Lemma sharing_client sends header buf_len file base s i fd got :
  sharing sends header buf_len file base s → sh_clients s !! i = Some (Has fd got) →
  fd ∈ sh_open s ∧ fd ∉ base ∧ ∃ sent, sends (Ok sent) ∧ got = String.substring 0 sent header.
Proof.
  intros [_ Hopen _ Hfresh Hhead] Hi.
  assert (fd ∈ holders s) by (apply elem_of_app; right; by eapply client_fds_elem).
  split_and!; [rewrite Hopen; set_solver|by apply Hfresh|].
  apply (Forall_lookup_1 _ _ _ _ Hhead Hi).
Qed.

(** C25: weights once published reach every client unchanged. Whichever sizes the
    kernel's writes come in, however the server's sends, the clients' receipts
    and everything any of them tries with its descriptor interleave, the file
    keeps exactly the model's bytes: every attempt to write, to resize, to map it
    writable or to change its seals is refused with EPERM and without effect,
    every mapping shows the model, and so does every read from the start. Each
    client that has a descriptor got it with as much of the header as was sent; and when the
    server and the clients have let go of theirs, the process has exactly the
    descriptors it had before: none leaks, also when a message does not fit or
    the kernel delivers more descriptors than were asked for. *)
Theorem weights_shared (ma : MemfdAccess) k name data file fd base n sends header buf_len s :
  access_documented → writes_bounded k → writes_progress k →
  create_sealed_model k name data = Ok file → fd ∉ base →
  rtc (share_step sends header buf_len) (published file fd base n) s →
  (∀ a, tampers (sh_file s) a = true → access a (sh_file s) = (Err EPERM, sh_file s)) ∧
  contents (sh_file s) = data ∧
  (∀ got, (access View (sh_file s)).1 = Ok got → got = data) ∧
  (∀ count got, (access (ReadBytes count) (access (SeekTo 0) (sh_file s)).2).1 = Ok got →
     got = String.substring 0 (String.length got) data) ∧
  (∀ i fd' got, sh_clients s !! i = Some (Has fd' got) →
     fd' ∈ sh_open s ∧ fd' ∉ base ∧ ∃ sent, sends (Ok sent) ∧ got = String.substring 0 sent header) ∧
  (sh_server s = None → (∀ i fd' got, sh_clients s !! i ≠ Some (Has fd' got)) → sh_open s = base).
Proof.
  intros Hdoc Hb Hp Hfile Hfd Hrun.
  destruct (model_shared _ _ _ _ _ _ _ _ _ _ _ Hdoc Hb Hp Hfile Hfd Hrun) as (Hs & Hcontents & _ & Hsealed).
  split_and!.
  - intros a. by apply (sealed_tamper Hdoc).
  - done.
  - intros got Hgot. pose proof (doc_view Hdoc (sh_file s)) as Hview.
    destruct (access View (sh_file s)) as [r f]. destruct Hview as [_ Hview]. rewrite <-Hcontents. by apply Hview.
  - intros count got. rewrite (doc_seek Hdoc).
    pose proof (doc_read Hdoc (sought (Z.of_N 0) (sh_file s)) count) as Hread. cbn [snd].
    destruct (access (ReadBytes count) (sought (Z.of_N 0) (sh_file s))) as [r f]. cbn [fst]. intros ->.
    destruct Hread as [Hgot _]. rewrite Hgot at 1. by rewrite <-Hcontents.
  - intros i fd' got. by eapply sharing_client.
  - by eapply sharing_over.
Qed.

(** * What this says of the rest *)

(** Each file the descriptor server sends is one it made without data. *)
Lemma sent_is_created (codec : FdCodec) (uu : UuidText) (dp : Display) ceiling_bytes w reads a fd payload :
  SendFd fd payload ∈ calls_of (handle_connection ceiling_bytes w reads a) →
  ∃ name size, create_sealed_memfd (w_kernel w) name size None = Ok fd.
Proof.
  unfold handle_connection, write_response, reserve, give_back, ebind, elift, etell, emodify, eret.
  destruct (read_framed_request reads "") as [[req|]|e]; simpl; [|set_solver..].
  destruct (_ && _); simpl; [destruct (encode_response _); simpl; set_solver|].
  destruct (MAX_MEMFD_BYTES <? _); simpl; [destruct (encode_response _); simpl; set_solver|].
  destruct (try_reserve _ _ _) as [[reserved|current] a']; simpl.
  2: { destruct (encode_response _); simpl; set_solver. }
  destruct (create_sealed_memfd _ _ _ None) as [memfd|e] eqn:Hfd; simpl.
  2: { destruct (encode_response _); simpl; set_solver. }
  destruct (w_send w); simpl; intros [[= -> _]|[]%not_elem_of_nil]%elem_of_cons; eauto.
Qed.

(** So its buffers are sealed before anybody could write to them: whatever its
    clients do with one, it reads as zeros for ever. *)
Theorem server_buffers_blank (ma : MemfdAccess) (codec : FdCodec) (uu : UuidText) (dp : Display)
    ceiling_bytes w reads a fd payload l :
  access_documented →
  SendFd fd payload ∈ calls_of (handle_connection ceiling_bytes w reads a) →
  contents (accesses fd l) = zeros (Z.to_nat (m_size fd)) ∧
  ∀ bytes, bytes ≠ "" → access (TryWrite bytes) (accesses fd l) = (Err EPERM, accesses fd l).
Proof.
  intros Hdoc Hsent. destruct (sent_is_created _ _ _ _ _ _ _ _ _ Hsent) as (name & size & Hfd).
  apply created_empty in Hfd as ->.
  destruct (same_file_fields _ _ (sealed_accesses Hdoc (mkMemfd name "" (Z.max size 0) 0 all_seals) l eq_refl))
    as (-> & _ & Hseals).
  split; [unfold contents; simpl; by rewrite Nat.sub_0_r|].
  intros bytes Hbytes. apply (doc_write Hdoc); [|done]. rewrite Hseals. simpl. set_solver.
Qed.

Lemma substring_past n m s : (String.length s ≤ n)%nat → String.substring n m s = "".
Proof.
  revert n. induction s as [|a s IH]; intros [|n] Hn; simpl in *; try lia; try (by destruct m).
  apply IH. lia.
Qed.

(** All descriptors of the file share one offset: once one client has read it to
    the end, the others read nothing, until one of them seeks back. *)
Theorem second_reader_sees_end (ma : MemfdAccess) fd count got fd' :
  access_documented → m_offset fd = 0 →
  access (ReadBytes count) fd = (Ok got, fd') → String.length got = String.length (contents fd) →
  ∀ count' got', (access (ReadBytes count') fd').1 = Ok got' → got' = "".
Proof.
  intros Hdoc Hoff Hread Hlen count' got'. pose proof (doc_read Hdoc fd count) as Hfirst.
  rewrite Hread in Hfirst. destruct Hfirst as (_ & _ & ->).
  pose proof (doc_read Hdoc (sought (m_offset fd + Z.of_nat (String.length got)) fd) count') as Hsecond.
  destruct (access (ReadBytes count') _) as [r f]. cbn [fst]. intros ->. destruct Hsecond as [-> _].
  apply substring_past. cbn [m_offset sought]. rewrite Hoff, Hlen, Z.add_0_l, Nat2Z.id. reflexivity.
Qed.
