(* ===== verification/Notify.v ===== *)
(** The service manager's notification socket:
    crates/inferenced-daemon/src/notify.rs. *)
From S2P Require Import Prelude Text.
Local Open Scope Z_scope.

(** Maximum notify datagram size. *)
Definition NOTIFY_MAX : Z := 8 * 1024 * 1024.

Inductive IoError :=
  | InvalidInput (message : string)
  | Other (message : string).

(** What rustix and the kernel answer: the two constructors of an address, the
    creation of a datagram socket and the sending of one datagram. *)
Record NotifyWorld (Addr : Type) := mkNotifyWorld {
  nw_abstract_name : string → option Addr;
  nw_path_name : string → option Addr;
  nw_socket : result string unit;
  nw_sendto : Addr → string → result string Z;
}.
Arguments nw_abstract_name {Addr}.
Arguments nw_path_name {Addr}.
Arguments nw_socket {Addr}.
Arguments nw_sendto {Addr}.

Definition other {A} (r : result string A) : result IoError A :=
  match r with Ok a => Ok a | Err e => Err (Other e) end.

Definition byte_is (b c : ascii) : bool := Ascii.eqb c b.

Section notify.
Context {Addr : Type} (nw : NotifyWorld Addr).

(** Sending: no state of its own, and the datagrams handed to the kernel. *)
Definition Notify (A : Type) : Type := eff unit (Addr * string) IoError A.

Definition notify_address (socket_path : string) : option Addr :=
  match strip_prefix "@" socket_path with
  | Some name =>
      if is_empty name || negb (lacks nul name) then None else nw_abstract_name nw name
  | None => if is_empty socket_path then None else nw_path_name nw socket_path
  end.

Definition send_notification_to (socket_path state : string) : Notify Z :=
  (let! addr := elift (ok_or (notify_address socket_path)
     (InvalidInput ("invalid NOTIFY_SOCKET target '" +:+ socket_path +:+ "'"))) in
   let! _ := elift (other (nw_socket nw)) in
   etell [(addr, state)] ;!
   elift (other (nw_sendto nw addr state)))%eff.

(** [$NOTIFY_SOCKET] is the argument [notify_socket]. *)
Definition send_notification (notify_socket : option string) (state : string) : Notify Z :=
  if NOTIFY_MAX <? Z.of_nat (String.length state) then
    ethrow (InvalidInput "notification exceeds 8 MiB systemd cap")
  else match notify_socket with
       | Some path => if is_empty path then eret 0 else send_notification_to path state
       | None => eret 0
       end.
End notify.

(** * The messages *)

Definition sanitize_value (s : string) : string :=
  string_filter (λ c, negb (byte_is newline c) && negb (byte_is carriage_return c)) s.

(** A variable and the newline that ends it. *)
Definition line (s : string) : string := s +:+ String newline "".

Definition ready_message : string := line "READY=1" +:+ line "STATUS=Hardware planes active".
Definition watchdog_message : string := line "WATCHDOG=1".
Definition stopping_message : string :=
  line "STOPPING=1" +:+ line "STATUS=Shutting down cleanly".
Definition status_message (status : string) : string :=
  line ("STATUS=" +:+ sanitize_value status).

Section notifications.
Context {Addr : Type} (nw : NotifyWorld Addr) (notify_socket : option string).

(** [if let Err(e) = send_notification(..) { warn!(..) }] *)
Definition notify (state : string) : Notify (Addr := Addr) unit :=
  (let! _ := etry (send_notification nw notify_socket state) in eret tt)%eff.

Definition notify_systemd_ready : Notify unit := notify ready_message.
Definition notify_systemd_status (status : string) : Notify unit := notify (status_message status).
Definition notify_systemd_watchdog : Notify unit := notify watchdog_message.
Definition notify_systemd_stopping : Notify unit := notify stopping_message.
End notifications.

(** * Facts *)

Section facts.
Context {Addr : Type} (nw : NotifyWorld Addr).
Implicit Types (s : string).

Lemma lacks_filter (f : ascii → bool) c s : f c = false → lacks c (string_filter f s) = true.
Proof.
  intros Hf. induction s as [|a s IH]; [done|]. cbn [string_filter].
  destruct (f a) eqn:Ha; [|done]. unfold lacks in *. cbn [string_forallb]. rewrite IH, andb_true_r.
  apply negb_true_iff, Ascii.eqb_neq. congruence.
Qed.

Lemma sanitize_lacks_newline s : lacks newline (sanitize_value s) = true.
Proof. by apply lacks_filter. Qed.
Lemma sanitize_lacks_return s : lacks carriage_return (sanitize_value s) = true.
Proof. by apply lacks_filter. Qed.

(** A value without line breaks is sent as it is. *)
Lemma sanitize_id s :
  lacks newline s = true → lacks carriage_return s = true → sanitize_value s = s.
Proof.
  unfold lacks, sanitize_value, byte_is. induction s as [|a s IH]; [done|].
  cbn [string_filter string_forallb].
  intros [Hn Hns]%andb_true_iff [Hr Hrs]%andb_true_iff. by rewrite Hn, Hr, IH.
Qed.

Lemma split_line s : lacks newline s = true → split newline (line s) = [s; ""].
Proof. intros Hs. apply (split_join newline s [""]). by repeat constructor. Qed.

(** Whatever is sent is the message that was asked for, once, and to the
    address the environment names. *)
Lemma send_notification_sends path state r u ds :
  send_notification nw path state tt = (r, u, ds) →
  ds = [] ∨
  ∃ p addr, path = Some p ∧ notify_address nw p = Some addr ∧ ds = [(addr, state)]
            ∧ Z.of_nat (String.length state) ≤ NOTIFY_MAX.
Proof.
  unfold send_notification. destruct (Z.ltb_spec NOTIFY_MAX (Z.of_nat (String.length state))).
  { intros [= <- <- <-]. by left. }
  destruct path as [p|]; [|intros [= <- <- <-]; by left].
  destruct (is_empty p); [intros [= <- <- <-]; by left|].
  unfold send_notification_to.
  destruct (notify_address nw p) as [addr|] eqn:Haddr; [|intros [= <- <- <-]; by left].
  destruct (nw_socket nw) eqn:Hsock; cbn; rewrite ?Hsock; cbn; intros [= <- <- <-];
    [right|by left]. by exists p, addr.
Qed.
End facts.

(** A status text cannot smuggle variables into a notification: updating
    the status never fails its caller and sends at most one datagram, which is
    the one line STATUS= followed by the text without its line breaks (so the
    text itself when it has none), and does send it when the service manager's
    socket is named and can be written to. *)
Theorem status_one_variable {Addr : Type} (nw : NotifyWorld Addr) notify_socket status :
  let '(r, _, sent) := notify_systemd_status nw notify_socket status tt in
  r = Ok tt ∧
  (sent = [] ∨ ∃ addr, sent = [(addr, status_message status)]) ∧
  split newline (status_message status) = ["STATUS=" +:+ sanitize_value status; ""] ∧
  lacks carriage_return (status_message status) = true ∧
  (lacks newline status = true → lacks carriage_return status = true →
     sanitize_value status = status) ∧
  (∀ path addr, notify_socket = Some path → is_empty path = false →
     notify_address nw path = Some addr → is_ok (nw_socket nw) = true →
     Z.of_nat (String.length (status_message status)) ≤ NOTIFY_MAX →
     sent = [(addr, status_message status)]).
Proof.
  unfold notify_systemd_status, notify, ebind, etry.
  destruct (send_notification nw notify_socket (status_message status) tt) as [[r u] sent] eqn:Hsend.
  cbn [eret]. rewrite app_nil_r. split_and!; [done| | | |apply sanitize_id|].
  - destruct (send_notification_sends nw _ _ _ _ _ Hsend) as [->|(p & addr & _ & _ & -> & _)]; eauto.
  - apply split_line. by rewrite lacks_app, sanitize_lacks_newline.
  - unfold status_message, line. by rewrite !lacks_app, sanitize_lacks_return.
  - intros path addr -> Hpath Haddr Hsock Hlen. revert Hsend. unfold send_notification.
    rewrite (proj2 (Z.ltb_ge _ _)), Hpath by done. unfold send_notification_to, ebind.
    rewrite Haddr. cbn. destruct (nw_socket nw); [|done]. cbn. by intros [= _ _ <-].
Qed.

(** * A run *)

Definition nw0 : NotifyWorld string :=
  {| nw_abstract_name n := Some ("@" +:+ n); nw_path_name p := Some p; nw_socket := Ok tt;
     nw_sendto _ m := Ok (Z.of_nat (String.length m)) |}.

Example injection_run :
  calls_of (notify_systemd_status nw0 (Some "/run/systemd/notify")
              ("busy" +:+ String newline "MAINPID=1") tt)
  = [("/run/systemd/notify", line "STATUS=busyMAINPID=1")].
Proof. reflexivity. Qed.

Lemma status_one_variable_witness :
  calls_of (notify_systemd_status nw0 (Some "@notify") "idle" tt)
  = [("@notify", status_message "idle")].
Proof.
  pose proof (status_one_variable nw0 (Some "@notify") "idle") as H.
  destruct (notify_systemd_status nw0 (Some "@notify") "idle" tt) as [[r u] sent].
  destruct H as (_ & _ & _ & _ & _ & H). cbn [calls_of snd].
  apply (H "@notify" "@notify"); reflexivity || (vm_compute; discriminate).
Defined.
