(* ===== verification/Creds.v ===== *)
(** Secrets handed over by the service manager:
    crates/inferenced-daemon/src/creds.rs, and the API token that main.rs
    resolves with it for the gateway. *)
From S2P Require Import Prelude Text Host.
Local Open Scope Z_scope.

(** [s.trim_end_matches(['\r', '\n'])]: cut at the first place from which on
    there are only line breaks. *)
Definition is_line_break (c : ascii) : bool := Ascii.eqb c carriage_return || Ascii.eqb c newline.
Fixpoint trim_line_breaks (s : string) : string :=
  match s with
  | EmptyString => ""
  | String a s' => if string_forallb is_line_break s then "" else String a (trim_line_breaks s')
  end.

Section creds.
Context (env : Env) (fs : Fs).
(** [fs::read(path).ok()], which does not ask for UTF-8. *)
Context (read_bytes : string → option string).

Definition load_credential (name : string) : option string :=
  creds_dir ← env "CREDENTIALS_DIRECTORY";
  content ← fs_read fs (join_path creds_dir name);
  Some (trim_line_breaks content).

Definition load_credential_bytes (name : string) : option string :=
  creds_dir ← env "CREDENTIALS_DIRECTORY";
  read_bytes (join_path creds_dir name).

(** [a.or_else(|| b)] *)
Definition or_else {A} (a b : option A) : option A :=
  match a with Some _ => a | None => b end.

Definition resolve_secret (env_var cred_name : string) : option string :=
  or_else (load_credential cred_name) (env env_var).

(** main.rs: the token of the gateway. *)
Definition resolve_api_token : option string :=
  or_else (resolve_secret "INFERENCED_API_TOKEN" "gateway_api_token")
          (load_credential "api_token").
End creds.

(** * Facts *)

Section facts.
Implicit Types (s t : string).

Lemma trim_line_breaks_app s t :
  string_forallb is_line_break t = true → trim_line_breaks (s +:+ t) = trim_line_breaks s.
Proof.
  intros Ht. induction s as [|a s IH].
  - change ("" +:+ t) with t. destruct t as [|b t]; [done|]. cbn [trim_line_breaks]. by rewrite Ht.
  - change (String a s +:+ t) with (String a (s +:+ t)). cbn [trim_line_breaks string_forallb].
    by rewrite string_forallb_app, Ht, andb_true_r, IH.
Qed.

(** Nothing but final line breaks is dropped. *)
Lemma trim_line_breaks_split s :
  ∃ t, s = trim_line_breaks s +:+ t ∧ string_forallb is_line_break t = true.
Proof.
  induction s as [|a s (t & Hs & Ht)]; [by exists ""|]. cbn [trim_line_breaks].
  destruct (string_forallb is_line_break (String a s)) eqn:Hall; [by exists (String a s)|].
  exists t. split; [|done]. change (String a ?x +:+ t) with (String a (x +:+ t)). by rewrite <-Hs.
Qed.

(** The order of precedence. *)
Lemma resolve_api_token_cases env fs :
  resolve_api_token env fs =
    match load_credential env fs "gateway_api_token", env "INFERENCED_API_TOKEN" with
    | Some c, _ => Some c
    | None, Some v => Some v
    | None, None => load_credential env fs "api_token"
    end.
Proof.
  unfold resolve_api_token, resolve_secret, or_else.
  destruct (load_credential env fs "gateway_api_token"); [done|].
  by destruct (env "INFERENCED_API_TOKEN").
Qed.
End facts.
