(* ===== verification/Activation.v ===== *)
(** Socket activation: crates/inferenced-daemon/src/activation.rs. *)
From S2P Require Import Prelude Text Host.
Local Open Scope Z_scope.

Definition SD_LISTEN_FDS_START : Z := 3.

Definition SOCKET_VARLINK : string := "io.syntrop.Inference1".
Definition SOCKET_SENTRY : string := "sentry.sock".
Definition SOCKET_FD : string := "fd.sock".
Definition SOCKET_GATEWAY_UNIX : string := "gateway.sock".

(** A listener is its descriptor. *)
Inductive GatewayListener :=
  | Tcp (fd : Z)
  | Unix (fd : Z).

Record ActivatedSockets := mkActivatedSockets {
  varlink : option Z;
  sentry : option Z;
  fd_server : option Z;
  gateway : option GatewayListener;
}.

(** [ActivatedSockets::default()] *)
Definition no_sockets : ActivatedSockets := mkActivatedSockets None None None None.

(** What [getsockname] says: a Unix address with a path or without one
    (unnamed or abstract), an internet address, or another family. *)
Inductive SocketAddrAny :=
  | UnixAddr (path : option string)
  | V4
  | V6
  | OtherFamily.

(** The answers of the kernel and of tokio for a descriptor. *)
Record InheritedFds := mkInheritedFds {
  getsockname : Z → result string SocketAddrAny;
  set_nonblocking : Z → result string unit;
  from_std : Z → result string unit;
}.

(** * Was the process activated? *)

Section activation.
Context (env : Env) (process_id : Z).

Definition is_socket_activated : bool :=
  let pid_matches :=
    default false ((λ pid, pid =? process_id) <$> (env "LISTEN_PID" ≫= parse_u32)) in
  let has_fds := default false ((λ count, 0 <? count) <$> (env "LISTEN_FDS" ≫= parse_i32)) in
  pid_matches && has_fds.

(** * Which slot a socket goes to *)

Inductive SocketKind := KVarlink | KSentry | KFd | KGatewayUnix.

Definition classify_unix_socket (path : string) : option SocketKind :=
  name ← file_name path ≫= from_utf8;
  if String.eqb name SOCKET_VARLINK then Some KVarlink
  else if String.eqb name SOCKET_SENTRY then Some KSentry
  else if String.eqb name SOCKET_FD then Some KFd
  else if String.eqb name SOCKET_GATEWAY_UNIX then Some KGatewayUnix
  else if String.eqb name "io.systemd.inferenced1" then Some KVarlink
  else None.

(** The slot of an unclassified socket, by its index. *)
Definition positional_slot (i : Z) : option SocketKind :=
  if i =? 0 then Some KVarlink
  else if i =? 1 then Some KSentry
  else if i =? 2 then Some KGatewayUnix
  else if i =? 3 then Some KFd
  else None.

(** * Adoption *)

(** The state is the sockets adopted so far; the calls are the descriptors
    closed, by an explicit drop or because nothing owns them any more. *)
Definition Adopt (A : Type) : Type := eff ActivatedSockets Z string A.

Definition close_fd (fd : Z) : Adopt unit := etell [fd].

Definition gateway_fd (g : GatewayListener) : Z := match g with Tcp fd | Unix fd => fd end.

(** The descriptor in the slot of a kind. *)
Definition slot_of (k : SocketKind) (s : ActivatedSockets) : option Z :=
  match k with
  | KVarlink => varlink s
  | KSentry => sentry s
  | KFd => fd_server s
  | KGatewayUnix => gateway_fd <$> gateway s
  end.

Definition put_slot (k : SocketKind) (fd : Z) (s : ActivatedSockets) : ActivatedSockets :=
  match k with
  | KVarlink => mkActivatedSockets (Some fd) (sentry s) (fd_server s) (gateway s)
  | KSentry => mkActivatedSockets (varlink s) (Some fd) (fd_server s) (gateway s)
  | KFd => mkActivatedSockets (varlink s) (sentry s) (Some fd) (gateway s)
  | KGatewayUnix => mkActivatedSockets (varlink s) (sentry s) (fd_server s) (Some (Unix fd))
  end.
Definition put_tcp_gateway (fd : Z) (s : ActivatedSockets) : ActivatedSockets :=
  mkActivatedSockets (varlink s) (sentry s) (fd_server s) (Some (Tcp fd)).

(** [sockets.<slot> = Some(..)]: what the slot held before is dropped. *)
Definition assign (k : SocketKind) (put : ActivatedSockets → ActivatedSockets) : Adopt unit :=
  (let! s := eget in
   etell (option_list (slot_of k s)) ;!
   eput (put s))%eff.
Definition set_slot (k : SocketKind) (fd : Z) : Adopt unit := assign k (put_slot k fd).
Definition set_tcp_gateway (fd : Z) : Adopt unit := assign KGatewayUnix (put_tcp_gateway fd).

Context (ih : InheritedFds).

(** [set_nonblocking(true)?] and [from_std(..)?]: on an error the listener is
    dropped. *)
Definition make_listener (fd : Z) : Adopt unit :=
  match set_nonblocking ih fd with
  | Err e => (close_fd fd ;! ethrow e)%eff
  | Ok _ =>
      match from_std ih fd with
      | Err e => (close_fd fd ;! ethrow e)%eff
      | Ok _ => eret tt
      end
  end.

(** An unclassified socket takes the slot of its index when that is empty. *)
Definition adopt_by_index (i fd : Z) : Adopt unit :=
  match positional_slot i with
  | None => close_fd fd
  | Some k =>
      (let! s := eget in
       match slot_of k s with
       | None => set_slot k fd
       | Some _ => close_fd fd
       end)%eff
  end.

(** [SD_LISTEN_FDS_START + i], an [i32] *)
Definition fd_raw (i : Z) : Z := u32_as_i32 ((SD_LISTEN_FDS_START + i) mod u32_limit).

(** The body of the loop. *)
Definition adopt_fd (i : Z) : Adopt unit :=
  let fd := fd_raw i in
  match getsockname ih fd with
  | Err _ => close_fd fd
  | Ok (UnixAddr path) =>
      (make_listener fd ;!
       match path ≫= classify_unix_socket with
       | Some k => set_slot k fd
       | None => adopt_by_index i fd
       end)%eff
  | Ok V4 | Ok V6 => (make_listener fd ;! set_tcp_gateway fd)%eff
  | Ok OtherFamily => close_fd fd
  end.

Fixpoint adopt_fds (indices : list Z) : Adopt unit :=
  match indices with
  | [] => eret tt
  | i :: indices' => (adopt_fd i ;! adopt_fds indices')%eff
  end.

(** The listeners still held. *)
Definition held (s : ActivatedSockets) : list Z :=
  option_list (varlink s) ++ option_list (sentry s) ++ option_list (fd_server s)
  ++ option_list (gateway_fd <$> gateway s).

(** [env::var("LISTEN_FDS").unwrap_or_default().parse().unwrap_or(0)] *)
Definition listen_fds : Z := default 0 (parse_i32 (default "" (env "LISTEN_FDS"))).

(** An error on the way drops the sockets adopted so far. *)
Definition check_and_adopt_sockets : result string ActivatedSockets * list Z :=
  if negb is_socket_activated then (Ok no_sockets, [])
  else
    match adopt_fds (seqZ 0 listen_fds) no_sockets with
    | (Ok _, s, closed) => (Ok s, closed)
    | (Err e, s, closed) => (Err e, closed ++ held s)
    end.
End activation.

#[export] Instance SocketKind_eq_dec : EqDecision SocketKind.
Proof. solve_decision. Defined.

(** * A reference definition

    Which of the inherited descriptors ends in a slot, without the loop. *)
Section reference.
Context (ih : InheritedFds).

(** The slot descriptor [i] asks for by its address. *)
Definition claims (i : Z) : option SocketKind :=
  match getsockname ih (fd_raw i) with
  | Ok (UnixAddr path) => path ≫= classify_unix_socket
  | Ok V4 | Ok V6 => Some KGatewayUnix
  | _ => None
  end.

(** The slot it may take because of its index. *)
Definition fallback (i : Z) : option SocketKind :=
  match getsockname ih (fd_raw i) with
  | Ok (UnixAddr path) =>
      match path ≫= classify_unix_socket with Some _ => None | None => positional_slot i end
  | _ => None
  end.

Definition is_claim (k : SocketKind) (i : Z) : bool := bool_decide (claims i = Some k).
Definition is_fallback (k : SocketKind) (i : Z) : bool := bool_decide (fallback i = Some k).

(** The last descriptor with a claim, else the one of the right index. *)
Definition chosen (k : SocketKind) (indices : list Z) : option Z :=
  match last (List.filter (is_claim k) indices) with
  | Some i => Some i
  | None => head (List.filter (is_fallback k) indices)
  end.

Definition listener (i : Z) : GatewayListener :=
  match getsockname ih (fd_raw i) with
  | Ok V4 | Ok V6 => Tcp (fd_raw i)
  | _ => Unix (fd_raw i)
  end.

(** What the slot of a kind holds. *)
Definition slot_listener (k : SocketKind) (s : ActivatedSockets) : option GatewayListener :=
  match k with
  | KVarlink => Unix <$> varlink s
  | KSentry => Unix <$> sentry s
  | KFd => Unix <$> fd_server s
  | KGatewayUnix => gateway s
  end.

(** Where the loop puts descriptor [i] when it holds [s]. *)
Definition destination (i : Z) (s : ActivatedSockets) : option SocketKind :=
  match claims i, fallback i with
  | Some k, _ => Some k
  | None, Some k => match slot_of k s with Some _ => None | None => Some k end
  | None, None => None
  end.

(** Why the kernel or tokio does not let descriptor [i] be turned into a
    listener; a descriptor that is no socket of a known family is not tried. *)
Definition refusal (i : Z) : option string :=
  match getsockname ih (fd_raw i) with
  | Ok (UnixAddr _) | Ok V4 | Ok V6 =>
      match set_nonblocking ih (fd_raw i), from_std ih (fd_raw i) with
      | Err e, _ => Some e
      | Ok _, Err e => Some e
      | Ok _, Ok _ => None
      end
  | _ => None
  end.
End reference.

(** * Facts *)

Section facts.
Context (ih : InheritedFds).
Implicit Types (i fd : Z) (k : SocketKind) (s : ActivatedSockets).

Lemma slot_of_listener k s : slot_of k s = gateway_fd <$> slot_listener k s.
Proof. destruct k; simpl; try done; by destruct (_ s). Qed.

Lemma slot_listener_put k k' fd s :
  slot_listener k' (put_slot k fd s) = if decide (k = k') then Some (Unix fd) else slot_listener k' s.
Proof. by destruct k, k'. Qed.
Lemma slot_listener_put_tcp k' fd s :
  slot_listener k' (put_tcp_gateway fd s)
  = if decide (KGatewayUnix = k') then Some (Tcp fd) else slot_listener k' s.
Proof. by destruct k'. Qed.

Lemma held_slots s :
  held s = option_list (slot_of KVarlink s) ++ option_list (slot_of KSentry s)
           ++ option_list (slot_of KFd s) ++ option_list (slot_of KGatewayUnix s).
Proof. done. Qed.

(** Filling one slot changes what is held by that descriptor and the one
    that was there. *)
Lemma held_change k fd s s' :
  slot_of k s' = Some fd → (∀ k', k' ≠ k → slot_of k' s' = slot_of k' s) →
  held s' ++ option_list (slot_of k s) ≡ₚ fd :: held s.
Proof.
  intros Hk Hother. rewrite !held_slots.
  destruct k; rewrite Hk, !Hother by done; cbn [option_list];
    solve_Permutation.
Qed.

(** One descriptor, on the branches where nothing fails. *)
Lemma adopt_fd_usable i s :
  refusal ih i = None →
  ∃ s' closed, adopt_fd ih i s = (Ok tt, s', closed) ∧
    match destination ih i s with
    | Some k =>
        (∀ k', slot_listener k' s' =
           if decide (k = k') then Some (listener ih i) else slot_listener k' s) ∧
        closed = option_list (slot_of k s)
    | None => s' = s ∧ closed = [fd_raw i]
    end.
Proof.
  unfold refusal, adopt_fd, destination, claims, fallback, listener. intros Hfine.
  assert (Hmake : match set_nonblocking ih (fd_raw i), from_std ih (fd_raw i) with
    | Err e, _ => Some e | Ok _, Err e => Some e | Ok _, Ok _ => None end = None →
    make_listener ih (fd_raw i) s = (Ok tt, s, [])).
  { unfold make_listener. destruct (set_nonblocking ih _); [|done]. by destruct (from_std ih _) as [[]|]. }
  destruct (getsockname ih (fd_raw i)) as [[path| | |]|e].
  - rewrite (ebind_silent _ _ _ _ _ (Hmake Hfine)). destruct (path ≫= classify_unix_socket) as [k|].
    + eexists _, _. split; [reflexivity|]. split; [intros k'; apply slot_listener_put|].
      simpl. by rewrite app_nil_r.
    + unfold adopt_by_index. destruct (positional_slot i) as [k|]; [|by eexists _, _].
      unfold ebind at 1. cbn [eget]. destruct (slot_of k s) as [old|] eqn:Hk; [by eexists _, _|].
      eexists _, _. split; [reflexivity|]. split; [intros k'; apply slot_listener_put|].
      by rewrite Hk.
  - rewrite (ebind_silent _ _ _ _ _ (Hmake Hfine)). eexists _, _. split; [reflexivity|].
    split; [intros k'; apply slot_listener_put_tcp|]. simpl. by rewrite app_nil_r.
  - rewrite (ebind_silent _ _ _ _ _ (Hmake Hfine)). eexists _, _. split; [reflexivity|].
    split; [intros k'; apply slot_listener_put_tcp|]. simpl. by rewrite app_nil_r.
  - by eexists _, _.
  - by eexists _, _.
Qed.

Lemma listener_fd i : gateway_fd (listener ih i) = fd_raw i.
Proof. unfold listener. by destruct (getsockname ih _) as [[]|]. Qed.

(** Filling a slot: nothing is lost. *)
Lemma assign_owned k put fd s r s' closed :
  slot_of k (put s) = Some fd → (∀ k', k' ≠ k → slot_of k' (put s) = slot_of k' s) →
  assign k put s = (r, s', closed) → held s' ++ closed ≡ₚ fd :: held s.
Proof.
  intros Hk Hother [= <- <- <-]. cbn [app]. rewrite app_nil_r. by apply held_change.
Qed.

Lemma set_slot_owned k fd s r s' closed :
  set_slot k fd s = (r, s', closed) → held s' ++ closed ≡ₚ fd :: held s.
Proof.
  apply assign_owned.
  - by destruct k.
  - intros k' Hne. by destruct k, k'.
Qed.

Lemma set_tcp_gateway_owned fd s r s' closed :
  set_tcp_gateway fd s = (r, s', closed) → held s' ++ closed ≡ₚ fd :: held s.
Proof. apply assign_owned; [done|]. intros k' Hne. by destruct k'. Qed.

Lemma close_owned fd s r s' closed :
  close_fd fd s = (r, s', closed) → held s' ++ closed ≡ₚ fd :: held s.
Proof. intros [= <- <- <-]. solve_Permutation. Qed.

Lemma adopt_by_index_owned i fd s r s' closed :
  adopt_by_index i fd s = (r, s', closed) → held s' ++ closed ≡ₚ fd :: held s.
Proof.
  unfold adopt_by_index. destruct (positional_slot i) as [k|]; [|apply close_owned].
  rewrite (ebind_silent eget _ s s s) by done.
  destruct (slot_of k s); [apply close_owned|apply set_slot_owned].
Qed.

(** A listener is made, or its descriptor is closed and the loop ends. *)
Lemma make_listener_cases fd s :
  make_listener ih fd s = (Ok tt, s, []) ∨ ∃ e, make_listener ih fd s = (Err e, s, [fd]).
Proof.
  unfold make_listener. destruct (set_nonblocking ih fd) as [|e]; [|right; by exists e].
  destruct (from_std ih fd) as [[]|e]; [by left|right; by exists e].
Qed.

Lemma after_listener_owned fd (m : Adopt unit) s r s' closed :
  (∀ r s' closed, m s = (r, s', closed) → held s' ++ closed ≡ₚ fd :: held s) →
  (make_listener ih fd ;! m)%eff s = (r, s', closed) → held s' ++ closed ≡ₚ fd :: held s.
Proof.
  intros Hm. destruct (make_listener_cases fd s) as [Hmake|[e Hmake]].
  - rewrite (ebind_silent _ _ _ _ _ Hmake). apply Hm.
  - rewrite (ebind_Err _ _ _ _ _ _ Hmake). intros [= <- <- <-]. solve_Permutation.
Qed.

(** No descriptor is lost and none is closed twice. *)
Lemma adopt_fd_owned i s r s' closed :
  adopt_fd ih i s = (r, s', closed) → held s' ++ closed ≡ₚ fd_raw i :: held s.
Proof.
  unfold adopt_fd. destruct (getsockname ih (fd_raw i)) as [[path| | |]|e].
  - apply after_listener_owned. intros ???.
    destruct (path ≫= classify_unix_socket); [apply set_slot_owned|apply adopt_by_index_owned].
  - apply after_listener_owned. intros ???. apply set_tcp_gateway_owned.
  - apply after_listener_owned. intros ???. apply set_tcp_gateway_owned.
  - apply close_owned.
  - apply close_owned.
Qed.

(** A descriptor that cannot be turned into a listener ends the loop. *)
Lemma adopt_fd_refused i s e :
  refusal ih i = Some e → adopt_fd ih i s = (Err e, s, [fd_raw i]).
Proof.
  unfold refusal, adopt_fd. intros Hbad.
  destruct (getsockname ih (fd_raw i)) as [[path| | |]|]; try done.
  all: rewrite (ebind_Err _ _ _ e s [fd_raw i]); [done|]; unfold make_listener.
  all: destruct (set_nonblocking ih (fd_raw i)); [|by simplify_eq].
  all: destruct (from_std ih (fd_raw i)); [done|by simplify_eq].
Qed.

(** The descriptors from the first that breaks on are not looked at. *)
Lemma first_refusal indices :
  Forall (λ i, refusal ih i = None) indices ∨
  ∃ before i after e, indices = before ++ i :: after ∧
    Forall (λ i, refusal ih i = None) before ∧ refusal ih i = Some e.
Proof.
  induction indices as [|i indices IH]; [by left|].
  destruct (refusal ih i) as [e|] eqn:Hi; [right; exists [], i, indices, e; done|].
  destruct IH as [IH|(before & j & after & e & -> & Hb & Hj)]; [left; by constructor|right].
  exists (i :: before), j, after, e. split_and!; [done|by constructor|done].
Qed.

Lemma adopt_fds_owned indices s s' closed :
  adopt_fds ih indices s = (Ok tt, s', closed) →
  held s' ++ closed ≡ₚ (fd_raw <$> indices) ++ held s.
Proof.
  revert s s' closed. induction indices as [|i indices IH]; intros s s' closed.
  { intros [= <- <-]. by rewrite app_nil_r. }
  cbn [adopt_fds]. destruct (adopt_fd ih i s) as [[[[]|e] s1] c1] eqn:Hi;
    [|rewrite (ebind_Err _ _ _ _ _ _ Hi); done].
  pose proof (adopt_fd_owned _ _ _ _ _ Hi) as H1.
  rewrite (ebind_Ok _ _ _ _ _ _ Hi). destruct (adopt_fds ih indices s1) as [[r2 s2] c2] eqn:H2.
  intros [= -> <- <-]. specialize (IH _ _ _ H2). rewrite fmap_cons.
  transitivity ((held s2 ++ c2) ++ c1); [solve_Permutation|]. rewrite IH.
  transitivity ((fd_raw <$> indices) ++ (held s1 ++ c1)); [solve_Permutation|].
  rewrite H1. solve_Permutation.
Qed.

Lemma adopt_fds_app xs ys s s' closed :
  adopt_fds ih xs s = (Ok tt, s', closed) →
  adopt_fds ih (xs ++ ys) s =
    let '(r, s'', closed') := adopt_fds ih ys s' in (r, s'', closed ++ closed').
Proof.
  revert s closed. induction xs as [|i xs IH]; intros s closed.
  { intros [= <- <-]. simpl. by destruct (adopt_fds ih ys s) as [[? ?] ?]. }
  cbn [adopt_fds app]. destruct (adopt_fd ih i s) as [[[[]|e] s1] c1] eqn:Hi;
    [|rewrite (ebind_Err _ _ _ _ _ _ Hi); done].
  rewrite !(ebind_Ok _ _ _ _ _ _ Hi). destruct (adopt_fds ih xs s1) as [[r2 s2] c2] eqn:H2.
  intros [= -> -> <-]. rewrite (IH _ _ H2). destruct (adopt_fds ih ys s') as [[? ?] ?].
  by rewrite app_assoc.
Qed.

(** ** The slots *)

Lemma chosen_snoc k indices i :
  chosen ih k (indices ++ [i]) =
    if is_claim ih k i then Some i
    else match chosen ih k indices with
         | Some j => Some j
         | None => if is_fallback ih k i then Some i else None
         end.
Proof.
  unfold chosen. rewrite !List.filter_app. cbn [List.filter].
  destruct (is_claim ih k i); [by rewrite last_snoc|]. rewrite app_nil_r.
  destruct (last _); [done|]. destruct (List.filter (is_fallback ih k) indices); simpl.
  - by destruct (is_fallback ih k i).
  - done.
Qed.

Lemma adopt_fd_chosen i s indices :
  refusal ih i = None → (∀ k, slot_listener k s = listener ih <$> chosen ih k indices) →
  ∃ s' closed, adopt_fd ih i s = (Ok tt, s', closed) ∧
    ∀ k, slot_listener k s' = listener ih <$> chosen ih k (indices ++ [i]).
Proof.
  intros Hi Hs. destruct (adopt_fd_usable i s Hi) as (s' & closed & Heq & Hspec).
  exists s', closed. split; [done|]. intros k'. rewrite chosen_snoc.
  unfold is_claim, is_fallback. unfold destination in Hspec.
  destruct (claims ih i) as [k|] eqn:Hclaim.
  - destruct Hspec as [-> _]. destruct (decide (k = k')) as [->|Hne].
    + by rewrite bool_decide_true.
    + rewrite bool_decide_false by congruence. rewrite Hs.
      assert (fallback ih i = None) as ->.
      { unfold claims, fallback in *. destruct (getsockname ih _) as [[]|]; try done.
        by rewrite Hclaim. }
      rewrite (bool_decide_false (None = _)) by done. by destruct (chosen ih k' indices).
  - rewrite (bool_decide_false (None = _)) by done.
    destruct (fallback ih i) as [k|] eqn:Hback.
    + rewrite slot_of_listener, Hs in Hspec. destruct (chosen ih k indices) as [j|] eqn:Hj.
      * destruct Hspec as [-> _]. rewrite Hs. destruct (decide (k = k')) as [<-|Hne].
        { by rewrite Hj. }
        rewrite (bool_decide_false (Some k = _)) by congruence. by destruct (chosen ih k' indices).
      * destruct Hspec as [-> _]. destruct (decide (k = k')) as [<-|Hne].
        { by rewrite Hj, bool_decide_true. }
        rewrite (bool_decide_false (Some k = _)), Hs by congruence.
        by destruct (chosen ih k' indices).
    + destruct Hspec as [-> _]. rewrite (bool_decide_false (None = _)), Hs by done.
      by destruct (chosen ih k' indices).
Qed.

Lemma adopt_fds_chosen todo indices s :
  Forall (λ i, refusal ih i = None) todo → (∀ k, slot_listener k s = listener ih <$> chosen ih k indices) →
  ∃ s' closed, adopt_fds ih todo s = (Ok tt, s', closed) ∧
    ∀ k, slot_listener k s' = listener ih <$> chosen ih k (indices ++ todo).
Proof.
  revert indices s. induction todo as [|i todo IH]; intros indices s Hall Hs.
  { exists s, []. split; [done|]. by rewrite app_nil_r. }
  apply Forall_cons_1 in Hall as [Hi Hall].
  destruct (adopt_fd_chosen i s indices Hi Hs) as (s1 & c1 & Heq1 & Hs1).
  destruct (IH _ _ Hall Hs1) as (s2 & c2 & Heq2 & Hs2).
  exists s2, (c1 ++ c2). cbn [adopt_fds]. rewrite (ebind_Ok _ _ _ _ _ _ Heq1), Heq2.
  split; [done|]. intros k. by rewrite Hs2, <-app_assoc.
Qed.

(** The numbers of the descriptors are distinct, also when the [i32] wraps. *)
Lemma fd_raw_inj i j :
  0 ≤ i < 2 ^ 31 → 0 ≤ j < 2 ^ 31 → fd_raw i = fd_raw j → i = j.
Proof.
  unfold fd_raw, SD_LISTEN_FDS_START, u32_as_i32, u32_limit. intros Hi Hj.
  rewrite !Z.mod_small by lia. repeat case_match; lia.
Qed.

Lemma fd_raw_small i : 0 ≤ i < 2 ^ 31 - 3 → fd_raw i = 3 + i.
Proof.
  unfold fd_raw, SD_LISTEN_FDS_START, u32_as_i32, u32_limit. intros Hi.
  rewrite Z.mod_small by lia. case_match; lia.
Qed.
End facts.

(** * The contract *)

(** The indices of the descriptors the service manager passed. *)
Definition inherited (env : Env) (process_id : Z) : list Z :=
  if is_socket_activated env process_id then seqZ 0 (listen_fds env) else [].

(** C29: Socket activation: adoption fails exactly when some inherited socket
    cannot be turned into a listener. When it succeeds no descriptor is lost and
    none closed twice, and each slot holds exactly what the reference definition
    [chosen] says: the last socket that asks for it by its name or family, else
    the Unix socket at the slot's position, when its name is none of the known
    ones or it has none. When it fails, it is with the error of the first socket that
    cannot be turned into a listener, and that one and all before it are closed,
    each once; those after it have not been touched. *)
Theorem adoption_exact env process_id ih :
  let '(r, closed) := check_and_adopt_sockets env process_id ih in
  let indices := inherited env process_id in
  match r with
  | Ok s =>
      Forall (λ i, refusal ih i = None) indices ∧ held s ++ closed ≡ₚ fd_raw <$> indices ∧
      ∀ k, slot_listener k s = listener ih <$> chosen ih k indices
  | Err e =>
      ∃ before i after, indices = before ++ i :: after ∧
        Forall (λ i, refusal ih i = None) before ∧ refusal ih i = Some e ∧
        closed ≡ₚ fd_raw <$> before ++ [i]
  end.
Proof.
  unfold check_and_adopt_sockets, inherited. destruct (is_socket_activated env process_id).
  2:{ simpl. split_and!; [constructor|done|]. by intros []. }
  simpl negb. cbn match. set (indices := seqZ 0 (listen_fds env)).
  destruct (first_refusal ih indices) as [Hall|(before & i & after & e & Heq & Hb & Hi)].
  - destruct (adopt_fds_chosen ih indices [] no_sockets Hall) as (s & closed & Hrun & Hs); [by intros []|].
    rewrite Hrun. split_and!; [done| |done].
    rewrite (adopt_fds_owned ih _ _ _ _ Hrun). by rewrite app_nil_r.
  - destruct (adopt_fds_chosen ih before [] no_sockets Hb) as (s & closed & Hrun & _); [by intros []|].
    rewrite Heq, (adopt_fds_app ih _ _ _ _ _ Hrun). cbn [adopt_fds].
    rewrite (ebind_Err _ _ _ _ _ _ (adopt_fd_refused ih i s e Hi)).
    exists before, i, after. split_and!; [done..|]. rewrite fmap_app.
    pose proof (adopt_fds_owned ih _ _ _ _ Hrun) as Hown. rewrite app_nil_r in Hown.
    rewrite <-Hown. cbn [fmap list_fmap]. solve_Permutation.
Qed.

(** * A run *)

Definition env0 : Env := λ v,
  if String.eqb v "LISTEN_PID" then Some "42"
  else if String.eqb v "LISTEN_FDS" then Some "5" else None.

(** Out of order: the descriptor socket, a misnamed one, an internet one, one
    whose name cannot be asked for, the Varlink socket. *)
Definition ih0 : InheritedFds := {|
  getsockname fd :=
    if fd =? 3 then Ok (UnixAddr (Some "/run/syntrop/fd.sock"))
    else if fd =? 4 then Ok (UnixAddr (Some "/run/syntrop/other.sock"))
    else if fd =? 5 then Ok V4
    else if fd =? 7 then Ok (UnixAddr (Some "/run/syntrop/io.syntrop.Inference1"))
    else Err "EBADF";
  set_nonblocking _ := Ok tt;
  from_std _ := Ok tt |}.

Example adoption_run :
  check_and_adopt_sockets env0 42 ih0
  = (Ok (mkActivatedSockets (Some 7) (Some 4) (Some 3) (Some (Tcp 5))), [6]).
Proof. reflexivity. Qed.

(** A socket whose name nobody knows is adopted all the same. *)
Example misnamed_socket_adopted :
  classify_unix_socket "/run/syntrop/other.sock" = None ∧
  sentry <$> result_ok (check_and_adopt_sockets env0 42 ih0).1 = Some (Some 4).
Proof. split; reflexivity. Qed.

(** The third socket cannot be made non-blocking. *)
Definition ih1 : InheritedFds := {|
  getsockname := getsockname ih0;
  set_nonblocking fd := if fd =? 5 then Err "EBADF" else Ok tt;
  from_std _ := Ok tt |}.

Example adoption_fails : check_and_adopt_sockets env0 42 ih1 = (Err "EBADF", [5; 4; 3]).
Proof. reflexivity. Qed.
