(* ===== verification/Inhibit.v ===== *)
(** Keeping the host awake while leases are active:
    crates/inferenced-daemon/src/inhibit.rs, and the monitor of main.rs that
    drives it. *)
From S2P Require Import Prelude Text Host Lease Arbiter Notify.
Local Open Scope Z_scope.

(** A child is its process id, a file lock its path, a bus connection the
    path of the socket. *)
Inductive InhibitHandle :=
  | SystemdInhibit (child : Z)
  | FileLock (path : string)
  | BusSocket (path : string).

Inductive InhibitMode := MSystemdInhibit | MStandaloneFileLock | MUnixBusSocket.

Record InhibitorManager := mkInhibitorManager {
  active_leases : Z;
  is_inhibited : bool;
  active_handle : option InhibitHandle;
  lock_path : string;
  bus_socket_path : option string;
  prefer_standalone : bool;
}.

Definition with_options (lock_path : string) (prefer_standalone : bool) : InhibitorManager :=
  mkInhibitorManager 0 false None lock_path None prefer_standalone.
Definition with_lock_path (path : string) : InhibitorManager := with_options path false.
Definition with_bus_socket (socket_path : string) (m : InhibitorManager) : InhibitorManager :=
  mkInhibitorManager (active_leases m) (is_inhibited m) (active_handle m) (lock_path m)
    (Some socket_path) (prefer_standalone m).

(** [create_dir_all] is the outcome for [/run/systemd-inferenced], the only
    one the choice depends on. *)
Definition default_lock_path (fs : Fs) (env : Env) (create_dir_all : result string unit)
    (temp_dir : string) : string :=
  let run_dir := "/run/systemd-inferenced" in
  if fs_exists fs run_dir || is_ok create_dir_all then join_path run_dir "inhibit.lock"
  else match env "XDG_RUNTIME_DIR" with
       | Some rt => join_path (join_path rt "systemd-inferenced") "inhibit.lock"
       | None => join_path temp_dir "systemd-inferenced-inhibit.lock"
       end.

Definition active_mode (m : InhibitorManager) : option InhibitMode :=
  (λ h, match h with
        | SystemdInhibit _ => MSystemdInhibit
        | FileLock _ => MStandaloneFileLock
        | BusSocket _ => MUnixBusSocket
        end) <$> active_handle m.

(** What the manager does to the outside. *)
Inductive InhibitEvent :=
  | Spawned (child : Z) (args : list string)
  | KilledAndReaped (child : Z)
  | Locked (path : string)
  | WroteLock (path text : string)
  | UnlockedAndRemoved (path : string)
  | Connected (path : string)
  | WroteBus (text : string)
  | Disconnected.

(** What the outside answers to the [n]-th attempt to inhibit sleep. *)
Record InhibitWorld := mkInhibitWorld {
  iw_spawn : nat → result string Z;
  iw_open : nat → result string unit;
  iw_flock : nat → result string unit;
  iw_connect : nat → string → result string unit;
  iw_exists : nat → string → bool;
  iw_env : Env;
  iw_process_id : Z;
}.

Record Inhibitor := mkInhibitor { manager : InhibitorManager; attempts : nat }.

Definition systemd_inhibit_args : list string :=
  ["--what=sleep:idle"; "--who=systemd-inferenced";
   "--why=Active AI model inference lease executing"; "--mode=delay"; "sleep"; "infinity"].

Section inhibit.
Context (w : InhibitWorld).

(** Nothing in it fails. *)
Definition Inh (A : Type) : Type := eff Inhibitor InhibitEvent Empty_set A.

Definition set_leases (n : Z) (m : InhibitorManager) : InhibitorManager :=
  mkInhibitorManager n (is_inhibited m) (active_handle m) (lock_path m) (bus_socket_path m)
    (prefer_standalone m).
(** [*lock = h] and [is_inhibited.store(b)] *)
Definition set_handle (h : option InhibitHandle) (b : bool) (m : InhibitorManager) :
    InhibitorManager :=
  mkInhibitorManager (active_leases m) b h (lock_path m) (bus_socket_path m) (prefer_standalone m).

Definition update (f : InhibitorManager → InhibitorManager) : Inh unit :=
  emodify (λ i, mkInhibitor (f (manager i)) (attempts i)).
Definition hold (h : InhibitHandle) : Inh unit := update (set_handle (Some h) true).
Definition get_manager : Inh InhibitorManager := (let! i := eget in eret (manager i))%eff.

(** The failure to create the parent directory is ignored; it shows in the
    answer to [open]. *)
Definition acquire_standalone_fd_lock (n : nat) : Inh bool :=
  (let! m := get_manager in
   match iw_open w n with
   | Err _ => eret false
   | Ok _ =>
       match iw_flock w n with
       | Err _ => eret false
       | Ok _ =>
           etell [Locked (lock_path m);
                  WroteLock (lock_path m)
                    (line ("pid=" +:+ pretty (iw_process_id w)) +:+ line "state=inhibited"
                     +:+ line ("leases=" +:+ pretty (active_leases m)) +:+ line "")] ;!
           hold (FileLock (lock_path m)) ;!
           eret true
       end
   end)%eff.

Definition bus_path (n : nat) (m : InhibitorManager) : option string :=
  match bus_socket_path m with
  | Some p => Some p
  | None =>
      match iw_env w "INHIBIT_SOCKET" with
      | Some p => Some p
      | None =>
          let p := "/run/systemd/inhibit.sock" in
          if iw_exists w n p then Some p else None
      end
  end.

Definition acquire_unix_bus_socket (n : nat) : Inh unit :=
  (let! m := get_manager in
   match bus_path n m with
   | None => eret tt
   | Some path =>
       match iw_connect w n path with
       | Err _ => eret tt
       | Ok _ =>
           etell [Connected path;
                  WroteBus (line ("INHIBIT:sleep:idle pid=" +:+ pretty (iw_process_id w)
                                  +:+ " leases=" +:+ pretty (active_leases m)))] ;!
           hold (BusSocket path)
       end
   end)%eff.

Definition fall_back (n : nat) : Inh unit :=
  (let! locked := acquire_standalone_fd_lock n in
   if locked : bool then eret tt else acquire_unix_bus_socket n)%eff.

(** [systemd-inhibit] first, unless told otherwise. *)
Definition try_mechanisms (n : nat) : Inh unit :=
  (let! m := get_manager in
   if negb (prefer_standalone m) then
     match iw_spawn w n with
     | Ok child => etell [Spawned child systemd_inhibit_args] ;! hold (SystemdInhibit child)
     | Err _ => fall_back n
     end
   else fall_back n)%eff.

Definition next_attempt : Inh nat :=
  λ i, (Ok (attempts i), mkInhibitor (manager i) (S (attempts i)), []).

Definition acquire_inhibit_lock : Inh unit :=
  (let! m := get_manager in
   match active_handle m with
   | Some _ => eret tt
   | None => let! n := next_attempt in try_mechanisms n
   end)%eff.

(** Failures to kill, unlock, remove or write are ignored. *)
Definition let_go (h : InhibitHandle) : list InhibitEvent :=
  match h with
  | SystemdInhibit child => [KilledAndReaped child]
  | FileLock path => [UnlockedAndRemoved path]
  | BusSocket _ => [WroteBus (line "RELEASE"); Disconnected]
  end.

Definition release_inhibit_lock : Inh unit :=
  (let! m := get_manager in
   match active_handle m with
   | Some h => etell (let_go h) ;! update (set_handle None false)
   | None => eret tt
   end)%eff.

Definition on_lease_acquired : Inh unit :=
  (let! m := get_manager in
   update (set_leases (wrapping_add (active_leases m) 1)) ;!
   if active_leases m =? 0 then acquire_inhibit_lock else eret tt)%eff.

Definition on_lease_released : Inh unit :=
  (let! m := get_manager in
   update (set_leases (wrapping_sub (active_leases m) 1)) ;!
   if active_leases m =? 1 then release_inhibit_lock else eret tt)%eff.

(** * The monitor of main.rs *)

(** [for _ in 0..n { m }] *)
Fixpoint times (n : nat) (m : Inh unit) : Inh unit :=
  match n with O => eret tt | S n' => (m ;! times n' m)%eff end.

Definition active_count {ho : HashOrder LeaseId ComputeLease} (s : ArbiterState) : nat :=
  length (List.filter is_active (list_leases s)).

(** One tick, from the count of the tick before to that of this one. *)
Definition monitor_tick (prev_count count : nat) : Inh unit :=
  if (prev_count <? count)%nat then times (count - prev_count) on_lease_acquired
  else if (count <? prev_count)%nat then times (prev_count - count) on_lease_released
  else eret tt.

Fixpoint monitor (prev_count : nat) (counts : list nat) : Inh unit :=
  match counts with
  | [] => eret tt
  | count :: counts' => (monitor_tick prev_count count ;! monitor count counts')%eff
  end.
End inhibit.

(** * Facts *)

(** ** What is held, told from the outside *)

(** The handle after one event; nothing is acquired while something is held,
    and only what is held is given back. *)
Definition replay1 (h : option InhibitHandle) (e : InhibitEvent) : option (option InhibitHandle) :=
  match e, h with
  | Spawned c _, None => Some (Some (SystemdInhibit c))
  | KilledAndReaped c, Some (SystemdInhibit c') => if c =? c' then Some None else None
  | Locked p, None => Some (Some (FileLock p))
  | UnlockedAndRemoved p, Some (FileLock p') => if String.eqb p p' then Some None else None
  | Connected p, None => Some (Some (BusSocket p))
  | Disconnected, Some (BusSocket _) => Some None
  | (WroteLock _ _ | WroteBus _), h => Some h
  | _, _ => None
  end.
Fixpoint replay (h : option InhibitHandle) (evs : list InhibitEvent) :
    option (option InhibitHandle) :=
  match evs with
  | [] => Some h
  | e :: evs' => h' ← replay1 h e; replay h' evs'
  end.

Definition holds (i : Inhibitor) : bool :=
  match active_handle (manager i) with Some _ => true | None => false end.

(** Some mechanism works at attempt [n]. *)
Definition can_inhibit (w : InhibitWorld) (m : InhibitorManager) (n : nat) : bool :=
  (negb (prefer_standalone m) && is_ok (iw_spawn w n))
  || (is_ok (iw_open w n) && is_ok (iw_flock w n))
  || match bus_path w n m with Some p => is_ok (iw_connect w n p) | None => false end.

(** The manager after [c] leases are known to be active. *)
Definition follows (c : nat) (i : Inhibitor) : Prop :=
  active_leases (manager i) = Z.of_nat c ∧ is_inhibited (manager i) = holds i ∧
  (c = 0%nat → active_handle (manager i) = None).

(** The options do not change. *)
Definition same_options (m m' : InhibitorManager) : Prop :=
  lock_path m' = lock_path m ∧ bus_socket_path m' = bus_socket_path m ∧
  prefer_standalone m' = prefer_standalone m.

#[export] Instance same_options_trans : Transitive same_options.
Proof. intros m1 m2 m3 (?&?&?) (?&?&?). unfold same_options. split_and!; congruence. Qed.
#[export] Instance same_options_refl : Reflexive same_options.
Proof. by intros m. Qed.

Section facts.
Context (w : InhibitWorld).
Implicit Types (i : Inhibitor) (m : InhibitorManager).

Lemma replay_app h evs evs' :
  replay h (evs ++ evs') = h' ← replay h evs; replay h' evs'.
Proof.
  revert h. induction evs as [|e evs IH]; intros h; [done|]. simpl.
  destruct (replay1 h e); simpl; [apply IH|done].
Qed.

Lemma can_inhibit_options m m' n : same_options m m' → can_inhibit w m' n = can_inhibit w m n.
Proof. intros (_ & Hb & Hp). unfold can_inhibit, bus_path. by rewrite Hb, Hp. Qed.

(** [m] comes to an end, keeps the options and is honest about what it holds. *)
Definition tells (a : Inh unit) (i i' : Inhibitor) : Prop :=
  ∃ evs, a i = (Ok tt, i', evs) ∧ same_options (manager i) (manager i') ∧
    replay (active_handle (manager i)) evs = Some (active_handle (manager i')).

Lemma tells_ret i : tells (eret tt) i i.
Proof. by exists []. Qed.

Lemma tells_bind (a b : Inh unit) i1 i2 i3 :
  tells a i1 i2 → tells b i2 i3 → tells (a ;! b)%eff i1 i3.
Proof.
  intros (e1 & Heq1 & Ho1 & Hr1) (e2 & Heq2 & Ho2 & Hr2). exists (e1 ++ e2).
  rewrite (ebind_Ok _ _ _ _ _ _ Heq1), Heq2. split_and!; [done|by etrans|].
  by rewrite replay_app, Hr1.
Qed.

Lemma get_manager_eq i : get_manager i = (Ok (manager i), i, []).
Proof. done. Qed.
Lemma next_attempt_eq i :
  next_attempt i = (Ok (attempts i), mkInhibitor (manager i) (S (attempts i)), []).
Proof. done. Qed.

(** The two fall-backs, for a manager that holds nothing. *)
Lemma fall_back_spec n k m :
  active_handle m = None → is_inhibited m = false →
  ∃ m', tells (fall_back w n) (mkInhibitor m k) (mkInhibitor m' k) ∧
    active_leases m' = active_leases m ∧
    is_inhibited m' = holds (mkInhibitor m' k) ∧
    holds (mkInhibitor m' k) =
      (is_ok (iw_open w n) && is_ok (iw_flock w n))
      || match bus_path w n m with Some p => is_ok (iw_connect w n p) | None => false end.
Proof.
  destruct m as [l b h lp bp pr]. cbn [active_handle is_inhibited]. intros -> ->.
  unfold tells, fall_back, acquire_standalone_fd_lock, acquire_unix_bus_socket, holds.
  unfold ebind, get_manager. cbn -[bus_path replay pretty line].
  destruct (iw_open w n), (iw_flock w n); cbn -[bus_path replay pretty line];
    try (destruct (bus_path w n _) as [p|]; [destruct (iw_connect w n p)|]);
    cbn -[bus_path replay pretty line];
    (eexists; split; [eexists; split; [reflexivity|done]|done]).
Qed.

Lemma try_mechanisms_spec n k m :
  active_handle m = None → is_inhibited m = false →
  ∃ m', tells (try_mechanisms w n) (mkInhibitor m k) (mkInhibitor m' k) ∧
    active_leases m' = active_leases m ∧
    is_inhibited m' = holds (mkInhibitor m' k) ∧
    holds (mkInhibitor m' k) = can_inhibit w m n.
Proof.
  intros Hh Hb. destruct (fall_back_spec n k m Hh Hb) as (m' & (evs & Heq & Htells) & Hspec).
  unfold tells, try_mechanisms, can_inhibit. rewrite (ebind_silent _ _ _ _ _ (get_manager_eq _)). cbn [manager].
  destruct (negb (prefer_standalone m)); [|exists m'; split; [by exists evs|done]].
  destruct (iw_spawn w n) as [child|e]; [|exists m'; split; [by exists evs|done]].
  destruct m as [l b h lp bp pr]. cbn in Hh, Hb. subst.
  eexists. split; [eexists; split; [reflexivity|done]|done].
Qed.

(** Acquiring: the count stays, and afterwards something is held if it was
    before or if some mechanism works at this attempt. *)
Lemma acquire_inhibit_lock_spec i :
  is_inhibited (manager i) = holds i →
  ∃ i', tells (acquire_inhibit_lock w) i i' ∧
    active_leases (manager i') = active_leases (manager i) ∧
    is_inhibited (manager i') = holds i' ∧
    holds i' = holds i || can_inhibit w (manager i) (attempts i).
Proof.
  destruct i as [m n]. intros Hflag. unfold acquire_inhibit_lock, tells.
  rewrite (ebind_silent _ _ _ _ _ (get_manager_eq _)). cbn [manager].
  assert (Hi : holds (mkInhibitor m n) = match active_handle m with Some _ => true | None => false end)
    by done.
  rewrite Hi in *. cbn [manager attempts] in *. destruct (active_handle m) as [h|] eqn:Hh.
  - exists (mkInhibitor m n). unfold holds. cbn [manager]. rewrite Hh.
    split_and!; try done. by exists [].
  - destruct (try_mechanisms_spec n (S n) m Hh Hflag) as (m' & Htells & Hspec).
    exists (mkInhibitor m' (S n)). split; [|done].
    rewrite (ebind_silent _ _ _ _ _ (next_attempt_eq _)). unfold tells in Htells.
    cbn [manager attempts] in *. by rewrite Hh in Htells.
Qed.

(** ** Counting *)

Lemma on_lease_acquired_spec c i :
  follows c i → Z.of_nat (S c) < u64_limit →
  ∃ i', tells (on_lease_acquired w) i i' ∧ follows (S c) i' ∧
    holds i' = if (c =? 0)%nat then can_inhibit w (manager i) (attempts i) else holds i.
Proof.
  intros (Hc & Hflag & Hnone) Hlim. unfold on_lease_acquired, tells.
  rewrite (ebind_silent _ _ _ _ _ (get_manager_eq _)).
  set (i1 := mkInhibitor (set_leases (wrapping_add (active_leases (manager i)) 1) (manager i))
               (attempts i)).
  assert (Hup : update (set_leases (wrapping_add (active_leases (manager i)) 1)) i = (Ok tt, i1, []))
    by done.
  rewrite (ebind_silent _ _ _ _ _ Hup).
  assert (Hc1 : active_leases (manager i1) = Z.of_nat (S c)).
  { cbn. rewrite Hc, wrapping_add_exact by lia. lia. }
  rewrite Hc. destruct c as [|c]; cbn [Nat.eqb].
  - destruct (acquire_inhibit_lock_spec i1 Hflag) as (i2 & Htells & Hc2 & Hflag2 & Hh2).
    exists i2. split; [exact Htells|]. split.
    + split_and!; [by rewrite Hc2|done|done].
    + rewrite Hh2. unfold holds. cbn [manager i1 set_leases active_handle].
      by rewrite Hnone.
  - rewrite (proj2 (Z.eqb_neq _ _)) by lia.
    exists i1. split; [by exists []|]. by split_and!.
Qed.

Lemma on_lease_released_spec c i :
  follows (S c) i → Z.of_nat (S c) < u64_limit →
  ∃ i', tells on_lease_released i i' ∧ follows c i' ∧ (c ≠ 0%nat → holds i' = holds i).
Proof.
  intros (Hc & Hflag & _) Hlim. unfold on_lease_released, tells.
  rewrite (ebind_silent _ _ _ _ _ (get_manager_eq _)).
  set (i1 := mkInhibitor (set_leases (wrapping_sub (active_leases (manager i)) 1) (manager i))
               (attempts i)).
  assert (Hup : update (set_leases (wrapping_sub (active_leases (manager i)) 1)) i = (Ok tt, i1, []))
    by done.
  rewrite (ebind_silent _ _ _ _ _ Hup).
  assert (Hc1 : active_leases (manager i1) = Z.of_nat c).
  { cbn. rewrite Hc. unfold wrapping_sub. rewrite Z.mod_small by lia. lia. }
  rewrite Hc. destruct c as [|c].
  - change (Z.of_nat 1 =? 1) with true. cbn match. unfold release_inhibit_lock.
    rewrite (ebind_silent _ _ _ _ _ (get_manager_eq _)). cbn [manager i1 set_leases active_handle].
    destruct (active_handle (manager i)) as [h|] eqn:Hh.
    + eexists. split; [eexists; split; [reflexivity|]|].
      * split; [done|]. destruct h; cbn; by rewrite ?Z.eqb_refl, ?String.eqb_refl.
      * split; [|done]. by split_and!.
    + exists i1. split; [exists []; split_and!; try done|].
      * cbn. by rewrite Hh.
      * split; [|done]. split_and!; [done|done|]. by intros _.
  - rewrite (proj2 (Z.eqb_neq _ _)) by lia.
    exists i1. split; [by exists []|]. by split_and!.
Qed.

(** One step of the count, up or down. *)
Lemma acquired_step c i :
  follows c i → Z.of_nat (S c) < u64_limit →
  ∃ i', tells (on_lease_acquired w) i i' ∧ follows (S c) i' ∧
    (c ≠ 0%nat → holds i' = holds i) ∧
    (c = 0%nat → holds i' = can_inhibit w (manager i) (attempts i)).
Proof.
  intros Hi Hlim. destruct (on_lease_acquired_spec c i Hi Hlim) as (i' & Ht & Hf & Hh).
  exists i'. split_and!; [done|done|..]; intros Hc; rewrite Hh; by destruct c.
Qed.
End facts.

(** ** The monitor *)

Section monitor.
Context (w : InhibitWorld) (m0 : InhibitorManager).
Implicit Types (i : Inhibitor).

(** What holds after every tick with [c] active leases. *)
Definition watching (c : nat) (i : Inhibitor) : Prop :=
  follows c i ∧ same_options m0 (manager i) ∧
  ((∀ n, can_inhibit w m0 n = true) → c ≠ 0%nat → holds i = true).

Lemma acquired_watching c i :
  watching c i → Z.of_nat (S c) < u64_limit →
  ∃ i', tells (on_lease_acquired w) i i' ∧ watching (S c) i' ∧ (c ≠ 0%nat → holds i' = holds i) ∧
    (c = 0%nat → holds i' = can_inhibit w (manager i) (attempts i)).
Proof.
  intros (Hf & Ho & Hh) Hlim.
  destruct (acquired_step w c i Hf Hlim) as (i' & Ht & Hf' & Hkeep & Hfirst).
  exists i'. split; [done|]. split; [|done]. pose proof Ht as (_ & _ & Ho' & _).
  split_and!; [done|by etrans|]. intros Hcan _. destruct c as [|c].
  - rewrite Hfirst by done. by rewrite (can_inhibit_options w m0) by done.
  - rewrite Hkeep by done. by apply Hh.
Qed.

Lemma released_watching c i :
  watching (S c) i → Z.of_nat (S c) < u64_limit →
  ∃ i', tells on_lease_released i i' ∧ watching c i' ∧ (c ≠ 0%nat → holds i' = holds i).
Proof.
  intros (Hf & Ho & Hh) Hlim.
  destruct (on_lease_released_spec c i Hf Hlim) as (i' & Ht & Hf' & Hkeep).
  exists i'. split; [done|]. split; [|done]. pose proof Ht as (_ & _ & Ho' & _).
  split_and!; [done|by etrans|]. intros Hcan Hc. rewrite Hkeep by done. by apply Hh.
Qed.

Lemma times_acquired n c i :
  watching c i → Z.of_nat (c + n) < u64_limit →
  ∃ i', tells (times n (on_lease_acquired w)) i i' ∧ watching (c + n) i' ∧
    (c ≠ 0%nat → holds i' = holds i) ∧
    (c = 0%nat → n ≠ 0%nat → holds i' = can_inhibit w (manager i) (attempts i)).
Proof.
  revert c i. induction n as [|n IH]; intros c i Hi Hlim.
  { exists i. split; [apply tells_ret|]. by rewrite Nat.add_0_r. }
  destruct (acquired_watching c i Hi) as (i1 & Ht1 & Hi1 & Hk1 & Hz1); [lia|].
  destruct (IH (S c) i1 Hi1) as (i2 & Ht2 & Hi2 & Hk2 & _); [lia|].
  exists i2. split; [by eapply tells_bind|]. rewrite <-Nat.add_succ_comm. split; [done|].
  rewrite Hk2 by done. auto.
Qed.

Lemma times_released n c i :
  watching (c + n) i → Z.of_nat (c + n) < u64_limit →
  ∃ i', tells (times n on_lease_released) i i' ∧ watching c i' ∧ (c ≠ 0%nat → holds i' = holds i).
Proof.
  revert i. induction n as [|n IH]; intros i Hi Hlim.
  { exists i. rewrite Nat.add_0_r in Hi. split; [apply tells_ret|]. done. }
  rewrite <-Nat.add_succ_comm in Hi. cbn [Nat.add] in Hi.
  destruct (released_watching (c + n) i Hi) as (i1 & Ht1 & Hi1 & Hk1); [lia|].
  destruct (IH i1 Hi1) as (i2 & Ht2 & Hi2 & Hk2); [lia|].
  exists i2. split; [by eapply tells_bind|]. split; [done|].
  intros Hc. rewrite Hk2 by done. apply Hk1. lia.
Qed.

Lemma monitor_tick_watching prev c i :
  watching prev i → Z.of_nat prev < u64_limit → Z.of_nat c < u64_limit →
  ∃ i', tells (monitor_tick w prev c) i i' ∧ watching c i' ∧
    (prev ≠ 0%nat → c ≠ 0%nat → holds i' = holds i).
Proof.
  intros Hi Hp Hc. unfold monitor_tick.
  destruct (Nat.ltb_spec prev c); [|destruct (Nat.ltb_spec c prev)].
  - replace c with (prev + (c - prev))%nat in * at 2 3 by lia.
    destruct (times_acquired (c - prev) prev i Hi) as (i' & Ht & Hi' & Hk & _); [lia|].
    exists i'. split_and!; [done|by replace (prev + (c - prev))%nat with c in * by lia|by auto].
  - replace prev with (c + (prev - c))%nat in Hi by lia.
    destruct (times_released (prev - c) c i Hi) as (i' & Ht & Hi' & Hk); [lia|].
    exists i'. by split_and!.
  - assert (prev = c) as -> by lia. exists i. split; [apply tells_ret|done].
Qed.

Lemma monitor_watching counts prev i :
  watching prev i → Z.of_nat prev < u64_limit →
  Forall (λ c, Z.of_nat c < u64_limit) counts →
  ∃ i', tells (monitor w prev counts) i i' ∧ watching (default prev (last counts)) i' ∧
    (Forall (λ c, c ≠ 0%nat) (prev :: counts) → holds i' = holds i).
Proof.
  revert prev i. induction counts as [|c counts IH]; intros prev i Hi Hp Hall.
  { exists i. split; [apply tells_ret|done]. }
  apply Forall_cons_1 in Hall as [Hc Hall].
  destruct (monitor_tick_watching prev c i Hi Hp Hc) as (i1 & Ht1 & Hi1 & Hk1).
  destruct (IH c i1 Hi1 Hc Hall) as (i2 & Ht2 & Hi2 & Hk2).
  exists i2. cbn [monitor]. split; [by eapply tells_bind|]. split.
  - rewrite last_cons. by destruct (last counts).
  - intros [Hp0 Hcs]%Forall_cons_1. rewrite Hk2 by done.
    apply Forall_cons_1 in Hcs as [? _]. by apply Hk1.
Qed.
End monitor.

(** The manager at the start, with a bus socket of its own or without. *)
Definition fresh (lock_path : string) (prefer_standalone : bool) (bus : option string) :
    InhibitorManager :=
  match bus with
  | Some p => with_bus_socket p (with_options lock_path prefer_standalone)
  | None => with_options lock_path prefer_standalone
  end.

Lemma fresh_watching w lock_path prefer bus :
  watching w (fresh lock_path prefer bus) 0 (mkInhibitor (fresh lock_path prefer bus) 0).
Proof. destruct bus; by split_and!. Qed.

(** C28: The sleep inhibitor follows the leases: after any number of ticks of the
    monitor, whatever the arbiter's leases were in between and whatever the
    outside answered, the manager's count is the number of active leases of the
    last tick, nothing is held when there are none, the flag says whether
    something is held, every lock, child and connection was taken while nothing
    else was and was given back at most once, and sleep is inhibited exactly
    while leases are active provided some mechanism works. *)
Theorem inhibitor_follows_leases {ho : HashOrder LeaseId ComputeLease} w lock_path prefer bus
    (states : list ArbiterState) :
  Forall (λ s, Z.of_nat (active_count s) < u64_limit) states →
  let m0 := fresh lock_path prefer bus in
  let c := default 0%nat (last (active_count <$> states)) in
  ∃ i evs, monitor w 0 (active_count <$> states) (mkInhibitor m0 0) = (Ok tt, i, evs) ∧
    active_leases (manager i) = Z.of_nat c ∧
    is_inhibited (manager i) = holds i ∧
    (c = 0%nat → active_handle (manager i) = None) ∧
    replay None evs = Some (active_handle (manager i)) ∧
    ((∀ n, can_inhibit w m0 n = true) → is_inhibited (manager i) = (0 <? c)%nat).
Proof.
  intros Hall m0 c.
  destruct (monitor_watching w m0 (active_count <$> states) 0 (mkInhibitor m0 0))
    as (i & (evs & Heq & _ & Hr) & ((Hc & Hflag & Hnone) & _ & Hcan) & _).
  { apply fresh_watching. }
  { done. }
  { by rewrite Forall_fmap. }
  fold c in Hc, Hnone, Hcan. exists i, evs. split_and!; [done|done|done|done|by destruct bus|].
  intros Hworks. rewrite Hflag. destruct (Nat.ltb_spec 0 c).
  - apply Hcan; [done|lia].
  - unfold holds. by rewrite Hnone by lia.
Qed.

(** A first attempt that fails is not repeated while leases stay active: from
    then on, whatever works later, nothing keeps the host awake. *)
Theorem failed_attempt_not_retried w lock_path prefer bus c counts :
  let m0 := fresh lock_path prefer bus in
  Forall (λ c, c ≠ 0%nat ∧ Z.of_nat c < u64_limit) (c :: counts) →
  can_inhibit w m0 0 = false →
  ∃ i evs, monitor w 0 (c :: counts) (mkInhibitor m0 0) = (Ok tt, i, evs) ∧
    is_inhibited (manager i) = false.
Proof.
  intros m0 Hall Hfail. apply Forall_cons_1 in Hall as [[Hc Hlim] Hall].
  destruct (times_acquired w m0 c 0 (mkInhibitor m0 0)) as (i1 & Ht1 & Hi1 & _ & Hz);
    [apply fresh_watching|done|].
  destruct (monitor_watching w m0 counts c i1 Hi1 Hlim) as (i & Ht & Hi & Hk).
  { eapply Forall_impl; [done|]. by intros ? []. }
  assert (Htick : tells (monitor_tick w 0 c) (mkInhibitor m0 0) i1).
  { unfold monitor_tick. rewrite (proj2 (Nat.ltb_lt 0 c)), Nat.sub_0_r by lia. done. }
  destruct (tells_bind _ _ _ _ _ Htick Ht) as (evs & Heq & _).
  exists i, evs. split; [done|]. destruct Hi as ((_ & -> & _) & _).
  assert (Forall (λ c, c ≠ 0%nat) (c :: counts)) as Hpos.
  { constructor; [done|]. eapply Forall_impl; [done|]. by intros ? []. }
  by rewrite Hk, Hz.
Qed.

(** * A run *)

(** A machine without systemd-inhibit, whose lock file is free. *)
Definition iw0 : InhibitWorld := {|
  iw_spawn _ := Err "ENOENT"; iw_open _ := Ok tt; iw_flock _ := Ok tt;
  iw_connect _ _ := Err "ENOENT"; iw_exists _ _ := false; iw_env _ := None;
  iw_process_id := 42 |}.

Example monitor_run :
  let o := monitor iw0 0 [0; 2; 1; 0; 1]%nat (mkInhibitor (with_lock_path "/run/l") 0) in
  is_inhibited (manager (state_of o)) = true ∧ active_leases (manager (state_of o)) = 1 ∧
  List.filter (λ e, match e with WroteLock _ _ => false | _ => true end) (calls_of o)
  = [Locked "/run/l"; UnlockedAndRemoved "/run/l"; Locked "/run/l"].
Proof. vm_compute. by split_and!. Qed.
