(* ===== verification/Listeners.v ===== *)
(** The daemon's sockets: how each is bound when the service manager did not
    pass it (varlink/mod.rs, sentry/mod.rs, fd_server.rs, activation.rs of
    crates/inferenced-daemon/src/), and the loops that accept connections. *)
From S2P Require Import Prelude Text Host Errors Peer.
Local Open Scope Z_scope.

(** * Binding *)

Inductive BindCall :=
  | CreateDirAll (path : string)
  | RemoveFile (path : string)
  | BindSocket (path : string)
  | SetPermissions (path : string) (mode : Z).

(** The answers of the system. A bound listener is its descriptor. *)
Record BindWorld := mkBindWorld {
  bw_create_dir_all : string → result string unit;
  bw_exists : string → bool;
  bw_bind : string → result string Z;
}.

Definition DEFAULT_VARLINK_PATH : string := "/run/syntrop/io.syntrop.Inference1".
Definition DEFAULT_FD_SOCKET_PATH : string := "/run/systemd-inferenced/fd.sock".

Section bind.
Context {S : Type} (bw : BindWorld).

Definition Bind (A : Type) : Type := eff S BindCall string A.

Definition create_parent (path : string) : Bind unit :=
  match parent path with
  | Some dir => (etell [CreateDirAll dir] ;! elift (bw_create_dir_all bw dir))%eff
  | None => eret tt
  end.

(** A failure to remove is ignored. *)
Definition remove_existing (path : string) : Bind unit :=
  if bw_exists bw path then etell [RemoveFile path] else eret tt.

Definition bind_socket (path : string) : Bind Z :=
  (etell [BindSocket path] ;! elift (bw_bind bw path))%eff.

(** varlink/mod.rs *)
Definition bind_or_create_listener (path : string) : Bind Z :=
  (create_parent path ;! remove_existing path ;! bind_socket path)%eff.

(** fd_server.rs *)
Definition bind_or_create_fd_listener (path : string) : Bind Z :=
  (create_parent path ;! remove_existing path ;! bind_socket path)%eff.

(** sentry/mod.rs *)
Definition bind_or_create_sentry_listener (path : string) : Bind Z :=
  (remove_existing path ;! create_parent path ;! bind_socket path)%eff.

(** activation.rs: the only one that sets permissions, after the socket is
    bound. *)
Definition bind_standalone_unix (path : string) : Bind Z :=
  (create_parent path ;!
   remove_existing path ;!
   let! listener := bind_socket path in
   etell [SetPermissions path 432] ;!
   eret listener)%eff.
End bind.

(** * Accepting *)

Section accept.
Context {Stream : Type}.
Implicit Types (incoming : list (result string Stream)).

(** [listener.accept().await?]: the connections handed to tasks, and the error
    the loop ended with, if it did. [incoming] is what [accept] gives, one
    result after the other. *)
Fixpoint accept_until_error incoming : list Stream * option string :=
  match incoming with
  | [] => ([], None)
  | Ok stream :: incoming' =>
      let '(streams, e) := accept_until_error incoming' in (stream :: streams, e)
  | Err e :: _ => ([], Some e)
  end.

(** The loop of the sentry: an error is logged. *)
Fixpoint run_sentry_triage_listener incoming : list Stream :=
  match incoming with
  | [] => []
  | Ok stream :: incoming' => stream :: run_sentry_triage_listener incoming'
  | Err _ :: incoming' => run_sentry_triage_listener incoming'
  end.

(** Each connection of the Varlink listener comes with its peer, when the
    kernel knows it. *)
Definition run_varlink_listener (from_socket : Stream → result Error PeerInfo) incoming :
    list (Stream * option PeerInfo) * option string :=
  let '(streams, e) := accept_until_error incoming in
  ((λ s, (s, result_ok (from_socket s))) <$> streams, e).

Definition run_fd_server_with_quota incoming : list Stream * option string :=
  accept_until_error incoming.

(** The gateway's loop on a Unix socket: the connections served, and how it
    ended, if it did; gateway/mod.rs. *)
Inductive GatewayTurn :=
  | Shutdown
  | Incoming (accepted : result string Stream).

Fixpoint serve_unix_gateway (turns : list GatewayTurn) : list Stream * option (result string unit) :=
  match turns with
  | [] => ([], None)
  | Shutdown :: _ => ([], Some (Ok tt))
  | Incoming (Err e) :: _ => ([], Some (Err e))
  | Incoming (Ok stream) :: turns' =>
      let '(streams, outcome) := serve_unix_gateway turns' in (stream :: streams, outcome)
  end.

(** ** What is served *)

(** The gateway serves until it is told to stop or cannot accept. *)
Lemma serve_unix_gateway_served streams last rest :
  serve_unix_gateway (((λ s, Incoming (Ok s)) <$> streams) ++ last :: rest) =
    match last with
    | Shutdown => (streams, Some (Ok tt))
    | Incoming (Err e) => (streams, Some (Err e))
    | Incoming (Ok s) =>
        let '(more, outcome) := serve_unix_gateway rest in (streams ++ s :: more, outcome)
    end.
Proof.
  induction streams as [|s streams IH]; cbn [fmap list_fmap app serve_unix_gateway].
  - destruct last as [|[s|e]]; [done| |done]. by destruct (serve_unix_gateway rest).
  - rewrite IH. destruct last as [|[s'|e]]; [done| |done]. by destruct (serve_unix_gateway rest).
Qed.

Lemma accept_until_error_app streams e incoming :
  accept_until_error ((Ok <$> streams) ++ Err e :: incoming) = (streams, Some e).
Proof.
  induction streams as [|s streams IH]; [done|]. rewrite fmap_cons. cbn [app accept_until_error].
  by rewrite IH.
Qed.

Lemma accept_until_error_ok streams : accept_until_error (Ok <$> streams) = (streams, None).
Proof.
  induction streams as [|s streams IH]; [done|]. rewrite fmap_cons. cbn [accept_until_error].
  by rewrite IH.
Qed.

Lemma omap_result_ok (streams : list Stream) : omap result_ok (Ok (E := string) <$> streams) = streams.
Proof.
  induction streams as [|s streams IH]; [done|]. by rewrite fmap_cons, omap_cons, IH.
Qed.

Lemma run_sentry_served incoming : run_sentry_triage_listener incoming = omap result_ok incoming.
Proof. induction incoming as [|[s|e] incoming IH]; simpl; [done|by rewrite IH|done]. Qed.
End accept.

(** Accepting connections: while [accept] succeeds every listener hands each
    connection to a task of its own, in order and with the peer the kernel
    names; after an error the sentry's listener goes on and serves every later
    connection, whereas the Varlink and the descriptor listeners end and serve
    none of them. *)
Theorem accept_errors {Stream : Type} (from_socket : Stream → result Error PeerInfo)
    (before after : list Stream) e :
  let incoming := (Ok <$> before) ++ Err e :: (Ok <$> after) in
  run_sentry_triage_listener incoming = before ++ after ∧
  run_varlink_listener from_socket incoming
    = ((λ s, (s, result_ok (from_socket s))) <$> before, Some e) ∧
  run_fd_server_with_quota incoming = (before, Some e) ∧
  run_varlink_listener from_socket (Ok <$> before ++ after)
    = ((λ s, (s, result_ok (from_socket s))) <$> before ++ after, None).
Proof.
  intros incoming. unfold incoming, run_varlink_listener, run_fd_server_with_quota.
  rewrite run_sentry_served, accept_until_error_app, accept_until_error_ok. split_and!; [|done..].
  by rewrite omap_app, omap_cons, !omap_result_ok.
Qed.
