(* ===== verification/Daemon.v ===== *)
(** The daemon's main function: the order in which it takes its sockets, starts
    its tasks and talks to the service manager, its background loops and its
    shutdown; crates/inferenced-daemon/src/main.rs. *)
From S2P Require Import Prelude Text Host Lease Errors Topology Model Psi Arbiter Discovery.
From S2P Require Import Netlink Hotplug Notify Creds Activation Inhibit Listeners.
Local Open Scope Z_scope.

(** [Cli], the arguments the daemon uses. *)
Record Cli := mkCli {
  cli_bind : option string;
  cli_gateway_socket : string;
  cli_varlink_socket : string;
  cli_sentry_socket : string;
  cli_fd_socket : string;
}.

Inductive Task :=
  | VarlinkServer (listener : Z)
  | SentryServer (listener : Z)
  | FdServer (listener : Z)
  | HotplugLoop
  | WatchdogLoop
  | InhibitMonitor.

(** What the main function does, in order. A notification is the message asked
    for and the datagrams it became. *)
Inductive DaemonEvent {Addr : Type} :=
  | Bound (call : BindCall)
  | BoundTcp (addr : string)
  | SpawnTask (task : Task)
  | Notified (message : string) (sent : list (Addr * string))
  | Serving (listener : GatewayListener)
  | WatchdogAborted.
Arguments DaemonEvent : clear implicits.

(** What the machine answers: the adopted sockets, the file system when the
    hardware is discovered, the binding of sockets, the notification socket,
    and how serving the gateway ends. *)
Record DaemonWorld (Addr : Type) := mkDaemonWorld {
  dw_adopted : result string ActivatedSockets;
  dw_fs : Fs;
  dw_bind : BindWorld;
  dw_bind_tcp : string → result string Z;
  dw_notify : NotifyWorld Addr;
  dw_notify_socket : option string;
  dw_serve : GatewayListener → result string unit;
}.
Arguments dw_adopted {Addr}.
Arguments dw_fs {Addr}.
Arguments dw_bind {Addr}.
Arguments dw_bind_tcp {Addr}.
Arguments dw_notify {Addr}.
Arguments dw_notify_socket {Addr}.
Arguments dw_serve {Addr}.

Section daemon.
Context {Addr : Type} {uc : Unicode} (dw : DaemonWorld Addr) (cli : Cli).

Definition Daemon (A : Type) : Type := eff unit (DaemonEvent Addr) string A.

Definition bound {A} (m : Bind (S := unit) A) : Daemon A :=
  λ s, let '(r, s', calls) := m s in (r, s', Bound <$> calls).

(** [match activated.<slot>.take() { Some(l) => l, None => bind(..)? }] *)
Definition taken_or {A} (slot : option A) (m : Daemon A) : Daemon A :=
  match slot with Some l => eret l | None => m end.

Definition spawn (t : Task) : Daemon unit := etell [SpawnTask t].

(** The notification itself never fails its caller. *)
Definition notified (message : string) : Daemon unit :=
  etell [Notified message (calls_of (notify (dw_notify dw) (dw_notify_socket dw) message tt))].

Definition gateway_listener (activated : ActivatedSockets) : Daemon GatewayListener :=
  taken_or (gateway activated)
    match cli_bind cli with
    | Some addr =>
        (etell [BoundTcp addr] ;!
         let! fd := elift (dw_bind_tcp dw addr) in
         eret (Tcp fd))%eff
    | None =>
        (let! fd := bound (bind_standalone_unix (dw_bind dw) (cli_gateway_socket cli)) in
         eret (Unix fd))%eff
    end.

(** Up to the notification that the service is ready and the background
    tasks: the arbiter's first state, and the gateway's listener. *)
Definition start : Daemon (ArbiterState * GatewayListener) :=
  (let! activated := elift (dw_adopted dw) in
   let arbiter := new_arbiter (discover (dw_fs dw)) in
   let! varlink_listener := taken_or (varlink activated)
     (bound (bind_or_create_listener (dw_bind dw)
        (default DEFAULT_VARLINK_PATH (from_utf8 (cli_varlink_socket cli))))) in
   spawn (VarlinkServer varlink_listener) ;!
   let! sentry_listener := taken_or (sentry activated)
     (bound (bind_or_create_sentry_listener (dw_bind dw) (cli_sentry_socket cli))) in
   spawn (SentryServer sentry_listener) ;!
   let! fd_listener := taken_or (fd_server activated)
     (bound (bind_or_create_fd_listener (dw_bind dw)
        (default DEFAULT_FD_SOCKET_PATH (from_utf8 (cli_fd_socket cli))))) in
   spawn (FdServer fd_listener) ;!
   let! gateway_listener := gateway_listener activated in
   notified ready_message ;!
   spawn HotplugLoop ;!
   spawn WatchdogLoop ;!
   spawn InhibitMonitor ;!
   eret (arbiter, gateway_listener))%eff.

(** [main]: an error of the gateway's server skips the orderly end. *)
Definition main : Daemon unit :=
  (let! started := start in
   etell [Serving started.2] ;!
   elift (dw_serve dw started.2) ;!
   etell [WatchdogAborted] ;!
   notified stopping_message)%eff.
End daemon.

(** * The background loops *)

(** What a datagram's source address is. *)
Inductive Family := AfNetlink | AfUnix | AfInet | AfInet6.

(** [UdpSocket::recv_from(&mut [0; 8192])] of the standard library: what does
    not fit is cut off, and a source that is not an internet address is the
    error [InvalidInput], whatever was received. *)
Definition recv_from (source : Family) (datagram : string) : result string string :=
  match source with
  | AfInet | AfInet6 => Ok (take_bytes 8192 datagram)
  | _ => Err "invalid argument"
  end.

Section hotplug_loop.
Context {uc : Unicode} {ho : HashOrder LeaseId ComputeLease}.

(** One round: [fs] is the file system 200 ms after the datagram. *)
Definition hotplug_step (fs : Fs) (source : Family) (datagram : string) (s : ArbiterState) :
    ArbiterState :=
  match recv_from source datagram with
  | Err _ => s
  | Ok bytes =>
      match parse_uevent bytes with
      | Some uevent => if is_compute_device uevent then refresh_topology fs s else s
      | None => s
      end
  end.

Definition hotplug_loop (received : list (Fs * Family * string)) (s : ArbiterState) : ArbiterState :=
  foldl (λ s '(fs, source, datagram), hotplug_step fs source datagram s) s received.
End hotplug_loop.

(** [health_check] of the arbiter: whether the read lock was obtained within
    500 ms. *)
Definition health_check (lock_wait_ms : option Z) : bool :=
  match lock_wait_ms with Some ms => ms <? 500 | None => false end.

(** One tick of the watchdog: the messages it sends. *)
Definition watchdog_tick (lock_wait_ms : option Z) (m : InhibitorManager) : list string :=
  if health_check lock_wait_ms then
    watchdog_message
    :: if is_inhibited m then
         [status_message ("Active AI leases executing (" +:+ pretty (active_leases m)
                          +:+ ", sleep/idle inhibited)")]
       else []
  else [].

Inductive DaemonSignal := SigInt | SigTerm | SigCont.

(** [shutdown_signal]: the signals that arrive after it returned, if it does. *)
Fixpoint shutdown_signal (signals : list DaemonSignal) : option (list DaemonSignal) :=
  match signals with
  | [] => None
  | (SigInt | SigTerm) :: rest => Some rest
  | SigCont :: rest => shutdown_signal rest
  end.

(** * Facts *)

Section facts.
Context {Addr : Type} {uc : Unicode} (dw : DaemonWorld Addr) (cli : Cli).

(** The steps that are not system calls for a socket. *)
Definition is_step (e : DaemonEvent Addr) : bool :=
  match e with Bound _ | BoundTcp _ => false | _ => true end.
Definition steps (evs : list (DaemonEvent Addr)) : list (DaemonEvent Addr) := List.filter is_step evs.

Lemma steps_app evs evs' : steps (evs ++ evs') = steps evs ++ steps evs'.
Proof. apply List.filter_app. Qed.

(** [m] only binds sockets, and a value it returns satisfies [R]. *)
Definition yields {A} (m : Daemon (Addr := Addr) A) (R : A → Prop) : Prop :=
  ∃ r evs, m tt = (r, tt, evs) ∧ steps evs = [] ∧ ∀ a, r = Ok a → R a.

(** What [m] returns and its steps satisfy [Q]. *)
Definition goes {A} (m : Daemon (Addr := Addr) A)
    (Q : result string A → list (DaemonEvent Addr) → Prop) : Prop :=
  ∃ r evs, m tt = (r, tt, evs) ∧ Q r (steps evs).

Lemma goes_ret {A} (a : A) Q : Q (Ok a) [] → goes (eret a) Q.
Proof. by eexists _, _. Qed.

Lemma goes_bind {A B} (m : Daemon A) (k : A → Daemon B) R Q :
  yields m R → (∀ a, R a → goes (k a) Q) → (∀ e, Q (Err e) []) → goes (ebind m k) Q.
Proof.
  intros ([a|e] & evs & Heq & Hs & HR) Hk He.
  - destruct (Hk a (HR a eq_refl)) as (r & evs' & Heq' & HQ).
    unfold goes. rewrite (ebind_Ok _ _ _ _ _ _ Heq), Heq'. eexists _, _. split; [done|].
    by rewrite steps_app, Hs.
  - unfold goes. rewrite (ebind_Err _ _ _ _ _ _ Heq). eexists _, _. split; [done|]. by rewrite Hs.
Qed.

Lemma goes_tell {A} e (m : Daemon A) Q :
  is_step e = true → goes m (λ r st, Q r (e :: st)) → goes (etell [e] ;! m)%eff Q.
Proof.
  intros He (r & evs & Heq & HQ). unfold goes.
  rewrite (ebind_Ok (etell [e]) _ _ tt tt [e]), Heq by done.
  eexists _, _. split; [done|]. unfold steps in *. cbn [app List.filter]. by rewrite He.
Qed.

(** One run inside a larger one. *)
Lemma goes_then {A B} (m : Daemon A) (k : A → Daemon B) Q :
  goes m (λ r st, match r with
                  | Ok a => goes (k a) (λ r' st', Q r' (st ++ st'))
                  | Err e => Q (Err e) st
                  end) →
  goes (ebind m k) Q.
Proof.
  intros ([a|e] & evs & Heq & HQ); unfold goes.
  - destruct HQ as (r' & evs' & Heq' & HQ). rewrite (ebind_Ok _ _ _ _ _ _ Heq), Heq'.
    eexists _, _. split; [done|]. by rewrite steps_app.
  - rewrite (ebind_Err _ _ _ _ _ _ Heq). by eexists _, _.
Qed.

Lemma yields_lift {A} (r : result string A) : yields (elift r) (λ a, r = Ok a).
Proof. by eexists _, _. Qed.

Lemma bound_yields {A} (m : Bind A) : yields (bound m) (λ _, True).
Proof.
  unfold yields, bound. destruct (m tt) as [[r []] calls]. eexists _, _. split; [done|].
  split; [|done]. by induction calls.
Qed.

Lemma taken_yields {A} (slot : option A) (m : Daemon A) :
  yields m (λ _, True) → yields (taken_or slot m) (λ a, ∀ l, slot = Some l → a = l).
Proof.
  destruct slot as [l|]; simpl.
  - intros _. eexists _, _. split; [done|]. split; [done|]. by intros a [= ->] l' [= ->].
  - intros (r & evs & Heq & Hs & _). exists r, evs. by split_and!.
Qed.

Lemma gateway_yields activated :
  yields (gateway_listener dw cli activated) (λ a, ∀ l, gateway activated = Some l → a = l).
Proof.
  apply taken_yields. unfold yields. destruct (cli_bind cli) as [addr|].
  - unfold ebind. cbn. destruct (dw_bind_tcp dw addr); by eexists _, _.
  - destruct (bound_yields (bind_standalone_unix (dw_bind dw) (cli_gateway_socket cli)))
      as ([fd|e] & evs & Heq & Hs & _).
    + rewrite (ebind_Ok _ _ _ _ _ _ Heq). eexists _, _. split; [reflexivity|].
      by rewrite app_nil_r.
    + rewrite (ebind_Err _ _ _ _ _ _ Heq). by eexists _, _.
Qed.

Definition ready : DaemonEvent Addr :=
  Notified ready_message (calls_of (notify (dw_notify dw) (dw_notify_socket dw) ready_message tt)).
Definition stopping : DaemonEvent Addr :=
  Notified stopping_message
    (calls_of (notify (dw_notify dw) (dw_notify_socket dw) stopping_message tt)).

(** The tasks that serve clients. *)
Definition servers (v s f : Z) : list (DaemonEvent Addr) :=
  [SpawnTask (VarlinkServer v); SpawnTask (SentryServer s); SpawnTask (FdServer f)].
Definition loops : list (DaemonEvent Addr) :=
  [SpawnTask HotplugLoop; SpawnTask WatchdogLoop; SpawnTask InhibitMonitor].

(** The listeners are those that were passed, where they were. *)
Definition as_passed (v s f : Z) (g : GatewayListener) : Prop :=
  ∀ a, dw_adopted dw = Ok a →
    (∀ l, varlink a = Some l → v = l) ∧ (∀ l, sentry a = Some l → s = l) ∧
    (∀ l, fd_server a = Some l → f = l) ∧ (∀ l, gateway a = Some l → g = l).

Lemma start_goes :
  goes (start dw cli) (λ r st,
    match r with
    | Ok (arbiter, g) =>
        arbiter = new_arbiter (discover (dw_fs dw)) ∧
        ∃ v s f, as_passed v s f g ∧ st = servers v s f ++ ready :: loops
    | Err _ => ∃ v s f n, st = take n (servers v s f)
    end).
Proof.
  unfold start, spawn, notified. eapply goes_bind; [apply yields_lift| |by exists 0, 0, 0, 0%nat].
  intros a Ha. eapply goes_bind; [apply taken_yields, bound_yields| |by exists 0, 0, 0, 0%nat].
  intros v Hv. apply goes_tell; [done|].
  eapply goes_bind; [apply taken_yields, bound_yields| |by exists v, 0, 0, 1%nat].
  intros s Hs. apply goes_tell; [done|].
  eapply goes_bind; [apply taken_yields, bound_yields| |by exists v, s, 0, 2%nat].
  intros f Hf. apply goes_tell; [done|].
  eapply goes_bind; [apply gateway_yields| |by exists v, s, f, 3%nat].
  intros g Hg. do 4 (apply goes_tell; [done|]). apply goes_ret. split; [done|].
  exists v, s, f. split; [|done]. intros a' Ha'. rewrite Ha in Ha'. injection Ha' as <-. by split_and!.
Qed.
End facts.

(** C33: The daemon's life in order: either it gives up before it is ready,
    having started at most the three socket servers and said nothing to the
    service manager; or the servers run on their listeners (those the manager
    passed, where it passed any), then READY is announced, once, then the
    background loops start and the gateway is served, and exactly when serving
    ends without an error the watchdog stops and STOPPING is announced last. *)
Theorem daemon_start_order {Addr : Type} {uc : Unicode} (dw : DaemonWorld Addr) (cli : Cli) :
  ∃ r evs, main dw cli tt = (r, tt, evs) ∧
    ((is_ok r = false ∧ ∃ v s f n, steps evs = take n (servers v s f)) ∨
     ∃ v s f g, as_passed dw v s f g ∧ r = dw_serve dw g ∧
       steps evs = servers v s f ++ ready dw :: loops ++ Serving g
                   :: if is_ok (dw_serve dw g) then [WatchdogAborted; stopping dw] else []).
Proof.
  cut (goes (main dw cli) (λ r st,
    (is_ok r = false ∧ ∃ v s f n, st = take n (servers v s f)) ∨
    ∃ v s f g, as_passed dw v s f g ∧ r = dw_serve dw g ∧
      st = servers v s f ++ ready dw :: loops ++ Serving g
           :: if is_ok (dw_serve dw g) then [WatchdogAborted; stopping dw] else [])).
  { by intros (r & evs & Heq & HQ); exists r, evs. }
  unfold main. apply goes_then. destruct (start_goes dw cli) as (r & evs & Heq & Hst).
  exists r, evs. split; [done|]. destruct r as [[arbiter g]|e]; [|by left].
  destruct Hst as (_ & v & s & f & Hpassed & ->). apply goes_tell; [done|].
  apply goes_then. exists (dw_serve dw g), []. split; [done|].
  destruct (dw_serve dw g) as [[]|e] eqn:Hserve; cbn [steps].
  - apply goes_tell; [done|]. unfold notified. eexists _, _. split; [done|].
    right. exists v, s, f, g. rewrite Hserve. by split_and!.
  - right. exists v, s, f, g. rewrite Hserve. by split_and!.
Qed.

(** ** The hotplug loop *)

(** The loop as written never refreshes anything: what the kernel sends on the
    socket comes from a netlink address, which [recv_from] refuses. *)
Theorem hotplug_never_refreshes {uc : Unicode} {ho : HashOrder LeaseId ComputeLease} received s :
  Forall (λ x, x.1.2 = AfNetlink) received → hotplug_loop received s = s.
Proof.
  unfold hotplug_loop. intros Hall. induction Hall as [|[[fs source] datagram] received Hx _ IH]; [done|].
  simpl in *. subst. exact IH.
Qed.

(** It would if the datagram came through: an event of a compute device
    replaces the topology by the one then discovered. *)
Lemma hotplug_step_refreshes {uc : Unicode} {ho : HashOrder LeaseId ComputeLease}
    fs datagram uevent s :
  parse_uevent (take_bytes 8192 datagram) = Some uevent → is_compute_device uevent = true →
  hotplug_step fs AfInet datagram s = refresh_topology fs s.
Proof. intros Hp Hc. unfold hotplug_step. cbn [recv_from]. by rewrite Hp, Hc. Qed.

(** ** The watchdog and the shutdown *)

(** No ping while the arbiter's lock is not to be had, and no status while
    nothing is inhibited. *)
Lemma watchdog_tick_silent wait m :
  watchdog_tick wait m = [] ↔ health_check wait = false.
Proof. unfold watchdog_tick. by destruct (health_check wait). Qed.

Lemma shutdown_signal_ends signals rest :
  shutdown_signal signals = Some rest →
  ∃ n sig, signals = replicate n SigCont ++ sig :: rest ∧ sig ≠ SigCont.
Proof.
  induction signals as [|[] signals IH]; [done|..]; cbn [shutdown_signal].
  - intros [= ->]. by exists 0%nat, SigInt.
  - intros [= ->]. by exists 0%nat, SigTerm.
  - intros H. destruct (IH H) as (n & sig & -> & Hsig). by exists (S n), sig.
Qed.
