(* ===== verification/Frontend.v ===== *)
(** What the connections of the daemon share: the arbiter behind its lock,
    the clock, fresh identifiers and a socket to answer on. *)
From S2P Require Import Prelude Lease Errors Topology Text Model Psi Arbiter Ledger Grant.
From S2P Require Import Hotplug Runs Lifecycle.
Local Open Scope Z_scope.

(** The surroundings of one connection. Every lock taken and every write is a
    tick; [fw_others n] is what the other tasks do to the arbiter before the
    lock of tick [n] is obtained, the others are what the pressure files, the
    clock, [Uuid::new_v4()] and the socket answer at tick [n]. *)
Record FrontWorld := mkFrontWorld {
  fw_others : nat → ArbiterState → ArbiterState;
  fw_pressure : nat → PressureMetrics;
  fw_clock : nat → Z;
  fw_fresh : nat → LeaseId;
  fw_writes : nat → result string unit;
}.

Record Front := mkFront { fr_arbiter : ArbiterState; fr_ticks : nat }.

(** What a connection does to the outside. *)
Inductive Event :=
  | Freezer (call : FreezerCall)
  | Write (bytes : string).

(** Why the loop of a connection ends. *)
Inductive Stop :=
  | Disconnected
  | ReadFailed (e : string)
  | BadRequest (e : string)
  | WriteFailed (e : string)
  | Refused (e : Error)
  | OutOfFuel.

Section frontend.
Context {ho : HashOrder LeaseId ComputeLease} (w : FrontWorld).

Definition Io (A : Type) : Type := eff Front Event Stop A.

(** An operation of the arbiter, under its lock. *)
Definition call {A} (m : Arb A) : Io (result Error A) :=
  λ f, match m (fw_others w (fr_ticks f) (fr_arbiter f)) with
       | (r, s, ws) => (Ok r, mkFront s (S (fr_ticks f)), Freezer <$> ws)
       end.
Definition look {A} (g : ArbiterState → A) : Io A :=
  λ f, let s := fw_others w (fr_ticks f) (fr_arbiter f) in
       (Ok (g s), mkFront s (S (fr_ticks f)), []).
Definition mutate {A} (g : ArbiterState → A * ArbiterState) : Io A :=
  λ f, let '(a, s) := g (fw_others w (fr_ticks f) (fr_arbiter f)) in
       (Ok a, mkFront s (S (fr_ticks f)), []).

(** [PressureMetrics::read_current()] and [chrono::Utc::now()] *)
Definition read_pressure : Io PressureMetrics := λ f, (Ok (fw_pressure w (fr_ticks f)), f, []).
Definition read_clock : Io Z := λ f, (Ok (fw_clock w (fr_ticks f)), f, []).

Definition acquire (priority : LeasePriority) (required_bytes : Z)
    (preferred_plane client_unit : option string) (client_pid : option Z) :
    Io (result Error ComputeLease) :=
  λ f, call (acquire_lease (fw_pressure w (fr_ticks f)) (fw_clock w (fr_ticks f))
               (fw_fresh w (fr_ticks f)) priority required_bytes preferred_plane client_unit
               client_pid) f.

(** [w.write_all(bytes).await] *)
Definition write_all (bytes : string) : Io (result string unit) :=
  λ f, (Ok (fw_writes w (fr_ticks f)), mkFront (fr_arbiter f) (S (fr_ticks f)), [Write bytes]).
End frontend.

(** * Facts *)

(** The lease is in the table and can still hold or regain memory. *)
Definition live (s : ArbiterState) (id : LeaseId) : bool :=
  match leases s !! id with Some l => is_live (l_state l) | None => false end.

Section liveness.
Context {ho : HashOrder LeaseId ComputeLease}.
Implicit Types (s : ArbiterState).

(** A step that keeps the arbiter well formed and brings none of the leases
    [ids] to life. *)
Definition gentle (ids : LeaseId → Prop) (f : ArbiterState → ArbiterState) : Prop :=
  ∀ s, arbiter_ok s →
    arbiter_ok (f s) ∧ ∀ id, ids id → live (f s) id = true → live s id = true.

Lemma live_store_if P st id s s' k :
  (∀ a, P a = true → is_live a = true) →
  leases s' = store_if P st id (leases s) → live s' k = true → live s k = true.
Proof.
  intros HP Hls. unfold live. rewrite Hls. unfold store_if.
  destruct (leases s !! id) as [l|] eqn:Hid; [|done].
  destruct (P (l_state l)) eqn:HPl; [|done].
  destruct (decide (k = id)) as [->|Hne].
  - intros _. rewrite Hid. by apply HP.
  - by rewrite lookup_insert_ne by done.
Qed.

Lemma running_is_live a : is_running a = true → is_live a = true.
Proof. by destruct a. Qed.

Lemma end_state_dies st id s : is_live st = false → live (end_state st id s) id = false.
Proof.
  intros Hst. unfold live. rewrite end_state_store. unfold store_if.
  destruct (leases s !! id) as [l|] eqn:Hid; [|by rewrite Hid].
  destruct (is_live (l_state l)) eqn:Hl; [by rewrite lookup_insert_eq|by rewrite Hid].
Qed.

Lemma release_gentle ids id : gentle ids (λ s, state_of (release_lease id s)).
Proof.
  intros s Hs. rewrite release_lease_unfold. split; [by apply end_state_ok|].
  intros k _ Hk. eapply live_store_if; [|apply end_state_store|exact Hk]. done.
Qed.

Lemma release_dies id s : live (state_of (release_lease id s)) id = false.
Proof. rewrite release_lease_unfold. by apply end_state_dies. Qed.

Lemma yield_gentle ids id : gentle ids (λ s, state_of (yield_lease id s)).
Proof.
  intros s Hs. rewrite yield_lease_unfold. split; [by apply mark_active_ok|].
  intros k _ Hk. eapply live_store_if; [|apply mark_active_store|exact Hk].
  apply running_is_live.
Qed.

Lemma freeze_gentle ids id : gentle ids (λ s, state_of (freeze_lease id s)).
Proof.
  intros s Hs. rewrite freeze_lease_unfold. split; [by apply mark_active_ok|].
  intros k _ Hk. eapply live_store_if; [|apply mark_active_store|exact Hk].
  apply running_is_live.
Qed.

Lemma thaw_gentle ids id : gentle ids (λ s, state_of (thaw_lease id s)).
Proof.
  intros s Hs. split; [by apply thaw_lease_ok|]. intros k _. unfold live.
  destruct (leases s !! k) as [l|] eqn:Hl.
  - destruct (thaw_lease_move id s k l Hl) as [(st & -> & Hmove)|(-> & _)]; [|done].
    simpl. intros Hst. unfold op_moves in Hmove. apply orb_true_iff in Hmove as [Hm|Hm].
    + apply bool_decide_eq_true in Hm. by rewrite <-Hm.
    + by apply andb_true_iff in Hm as [[_ ?]%andb_true_iff _].
  - rewrite thaw_lease_unfold. destruct (leases s !! id) as [l|] eqn:Hid;
      [|cbn [state_of fst snd]; by rewrite Hl].
    assert (k ≠ id) as Hne by congruence.
    destruct (l_state l); try destruct (thaw_check _ _ _);
      cbn [state_of fst snd with_leases with_planes leases];
      rewrite ?lookup_insert_ne by done; by rewrite Hl.
Qed.

(** A grant brings the lease it returns to life, a refusal none. *)
Lemma acquire_effect psi now fresh pr b pref unit pid s :
  arbiter_ok s → is_u64 b →
  let '(r, s', _) := acquire_lease psi now fresh pr b pref unit pid s in
  arbiter_ok s' ∧
  ∀ id, live s' id = true →
    live s id = true ∨ id = fresh ∧ match r with Ok l => l_id l = id | Err _ => False end.
Proof.
  intros Hs Hb. pose proof (acquire_lease_ok psi now fresh pr b pref unit pid s Hs Hb) as Hok.
  pose proof (ok_keyed _ Hs) as Hkeyed. revert Hok.
  rewrite acquire_unfold. cbn [state_of fst snd].
  destruct (is_critical psi && _); [by auto|].
  destruct (select_plane _ _ _) as [i|e]; [|by auto].
  destruct (reclaimed i pr b s) as [[ps ls] fz] eqn:Hrec.
  assert (Hback : ∀ id l, ls !! id = Some l → is_live (l_state l) = true → live s id = true).
  { intros id l Hl Hlive. unfold live. destruct (leases s !! id) as [l0|] eqn:Hl0.
    - destruct (reclaimed_move _ _ _ _ _ _ _ _ _ Hkeyed Hrec Hl0) as (st & Hst & Hcase).
      rewrite Hl in Hst. injection Hst as ->. simpl in Hlive.
      destruct Hcase as [->|[Hrun _]]; [done|].
      rewrite is_active_running in Hrun. by apply running_is_live.
    - by rewrite (reclaimed_None _ _ _ _ _ _ _ _ Hkeyed Hrec Hl0) in Hl. }
  destruct (_ && negb _); cbn [state_of fst snd]; intros Hok; (split; [done|]); intros id;
    unfold live at 1; simpl.
  - destruct (ls !! id) as [l|] eqn:Hl; [|done]. eauto.
  - destruct (decide (id = fresh)) as [->|Hne]; [by right|].
    rewrite lookup_insert_ne by done.
    destruct (sweep_leases ls !! id) as [l|] eqn:Hl; [|done]. intros Hlive. left.
    apply (Hback id l); [|done]. unfold sweep_leases in Hl. destruct (_ <? _); [|done].
    by apply map_lookup_filter_Some in Hl as [? _].
Qed.

Lemma same_leases_gentle ids f :
  (∀ s, arbiter_ok s → arbiter_ok (f s)) → (∀ s, leases (f s) = leases s) → gentle ids f.
Proof. intros Hok Hls s Hs. split; [by apply Hok|]. intros id _. unfold live. by rewrite Hls. Qed.
End liveness.

(** * The leases a connection must give back *)

(** The identifiers this connection may grant. *)
Definition own (w : FrontWorld) (id : LeaseId) : Prop := ∃ n, fw_fresh w n = id.

Section tracking.
Context {ho : HashOrder LeaseId ComputeLease} (w : FrontWorld).
(** The other tasks keep the arbiter well formed and do not bring the leases
    of this connection to life. *)
Hypothesis Hothers : ∀ n, gentle (own w) (fw_others w n).

(** Every live lease of the connection is among [active]. *)
Definition tracked (active : list LeaseId) (s : ArbiterState) : Prop :=
  arbiter_ok s ∧ ∀ id, own w id → live s id = true → id ∈ active.

(** [m] comes to a result, and takes [tracked before] to [tracked (after _)]. *)
Definition runs {A} (before : list LeaseId) (m : Io A) (after : A → list LeaseId) : Prop :=
  ∀ f, tracked before (fr_arbiter f) →
    ∃ a f' evs, m f = (Ok a, f', evs) ∧ tracked (after a) (fr_arbiter f').

(** Nothing is left to give back. *)
Lemma tracked_nil s :
  tracked [] s ↔ arbiter_ok s ∧ ∀ id, own w id → live s id = false.
Proof.
  unfold tracked. split; intros [Hok Hnone]; (split; [done|]); intros id Hid.
  - destruct (live s id) eqn:Hl; [|done]. by apply Hnone, not_elem_of_nil in Hl.
  - by rewrite Hnone.
Qed.

Lemma tracked_weaken a b s : (∀ id, id ∈ a → id ∈ b) → tracked a s → tracked b s.
Proof. intros Hab [Hok Ha]. split; [done|]. eauto. Qed.

Lemma tracked_others active n s : tracked active s → tracked active (fw_others w n s).
Proof.
  intros [Hok Ha]. destruct (Hothers n s Hok) as [Hok' Hlive]. split; [done|].
  intros id Hid Hl. by apply Ha, Hlive.
Qed.

Lemma tracked_gentle active f s : gentle (own w) f → tracked active s → tracked active (f s).
Proof.
  intros Hf [Hok Ha]. destruct (Hf s Hok) as [Hok' Hlive]. split; [done|].
  intros id Hid Hl. by apply Ha, Hlive.
Qed.

Lemma runs_ret {A} (a : A) active after :
  (∀ id, id ∈ active → id ∈ after a) → runs active (eret a) after.
Proof. intros Hsub f Hf. eexists _, _, _. split; [done|]. by eapply tracked_weaken. Qed.

Lemma runs_bind {A B} (m : Io A) (k : A → Io B) before mid after :
  runs before m mid → (∀ a, runs (mid a) (k a) after) → runs before (ebind m k) after.
Proof.
  intros Hm Hk f Hf. destruct (Hm f Hf) as (a & f1 & evs1 & Heq & Hf1).
  destruct (Hk a f1 Hf1) as (b & f2 & evs2 & Heq2 & Hf2).
  rewrite (ebind_Ok _ _ _ _ _ _ Heq), Heq2. by eexists _, _, _.
Qed.

Lemma runs_look {A} (g : ArbiterState → A) active : runs active (look w g) (λ _, active).
Proof. intros f Hf. eexists _, _, _. split; [done|]. by apply tracked_others. Qed.

Lemma runs_read_pressure active : runs active (read_pressure w) (λ _, active).
Proof. intros f Hf. by eexists _, _, _. Qed.

Lemma runs_read_clock active : runs active (read_clock w) (λ _, active).
Proof. intros f Hf. by eexists _, _, _. Qed.

Lemma runs_write_all bytes active : runs active (write_all w bytes) (λ _, active).
Proof. intros f Hf. by eexists _, _, _. Qed.

Lemma runs_mutate {A} (g : ArbiterState → A * ArbiterState) active :
  gentle (own w) (λ s, (g s).2) → runs active (mutate w g) (λ _, active).
Proof.
  intros Hg f Hf. unfold mutate.
  destruct (g _) as [a s] eqn:Hs. eexists _, _, _. split; [done|]. simpl.
  replace s with ((g (fw_others w (fr_ticks f) (fr_arbiter f))).2) by (by rewrite Hs).
  apply (tracked_gentle active _ _ Hg). by apply tracked_others.
Qed.

Lemma runs_call {A} (m : Arb A) active :
  gentle (own w) (λ s, state_of (m s)) → runs active (call w m) (λ _, active).
Proof.
  intros Hm f Hf. unfold call.
  destruct (m _) as [[r s] ws] eqn:Hs. eexists _, _, _. split; [done|]. simpl.
  replace s with (state_of (m (fw_others w (fr_ticks f) (fr_arbiter f)))) by (by rewrite Hs).
  apply (tracked_gentle active _ _ Hm). by apply tracked_others.
Qed.

(** A released lease need not be tracked any more. *)
Lemma runs_release id active after :
  (∀ k, k ∈ active → k ≠ id → k ∈ after) →
  runs active (call w (release_lease id)) (λ _, after).
Proof.
  intros Hafter f Hf. apply tracked_others with (n := fr_ticks f) in Hf as [Hok Ha].
  unfold call. destruct (release_lease id _) as [[r s] ws] eqn:Hs.
  eexists _, _, _. split; [done|]. simpl.
  assert (s = state_of (release_lease id (fw_others w (fr_ticks f) (fr_arbiter f)))) as ->
    by (by rewrite Hs).
  destruct (release_gentle (own w) id _ Hok) as [Hok' Hlive]. split; [done|].
  intros k Hk Hl. apply Hafter; [by apply Ha, Hlive|]. intros ->.
  by rewrite release_dies in Hl.
Qed.

(** A granted lease is one more to track. *)
Lemma runs_acquire pr b pref unit pid active :
  is_u64 b →
  runs active (acquire w pr b pref unit pid)
    (λ r, match r with Ok l => active ++ [l_id l] | Err _ => active end).
Proof.
  intros Hb f Hf. apply tracked_others with (n := fr_ticks f) in Hf as [Hok Ha].
  unfold acquire, call.
  pose proof (acquire_effect (fw_pressure w (fr_ticks f)) (fw_clock w (fr_ticks f))
    (fw_fresh w (fr_ticks f)) pr b pref unit pid _ Hok Hb) as Heffect.
  destruct (acquire_lease _ _ _ _ _ _ _ _ _) as [[r s] ws]. destruct Heffect as [Hok' Hlive].
  eexists _, _, _. split; [done|]. simpl. split; [done|].
  intros id Hid Hl. apply Hlive in Hl as [Hl|[_ Hr]].
  - pose proof (Ha id Hid Hl). destruct r; [|done]. set_solver.
  - destruct r as [l|e]; [|done]. rewrite Hr. set_solver.
Qed.
End tracking.

Create HintDb runs.
#[export] Hint Resolve runs_look runs_read_pressure runs_read_clock runs_write_all : runs.
#[export] Hint Resolve yield_gentle freeze_gentle thaw_gentle : runs.

(** Run through a handler that does not touch the leases of the connection. *)
Ltac run_steps :=
  repeat first
    [ solve [auto with runs]
    | eapply runs_bind; [by eauto with runs|intros]
    | apply runs_ret; by auto
    | case_match ].

(** * What is written *)

Definition writes_of (evs : list Event) : list string :=
  omap (λ e, match e with Write bytes => Some bytes | Freezer _ => None end) evs.

Section quiet.
Context {ho : HashOrder LeaseId ComputeLease} (w : FrontWorld).

(** [m] comes to a result and writes nothing. *)
Definition quiet {A} (m : Io A) : Prop :=
  ∀ f, ∃ a f' evs, m f = (Ok a, f', evs) ∧ writes_of evs = [].

Lemma writes_of_app evs evs' : writes_of (evs ++ evs') = writes_of evs ++ writes_of evs'.
Proof. apply omap_app. Qed.

Lemma quiet_ret {A} (a : A) : quiet (eret a).
Proof. intros f. by eexists _, _, _. Qed.
Lemma quiet_bind {A B} (m : Io A) (k : A → Io B) :
  quiet m → (∀ a, quiet (k a)) → quiet (ebind m k).
Proof.
  intros Hm Hk f. destruct (Hm f) as (a & f1 & evs1 & Heq & Hw1).
  destruct (Hk a f1) as (b & f2 & evs2 & Heq2 & Hw2).
  rewrite (ebind_Ok _ _ _ _ _ _ Heq), Heq2. eexists _, _, _. split; [done|].
  by rewrite writes_of_app, Hw1, Hw2.
Qed.
Lemma quiet_look {A} (g : ArbiterState → A) : quiet (look w g).
Proof. intros f. by eexists _, _, _. Qed.
Lemma quiet_read_pressure : quiet (read_pressure w).
Proof. intros f. by eexists _, _, _. Qed.
Lemma quiet_read_clock : quiet (read_clock w).
Proof. intros f. by eexists _, _, _. Qed.
Lemma quiet_mutate {A} (g : ArbiterState → A * ArbiterState) : quiet (mutate w g).
Proof. intros f. unfold mutate. destruct (g _). by eexists _, _, _. Qed.
Lemma writes_of_freezer ws : writes_of (Freezer <$> ws) = [].
Proof. by induction ws. Qed.
Lemma quiet_call {A} (m : Arb A) : quiet (call w m).
Proof.
  intros f. unfold call. destruct (m _) as [[r s] ws]. eexists _, _, _. split; [done|].
  apply writes_of_freezer.
Qed.
Lemma quiet_acquire pr b pref unit pid : quiet (acquire w pr b pref unit pid).
Proof. intros f. apply quiet_call. Qed.
End quiet.

Create HintDb quiet.
#[export] Hint Resolve quiet_ret quiet_look quiet_read_pressure quiet_read_clock quiet_mutate
  quiet_call quiet_acquire : quiet.
Ltac quiet_steps :=
  repeat first [solve [auto with quiet] | apply quiet_bind; [by auto with quiet|intros] | case_match].
