(* ===== verification/Varlink.v ===== *)
(** The Varlink service: requests, replies and the handlers of its methods,
    crates/inferenced-daemon/src/varlink/ (protocol.rs, service.rs,
    inferenced1.rs, leases.rs, models.rs). *)
From S2P Require Import Prelude Lease Errors Topology Text Model Host Psi Arbiter Peer Json.
From S2P Require Import VarlinkIdl Frontend.
Local Open Scope Z_scope.

(** * Messages *)

Section messages.
Context {js : Json}.

Record VarlinkRequest := mkVarlinkRequest {
  method : string;
  parameters : option Value;
  more : option bool;
  oneway : option bool;
}.

Record VarlinkReply := mkVarlinkReply {
  reply_parameters : option Value;
  continues : option bool;
  error : option string;
}.

Definition reply_ok (parameters : Value) : VarlinkReply :=
  mkVarlinkReply (Some parameters) None None.
Definition reply_streaming (parameters : Value) (continues : bool) : VarlinkReply :=
  mkVarlinkReply (Some parameters) (Some continues) None.
Definition reply_error (error : string) (parameters : Value) : VarlinkReply :=
  mkVarlinkReply (Some parameters) None (Some error).
End messages.

(** [serde_json::from_slice] of a request. *)
Class RequestText {js : Json} := {
  from_slice : string → result string VarlinkRequest;
}.

Section protocol.
Context {js : Json} {jt : JsonText} {rt : RequestText}.

(** The fields that are present, in the order of the struct. *)
Definition reply_value (r : VarlinkReply) : Value :=
  jobj (option_list (pair "parameters" <$> reply_parameters r)
        ++ option_list (pair "continues" <$> (jbool <$> continues r))
        ++ option_list (pair "error" <$> (jstr <$> error r))).

Definition to_bytes (r : VarlinkReply) : string :=
  match to_vec (reply_value r) with Ok text => text | Err _ => "" end +:+ String nul "".

(** A final NUL is dropped before parsing. *)
Definition parse_request (bytes : string) : result string VarlinkRequest :=
  match from_slice (strip_last nul bytes) with
  | Ok req => Ok req
  | Err e => Err ("Invalid Varlink JSON: " +:+ e)
  end.

Definition make_method_not_found (method : string) : string :=
  to_bytes (reply_error "org.varlink.service.MethodNotFound" (jobj [("method", jstr method)])).

Definition make_invalid_parameter (param : string) : string :=
  to_bytes (reply_error "org.varlink.service.InvalidParameter" (jobj [("parameter", jstr param)])).
End protocol.

(** * Names printed by [derive(Debug)] *)

Definition debug_priority (p : LeasePriority) : string :=
  match p with
  | Batch => "Batch" | Interactive => "Interactive" | EmergencyTriage => "EmergencyTriage"
  end.
Definition debug_lease_state (st : LeaseState) : string :=
  match st with
  | Active => "Active" | Preempting => "Preempting" | Frozen => "Frozen"
  | Preempted => "Preempted" | Revoked => "Revoked" | Expired => "Expired"
  end.
Definition debug_plane_kind (k : ComputePlaneKind) : string :=
  match k with
  | DiscreteGpu => "DiscreteGpu" | IntegratedUma => "IntegratedUma"
  | NpuAccelerator => "NpuAccelerator" | CpuMatrixExtension => "CpuMatrixExtension"
  end.
Definition debug_placement (p : ModelPlacementState) : string :=
  match p with
  | Dormant => "Dormant" | Staged => "Staged" | Resident => "Resident"
  | PinnedTriage => "PinnedTriage"
  end.
Definition debug_level (l : PressureLevel) : string :=
  match l with Normal => "Normal" | Elevated => "Elevated" | Critical => "Critical" end.

Section service.
Context {js : Json} {uu : UuidText} {dp : Display} {uc : Unicode}.
Context {ho : HashOrder LeaseId ComputeLease} {hm : HashOrder string ModelDescriptor}.
Context (w : FrontWorld).

(** [v.get(key).and_then(|v| v.as_str())] and the same for [as_u64] *)
Definition str_field (key : string) (v : Value) : option string := jget key v ≫= as_str.
Definition u64_field (key : string) (v : Value) : option Z := jget key v ≫= as_u64.
Definition jopt {A} (f : A → Value) (o : option A) : Value :=
  match o with Some a => f a | None => jnull end.

Definition invalid_parameter (param : string) : VarlinkReply :=
  reply_error "org.varlink.service.InvalidParameter" (jobj [("parameter", jstr param)]).
Definition error_reply (name : string) (e : Error) : VarlinkReply :=
  reply_error name (jobj [("error", jstr (error_to_string e))]).
Definition ok_empty : VarlinkReply := reply_ok (jobj []).

(** * service.rs *)

(** [env!("CARGO_PKG_VERSION")]: the version of the workspace's manifest. *)
Definition CARGO_PKG_VERSION : string := "0.3.0".

Definition handle_get_info : VarlinkReply :=
  reply_ok (jobj
    [("vendor", jstr "Syntropd Project");
     ("product", jstr "inferenced");
     ("version", jstr CARGO_PKG_VERSION);
     ("url", jstr "https://github.com/syntropd/inferenced");
     ("interfaces",
        jarr [jstr "org.varlink.service"; jstr "io.syntrop.Inference1";
              jstr "io.systemd.inferenced1"])]).

Definition handle_get_interface_description (params : option Value) : VarlinkReply :=
  match params ≫= str_field "interface" with
  | Some iface =>
      if String.eqb iface "org.varlink.service" then
        reply_ok (jobj [("description", jstr ORG_VARLINK_SERVICE_IDL)])
      else if String.eqb iface "io.syntrop.Inference1" then
        reply_ok (jobj [("description", jstr IO_SYNTROP_INFERENCE1_IDL)])
      else if String.eqb iface "io.systemd.inferenced1" then
        reply_ok (jobj [("description", jstr IO_SYSTEMD_INFERENCED1_IDL)])
      else
        reply_error "org.varlink.service.InterfaceNotFound" (jobj [("interface", jstr iface)])
  | None => invalid_parameter "interface"
  end.

(** * leases.rs *)

Definition requested_priority (prio_str : string) : LeasePriority :=
  if String.eqb prio_str "Batch" then Batch
  else if String.eqb prio_str "EmergencyTriage" then EmergencyTriage
  else Interactive.

(** The identity a lease is granted to: that of the peer when it is known,
    else what the parameters claim. *)
Definition attributed (peer_info : option PeerInfo) (unit : option string) (pid : option Z)
    (priority : LeasePriority) : option string * option Z * LeasePriority :=
  match peer_info with
  | Some peer =>
      (Some (slice peer), if 0 <? peer_pid peer then Some (peer_pid peer) else pid,
       if is_batch peer then Batch else priority)
  | None => (unit, pid, priority)
  end.

Definition handle_acquire_lease (params : option Value) (active_leases : list LeaseId)
    (peer_info : option PeerInfo) : Io (VarlinkReply * list LeaseId) :=
  match params with
  | None => eret (invalid_parameter "parameters", active_leases)
  | Some params =>
      let priority := requested_priority (default "Interactive" (str_field "priority" params)) in
      let mem_bytes := default (1024 * 1024 * 1024) (u64_field "memory_bytes" params) in
      let plane := str_field "plane" params in
      let unit := str_field "unit" params in
      let pid := (λ p, p mod u32_limit) <$> u64_field "pid" params in
      let '(verified_unit, verified_pid, priority) := attributed peer_info unit pid priority in
      (let! r := acquire w priority mem_bytes plane verified_unit verified_pid in
       match r with
       | Ok lease =>
           eret (reply_ok (jobj
                   [("lease_id", jstr (show_lease_id (l_id lease)));
                    ("plane_id", jstr (l_plane_id lease));
                    ("allocated_memory", jnum (l_allocated_memory_bytes lease))]),
                 active_leases ++ [l_id lease])
       | Err e => eret (error_reply "io.systemd.inferenced1.ResourceExhaustion" e, active_leases)
       end)%eff
  end.

Definition parse_lease_id (params : option Value) : result VarlinkReply LeaseId :=
  match parse_uuid (default "" (params ≫= str_field "lease_id")) with
  | Some u => Ok (mkLeaseId u)
  | None => Err (invalid_parameter "lease_id")
  end.

Definition handle_release_lease (params : option Value) (active_leases : list LeaseId) :
    Io (VarlinkReply * list LeaseId) :=
  match parse_lease_id params with
  | Err e => eret (e, active_leases)
  | Ok lease_id =>
      (let! r := call w (release_lease lease_id) in
       match r with
       | Ok _ => eret (ok_empty, List.filter (λ id, negb (bool_decide (id = lease_id))) active_leases)
       | Err e => eret (error_reply "io.systemd.inferenced1.LeaseNotFound" e, active_leases)
       end)%eff
  end.

Definition handle_yield (params : option Value) : Io VarlinkReply :=
  match parse_lease_id params with
  | Err e => eret e
  | Ok lease_id =>
      (let! r := call w (yield_lease lease_id) in
       match r with
       | Ok _ => eret ok_empty
       | Err e => eret (error_reply "io.systemd.inferenced1.LeaseNotFound" e)
       end)%eff
  end.

Definition handle_freeze (params : option Value) : Io VarlinkReply :=
  match parse_lease_id params with
  | Err e => eret e
  | Ok lease_id =>
      (let! r := call w (freeze_lease lease_id) in
       match r with
       | Ok _ => eret ok_empty
       | Err e => eret (error_reply "io.systemd.inferenced1.LeaseNotFound" e)
       end)%eff
  end.

Definition handle_thaw (params : option Value) : Io VarlinkReply :=
  match parse_lease_id params with
  | Err e => eret e
  | Ok lease_id =>
      (let! r := call w (thaw_lease lease_id) in
       match r with
       | Ok _ => eret ok_empty
       | Err e => eret (error_reply "io.systemd.inferenced1.ResourceExhaustion" e)
       end)%eff
  end.

Definition lease_value (l : ComputeLease) : Value :=
  jobj [("id", jstr (show_lease_id (l_id l)));
        ("plane_id", jstr (l_plane_id l));
        ("allocated_memory", jnum (l_allocated_memory_bytes l));
        ("priority", jstr (debug_priority (l_priority l)));
        ("state", jstr (debug_lease_state (l_state l)));
        ("client_unit", jopt jstr (l_client_unit l));
        ("client_pid", jopt jnum (l_client_pid l))].

Definition handle_list_leases : Io VarlinkReply :=
  (let! leases := look w list_leases in
   eret (reply_ok (jobj [("leases", jarr (lease_value <$> leases))])))%eff.

(** * models.rs *)

Definition model_value (m : ModelDescriptor) : Value :=
  jobj [("id", jstr (m_id m));
        ("format", jstr (m_format m));
        ("path", jstr (to_string_lossy (m_path m)));
        ("estimated_memory", jnum (m_estimated_memory_bytes m));
        ("placement", jstr (debug_placement (m_placement m)))].

Definition handle_list_models : Io VarlinkReply :=
  (let! models := look w list_models in
   eret (reply_ok (jobj [("models", jarr (model_value <$> models))])))%eff.

Definition handle_register_model (params : option Value) : Io VarlinkReply :=
  match params with
  | None => eret (invalid_parameter "parameters")
  | Some p =>
      (let! now := read_clock w in
       let desc :=
         mkModelDescriptor (default "" (str_field "id" p)) (default "GGUF" (str_field "format" p))
           (default "" (str_field "path" p)) (default 0 (u64_field "estimated_bytes" p))
           Dormant None now 0 None in
       mutate w (λ s, (tt, register_model desc s)) ;!
       eret ok_empty)%eff
  end.

(** [p.get(a).or_else(|| p.get(b)).and_then(|v| v.as_str()).unwrap_or("")] *)
Definition either_field (a b : string) (p : Value) : string :=
  default "" ((match jget a p with Some v => Some v | None => jget b p end) ≫= as_str).

Definition model_not_found (model_id : string) : VarlinkReply :=
  reply_error "io.systemd.inferenced1.ModelNotFound" (jobj [("model", jstr model_id)]).

Definition handle_evict_model (params : option Value) : Io VarlinkReply :=
  match params with
  | None => eret (invalid_parameter "parameters")
  | Some p =>
      let model_id := either_field "model" "id" p in
      if is_empty model_id then eret (invalid_parameter "model")
      else
        (let! removed := mutate w (arbiter_remove_model model_id) in
         match removed with
         | Some _ => eret ok_empty
         | None => eret (model_not_found model_id)
         end)%eff
  end.

Definition handle_pin_model (params : option Value) : Io VarlinkReply :=
  match params with
  | None => eret (invalid_parameter "parameters")
  | Some p =>
      let model_id := either_field "model" "id" p in
      let plane_id := either_field "plane" "plane_id" p in
      if is_empty model_id || is_empty plane_id then
        eret (invalid_parameter (if is_empty model_id then "model" else "plane"))
      else
        (let! pinned := mutate w (pin_model_for_triage model_id plane_id) in
         if pinned : bool then eret ok_empty else eret (model_not_found model_id))%eff
  end.

(** * inferenced1.rs *)

Definition handle_get_status : Io VarlinkReply :=
  (let! topo := look w get_topology in
   let! leases := look w list_leases in
   let! psi := read_pressure w in
   eret (reply_ok (jobj
     [("status", jstr "active");
      ("version", jstr "0.1.0");
      ("daemon", jstr "systemd-inferenced");
      ("planes_count", jnum (Z.of_nat (length (t_planes topo))));
      ("leases_count", jnum (Z.of_nat (length leases)));
      ("pressure", jstr (debug_level (level psi)))])))%eff.

Definition plane_value (p : ComputePlane) : Value :=
  jobj [("id", jstr (p_id p));
        ("name", jstr (p_name p));
        ("kind", jstr (debug_plane_kind (p_kind p)));
        ("total_memory", jnum (p_total_memory_bytes p));
        ("available_memory", jnum (p_available_memory_bytes p));
        ("is_triage_reserved", jbool (p_is_triage_reserved p))].

Definition handle_list_planes : Io VarlinkReply :=
  (let! topo := look w get_topology in
   eret (reply_ok (jobj [("planes", jarr (plane_value <$> t_planes topo))])))%eff.

Definition handle_get_topology : Io VarlinkReply :=
  (let! topo := look w get_topology in
   eret (reply_ok (jobj
     [("planes", jarr (plane_value <$> t_planes topo));
      ("total_ram", jnum (t_total_system_ram_bytes topo));
      ("available_ram", jnum (t_available_system_ram_bytes topo));
      ("cpu_cores", jnum (t_cpu_cores_total topo))])))%eff.

Definition handle_get_pressure : Io VarlinkReply :=
  (let! psi := read_pressure w in
   eret (reply_ok (jobj
     [("level", jstr (debug_level (level psi)));
      ("cpu_some", jfloat (cpu_some_avg10 psi));
      ("memory_some", jfloat (memory_some_avg10 psi));
      ("io_some", jfloat (io_some_avg10 psi))])))%eff.

Context {jt : JsonText}.

Definition stream_tokens (prompt : string) : list string :=
  ["Inference: "; "Analyzing prompt '"; prompt;
   "'. Execution dispatched via systemd-inferenced."].

(** [for (i, token) in tokens.iter().enumerate()]; failed writes are ignored. *)
Fixpoint stream_from (i len : nat) (tokens : list string) : Io unit :=
  match tokens with
  | [] => eret tt
  | token :: tokens' =>
      (let! _ := write_all w (to_bytes
         (reply_streaming (jobj [("chunk", jstr token)]) (i <? len - 1)%nat)) in
       stream_from (S i) len tokens')%eff
  end.

Definition handle_stream_inference (params : option Value) : Io unit :=
  let tokens := stream_tokens (default "" (params ≫= str_field "prompt")) in
  stream_from 0 (length tokens) tokens.

(** [Some(handler(..).await)] for the handlers that do not touch the
    connection's leases *)
Definition replying (active_leases : list LeaseId) (h : Io VarlinkReply) :
    Io (option VarlinkReply * list LeaseId) :=
  (let! r := h in eret (Some r, active_leases))%eff.
Definition replying_leases (h : Io (VarlinkReply * list LeaseId)) :
    Io (option VarlinkReply * list LeaseId) :=
  (let! ra := h in eret (Some ra.1, ra.2))%eff.

Definition sub_method (method : string) : option string :=
  match strip_prefix "io.syntrop.Inference1." method with
  | Some sub => Some sub
  | None => strip_prefix "io.systemd.inferenced1." method
  end.

Definition handle_method (method : string) (params : option Value)
    (active_leases : list LeaseId) (peer_info : option PeerInfo) :
    Io (option VarlinkReply * list LeaseId) :=
  let reply := replying active_leases in
  match sub_method method with
  | None => eret (None, active_leases)
  | Some sub =>
      let named := String.eqb sub in
      if named "GetStatus" || named "GetInfo" then reply handle_get_status
      else if named "ListPlanes" || named "ListDevices" then reply handle_list_planes
      else if named "GetTopology" then reply handle_get_topology
      else if named "GetPressure" then reply handle_get_pressure
      else if named "AcquireLease" then
        replying_leases (handle_acquire_lease params active_leases peer_info)
      else if named "ReleaseLease" then
        replying_leases (handle_release_lease params active_leases)
      else if named "Yield" then reply (handle_yield params)
      else if named "Freeze" || named "FreezeLease" then reply (handle_freeze params)
      else if named "Thaw" || named "ThawLease" then reply (handle_thaw params)
      else if named "ListLeases" then reply handle_list_leases
      else if named "ListModels" then reply handle_list_models
      else if named "RegisterModel" then reply (handle_register_model params)
      else if named "EvictModel" then reply (handle_evict_model params)
      else if named "PinModel" then reply (handle_pin_model params)
      else if named "StreamInference" then
        (handle_stream_inference params ;! eret (None, active_leases))%eff
      else eret (None, active_leases)
  end.
End service.
