(* ===== verification/Session.v ===== *)
(** A Varlink connection, from its first message to the reclaim of its leases:
    crates/inferenced-daemon/src/varlink/mod.rs. *)
From S2P Require Import Prelude Lease Errors Topology Text Model Host Psi Arbiter Ledger Grant.
From S2P Require Import Runs Lifecycle Acquire Peer Json Frontend Varlink.
Local Open Scope Z_scope.

(** The limit of [take(1024 * 1024)] *)
Definition MAX_MESSAGE : Z := 1024 * 1024.

(** [take(limit).read_until(0, &mut buf)] on what the client still sends: the
    bytes read, those left, and whether it stopped before the end of the
    input, at a NUL or at the limit. *)
Fixpoint read_until (limit : Z) (input : string) : string * string * bool :=
  if limit <=? 0 then ("", input, true)
  else match input with
       | EmptyString => ("", "", false)
       | String a input' =>
           if Ascii.eqb a nul then (String a "", input', true)
           else let '(buf, rest, complete) := read_until (limit - 1) input' in
                (String a buf, rest, complete)
       end.

Section session.
Context {js : Json} {jt : JsonText} {rt : RequestText} {uu : UuidText} {dp : Display} {uc : Unicode}.
Context {ho : HashOrder LeaseId ComputeLease} {hm : HashOrder string ModelDescriptor}.
Context (w : FrontWorld).

(** [match method { .. }] *)
Definition dispatch (req : VarlinkRequest) (active_leases : list LeaseId)
    (peer_info : option PeerInfo) : Io (option VarlinkReply * list LeaseId) :=
  if String.eqb (method req) "org.varlink.service.GetInfo" then
    eret (Some handle_get_info, active_leases)
  else if String.eqb (method req) "org.varlink.service.GetInterfaceDescription" then
    eret (Some (handle_get_interface_description (parameters req)), active_leases)
  else handle_method w (method req) (parameters req) active_leases peer_info.

(** What follows: the failure of a write ends the loop, that of the
    not-found message does not. The writer is there for the whole loop. *)
Definition answer (method : string) (maybe_reply : option VarlinkReply) : Io (option string) :=
  match maybe_reply with
  | Some reply =>
      (let! r := write_all w (to_bytes reply) in
       eret match r with Err e => Some e | Ok _ => None end)%eff
  | None =>
      if negb (contains method "StreamInference") then
        (let! _ := write_all w (make_method_not_found method) in eret None)%eff
      else eret None
  end.

(** The loop: why it ended, and the leases of the connection. [failure] is
    the read error that follows the input, if it does not just end. *)
Fixpoint serve (fuel : nat) (input : string) (failure : option string)
    (peer_info : option PeerInfo) (active_leases : list LeaseId) : Io (Stop * list LeaseId) :=
  match fuel with
  | O => eret (OutOfFuel, active_leases)
  | S fuel' =>
      let '(buf, rest, complete) := read_until MAX_MESSAGE input in
      match (if complete then None else failure) with
      | Some e => eret (ReadFailed e, active_leases)
      | None =>
          if is_empty buf then eret (Disconnected, active_leases)
          else match parse_request buf with
               | Err e => eret (BadRequest e, active_leases)
               | Ok req =>
                   (let! ra := dispatch req active_leases peer_info in
                    let! failed := answer (method req) ra.1 in
                    match failed with
                    | Some e => eret (WriteFailed e, ra.2)
                    | None => serve fuel' rest failure peer_info ra.2
                    end)%eff
               end
      end
  end.

(** [for lease_id in active_leases { let _ = arbiter.release_lease(..) }] *)
Fixpoint reclaim_leases (active_leases : list LeaseId) : Io unit :=
  match active_leases with
  | [] => eret tt
  | lease_id :: rest => (let! _ := call w (release_lease lease_id) in reclaim_leases rest)%eff
  end.

(** The task of one connection; every round reads at least one byte. *)
Definition session (input : string) (failure : option string) (peer_info : option PeerInfo) :
    Io Stop :=
  (let! sa := serve (S (String.length input)) input failure peer_info [] in
   reclaim_leases sa.2 ;!
   eret sa.1)%eff.
End session.

(** * Facts *)

(** ** The handlers keep track *)

Section handlers.
Context {js : Json} {jt : JsonText} {rt : RequestText} {uu : UuidText} {dp : Display} {uc : Unicode}.
Context {ho : HashOrder LeaseId ComputeLease} {hm : HashOrder string ModelDescriptor}.
Context (w : FrontWorld).
Hypothesis Hothers : ∀ n, gentle (own w) (fw_others w n).
Implicit Types (active : list LeaseId).

Lemma register_gentle d : gentle (own w) (register_model d).
Proof. apply same_leases_gentle; [|done]. intros s. apply with_registry_ok. Qed.
Lemma remove_gentle id : gentle (own w) (λ s, (arbiter_remove_model id s).2).
Proof. apply same_leases_gentle; [|done]. intros s. apply with_registry_ok. Qed.
Lemma pin_gentle id plane_id : gentle (own w) (λ s, (pin_model_for_triage id plane_id s).2).
Proof.
  apply same_leases_gentle; intros s; unfold pin_model_for_triage;
    destruct (pin_for_triage _ _ _); [apply with_registry_ok|done].
Qed.

Lemma u64_field_bounds key v : is_u64 (default (1024 * 1024 * 1024) (u64_field key v)).
Proof.
  unfold u64_field. destruct (jget key v) as [x|]; [|by vm_compute]. cbn [mbind option_bind].
  destruct (as_u64 x) as [n|] eqn:Hn; [|by vm_compute]. by eapply as_u64_bounds.
Qed.

Lemma handle_acquire_lease_runs params active peer :
  runs w active (handle_acquire_lease w params active peer) snd.
Proof.
  unfold handle_acquire_lease. destruct params as [params|]; [|by apply runs_ret].
  destruct (attributed _ _ _ _) as [[unit pid] pr].
  eapply runs_bind; [apply runs_acquire; [done|apply u64_field_bounds]|].
  intros [l|e]; by apply runs_ret.
Qed.

Lemma handle_release_lease_runs params active :
  runs w active (handle_release_lease w params active) snd.
Proof.
  unfold handle_release_lease. destruct (parse_lease_id params) as [id|e]; [|by apply runs_ret].
  eapply runs_bind.
  - apply (runs_release w Hothers id active
      (List.filter (λ k, negb (bool_decide (k = id))) active)).
    intros k Hk Hne. apply list_elem_of_In, filter_In. split; [by apply list_elem_of_In|].
    by rewrite bool_decide_false.
  - intros [|e]; apply runs_ret; simpl; [done|]. intros k Hk.
    by apply list_elem_of_In, filter_In in Hk as [Hk%list_elem_of_In _].
Qed.

Lemma stream_from_runs active i len tokens :
  runs w active (stream_from w i len tokens) (λ _, active).
Proof.
  revert i. induction tokens as [|t tokens IH]; intros i; [by apply runs_ret|].
  eapply runs_bind; [apply runs_write_all|]. intros ?. apply IH.
Qed.

Lemma replying_runs active h :
  runs w active h (λ _, active) → runs w active (replying active h) snd.
Proof. intros Hh. eapply runs_bind; [exact Hh|]. intros r. by apply runs_ret. Qed.
Lemma replying_leases_runs active h :
  runs w active h snd → runs w active (replying_leases h) snd.
Proof. intros Hh. eapply runs_bind; [exact Hh|]. intros r. by apply runs_ret. Qed.

Lemma call_runs {A} (m : Arb A) active :
  gentle (own w) (λ s, state_of (m s)) → runs w active (call w m) (λ _, active).
Proof. by apply runs_call. Qed.
Lemma look_runs {A} (g : ArbiterState → A) active : runs w active (look w g) (λ _, active).
Proof. by apply runs_look. Qed.
Lemma mutate_runs {A} (g : ArbiterState → A * ArbiterState) active :
  gentle (own w) (λ s, (g s).2) → runs w active (mutate w g) (λ _, active).
Proof. by apply runs_mutate. Qed.
Hint Resolve call_runs look_runs mutate_runs register_gentle remove_gentle pin_gentle : runs.

Lemma handle_method_runs method params active peer :
  runs w active (handle_method w method params active peer) snd.
Proof.
  unfold handle_method. destruct (sub_method method) as [sub|]; [|by apply runs_ret]. cbv zeta.
  repeat match goal with |- context [if ?b then _ else _] => destruct b end;
    first [apply replying_runs|apply replying_leases_runs|idtac].
  - unfold handle_get_status. run_steps.
  - unfold handle_list_planes. run_steps.
  - unfold handle_get_topology. run_steps.
  - unfold handle_get_pressure. run_steps.
  - apply handle_acquire_lease_runs.
  - apply handle_release_lease_runs.
  - unfold handle_yield. run_steps.
  - unfold handle_freeze. run_steps.
  - unfold handle_thaw. run_steps.
  - unfold handle_list_leases. run_steps.
  - unfold handle_list_models. run_steps.
  - unfold handle_register_model. run_steps.
  - unfold handle_evict_model. run_steps.
  - unfold handle_pin_model. run_steps.
  - eapply runs_bind; [apply stream_from_runs|]. intros ?. by apply runs_ret.
  - by apply runs_ret.
Qed.

Lemma dispatch_runs req active peer : runs w active (dispatch w req active peer) snd.
Proof.
  unfold dispatch. destruct (String.eqb _ _); [by apply runs_ret|].
  destruct (String.eqb _ _); [by apply runs_ret|]. apply handle_method_runs.
Qed.

Lemma answer_runs method reply active : runs w active (answer w method reply) (λ _, active).
Proof. unfold answer. run_steps. Qed.

Lemma read_until_split limit input buf rest complete :
  read_until limit input = (buf, rest, complete) → input = buf +:+ rest.
Proof.
  revert limit buf rest complete. induction input as [|a input IH]; intros limit buf rest complete;
    cbn [read_until]; destruct (limit <=? 0); try by intros [= <- <- <-].
  destruct (Ascii.eqb a nul); [by intros [= <- <- <-]|].
  destruct (read_until (limit - 1) input) as [[buf' rest'] c'] eqn:Hr. intros [= <- <- <-].
  by rewrite (IH _ _ _ _ Hr) at 1.
Qed.

Lemma read_until_rest limit input buf rest complete :
  read_until limit input = (buf, rest, complete) → buf ≠ "" →
  (String.length rest < String.length input)%nat.
Proof.
  revert limit buf rest complete. induction input as [|a input IH]; intros limit buf rest complete;
    simpl; destruct (limit <=? 0); try (by intros [= <- <- <-]).
  destruct (Ascii.eqb a nul); [intros [= <- <- <-]; lia|].
  destruct (read_until (limit - 1) input) as [[buf' rest'] c'] eqn:Hr. intros [= <- <- <-] _.
  destruct (decide (buf' = "")) as [->|Hne].
  - assert (Hle : ∀ limit input rest c, read_until limit input = ("", rest, c) →
      (String.length rest ≤ String.length input)%nat).
    { intros l i r c. destruct i as [|b i]; simpl; destruct (l <=? 0); try by intros [= <- <-].
      destruct (Ascii.eqb b nul); [done|]. by destruct (read_until (l - 1) i) as [[? ?] ?]. }
    specialize (Hle _ _ _ _ Hr). lia.
  - specialize (IH _ _ _ _ Hr Hne). lia.
Qed.

(** The loop ends, with every live lease of the connection in its list. *)
Lemma serve_runs fuel input failure peer active f :
  (String.length input < fuel)%nat → tracked w active (fr_arbiter f) →
  ∃ stop active' f' evs,
    serve w fuel input failure peer active f = (Ok (stop, active'), f', evs) ∧
    stop ≠ OutOfFuel ∧ tracked w active' (fr_arbiter f').
Proof.
  revert input active f. induction fuel as [|fuel IH]; intros input active f Hfuel Hf; [lia|].
  cbn [serve]. destruct (read_until MAX_MESSAGE input) as [[buf rest] complete] eqn:Hread.
  destruct (if complete then None else failure); [by eexists _, _, _, _|].
  destruct (is_empty buf) eqn:Hbuf; [by eexists _, _, _, _|].
  destruct (parse_request buf) as [req|e]; [|by eexists _, _, _, _].
  destruct (dispatch_runs req active peer f Hf) as ([reply active1] & f1 & evs1 & H1 & Hf1).
  rewrite (ebind_Ok _ _ _ _ _ _ H1).
  destruct (answer_runs (method req) reply active1 f1 Hf1) as (failed & f2 & evs2 & H2 & Hf2).
  cbn [fst snd] in *. rewrite (ebind_Ok _ _ _ _ _ _ H2).
  destruct failed as [e|]; [by eexists _, _, _, _|].
  assert (buf ≠ "") as Hne by (intros ->; by vm_compute in Hbuf).
  pose proof (read_until_rest _ _ _ _ _ Hread Hne).
  destruct (IH rest active1 f2) as (stop & active' & f' & evs & -> & Hstop & Hf'); [lia|done|].
  by eexists _, _, _, _.
Qed.

Lemma reclaim_leases_runs active : runs w active (reclaim_leases w active) (λ _, []).
Proof.
  induction active as [|id active IH]; [by apply runs_ret|].
  eapply runs_bind; [|intros ?; apply IH]. apply (runs_release w Hothers).
  intros k. set_solver.
Qed.

Lemma session_tracked input failure peer f :
  tracked w [] (fr_arbiter f) →
  ∃ stop f' evs, session w input failure peer f = (Ok stop, f', evs) ∧ stop ≠ OutOfFuel ∧
    tracked w [] (fr_arbiter f').
Proof.
  intros Hf. unfold session.
  destruct (serve_runs (S (String.length input)) input failure peer [] f)
    as (stop & active & f1 & evs1 & H1 & Hstop & Hf1); [lia|done|].
  rewrite (ebind_Ok _ _ _ _ _ _ H1).
  destruct (reclaim_leases_runs active f1 Hf1) as ([] & f2 & evs2 & H2 & Hf2).
  cbn [fst snd]. rewrite (ebind_Ok _ _ _ _ _ _ H2). by eexists _, _, _.
Qed.
End handlers.

(** C8: a connection leaves no lease behind. Whatever the client sends, however
    its messages are cut off, whichever writes fail and whatever the other
    tasks do in between, the task of a connection comes to an end, and then no
    lease it granted can hold or regain memory. *)
Theorem session_leaves_no_lease (js : Json) (jt : JsonText) (rt : RequestText) (uu : UuidText) (dp : Display)
    (uc : Unicode) (ho : HashOrder LeaseId ComputeLease) (hm : HashOrder string ModelDescriptor)
    w input failure peer f :
  (∀ n, gentle (own w) (fw_others w n)) →
  arbiter_ok (fr_arbiter f) → (∀ id, own w id → live (fr_arbiter f) id = false) →
  ∃ stop f' evs, session w input failure peer f = (Ok stop, f', evs) ∧ stop ≠ OutOfFuel ∧
    arbiter_ok (fr_arbiter f') ∧ ∀ id, own w id → live (fr_arbiter f') id = false.
Proof.
  intros Hothers Hok Hnone.
  destruct (session_tracked w Hothers input failure peer f) as (stop & f' & evs & Heq & Hstop & Hf').
  { by apply tracked_nil. }
  exists stop, f', evs. by apply tracked_nil in Hf'.
Qed.

(** ** What is written *)

Section answers.
Context {js : Json} {jt : JsonText} {rt : RequestText} {uu : UuidText} {dp : Display} {uc : Unicode}.
Context {ho : HashOrder LeaseId ComputeLease} {hm : HashOrder string ModelDescriptor}.
Context (w : FrontWorld).

(** The frames of a stream: all but the last announce another one. *)
Definition stream_replies (params : option Value) : list VarlinkReply :=
  let frame last token := reply_streaming (jobj [("chunk", jstr token)]) (negb last) in
  match stream_tokens (default "" (params ≫= str_field "prompt")) with
  | [t0; t1; t2; t3] => [frame false t0; frame false t1; frame false t2; frame true t3]
  | _ => []
  end.

Lemma stream_writes params f :
  ∃ f', handle_stream_inference w params f =
    (Ok tt, f', Write <$> (to_bytes <$> stream_replies params)).
Proof. by eexists. Qed.

Lemma writes_of_writes ws : writes_of (Write <$> ws) = ws.
Proof. induction ws as [|b ws IH]; [done|]. rewrite fmap_cons. cbn. f_equal. exact IH. Qed.

Lemma replying_some active h f :
  quiet h → ∃ reply active' f' evs,
    replying active h f = (Ok (Some reply, active'), f', evs) ∧ writes_of evs = [].
Proof.
  intros Hh. destruct (Hh f) as (r & f' & evs & Heq & Hw). unfold replying.
  rewrite (ebind_Ok _ _ _ _ _ _ Heq). eexists _, _, _, _. split; [done|].
  by rewrite app_nil_r.
Qed.
Lemma replying_leases_some h f :
  quiet h → ∃ reply active' f' evs,
    replying_leases h f = (Ok (Some reply, active'), f', evs) ∧ writes_of evs = [].
Proof.
  intros Hh. destruct (Hh f) as (r & f' & evs & Heq & Hw). unfold replying_leases.
  rewrite (ebind_Ok _ _ _ _ _ _ Heq). eexists _, _, _, _. split; [done|].
  by rewrite app_nil_r.
Qed.

Lemma sub_method_cases method sub :
  sub_method method = Some sub →
  method = "io.syntrop.Inference1." +:+ sub ∨ method = "io.systemd.inferenced1." +:+ sub.
Proof.
  unfold sub_method. destruct (strip_prefix "io.syntrop.Inference1." method) as [s|] eqn:H1.
  - intros [= ->]. left. by apply strip_prefix_Some.
  - intros H2. right. by apply strip_prefix_Some.
Qed.

(** A method either replies, or streams, or is unknown. *)
Lemma handle_method_cases method params active peer f :
  ∃ reply active' f' evs,
    handle_method w method params active peer f = (Ok (reply, active'), f', evs) ∧
    match reply with
    | Some _ => contains method "StreamInference" = false ∧ writes_of evs = []
    | None =>
        if bool_decide (sub_method method = Some "StreamInference")
        then writes_of evs = to_bytes <$> stream_replies params
        else writes_of evs = []
    end.
Proof.
  unfold handle_method. destruct (sub_method method) as [sub|] eqn:Hsub.
  2: { by eexists _, _, _, _. }
  apply sub_method_cases in Hsub.
  assert (Hreply : ∀ o : Io (option VarlinkReply * list LeaseId),
    contains method "StreamInference" = false →
    (∃ reply active' f' evs, o f = (Ok (Some reply, active'), f', evs) ∧ writes_of evs = []) →
    ∃ reply active' f' evs, o f = (Ok (reply, active'), f', evs) ∧
      match reply with
      | Some _ => contains method "StreamInference" = false ∧ writes_of evs = []
      | None =>
          if bool_decide (Some sub = Some "StreamInference")
          then writes_of evs = to_bytes <$> stream_replies params
          else writes_of evs = []
      end).
  { intros o Hc (r & a & f' & evs & Heq & Hw). by exists (Some r), a, f', evs. }
  cbv zeta.
  repeat lazymatch goal with
  | |- context [if ?b then replying _ _ else _] => destruct b eqn:?
  | |- context [if ?b then replying_leases _ else _] => destruct b eqn:?
  end.
  all: lazymatch goal with
    | |- context [if _ then _ else eret _] => idtac
    | |- _ =>
        apply Hreply;
        [ repeat match goal with H : (_ || _) = true |- _ => apply orb_true_iff in H as [H|H] end;
          match goal with H : String.eqb _ _ = true |- _ => apply String.eqb_eq in H; rewrite H in * end;
          match goal with H : _ ∨ _ |- _ => destruct H as [-> | ->] end; vm_compute; reflexivity
        | first [apply replying_some|apply replying_leases_some] ]
    end.
  all: try solve
    [ unfold handle_get_status, handle_list_planes, handle_get_topology, handle_get_pressure,
        handle_acquire_lease, handle_release_lease, handle_yield, handle_freeze, handle_thaw,
        handle_list_leases, handle_list_models, handle_register_model, handle_evict_model,
        handle_pin_model; quiet_steps ].
  clear Hreply. destruct (String.eqb_spec sub "StreamInference") as [->|Hne].
  - destruct (stream_writes params f) as [f' Heq]. rewrite (ebind_Ok _ _ _ _ _ _ Heq).
      eexists None, _, _, _. split; [done|]. by rewrite bool_decide_true, app_nil_r.
  - eexists None, _, _, _. split; [done|]. by rewrite bool_decide_false by congruence.
Qed.

(** ** A table of the methods

    The nested tests of [handle_method] as a table of what answers what. *)

Definition Handler : Type :=
  option Value → list LeaseId → option PeerInfo → Io (VarlinkReply * list LeaseId).

(** A handler that does not touch the connection's leases. *)
Definition aside (h : option Value → Io VarlinkReply) : Handler :=
  λ params active _, (let! r := h params in eret (r, active))%eff.

Definition handlers : list (string * Handler) :=
  [("GetStatus", aside (λ _, handle_get_status w)); ("GetInfo", aside (λ _, handle_get_status w));
   ("ListPlanes", aside (λ _, handle_list_planes w)); ("ListDevices", aside (λ _, handle_list_planes w));
   ("GetTopology", aside (λ _, handle_get_topology w)); ("GetPressure", aside (λ _, handle_get_pressure w));
   ("AcquireLease", handle_acquire_lease w);
   ("ReleaseLease", λ params active _, handle_release_lease w params active);
   ("Yield", aside (handle_yield w));
   ("Freeze", aside (handle_freeze w)); ("FreezeLease", aside (handle_freeze w));
   ("Thaw", aside (handle_thaw w)); ("ThawLease", aside (handle_thaw w));
   ("ListLeases", aside (λ _, handle_list_leases w)); ("ListModels", aside (λ _, handle_list_models w));
   ("RegisterModel", aside (handle_register_model w)); ("EvictModel", aside (handle_evict_model w));
   ("PinModel", aside (handle_pin_model w))].

(** Who answers a method: the service itself, or a handler of one of the two
    names of the interface. *)
Definition handler_of (m : string) : option Handler :=
  if String.eqb m "org.varlink.service.GetInfo" then Some (aside (λ _, eret handle_get_info))
  else if String.eqb m "org.varlink.service.GetInterfaceDescription" then
    Some (aside (λ params, eret (handle_get_interface_description params)))
  else sub ← sub_method m; snd <$> find_first (λ mh, String.eqb sub mh.1) handlers.

Definition streams (m : string) : bool := bool_decide (sub_method m = Some "StreamInference").

Lemma aside_replying h params active peer f :
  replying active (h params) f =
    (let! ra := aside h params active peer in eret (Some ra.1, ra.2))%eff f.
Proof.
  unfold replying, aside, ebind, eret. destruct (h params f) as [[[r|e] f1] evs]; simpl; [|done].
  by rewrite !app_nil_r.
Qed.

Lemma dispatch_handler req active peer f :
  dispatch w req active peer f =
    match handler_of (method req) with
    | Some h => (let! ra := h (parameters req) active peer in eret (Some ra.1, ra.2))%eff f
    | None =>
        if streams (method req)
        then (handle_stream_inference w (parameters req) ;! eret (None, active))%eff f
        else (Ok (None, active), f, [])
    end.
Proof.
  unfold dispatch, handler_of, streams.
  destruct (String.eqb (method req) "org.varlink.service.GetInfo"); [done|].
  destruct (String.eqb (method req) "org.varlink.service.GetInterfaceDescription"); [done|].
  unfold handle_method. destruct (sub_method (method req)) as [sub|]; [|by rewrite bool_decide_false].
  cbn [mbind option_bind handlers find_first fst]. cbv zeta.
  repeat match goal with
  | |- context [String.eqb sub ?n] =>
      destruct (String.eqb_spec sub n) as [->|?];
      [solve [cbn [orb]; first [apply aside_replying|reflexivity|by rewrite bool_decide_true]]|cbn [orb]]
  end.
  by rewrite bool_decide_false by congruence.
Qed.

(** A handler in the table replies, and writes nothing itself. *)
Lemma dispatch_replies req active peer f handler :
  handler_of (method req) = Some handler →
  ∃ reply active' f1 evs, handler (parameters req) active peer f = (Ok (reply, active'), f1, evs) ∧
    writes_of evs = [] ∧ contains (method req) "StreamInference" = false.
Proof.
  intros Hh. pose proof (dispatch_handler req active peer f) as Hd. rewrite Hh in Hd.
  assert (Hcase : ∃ reply active' f' evs, dispatch w req active peer f = (Ok (reply, active'), f', evs) ∧
    (is_Some reply → contains (method req) "StreamInference" = false ∧ writes_of evs = [])).
  { unfold dispatch. destruct (String.eqb_spec (method req) "org.varlink.service.GetInfo") as [->|_];
      [by eexists (Some _), _, _, _|].
    destruct (String.eqb_spec (method req) "org.varlink.service.GetInterfaceDescription")
      as [->|_]; [by eexists (Some _), _, _, _|].
    destruct (handle_method_cases (method req) (parameters req) active peer f)
      as ([r|] & a & f' & evs & Heq & Hr); rewrite Heq; eexists _, _, _, _; (split; [done|]).
    - done.
    - by intros [? ?]. }
  destruct Hcase as (reply & active' & f' & evs & Heq & Hreply). rewrite Heq in Hd.
  unfold ebind, eret in Hd. destruct (handler (parameters req) active peer f) as [[[[r a]|e] f1] evs1]; [|done].
  rewrite app_nil_r in Hd. simplify_eq/=. destruct Hreply as [Hc Hw]; [by eexists|].
  by exists r, a, f1, evs1.
Qed.

Lemma streams_contains m : streams m = true → contains m "StreamInference" = true.
Proof. intros Hs%bool_decide_eq_true. apply sub_method_cases in Hs as [-> | ->]; by vm_compute. Qed.
End answers.

(** C16: every request is answered in full, and by whom it should be. Each thing
    written is one message ended by its only NUL. A method in the table gets
    exactly one reply, the one its handler makes, and has the effect its handler
    has. A streaming request gets its four frames, of which all but the last
    announce another. Any other method changes nothing and gets exactly one
    reply, the error [MethodNotFound] with its name, with one exception: an
    unknown method whose name contains [StreamInference] gets no reply at all. *)
Theorem every_request_answered (js : Json) (jt : JsonText) (rt : RequestText) (uu : UuidText) (dp : Display)
    (uc : Unicode) (ho : HashOrder LeaseId ComputeLease) (hm : HashOrder string ModelDescriptor)
    w req active peer f :
  (∀ v text, to_vec v = Ok text → lacks nul text = true) →
  let answered := (let! ra := dispatch w req active peer in answer w (method req) ra.1)%eff f in
  let out := writes_of (calls_of answered) in
  let f' := state_of answered in
  Forall (λ b, ∃ text, b = text +:+ String nul "" ∧ lacks nul text = true) out ∧
  match handler_of w (method req) with
  | Some handler =>
      ∃ reply active' f1 evs,
        handler (parameters req) active peer f = (Ok (reply, active'), f1, evs) ∧
        out = [to_bytes reply] ∧ fr_arbiter f' = fr_arbiter f1
  | None =>
      if streams (method req) then out = to_bytes <$> stream_replies (parameters req)
      else
        fr_arbiter f' = fr_arbiter f ∧
        out = if contains (method req) "StreamInference" then []
              else [to_bytes (reply_error "org.varlink.service.MethodNotFound"
                                (jobj [("method", jstr (method req))]))]
  end.
Proof.
  intros Htext answered out f'.
  assert (Hframe : ∀ r, ∃ text, to_bytes r = text +:+ String nul "" ∧ lacks nul text = true).
  { intros r. unfold to_bytes. eexists. split; [done|].
    destruct (to_vec (reply_value r)) as [text|] eqn:Hr; [by eapply Htext|done]. }
  assert (Hframes : ∀ rs, Forall (λ b, ∃ text, b = text +:+ String nul "" ∧ lacks nul text = true)
    (to_bytes <$> rs)).
  { intros rs. apply Forall_fmap, Forall_true. intros r. apply Hframe. }
  subst out f' answered. pose proof (dispatch_handler w req active peer f) as Hd.
  destruct (handler_of w (method req)) as [handler|] eqn:Hh.
  - destruct (dispatch_replies w req active peer f handler Hh) as (reply & active' & f1 & evs & Hrun & Hw & Hc).
    rewrite (ebind_Ok _ _ _ _ _ _ Hrun) in Hd. unfold eret in Hd. cbv beta iota in Hd. rewrite app_nil_r in Hd. cbn [fst snd] in Hd.
    rewrite (ebind_Ok _ _ _ _ _ _ Hd). unfold answer, ebind, write_all, eret. cbn.
    rewrite writes_of_app, Hw. split; [apply (Hframes [reply])|]. by exists reply, active', f1, evs.
  - destruct (streams (method req)) eqn:Hs.
    + destruct (stream_writes w (parameters req) f) as [f1 Hf1].
      rewrite (ebind_Ok _ _ _ _ _ _ Hf1) in Hd. unfold eret in Hd. cbv beta iota in Hd. rewrite app_nil_r in Hd.
      rewrite (ebind_Ok _ _ _ _ _ _ Hd). unfold answer. cbn [fst].
      rewrite streams_contains by done. unfold eret, calls_of. cbn [negb]. cbv beta iota. cbn [snd].
      rewrite app_nil_r, writes_of_writes.
      split; [apply Hframes|done].
    + rewrite (ebind_silent _ _ _ _ _ Hd). unfold answer. cbn [fst].
      destruct (contains (method req) "StreamInference"); cbn; [by split; [constructor|]|].
      split; [apply (Hframes [_])|done].
Qed.

(** ** Whose lease it is *)

Section attribution.
Context {ho : HashOrder LeaseId ComputeLease}.

(** Nothing ranks below a batch job, so it preempts nothing. *)
Lemma batch_no_victims i b s vs rest : victims i Batch b s vs rest → vs = [].
Proof.
  intros Hv. destruct vs as [|v vs]; [done|].
  destruct (victims_candidates _ _ _ _ _ _ Hv v) as (l & _ & Hp); [set_solver|].
  unfold preemptable_on in Hp. apply andb_true_iff in Hp as [_ Hr%Z.ltb_lt].
  destruct (l_priority l); simpl in Hr; lia.
Qed.
End attribution.

(** C17: a client cannot pass for another. Over a connection whose peer is
    known, a lease is granted to the slice and the process of the peer,
    whatever the parameters claim; and a peer in the batch slice gets [Batch]
    leases only: its requests never signal or freeze anyone and leave every
    other live lease as it is. *)
Theorem peer_confined (js : Json) (uu : UuidText) (dp : Display)
    (ho : HashOrder LeaseId ComputeLease) w params active peer f r active' f' evs :
  let s := fw_others w (fr_ticks f) (fr_arbiter f) in
  arbiter_ok s →
  handle_acquire_lease w (Some params) active (Some peer) f = (Ok (r, active'), f', evs) →
  (active' = active ∨ ∃ l,
     active' = active ++ [l_id l] ∧ leases (fr_arbiter f') !! l_id l = Some l ∧
     l_client_unit l = Some (slice peer) ∧
     (0 < peer_pid peer → l_client_pid l = Some (peer_pid peer)) ∧
     (is_batch peer = true → l_priority l = Batch)) ∧
  (is_batch peer = true →
     evs = [] ∧
     ∀ k l, leases s !! k = Some l → is_live (l_state l) = true → k ≠ fw_fresh w (fr_ticks f) →
       leases (fr_arbiter f') !! k = Some l).
Proof.
  intros s Hs Hacq. pose proof (ok_keyed _ Hs) as Hkeyed. revert Hacq.
  unfold handle_acquire_lease, attributed, ebind, acquire, call. fold s.
  set (pr := if is_batch peer then Batch else _).
  set (b := default _ (u64_field _ _)). set (pid := if 0 <? peer_pid peer then _ else _).
  destruct (acquire_lease _ _ _ _ _ _ _ _ s) as [[o s'] ws] eqn:Ho.
  apply (acquire_inv _ _ _ _ _ _ _ _ _ _ _ _ Hkeyed) in Ho.
  assert (Hbatch : is_batch peer = true → pr = Batch) by (unfold pr; by intros ->).
  assert (Hpid : 0 < peer_pid peer → pid = Some (peer_pid peer)).
  { intros Hp. unfold pid. by rewrite (proj2 (Z.ltb_lt _ _)). }
  clearbody pr b pid.
  destruct Ho as [(_ & _ & -> & -> & ->)|[_ [(e & _ & -> & -> & ->)|Ho]]].
  1, 2: intros; simplify_eq/=; auto.
  destruct Ho as (i & p & vs & rest & _ & Hp & Hv & Ho).
  assert (Hvs : is_batch peer = true → vs = []).
  { intros Hb. rewrite (Hbatch Hb) in Hv. by eapply batch_no_victims. }
  destruct Ho as [(_ & _ & -> & -> & ->)|(_ & -> & -> & ->)]; intros Heq; simplify_eq/=.
  - split; [by left|]. intros Hb. rewrite (Hvs Hb). split; [done|]. intros k l Hl _ _. simpl.
    by rewrite (preempted_lookup _ _ _ _ Hl).
  - split.
    + right. eexists (new_lease _ _ _ _ _ _ _).
      split_and!; [done|apply lookup_insert_eq|done|exact Hpid|exact Hbatch].
    + intros Hb. rewrite (Hvs Hb). split; [done|]. intros k l Hl Hlive Hk. simpl.
      rewrite lookup_insert_ne by done.
      destruct (sweep_leases_spec (preempt_all [] (leases s)) k l) as [?|(_ & Hdead & _)];
        [by rewrite (preempted_lookup _ _ _ _ Hl)|done|congruence].
Qed.
