(* ===== verification/Sentry.v ===== *)
(** The emergency triage listener:
    crates/inferenced-daemon/src/sentry/mod.rs. *)
From S2P Require Import Prelude Lease Errors Topology Text Host Psi Arbiter Ledger Grant Runs.
From S2P Require Import Lifecycle Json Frontend.
Local Open Scope Z_scope.

Record SentryTriageResponse := mkSentryTriageResponse {
  status : string;
  incident_id : option string;
  allocated_plane : string;
  plane_assigned : string;
  queue_latency_us : Z;
  preemption_triggered : bool;
  analysis : string;
}.

Section sentry.
Context {js : Json} {jt : JsonText} {uc : Unicode}.
Context {ho : HashOrder LeaseId ComputeLease}.
Context (w : FrontWorld).

(** [derive(Serialize)], without the incident when there is none. *)
Definition response_value (r : SentryTriageResponse) : Value :=
  jobj ([("status", jstr (status r))]
        ++ option_list (pair "incident_id" <$> (jstr <$> incident_id r))
        ++ [("allocated_plane", jstr (allocated_plane r));
            ("plane_assigned", jstr (plane_assigned r));
            ("queue_latency_us", jnum (queue_latency_us r));
            ("preemption_triggered", jbool (preemption_triggered r));
            ("analysis", jstr (analysis r))]).

(** What does not parse is kept as text. *)
Definition payload_json (chunk : string) : Value :=
  match value_from_slice chunk with
  | Ok v => v
  | Err _ => jobj [("raw", jstr (to_string_lossy chunk))]
  end.

Definition triage_response (incident_id : option string) (lease : ComputeLease) :
    SentryTriageResponse :=
  mkSentryTriageResponse "accepted" incident_id (l_plane_id lease) (l_plane_id lease) 0 true
    ("Emergency compute isolated on plane " +:+ l_plane_id lease
     +:+ ". AI hardware state preserved.").

(** One incident: the lease is released before a failed write is reported. *)
Definition handle_incident (chunk : string) : Io unit :=
  let payload := payload_json chunk in
  let incident_id := jget "incident_id" payload ≫= as_str in
  let unit_name :=
    default "systemd-sentry.service" (jget "unit_name" payload ≫= as_str) in
  (let! granted :=
     acquire w EmergencyTriage (1024 * 1024 * 1024) None (Some unit_name) None in
   match granted with
   | Err e => ethrow (Refused e)
   | Ok lease =>
       match to_vec (response_value (triage_response incident_id lease)) with
       | Err e => ethrow (WriteFailed e)
       | Ok reply_bytes =>
           let! write_res := write_all w reply_bytes in
           let! _ := call w (release_lease (l_id lease)) in
           match write_res with
           | Err e => ethrow (WriteFailed e)
           | Ok _ => eret tt
           end
       end
   end)%eff.

(** [handle_sentry_connection]: each read gives up to 64 KiB, nothing at the
    end of the stream, or an error. *)
Fixpoint handle_sentry_connection (reads : list (result string string)) : Io unit :=
  match reads with
  | [] => eret tt
  | Err e :: _ => ethrow (ReadFailed e)
  | Ok chunk :: reads' =>
      if is_empty chunk then eret tt
      else (handle_incident chunk ;! handle_sentry_connection reads')%eff
  end.
End sentry.

(** * Facts *)

Section facts.
Context {js : Json} {jt : JsonText} {uc : Unicode}.
Context {ho : HashOrder LeaseId ComputeLease}.
Context (w : FrontWorld).
Hypothesis Hothers : ∀ n, gentle (own w) (fw_others w n).
(** Serializing a value succeeds: its keys are strings. *)
Hypothesis Htext : ∀ v, is_ok (to_vec v) = true.

Lemma handle_incident_tracked chunk f :
  tracked w [] (fr_arbiter f) → tracked w [] (fr_arbiter (state_of (handle_incident w chunk f))).
Proof.
  intros Hf. unfold handle_incident.
  set (unit_name := default _ _).
  destruct (runs_acquire w Hothers EmergencyTriage (1024 * 1024 * 1024) None (Some unit_name) None
    [] ltac:(by vm_compute) f Hf) as (granted & f1 & evs1 & H1 & Hf1).
  rewrite (ebind_Ok _ _ _ _ _ _ H1). destruct granted as [lease|e]; [|done].
  pose proof (Htext (response_value (triage_response
    (jget "incident_id" (payload_json chunk) ≫= as_str) lease))) as Hok.
  destruct (to_vec _) as [bytes|e]; [|done].
  unfold write_all, ebind at 1.
  destruct (runs_release w Hothers (l_id lease) ([] ++ [l_id lease]) [] ltac:(set_solver)
    (mkFront (fr_arbiter f1) (S (fr_ticks f1))) Hf1) as (r & f2 & evs2 & H2 & Hf2).
  rewrite (ebind_Ok _ _ _ _ _ _ H2). by destruct (fw_writes w (fr_ticks f1)).
Qed.

Lemma sentry_tracked reads f :
  tracked w [] (fr_arbiter f) →
  tracked w [] (fr_arbiter (state_of (handle_sentry_connection w reads f))).
Proof.
  revert f. induction reads as [|[chunk|e] reads IH]; intros f Hf; [done| |done].
  simpl. destruct (is_empty chunk); [done|].
  pose proof (handle_incident_tracked chunk f Hf) as Hf1.
  destruct (handle_incident w chunk f) as [[[[]|e] f1] evs1] eqn:H1.
  - rewrite (ebind_Ok _ _ _ _ _ _ H1). pose proof (IH f1 Hf1) as Hf2.
    by destruct (handle_sentry_connection w reads f1) as [[? ?] ?].
  - by rewrite (ebind_Err _ _ _ _ _ _ H1).
Qed.
End facts.

(** Triage leaves nothing behind: whatever the sentry sends, whichever
    writes fail and whatever the other tasks do, when its connection ends no
    lease granted on it can hold or regain memory. *)
Theorem sentry_leaves_no_lease (js : Json) (jt : JsonText) (uc : Unicode)
    (ho : HashOrder LeaseId ComputeLease) w reads f :
  (∀ v, is_ok (to_vec v) = true) →
  (∀ n, gentle (own w) (fw_others w n)) →
  arbiter_ok (fr_arbiter f) → (∀ id, own w id → live (fr_arbiter f) id = false) →
  let s := fr_arbiter (state_of (handle_sentry_connection w reads f)) in
  arbiter_ok s ∧ ∀ id, own w id → live s id = false.
Proof.
  intros Htext Hothers Hok Hnone s.
  apply tracked_nil. by apply sentry_tracked; [..|apply tracked_nil].
Qed.
