(* ===== verification/Gateway.v ===== *)
(** The HTTP gateway: crates/inferenced-daemon/src/gateway/ (handlers.rs and
    types.rs). Routing and the parsing of bodies are the business of axum: a
    handler gets its body parsed. *)
From S2P Require Import Prelude Lease Errors Topology Text Model Host Psi Arbiter Ledger Grant.
From S2P Require Import Runs Lifecycle Json Frontend.
Local Open Scope Z_scope.

(** * types.rs *)

Record HealthResponse := mkHealthResponse {
  health_status : string;
  health_planes : Z;
  health_daemon : string;
}.

Record ChatMessage := mkChatMessage { role : string; content : string }.

Record ChatCompletionRequest := mkChatCompletionRequest {
  req_model : string;
  req_messages : list ChatMessage;
  req_stream : bool;
}.

Record ChatChoice := mkChatChoice {
  choice_index : Z;
  choice_message : ChatMessage;
  finish_reason : string;
}.

Record ChatCompletionResponse := mkChatCompletionResponse {
  resp_id : string;
  resp_model : string;
  resp_choices : list ChatChoice;
}.

(** * handlers.rs *)

(** [authorization] is the text of the header, when there is one and it is
    text. *)
Definition check_auth (authorization api_token : option string) : bool :=
  match api_token with
  | None => true
  | Some expected =>
      match authorization with
      | Some auth => String.eqb (trim (default auth (strip_prefix "Bearer " auth))) expected
      | None => false
      end
  end.

Section gateway.
Context {js : Json} {jt : JsonText} {uu : UuidText} {dp : Display}.
Context {ho : HashOrder LeaseId ComputeLease}.
(** [chrono::DateTime::to_rfc3339] *)
Context (to_rfc3339 : Z → string).
Context (w : FrontWorld) (api_token : option string).

(** A response: a status and a JSON body, or the head of a stream of lines. *)
Inductive HttpResponse :=
  | JsonResponse (code : Z) (body : Value)
  | NdjsonStream (code : Z).

Definition STATUS_OK : Z := 200.
Definition UNAUTHORIZED : Z := 401.
Definition SERVICE_UNAVAILABLE : Z := 503.

Definition error_body (msg : string) : Value := jobj [("error", jstr msg)].

Definition health_value (h : HealthResponse) : Value :=
  jobj [("status", jstr (health_status h)); ("planes", jnum (health_planes h));
        ("daemon", jstr (health_daemon h))].

Definition health_handler : Io HttpResponse :=
  (let! topo := look w get_topology in
   eret (JsonResponse STATUS_OK (health_value (mkHealthResponse "ok"
     (Z.of_nat (length (t_planes topo))) "systemd-inferenced v0.1.0"))))%eff.

Definition known_model (id : string) : Value :=
  jobj [("id", jstr id); ("object", jstr "model"); ("owned_by", jstr "systemd-inferenced")].

Definition models_handler : HttpResponse :=
  JsonResponse STATUS_OK (jobj
    [("object", jstr "list");
     ("data", jarr [known_model "qwen2.5-coder:7b"; known_model "llama3.2:1b"])]).

Definition chat_value (r : ChatCompletionResponse) : Value :=
  jobj [("id", jstr (resp_id r)); ("model", jstr (resp_model r));
        ("choices", jarr ((λ c, jobj
           [("index", jnum (choice_index c));
            ("message", jobj [("role", jstr (role (choice_message c)));
                              ("content", jstr (content (choice_message c)))]);
            ("finish_reason", jstr (finish_reason c))]) <$> resp_choices r))].

(** The memory a model needs, 512 MiB when it is not registered. *)
Definition memory_needed (model : string) : Io Z :=
  (let! m := look w (arbiter_get_model model) in
   eret (default (512 * 1024 * 1024) (m_estimated_memory_bytes <$> m)))%eff.

Definition chat_completions_handler (authorization : option string)
    (req : ChatCompletionRequest) : Io HttpResponse :=
  if negb (check_auth authorization api_token) then
    eret (JsonResponse UNAUTHORIZED (error_body "Unauthorized"))
  else
    (let! needed := memory_needed (req_model req) in
     let! granted := acquire w Interactive needed None (Some "gateway-client") None in
     match granted with
     | Err e => eret (JsonResponse SERVICE_UNAVAILABLE (error_body (error_to_string e)))
     | Ok lease =>
         let! _ := call w (release_lease (l_id lease)) in
         let! f := eget in
         let uuid := uuid_to_string (uuid (fw_fresh w (fr_ticks f))) in
         eret (JsonResponse STATUS_OK (chat_value (mkChatCompletionResponse
           ("chatcmpl-" +:+ uuid) (req_model req)
           [mkChatChoice 0
              (mkChatMessage "assistant"
                 "systemd-inferenced: Model compute slice allocated and verified.")
              "stop"])))
     end)%eff.

(** ** The streaming task *)

Definition chunk_line (v : Value) : string :=
  match to_vec v with Ok text => text | Err _ => "" end +:+ String newline "".

Definition token_chunk (model tok : string) (now : Z) : Value :=
  jobj [("model", jstr model); ("created_at", jstr (to_rfc3339 now)); ("response", jstr tok);
        ("done", jbool false)].
Definition final_chunk (model : string) (now : Z) : Value :=
  jobj [("model", jstr model); ("created_at", jstr (to_rfc3339 now)); ("response", jstr "");
        ("done", jbool true); ("total_duration", jnum 1500000)].

Definition generated_tokens (prompt : string) : list string :=
  ["systemd-inferenced: "; "streaming "; "token "; "generation ";
   "for prompt '" +:+ prompt +:+ "'."].

(** [for tok in tokens]: a send fails when the reader has gone, and never
    waits, for the channel holds 16 lines and the task sends six. *)
Fixpoint send_tokens (model : string) (tokens : list string) : Io unit :=
  match tokens with
  | [] => eret tt
  | tok :: tokens' =>
      (let! now := read_clock w in
       let! sent := write_all w (chunk_line (token_chunk model tok now)) in
       match sent with Err _ => eret tt | Ok _ => send_tokens model tokens' end)%eff
  end.

Definition stream_task (model prompt : string) (lease_id : LeaseId) : Io unit :=
  (send_tokens model (generated_tokens prompt) ;!
   let! now := read_clock w in
   let! _ := write_all w (chunk_line (final_chunk model now)) in
   let! _ := call w (release_lease lease_id) in
   eret tt)%eff.

(** The response, and the task spawned behind it. *)
Definition ollama_generate_handler (authorization : option string) (payload : Value) :
    Io (HttpResponse * Io unit) :=
  if negb (check_auth authorization api_token) then
    eret (JsonResponse UNAUTHORIZED (error_body "Unauthorized"), eret tt)
  else
    let model := default "default" (jget "model" payload ≫= as_str) in
    let prompt := default "" (jget "prompt" payload ≫= as_str) in
    let stream_requested := default true (jget "stream" payload ≫= as_bool) in
    (let! needed := memory_needed model in
     let! granted := acquire w Interactive needed None (Some "ollama-client") None in
     match granted with
     | Err e => eret (JsonResponse SERVICE_UNAVAILABLE (error_body (error_to_string e)), eret tt)
     | Ok lease =>
         if negb stream_requested then
           let! _ := call w (release_lease (l_id lease)) in
           let! now := read_clock w in
           eret (JsonResponse STATUS_OK (jobj
             [("model", jstr model); ("created_at", jstr (to_rfc3339 now));
              ("response", jstr ("systemd-inferenced: processed prompt '" +:+ prompt +:+ "'"));
              ("done", jbool true); ("total_duration", jnum 1500000)]), eret tt)
         else eret (NdjsonStream STATUS_OK, stream_task model prompt (l_id lease))
     end)%eff.

(** The paths the router knows, each with the method it answers. *)
Inductive HttpMethod := GET | POST.
Inductive Route := HealthRoute | ModelsRoute | ChatRoute | GenerateRoute.

Definition gateway_routes : list (string * (HttpMethod * Route)) :=
  [("/health", (GET, HealthRoute));
   ("/v1/models", (GET, ModelsRoute));
   ("/v1/chat/completions", (POST, ChatRoute));
   ("/api/tags", (GET, ModelsRoute));
   ("/api/generate", (POST, GenerateRoute))].

(** The routes that take a lease. *)
Inductive GatewayRequest :=
  | ChatCompletions (authorization : option string) (req : ChatCompletionRequest)
  | OllamaGenerate (authorization : option string) (payload : Value).

Definition authorization_of (r : GatewayRequest) : option string :=
  match r with ChatCompletions auth _ | OllamaGenerate auth _ => auth end.

(** A request to its end, the spawned task included. *)
Definition serve_request (r : GatewayRequest) : Io HttpResponse :=
  match r with
  | ChatCompletions authorization req => chat_completions_handler authorization req
  | OllamaGenerate authorization payload =>
      (let! rt := ollama_generate_handler authorization payload in
       rt.2 ;! eret rt.1)%eff
  end.
End gateway.

(** * Facts *)

(** The size of every registered model is a [u64]. *)
Definition models_sized (s : ArbiterState) : Prop :=
  ∀ id m, arbiter_get_model id s = Some m → is_u64 (m_estimated_memory_bytes m).

Section facts.
Context {js : Json} {jt : JsonText} {uu : UuidText} {dp : Display}.
Context {ho : HashOrder LeaseId ComputeLease}.
Context (to_rfc3339 : Z → string) (w : FrontWorld) (api_token : option string).
Hypothesis Hothers : ∀ n, gentle (own w) (fw_others w n).
(** The others register models of a size that is a [u64]. *)
Hypothesis Hsizes : ∀ n s, models_sized s → models_sized (fw_others w n s).

(** What [memory_needed] gives is a [u64]. *)
Lemma memory_needed_spec model f :
  models_sized (fr_arbiter f) → tracked w [] (fr_arbiter f) →
  ∃ needed f', memory_needed w model f = (Ok needed, f', []) ∧ is_u64 needed ∧
    tracked w [] (fr_arbiter f').
Proof.
  intros Hm Hf. unfold memory_needed, look, ebind, eret. simpl. eexists _, _. split; [done|].
  split; [|by apply (tracked_others w Hothers)].
  destruct (arbiter_get_model model _) as [m|] eqn:Hget; [|by vm_compute].
  by apply (Hsizes (fr_ticks f) _ Hm) in Hget.
Qed.

Lemma send_tokens_runs model tokens active :
  runs w active (send_tokens to_rfc3339 w model tokens) (λ _, active).
Proof.
  induction tokens as [|tok tokens IH]; [by apply runs_ret|]. simpl.
  eapply runs_bind; [apply runs_read_clock|]. intros now.
  eapply runs_bind; [apply runs_write_all|]. intros [|]; [apply IH|by apply runs_ret].
Qed.

Lemma stream_task_runs model prompt id :
  runs w [id] (stream_task to_rfc3339 w model prompt id) (λ _, []).
Proof.
  eapply runs_bind; [apply send_tokens_runs|]. intros ?.
  eapply runs_bind; [apply runs_read_clock|]. intros now.
  eapply runs_bind; [apply runs_write_all|]. intros ?.
  eapply runs_bind; [apply (runs_release w Hothers id [id] []); set_solver|].
  intros ?. by apply runs_ret.
Qed.

(** The generate handler hands the lease to its task. *)
Lemma ollama_generate_runs auth payload f :
  models_sized (fr_arbiter f) → tracked w [] (fr_arbiter f) →
  ∃ resp task f' evs active,
    ollama_generate_handler to_rfc3339 w api_token auth payload f = (Ok (resp, task), f', evs) ∧
    tracked w active (fr_arbiter f') ∧ runs w active task (λ _, []).
Proof.
  intros Hm Hf. unfold ollama_generate_handler.
  destruct (negb _); [eexists _, _, _, _, []; split_and!; [done..|by apply runs_ret]|].
  set (model := default "default" _). set (prompt := default "" _). cbv zeta.
  destruct (memory_needed_spec model f Hm Hf) as (needed & f1 & H1 & Hn & Hf1).
  rewrite (ebind_silent _ _ _ _ _ H1).
  destruct (runs_acquire w Hothers Interactive needed None (Some "ollama-client") None [] ltac:(done)
    f1 Hf1) as (granted & f2 & evs2 & H2 & Hf2).
  rewrite (ebind_Ok _ _ _ _ _ _ H2). destruct granted as [lease|e].
  2: { eexists _, _, _, _, []. split_and!; [done..|by apply runs_ret]. }
  destruct (negb _).
  - destruct (runs_release w Hothers (l_id lease) ([] ++ [l_id lease]) [] ltac:(set_solver) f2 Hf2)
      as (r & f3 & evs3 & H3 & Hf3).
    rewrite (ebind_Ok _ _ _ _ _ _ H3). eexists _, _, _, _, [].
    split_and!; [done..|by apply runs_ret].
  - eexists _, _, _, _, [l_id lease]. split_and!; [done..|]. apply stream_task_runs.
Qed.

Lemma serve_request_runs r f :
  models_sized (fr_arbiter f) → tracked w [] (fr_arbiter f) →
  ∃ resp f' evs, serve_request to_rfc3339 w api_token r f = (Ok resp, f', evs) ∧
    tracked w [] (fr_arbiter f').
Proof.
  intros Hm Hf. destruct r as [auth req|auth payload]; unfold serve_request.
  - unfold chat_completions_handler. destruct (negb _); [by eexists _, _, _|].
    destruct (memory_needed_spec (req_model req) f Hm Hf) as (needed & f1 & H1 & Hn & Hf1).
    rewrite (ebind_silent _ _ _ _ _ H1). revert Hf1. generalize f1. clear H1 f1.
    apply (runs_bind w _ _ _ _ (λ _, []) (runs_acquire w Hothers _ _ _ _ _ _ Hn)).
    intros [lease|e]; [|by apply runs_ret].
    eapply runs_bind; [apply (runs_release w Hothers (l_id lease) _ []); set_solver|].
    intros ? f1 Hf1. by eexists _, _, _.
  - destruct (ollama_generate_runs auth payload f Hm Hf)
      as (resp & task & f1 & evs1 & active & H1 & Hf1 & Htask).
    rewrite (ebind_Ok _ _ _ _ _ _ H1). destruct (Htask f1 Hf1) as (? & f2 & evs2 & H2 & Hf2).
    cbn [fst snd]. rewrite (ebind_Ok _ _ _ _ _ _ H2). by eexists _, _, _.
Qed.
End facts.

(** The gateway serves whom it should and keeps nothing. A request without
    the right token is refused with [401] before the arbiter is touched; a
    request on any route that takes a lease comes to a response, and once its
    work is done, also when the reader of a stream has gone away, no lease it
    took can hold or regain memory. *)
Theorem gateway_leaves_no_lease (js : Json) (jt : JsonText) (uu : UuidText) (dp : Display)
    (ho : HashOrder LeaseId ComputeLease) to_rfc3339 w api_token r f :
  (∀ n, gentle (own w) (fw_others w n)) →
  (∀ n s, models_sized s → models_sized (fw_others w n s)) → models_sized (fr_arbiter f) →
  arbiter_ok (fr_arbiter f) → (∀ id, own w id → live (fr_arbiter f) id = false) →
  ∃ resp f' evs, serve_request to_rfc3339 w api_token r f = (Ok resp, f', evs) ∧
    (check_auth (authorization_of r) api_token = false →
       resp = JsonResponse UNAUTHORIZED (error_body "Unauthorized") ∧ f' = f ∧ evs = []) ∧
    arbiter_ok (fr_arbiter f') ∧ ∀ id, own w id → live (fr_arbiter f') id = false.
Proof.
  intros Hothers Hsizes Hm Hok Hnone.
  destruct (serve_request_runs to_rfc3339 w api_token Hothers Hsizes r f Hm) as (resp & f' & evs & Heq & Hf').
  { by apply tracked_nil. }
  exists resp, f', evs. apply tracked_nil in Hf' as [Hok' Hlive]. split_and!; [done| |done|done].
  intros Hauth. destruct r as [auth req|auth payload]; simpl in Hauth;
      unfold serve_request, chat_completions_handler, ollama_generate_handler in Heq;
      rewrite Hauth in Heq; unfold ebind, eret in Heq; simpl in Heq; by simplify_eq.
Qed.

(** Who has the right token: the header is the token itself, or the token
    after [Bearer], surrounding blanks aside. *)
Lemma check_auth_spec auth expected :
  check_auth (Some auth) (Some expected) = true ↔
    (∃ rest, auth = "Bearer " +:+ rest ∧ trim rest = expected) ∨
    (starts_with auth "Bearer " = false ∧ trim auth = expected).
Proof.
  unfold check_auth, starts_with. rewrite String.eqb_eq.
  destruct (strip_prefix "Bearer " auth) as [rest|] eqn:Hs.
  - apply strip_prefix_Some in Hs as ->. split; [eauto|]. intros [(rest' & Heq & <-)|[? _]]; [|done].
    apply (f_equal (strip_prefix "Bearer ")) in Heq. rewrite !strip_prefix_app in Heq.
    by injection Heq as ->.
  - split; [by auto|]. intros [(rest & -> & _)|[_ ?]]; [|done].
    by rewrite strip_prefix_app in Hs.
Qed.
