(* ===== verification/Concurrent.v ===== *)
(** The connections of the daemon side by side: every task works on the same
    arbiter behind its lock, and each meets what the others did to it. What a
    connection relies on is what every connection guarantees. *)
From S2P Require Import Prelude Lease Errors Topology Text Model Host Psi Arbiter Ledger Grant.
From S2P Require Import Hotplug Runs Lifecycle Spec Peer Json Frontend Varlink Session Sentry.
From S2P Require Import Gateway.
Local Open Scope Z_scope.

(** * Schedules *)

(** One operation under the lock, with the iteration orders it meets. *)
Record TaskStep := mkTaskStep {
  ts_leases : HashOrder LeaseId ComputeLease;
  ts_models : HashOrder string ModelDescriptor;
  ts_op : arbiter_op;
}.

Definition run_step (s : ArbiterState) (t : TaskStep) : ArbiterState :=
  exec (ts_leases t) (ts_models t) (ts_op t) s.
Definition run_schedule (sched : list TaskStep) (s : ArbiterState) : ArbiterState :=
  fold_left run_step sched s.

(** The identifier a step may grant. *)
Definition granted_id (t : TaskStep) : option LeaseId :=
  match ts_op t with AcquireLease _ _ fresh _ _ _ _ _ => Some fresh | _ => None end.
Definition granted_ids (sched : list TaskStep) : list LeaseId := omap granted_id sched.

(** No step of the schedule promises memory that is not there; and the topology
    it comes to. *)
Fixpoint within_means (sched : list TaskStep) (s : ArbiterState) : bool :=
  match sched with
  | [] => true
  | t :: sched' =>
      negb (overcommits (ts_leases t) (ts_op t) s) && within_means sched' (run_step s t)
  end.
Definition topology_of (sched : list TaskStep) (topo : HardwareTopology) : HardwareTopology :=
  fold_left (λ topo t, topology_after (ts_op t) topo) sched topo.

(** The operations a connection with the identifiers [ids] performs: it grants
    under its own identifiers only, sizes are [u64], and it neither revokes a
    lease nor replaces the topology. *)
Definition made (ids : LeaseId → Prop) (op : arbiter_op) : Prop :=
  match op with
  | AcquireLease _ _ fresh _ b _ _ _ => ids fresh ∧ is_u64 b
  | RegisterModel d => is_u64 (m_estimated_memory_bytes d)
  | RevokeLease _ | UpdateTopology _ => False
  | _ => True
  end.

(** A request for a lease, the only operation that takes a fresh identifier. *)
Definition is_acquire (op : arbiter_op) : bool :=
  match op with AcquireLease _ _ _ _ _ _ _ _ => true | _ => false end.

(** Those of the daemon's own tasks (device events, the coordinator). *)
Definition background (op : arbiter_op) : Prop :=
  match op with
  | AcquireLease _ _ _ _ _ _ _ _ => False
  | RegisterModel d => is_u64 (m_estimated_memory_bytes d)
  | UpdateTopology topo => planes_ok (t_planes topo)
  | _ => True
  end.

(** An operation that leaves the identifiers [ids] to their owner. *)
Definition outside (ids : LeaseId → Prop) (op : arbiter_op) : Prop :=
  match op with
  | AcquireLease _ _ fresh _ b _ _ _ => ¬ ids fresh ∧ is_u64 b
  | RegisterModel d => is_u64 (m_estimated_memory_bytes d)
  | UpdateTopology topo => planes_ok (t_planes topo)
  | _ => True
  end.

(** What a task does tick by tick: it obtains the lock, behind the steps of
    the others, to look or for an operation of its own, or it writes. *)
Inductive makes (w : FrontWorld) : Front → list TaskStep → Front → Prop :=
  | makes_done f : makes w f [] f
  | makes_look f ts f' :
      makes w (mkFront (fw_others w (fr_ticks f) (fr_arbiter f)) (S (fr_ticks f))) ts f' →
      makes w f ts f'
  | makes_write f ts f' :
      makes w (mkFront (fr_arbiter f) (S (fr_ticks f))) ts f' → makes w f ts f'
  | makes_op f t ts f' :
      makes w (mkFront (run_step (fw_others w (fr_ticks f) (fr_arbiter f)) t) (S (fr_ticks f))) ts f' →
      makes w f (t :: ts) f'.

(** A step of the history, by a connection or by the daemon itself, which may
    be taken where the connections are those below [n] and meet [ws]. *)
Definition Step : Type := option nat * TaskStep.
Definition allowed (n : nat) (ws : nat → FrontWorld) (st : Step) : Prop :=
  match st.1 with
  | Some i => (i < n)%nat ∧ made (own (ws i)) (ts_op st.2)
  | None => background (ts_op st.2)
  end.
Definition by_others (i : nat) (st : Step) : Prop := st.1 ≠ Some i.

(** Before each of its ticks task [i] meets some steps of the others. *)
Definition interleaved (n : nat) (ws : nat → FrontWorld) (i : nat) : Prop :=
  ∀ k, ∃ sts, Forall (allowed n ws) sts ∧ Forall (by_others i) sts ∧
    ∀ s, fw_others (ws i) k s = run_schedule sts.*2 s.

(** * The tasks *)

Section tasks.
Context {js : Json} {jt : JsonText} {rt : RequestText} {uu : UuidText} {dp : Display} {uc : Unicode}.
Context {ho : HashOrder LeaseId ComputeLease} {hm : HashOrder string ModelDescriptor}.
Context (to_rfc3339 : Z → string).

(** The tasks the listeners spawn, each for one client. *)
Inductive Task :=
  | VarlinkTask (input : string) (failure : option string) (peer_info : option PeerInfo)
  | SentryTask (reads : list (result string string))
  | GatewayTask (api_token : option string) (r : GatewayRequest).

Definition run_task (w : FrontWorld) (t : Task) : Io unit :=
  match t with
  | VarlinkTask input failure peer_info => (session w input failure peer_info ;! eret tt)%eff
  | SentryTask reads => handle_sentry_connection w reads
  | GatewayTask api_token r => (serve_request to_rfc3339 w api_token r ;! eret tt)%eff
  end.

Definition after_task (w : FrontWorld) (t : Task) (f : Front) : Front := state_of (run_task w t f).

(** Connection [i] has its part in the history: there is a first and a last
    moment of it, and between them the history is what its task and the steps
    of the others make of the arbiter. *)
Definition takes_part (ws : nat → FrontWorld) (tasks : nat → Task) (s0 : ArbiterState)
    (history : list Step) (i : nat) : Prop :=
  ∃ before during after,
    history = before ++ during ++ after ∧
    Forall (by_others i) before ∧ Forall (by_others i) after ∧
    let s := run_schedule before.*2 s0 in
    fr_arbiter (after_task (ws i) (tasks i) (mkFront s 0)) = run_schedule during.*2 s.
End tasks.

(** * What the others may do harms nobody *)

Section gentle.
Implicit Types (ids : LeaseId → Prop) (s : ArbiterState) (op : arbiter_op) (t : TaskStep).

Lemma moves_keep_dead op k a b :
  op_moves op k a b = true → is_live b = true → is_live a = true.
Proof.
  destruct op; simpl; intros H; reflect_bools; subst; try done;
    repeat case_bool_decide; simpl; try done;
    repeat match goal with H : _ ∨ _ |- _ => destruct H | H : _ ∧ _ |- _ => destruct H end;
    reflect_bools; subst; try done; by destruct a.
Qed.

Lemma outside_op_ok ids op s :
  outside ids op → (∀ fresh, leases s !! fresh = None ∨ is_acquire op = false) → op_ok op s.
Proof.
  intros Hop Hacq. destruct op as [psi now fresh| | | | | | | | |]; simpl in *; try done.
  destruct (Hacq fresh); [|done]. by split; [apply Hop|].
Qed.

Lemma exec_gentle ids ho hm op : outside ids op → gentle ids (exec ho hm op).
Proof.
  intros Hout s Hs. destruct (is_acquire op) eqn:Hacq.
  - destruct op as [psi now fresh pr b pref unit pid| | | | | | | | |]; try done.
    destruct Hout as [Hfresh Hb]. cbn [exec].
    pose proof (acquire_effect psi now fresh pr b pref unit pid s Hs Hb) as Heffect.
    destruct (acquire_lease _ _ _ _ _ _ _ _ s) as [[r s'] ws]. destruct Heffect as [Hok Hlive].
    split; [done|]. intros id Hid Hl. by apply Hlive in Hl as [?|[-> _]].
  - assert (op_ok op s) as Hop by (apply (outside_op_ok ids); auto).
    split; [by apply exec_ok|]. intros k _. unfold live.
    destruct (leases s !! k) as [l|] eqn:Hl.
    + destruct (exec_move ho hm op s Hs Hop k l Hl) as [(st & -> & Hmove)|(-> & _)]; [|done].
      intros Hst. by apply (moves_keep_dead _ _ _ _ Hmove).
    + destruct (leases (exec ho hm op s) !! k) as [l|] eqn:Hl'; [|done].
      by destruct (exec_new ho hm op s k l Hs Hop Hl Hl') as (? & ? & ? & ? & ? & ? & ? & ? & -> & _).
Qed.

Lemma schedule_gentle ids sched :
  Forall (λ t, outside ids (ts_op t)) sched → gentle ids (run_schedule sched).
Proof.
  induction 1 as [|t sched Ht _ IH]; intros s Hs; [done|].
  destruct (exec_gentle ids (ts_leases t) (ts_models t) (ts_op t) Ht s Hs) as [Hs1 Hl1].
  destruct (IH _ Hs1) as [Hs2 Hl2]. split; [done|]. intros id Hid Hl. by apply Hl1, Hl2.
Qed.

(** A schedule that grants no identifier twice, and none that is in use. *)
Definition fresh_grants (sched : list TaskStep) s : Prop :=
  NoDup (granted_ids sched) ∧ ∀ id, id ∈ granted_ids sched → leases s !! id = None.

Lemma fresh_op_ok ids t sched s :
  outside ids (ts_op t) → fresh_grants (t :: sched) s → op_ok (ts_op t) s.
Proof.
  intros Ht [_ Hnew]. destruct t as [oh om op]. unfold granted_ids in Hnew. rewrite omap_cons in Hnew.
  destruct op as [psi now fresh| | | | | | | | |]; simpl in *; try done.
  split; [apply Ht|]. apply Hnew. by left.
Qed.

Lemma fresh_step t sched s :
  arbiter_ok s → op_ok (ts_op t) s → fresh_grants (t :: sched) s → fresh_grants sched (run_step s t).
Proof.
  unfold fresh_grants, granted_ids. rewrite omap_cons. intros Hs Hop [Hnd Hnew]. split.
  { destruct (granted_id t); [by apply NoDup_cons in Hnd as [_ ?]|done]. }
  intros id Hid. destruct (leases (run_step s t) !! id) as [l|] eqn:Hl; [|done]. exfalso.
  assert (leases s !! id = None) as Hnone by (apply Hnew; destruct (granted_id t); [by right|done]).
  destruct (exec_new _ _ _ s id l Hs Hop Hnone Hl)
    as (psi & now & pr & b & pref & unit & pid & plane & Hacq & _).
  unfold granted_id in Hnd. rewrite Hacq in Hnd. by apply NoDup_cons in Hnd as [? _].
Qed.

(** It leads through reachable states, and within its means through careful
    ones. *)
Lemma schedule_reachable ids sched s :
  reachable s → Forall (λ t, outside ids (ts_op t)) sched → fresh_grants sched s →
  reachable (run_schedule sched s).
Proof.
  intros Hs Hsched. revert s Hs. induction Hsched as [|t sched Ht _ IH]; intros s Hs Hfresh; [done|].
  pose proof (fresh_op_ok ids t sched s Ht Hfresh) as Hop.
  apply IH; [by apply reachable_step|]. by apply fresh_step; [apply reachable_ok|..].
Qed.

Lemma schedule_careful ids sched topo s :
  careful topo s → Forall (λ t, outside ids (ts_op t)) sched → fresh_grants sched s →
  within_means sched s = true → careful (topology_of sched topo) (run_schedule sched s).
Proof.
  intros Hs Hsched. revert topo s Hs.
  induction Hsched as [|t sched Ht _ IH]; intros topo s Hs Hfresh Hwithin; [done|].
  apply andb_true_iff in Hwithin as [Hstep%negb_true_iff Hwithin].
  pose proof (fresh_op_ok ids t sched s Ht Hfresh) as Hop.
  apply (IH (topology_after (ts_op t) topo)); [by apply careful_step| |done].
  destruct (careful_invariant topo s Hs) as (_ & Hok & _). by apply fresh_step.
Qed.

(** ** Sizes of models *)

Lemma exec_models ho hm op s :
  registry (exec ho hm op s) =
    match op with
    | RegisterModel d => register d (registry s)
    | RemoveModel id => (remove_model id (registry s)).2
    | PinModel id plane_id => (pin_for_triage id plane_id (registry s)).2
    | _ => registry s
    end.
Proof.
  destruct op as [psi now fresh pr b pref unit pid|id|id|id|id|id|topo| | |id plane]; cbn [exec].
  - rewrite acquire_unfold. destruct (is_critical psi && _); [done|].
    destruct (select_plane _ _ _); [|done]. destruct (reclaimed _ _ _ _) as [[ps ls] fz].
    by destruct (_ && negb _).
  - rewrite release_lease_unfold. cbn [state_of fst snd]. unfold end_state.
    destruct (leases s !! id) as [l|]; [|done]. destruct (_ && _); [done|]. by destruct (is_active l).
  - rewrite revoke_lease_unfold. cbn [state_of fst snd]. unfold end_state.
    destruct (leases s !! id) as [l|]; [|done]. destruct (_ && _); [done|]. by destruct (is_active l).
  - rewrite yield_lease_unfold. cbn [state_of fst snd]. unfold mark_active.
    destruct (leases s !! id) as [l|]; [|done]. by destruct (is_active l).
  - rewrite freeze_lease_unfold. cbn [state_of fst snd]. unfold mark_active.
    destruct (leases s !! id) as [l|]; [|done]. by destruct (is_active l).
  - rewrite thaw_lease_unfold. destruct (leases s !! id) as [l|]; [|done].
    destruct (l_state l); try done. by destruct (thaw_check _ _ _).
  - unfold update_topology. by destruct (recharge_leases _ _ _).
  - done.
  - done.
  - unfold pin_model_for_triage. by destruct (pin_for_triage _ _ _).
Qed.

(** Sizes stay [u64] when only models of such a size are registered. *)
Lemma exec_sized ids ho hm op s :
  outside ids op → models_sized s → models_sized (exec ho hm op s).
Proof.
  intros Hout Hm. unfold models_sized, arbiter_get_model, get_model in *.
  rewrite exec_models.
  destruct op as [| | | | | | |d|id|id plane]; try exact Hm.
  - intros k m Hk.
    assert (Hins : ∀ ms : gmap string ModelDescriptor, (∀ k m, ms !! k = Some m → is_u64 (m_estimated_memory_bytes m)) →
      <[m_id d := d]> ms !! k = Some m → is_u64 (m_estimated_memory_bytes m)).
    { intros ms Hms [[_ <-]|[_ ?]]%lookup_insert_Some; [exact Hout|by eapply Hms]. }
    revert Hk. destruct (register_cases d (registry s)); simpl; apply Hins; try exact Hm.
    intros k' m' [_ ?]%lookup_delete_Some. by eapply Hm.
  - intros k m Hk. simpl in Hk. apply lookup_delete_Some in Hk as [_ ?]. by eapply Hm.
  - unfold pin_for_triage. destruct (models (registry s) !! id) as [m0|] eqn:Hid; [|exact Hm].
    intros k m Hk. simpl in Hk. apply lookup_insert_Some in Hk as [[_ <-]|[_ ?]]; [|by eapply Hm].
    exact (Hm id m0 Hid).
Qed.

Lemma schedule_sized ids sched s :
  Forall (λ t, outside ids (ts_op t)) sched → models_sized s → models_sized (run_schedule sched s).
Proof.
  intros Hsched. revert s. induction Hsched as [|t sched Ht _ IH]; intros s Hm; [done|].
  apply IH. by eapply exec_sized.
Qed.
End gentle.

(** * What a connection does to the others *)

Section does.
Context {ho : HashOrder LeaseId ComputeLease} {hm : HashOrder string ModelDescriptor}.
Context (w : FrontWorld).
Hypothesis Hsizes : ∀ n s, models_sized s → models_sized (fw_others w n s).

(** [m] acts through operations a connection may perform, and what it returns
    satisfies [Q]. *)
Definition does {A} (m : Io A) (Q : A → Prop) : Prop :=
  ∀ f, models_sized (fr_arbiter f) → let '(r, f', _) := m f in
    models_sized (fr_arbiter f') ∧
    (∃ ts, makes w f ts f' ∧ Forall (λ t, made (own w) (ts_op t)) ts) ∧
    match r with Ok a => Q a | Err _ => True end.

Lemma makes_trans f1 ts1 f2 ts2 f3 :
  makes w f1 ts1 f2 → makes w f2 ts2 f3 → makes w f1 (ts1 ++ ts2) f3.
Proof.
  intros H1. revert ts2 f3. induction H1; intros; simpl; [done|..].
  - apply makes_look. auto.
  - apply makes_write. auto.
  - apply makes_op. auto.
Qed.

Lemma does_ret {A} (a : A) (Q : A → Prop) : Q a → does (eret a) Q.
Proof. intros HQ f Hm. split_and!; [done| |done]. exists []. split; [apply makes_done|done]. Qed.
Lemma does_throw {A} e (Q : A → Prop) : does (ethrow e) Q.
Proof. intros f Hm. split_and!; [done| |done]. exists []. split; [apply makes_done|done]. Qed.

Lemma does_bind {A B} (m : Io A) (k : A → Io B) Q R :
  does m Q → (∀ a, Q a → does (k a) R) → does (ebind m k) R.
Proof.
  intros Hm Hk f Hf. pose proof (Hm f Hf) as H1. unfold ebind.
  destruct (m f) as [[[a|e] f1] evs1]; [|done].
  destruct H1 as (Hf1 & (ts1 & Hts1 & Hmade1) & Ha). pose proof (Hk a Ha f1 Hf1) as H2.
  destruct (k a f1) as [[r f2] evs2]. destruct H2 as (Hf2 & (ts2 & Hts2 & Hmade2) & Hr).
  split_and!; [done| |done]. exists (ts1 ++ ts2).
  split; [by eapply makes_trans|by apply Forall_app].
Qed.

Lemma does_weaken {A} (m : Io A) (Q R : A → Prop) : does m Q → (∀ a, Q a → R a) → does m R.
Proof.
  intros Hm HQR f Hf. pose proof (Hm f Hf) as H. destruct (m f) as [[r f'] evs].
  destruct H as (? & ? & Hr). split_and!; [done..|]. destruct r; auto.
Qed.

Lemma does_look {A} (g : ArbiterState → A) (Q : A → Prop) :
  (∀ s, models_sized s → Q (g s)) → does (look w g) Q.
Proof.
  intros HQ f Hf. apply (Hsizes (fr_ticks f)) in Hf. simpl. split_and!; [done| |by apply HQ].
  exists []. split; [apply makes_look, makes_done|done].
Qed.

Lemma does_write bytes : does (write_all w bytes) (λ _, True).
Proof. intros f Hf. split_and!; [done| |done]. exists []. split; [apply makes_write, makes_done|done]. Qed.
Lemma does_read_pressure : does (read_pressure w) (λ _, True).
Proof. intros f Hf. split_and!; [done| |done]. exists []. split; [apply makes_done|done]. Qed.
Lemma does_read_clock : does (read_clock w) (λ _, True).
Proof. intros f Hf. split_and!; [done| |done]. exists []. split; [apply makes_done|done]. Qed.
Lemma does_get : does eget (λ _, True).
Proof. intros f Hf. split_and!; [done| |done]. exists []. split; [apply makes_done|done]. Qed.

Lemma made_outside op : made (own w) op → outside (λ _, False) op.
Proof. destruct op; simpl; try done. intros [_ Hb]. by split; [intros []|]. Qed.

(** One operation of its own. *)
Lemma does_step op f :
  made (own w) op → models_sized (fr_arbiter f) →
  let f' := mkFront (exec ho hm op (fw_others w (fr_ticks f) (fr_arbiter f))) (S (fr_ticks f)) in
  models_sized (fr_arbiter f') ∧
  ∃ ts, makes w f ts f' ∧ Forall (λ t, made (own w) (ts_op t)) ts.
Proof.
  intros Hop Hf f'. split.
  - apply (exec_sized (λ _, False)); [by apply made_outside|by apply Hsizes].
  - exists [mkTaskStep ho hm op]. split; [apply makes_op, makes_done|by apply Forall_singleton].
Qed.

Lemma does_call {A} (m : Arb A) op :
  (∀ s, state_of (m s) = exec ho hm op s) → made (own w) op → does (call w m) (λ _, True).
Proof.
  intros Hm Hop f Hf. destruct (does_step op f Hop Hf) as [H1 H2]. rewrite <-Hm in H1, H2.
  unfold call. by destruct (m _) as [[r s] ws].
Qed.

Lemma does_mutate {A} (g : ArbiterState → A * ArbiterState) op :
  (∀ s, (g s).2 = exec ho hm op s) → made (own w) op → does (mutate w g) (λ _, True).
Proof.
  intros Hg Hop f Hf. destruct (does_step op f Hop Hf) as [H1 H2]. rewrite <-Hg in H1, H2.
  unfold mutate. by destruct (g _) as [a s].
Qed.

Lemma does_acquire pr b pref unit pid :
  is_u64 b → does (acquire w pr b pref unit pid) (λ _, True).
Proof.
  intros Hb f Hf.
  pose (op := AcquireLease (fw_pressure w (fr_ticks f)) (fw_clock w (fr_ticks f))
    (fw_fresh w (fr_ticks f)) pr b pref unit pid).
  apply (does_call _ op); [done| |done]. split; [by eexists|done].
Qed.

Lemma does_release id : does (call w (release_lease id)) (λ _, True).
Proof. by apply (does_call _ (ReleaseLease id)). Qed.
Lemma does_yield id : does (call w (yield_lease id)) (λ _, True).
Proof. by apply (does_call _ (YieldLease id)). Qed.
Lemma does_freeze id : does (call w (freeze_lease id)) (λ _, True).
Proof. by apply (does_call _ (FreezeLease id)). Qed.
Lemma does_thaw id : does (call w (thaw_lease id)) (λ _, True).
Proof. by apply (does_call _ (ThawLease id)). Qed.
Lemma does_register d :
  is_u64 (m_estimated_memory_bytes d) → does (mutate w (λ s, (tt, register_model d s))) (λ _, True).
Proof. by apply (does_mutate _ (RegisterModel d)). Qed.
Lemma does_remove id : does (mutate w (arbiter_remove_model id)) (λ _, True).
Proof. by apply (does_mutate _ (RemoveModel id)). Qed.
Lemma does_pin id plane_id : does (mutate w (pin_model_for_triage id plane_id)) (λ _, True).
Proof. by apply (does_mutate _ (PinModel id plane_id)). Qed.
Lemma does_looks {A} (g : ArbiterState → A) : does (look w g) (λ _, True).
Proof. by apply does_look. Qed.
End does.

Create HintDb does.
#[export] Hint Resolve does_throw does_looks does_write does_read_pressure does_read_clock
  does_get does_acquire does_release does_yield does_freeze does_thaw does_register does_remove
  does_pin : does.
#[export] Hint Extern 1 (does _ (eret _) _) => by apply does_ret : does.

Ltac does_steps :=
  repeat first
    [ solve [eauto 2 with does]
    | eapply does_bind; [solve [eauto 2 with does]|intros]
    | case_match ].

Section guarantees.
Context {js : Json} {jt : JsonText} {rt : RequestText} {uu : UuidText} {dp : Display} {uc : Unicode}.
Context {ho : HashOrder LeaseId ComputeLease} {hm : HashOrder string ModelDescriptor}.
Context (to_rfc3339 : Z → string) (w : FrontWorld).
Hypothesis Hsizes : ∀ n s, models_sized s → models_sized (fw_others w n s).

Lemma u64_field_zero key v : is_u64 (default 0 (u64_field key v)).
Proof.
  unfold u64_field. destruct (jget key v) as [x|]; [|by vm_compute]. cbn [mbind option_bind].
  destruct (as_u64 x) as [n|] eqn:Hn; [|by vm_compute]. by eapply as_u64_bounds.
Qed.

Lemma register_does params : does w (handle_register_model w params) (λ _, True).
Proof.
  unfold handle_register_model. destruct params as [p|]; [|by apply does_ret].
  eapply does_bind; [apply does_read_clock|]. intros now _.
  eapply does_bind; [by apply does_register, u64_field_zero|]. intros ? _. by apply does_ret.
Qed.

Lemma acquire_does params active peer :
  does w (handle_acquire_lease w params active peer) (λ _, True).
Proof.
  unfold handle_acquire_lease. destruct params as [params|]; [|by apply does_ret].
  destruct (attributed _ _ _ _) as [[unit pid] pr].
  eapply does_bind; [by apply does_acquire, u64_field_bounds|].
  intros [l|e] _; by apply does_ret.
Qed.

Lemma stream_does i len tokens : does w (stream_from w i len tokens) (λ _, True).
Proof.
  revert i. induction tokens as [|t tokens IH]; intros i; [by apply does_ret|].
  eapply does_bind; [apply does_write|]. intros ? _. apply IH.
Qed.

Lemma replying_does active h : does w h (λ _, True) → does w (replying active h) (λ _, True).
Proof. intros Hh. eapply does_bind; [exact Hh|]. intros r _. by apply does_ret. Qed.
Lemma replying_leases_does h : does w h (λ _, True) → does w (replying_leases h) (λ _, True).
Proof. intros Hh. eapply does_bind; [exact Hh|]. intros r _. by apply does_ret. Qed.

Lemma handle_method_does method params active peer :
  does w (handle_method w method params active peer) (λ _, True).
Proof.
  unfold handle_method. destruct (sub_method method) as [sub|]; [|by apply does_ret]. cbv zeta.
  repeat match goal with |- context [if ?b then _ else _] => destruct b end;
    first [apply replying_does|apply replying_leases_does|idtac];
    first [apply acquire_does|apply register_does|idtac].
  - unfold handle_get_status. does_steps.
  - unfold handle_list_planes. does_steps.
  - unfold handle_get_topology. does_steps.
  - unfold handle_get_pressure. does_steps.
  - unfold handle_release_lease. does_steps.
  - unfold handle_yield. does_steps.
  - unfold handle_freeze. does_steps.
  - unfold handle_thaw. does_steps.
  - unfold handle_list_leases. does_steps.
  - unfold handle_list_models. does_steps.
  - unfold handle_evict_model. does_steps.
  - unfold handle_pin_model. does_steps.
  - eapply does_bind; [apply stream_does|]. intros ? _. by apply does_ret.
  - by apply does_ret.
Qed.

Lemma dispatch_does req active peer : does w (dispatch w req active peer) (λ _, True).
Proof.
  unfold dispatch. destruct (String.eqb _ _); [by apply does_ret|].
  destruct (String.eqb _ _); [by apply does_ret|]. apply handle_method_does.
Qed.

Lemma answer_does method reply : does w (answer w method reply) (λ _, True).
Proof. unfold answer. does_steps. Qed.

Lemma serve_does fuel input failure peer active :
  does w (serve w fuel input failure peer active) (λ _, True).
Proof.
  revert input active. induction fuel as [|fuel IH]; intros input active; [by apply does_ret|].
  cbn [serve]. destruct (read_until MAX_MESSAGE input) as [[buf rest] complete].
  destruct (if complete then None else failure); [by apply does_ret|].
  destruct (is_empty buf); [by apply does_ret|].
  destruct (parse_request buf) as [req|e]; [|by apply does_ret].
  eapply does_bind; [apply dispatch_does|]. intros ra _.
  eapply does_bind; [apply answer_does|]. intros [e|] _; [by apply does_ret|apply IH].
Qed.

Lemma reclaim_does active : does w (reclaim_leases w active) (λ _, True).
Proof.
  induction active as [|id active IH]; [by apply does_ret|].
  eapply does_bind; [by apply does_release|]. intros ? _. apply IH.
Qed.

Lemma session_does input failure peer : does w (session w input failure peer) (λ _, True).
Proof.
  eapply does_bind; [apply serve_does|]. intros sa _.
  eapply does_bind; [apply reclaim_does|]. intros ? _. by apply does_ret.
Qed.

Lemma incident_does chunk : does w (handle_incident w chunk) (λ _, True).
Proof.
  unfold handle_incident. eapply does_bind; [by apply does_acquire; [done|vm_compute]|].
  intros granted _. does_steps.
Qed.

Lemma sentry_does reads : does w (handle_sentry_connection w reads) (λ _, True).
Proof.
  induction reads as [|[chunk|e] reads IH]; simpl; [by apply does_ret| |apply does_throw].
  destruct (is_empty chunk); [by apply does_ret|].
  eapply does_bind; [apply incident_does|]. intros ? _. apply IH.
Qed.

Lemma memory_needed_does model : does w (memory_needed w model) is_u64.
Proof.
  eapply does_bind; [apply (does_look _ Hsizes _ (λ m, ∀ d, m = Some d → is_u64 (m_estimated_memory_bytes d)))|].
  - intros s Hs d. apply Hs.
  - intros [d|] Hm; apply does_ret; [by apply Hm|by vm_compute].
Qed.

Lemma send_tokens_does model tokens : does w (send_tokens to_rfc3339 w model tokens) (λ _, True).
Proof.
  induction tokens as [|tok tokens IH]; [by apply does_ret|]. simpl.
  eapply does_bind; [apply does_read_clock|]. intros now _.
  eapply does_bind; [apply does_write|]. intros [|] _; [apply IH|by apply does_ret].
Qed.

Lemma stream_task_does model prompt id : does w (stream_task to_rfc3339 w model prompt id) (λ _, True).
Proof. eapply does_bind; [apply send_tokens_does|]. intros ? _. does_steps. Qed.

Lemma serve_request_does api_token r :
  does w (serve_request to_rfc3339 w api_token r) (λ _, True).
Proof.
  destruct r as [auth req|auth payload]; unfold serve_request.
  - unfold chat_completions_handler. destruct (negb _); [by apply does_ret|].
    eapply does_bind; [apply memory_needed_does|]. intros needed Hn. does_steps.
  - eapply (does_bind _ _ _ (λ rt, does w rt.2 (λ _, True))).
    + unfold ollama_generate_handler.
      destruct (negb _); [by apply does_ret, does_ret|]. cbv zeta.
      eapply does_bind; [apply memory_needed_does|]. intros needed Hn.
      eapply does_bind; [by apply does_acquire|]. intros [lease|e] _; [|by apply does_ret, does_ret].
      destruct (negb _); [|by apply does_ret, stream_task_does].
      eapply does_bind; [by apply does_release|]. intros ? _.
      eapply does_bind; [by apply does_read_clock|]. intros ? _. by apply does_ret, does_ret.
    + intros [resp task] Htask. eapply does_bind; [exact Htask|]. intros ? _. by apply does_ret.
Qed.

(** Whatever the client does, a task performs only operations it may perform. *)
Lemma run_task_does t : does w (run_task to_rfc3339 w t) (λ _, True).
Proof.
  destruct t; [|apply sentry_does|]; (eapply does_bind; [|intros ? _; by apply does_ret]).
  - apply session_does.
  - apply serve_request_does.
Qed.
End guarantees.

(** * Side by side *)

Section together.
Context {js : Json} {jt : JsonText} {rt : RequestText} {uu : UuidText} {dp : Display} {uc : Unicode}.
Context {ho : HashOrder LeaseId ComputeLease} {hm : HashOrder string ModelDescriptor}.
Context (to_rfc3339 : Z → string) (n : nat) (ws : nat → FrontWorld).
(** Serializing a value succeeds, and no identifier is drawn twice. *)
Hypothesis Htext : ∀ v, is_ok (to_vec v) = true.
Hypothesis Hfresh : ∀ i j id, (i < n)%nat → (j < n)%nat → own (ws i) id → own (ws j) id → i = j.
Implicit Types (i : nat) (sts : list Step) (s : ArbiterState).

Lemma by_others_outside i sts :
  (i < n)%nat → Forall (allowed n ws) sts → Forall (by_others i) sts →
  Forall (λ t, outside (own (ws i)) (ts_op t)) sts.*2.
Proof.
  intros Hi Hall Hothers. apply Forall_fmap.
  apply (Forall_impl (λ st, allowed n ws st ∧ by_others i st)); [by apply Forall_and|].
  intros [[j|] [oh om op]] [Ha Hb]; unfold allowed, by_others in *; simpl in *.
  - destruct Ha as [Hj Ha]. destruct op; simpl in *; try done. destruct Ha as [Hown Hb'].
    split; [|done]. intros Hown'. apply Hb. by rewrite (Hfresh _ _ _ Hj Hi Hown Hown').
  - by destruct op.
Qed.

Lemma interleaved_gentle i k :
  (i < n)%nat → interleaved n ws i → gentle (own (ws i)) (fw_others (ws i) k).
Proof.
  intros Hlt Hi s Hs. destruct (Hi k) as (sts & Hall & Hothers & ->).
  apply (schedule_gentle (own (ws i))); [by apply by_others_outside|done].
Qed.

Lemma interleaved_sized i k s :
  (i < n)%nat → interleaved n ws i → models_sized s → models_sized (fw_others (ws i) k s).
Proof.
  intros Hlt Hi Hs. destruct (Hi k) as (sts & Hall & Hothers & ->).
  apply (schedule_sized (own (ws i))); [by apply by_others_outside|done].
Qed.

(** At the end of its task no lease of a connection is live. *)
Lemma after_task_none i t f :
  (i < n)%nat → interleaved n ws i →
  arbiter_ok (fr_arbiter f) → models_sized (fr_arbiter f) →
  (∀ id, own (ws i) id → live (fr_arbiter f) id = false) →
  let s := fr_arbiter (after_task to_rfc3339 (ws i) t f) in
  arbiter_ok s ∧ ∀ id, own (ws i) id → live s id = false.
Proof.
  intros Hlt Hi Hok Hm Hnone. assert (Hg := λ k, interleaved_gentle i k Hlt Hi).
  apply tracked_nil. assert (tracked (ws i) [] (fr_arbiter f)) as Hf by (by apply tracked_nil).
  unfold after_task. destruct t as [input failure peer|reads|token r]; cbn [run_task].
  - destruct (session_tracked (ws i) Hg input failure peer f Hf) as (stop & f' & evs & Heq & _ & Hf').
    by rewrite (ebind_Ok _ _ _ _ _ _ Heq).
  - by apply sentry_tracked.
  - destruct (serve_request_runs to_rfc3339 (ws i) token Hg (λ k s, interleaved_sized i k s Hlt Hi) r f Hm Hf)
      as (resp & f' & evs & Heq & Hf').
    by rewrite (ebind_Ok _ _ _ _ _ _ Heq).
Qed.

Lemma allowed_outside (ids : LeaseId → Prop) sts :
  (∀ i id, (i < n)%nat → own (ws i) id → ¬ ids id) →
  Forall (allowed n ws) sts → Forall (λ t, outside ids (ts_op t)) sts.*2.
Proof.
  intros Hids Hall. apply Forall_fmap. eapply Forall_impl; [exact Hall|].
  intros [[j|] [oh om op]] Ha; unfold allowed in Ha; simpl in *; [|by destruct op].
  destruct Ha as [Hj Ha]. destruct op; simpl in *; try done. destruct Ha as [Hown ?].
  split; [by eapply Hids|done].
Qed.

(** What is granted is granted under an identifier of a connection. *)
Lemma allowed_granted sts id :
  Forall (allowed n ws) sts → id ∈ granted_ids sts.*2 → ∃ i, (i < n)%nat ∧ own (ws i) id.
Proof.
  intros Hall Hid. unfold granted_ids in Hid. apply list_elem_of_omap in Hid as (t & Ht & Hg).
  apply list_elem_of_fmap in Ht as ([o t'] & -> & Hin). cbn [snd] in Hg.
  rewrite Forall_forall in Hall. specialize (Hall _ Hin). unfold allowed, granted_id in *. cbn [fst snd] in *.
  destruct (ts_op t'); try done. injection Hg as ->.
  destruct o as [i|]; [|done]. destruct Hall as [Hi [Hown _]]. by exists i.
Qed.

Lemma run_schedule_app sched sched' s :
  run_schedule (sched ++ sched') s = run_schedule sched' (run_schedule sched s).
Proof. apply fold_left_app. Qed.

(** A connection that has had its part leaves no live lease, then or later. *)
Lemma part_leaves_none tasks s0 history i :
  (i < n)%nat → interleaved n ws i → takes_part to_rfc3339 ws tasks s0 history i →
  Forall (allowed n ws) history → arbiter_ok s0 → models_sized s0 →
  (∀ id, own (ws i) id → live s0 id = false) →
  ∀ id, own (ws i) id → live (run_schedule history.*2 s0) id = false.
Proof.
  intros Hlt Hi (before & during & after & -> & Hb & Ha & Hend) Hall Hok Hm Hnone id Hid.
  rewrite !Forall_app in Hall. destruct Hall as (Hall1 & Hall2 & Hall3).
  assert (Hkeeps : ∀ sts s, Forall (allowed n ws) sts → Forall (by_others i) sts →
    tracked (ws i) [] s → tracked (ws i) [] (run_schedule sts.*2 s)).
  { intros sts s H1 H2. apply tracked_gentle, schedule_gentle. by apply by_others_outside. }
  assert (Hs1 : tracked (ws i) [] (run_schedule before.*2 s0)) by (apply Hkeeps; [..|apply tracked_nil]; done).
  apply tracked_nil in Hs1 as [Hok1 Hnone1].
  destruct (after_task_none i (tasks i) (mkFront (run_schedule before.*2 s0) 0) Hlt Hi) as [Hok2 Hnone2];
    [done| |done|].
  { apply (schedule_sized (own (ws i))); [by apply by_others_outside|done]. }
  rewrite Hend in Hok2, Hnone2. rewrite !fmap_app, !run_schedule_app.
  assert (Hs3 : tracked (ws i) [] (run_schedule after.*2 (run_schedule during.*2 (run_schedule before.*2 s0)))).
  { apply Hkeeps; [..|apply tracked_nil]; done. }
  apply tracked_nil in Hs3 as [_ Hs3]. by apply Hs3.
Qed.

(** What is live at the end of a history was live before it. *)
Lemma history_leaves_none tasks s0 history :
  (∀ i, (i < n)%nat → interleaved n ws i ∧ takes_part to_rfc3339 ws tasks s0 history i) →
  Forall (allowed n ws) history → arbiter_ok s0 → models_sized s0 →
  (∀ i id, (i < n)%nat → own (ws i) id → leases s0 !! id = None) →
  ∀ id, live (run_schedule history.*2 s0) id = true → live s0 id = true.
Proof.
  intros Hparts Hall Hok Hm Hnew id Hl. destruct (live s0 id) eqn:Hl0; [done|]. exfalso.
  assert (Hforeign : ∀ i, (i < n)%nat → ¬ own (ws i) id).
  { intros i Hi Hid. destruct (Hparts i Hi) as [Hint Hpart].
    assert (Hnone : ∀ id, own (ws i) id → live s0 id = false).
    { intros k Hk. unfold live. by rewrite (Hnew i k Hi Hk). }
    pose proof (part_leaves_none tasks s0 history i Hi Hint Hpart Hall Hok Hm Hnone id Hid). congruence. }
  destruct (schedule_gentle (λ k, k = id) history.*2) with (s := s0) as [_ Hback]; [|done|].
  - apply allowed_outside; [|done]. intros i k Hi Hk ->. by apply (Hforeign i).
  - specialize (Hback id eq_refl Hl). congruence.
Qed.

(** A history grants fresh identifiers only. *)
Lemma history_fresh s0 history :
  Forall (allowed n ws) history → NoDup (granted_ids history.*2) →
  (∀ i id, (i < n)%nat → own (ws i) id → leases s0 !! id = None) →
  fresh_grants history.*2 s0.
Proof.
  intros Hall Hnd Hnew. split; [done|]. intros id Hid.
  destruct (allowed_granted history id Hall Hid) as (i & Hi & Hown). by apply (Hnew i).
Qed.

Lemma allowed_harmless sts :
  Forall (allowed n ws) sts → Forall (λ t, outside (λ _, False) (ts_op t)) sts.*2.
Proof. apply allowed_outside. by intros ? ? ? ? []. Qed.
End together.

(** C9: the connections of the daemon do not get into each other's way. Take
    any number of Varlink, sentry and HTTP connections, whatever their clients
    send, whichever writes fail, and however their operations and those of the
    daemon itself interleave. Each connection acts on the arbiter only through
    grants under identifiers of its own, releases, yields, freezes, thaws and
    changes of models; every state on the way is one of the reachable states
    the theorems on the arbiter are about; and once all have ended, the leases
    that can hold or regain memory are among those that could before the first
    one began. *)
Theorem connections_coexist (js : Json) (jt : JsonText) (rt : RequestText) (uu : UuidText) (dp : Display)
    (uc : Unicode) (ho : HashOrder LeaseId ComputeLease) (hm : HashOrder string ModelDescriptor)
    to_rfc3339 n ws tasks s0 history :
  (∀ v, is_ok (to_vec v) = true) →
  (∀ i j id, (i < n)%nat → (j < n)%nat → own (ws i) id → own (ws j) id → i = j) →
  (∀ i, (i < n)%nat → interleaved n ws i ∧ takes_part to_rfc3339 ws tasks s0 history i) →
  Forall (allowed n ws) history → NoDup (granted_ids history.*2) →
  reachable s0 → models_sized s0 →
  (∀ i id, (i < n)%nat → own (ws i) id → leases s0 !! id = None) →
  (∀ before after, history = before ++ after → reachable (run_schedule before.*2 s0)) ∧
  (∀ id, live (run_schedule history.*2 s0) id = true → live s0 id = true) ∧
  ∀ i f, (i < n)%nat → models_sized (fr_arbiter f) →
    ∃ ts, makes (ws i) f ts (after_task to_rfc3339 (ws i) (tasks i) f) ∧
      Forall (λ t, made (own (ws i)) (ts_op t)) ts.
Proof.
  intros Htext Hfresh Hparts Hall Hnd Hreach Hm Hnew. split_and!.
  - intros before after ->. rewrite Forall_app in Hall. destruct Hall as [Hall _].
    unfold granted_ids in Hnd. rewrite fmap_app, omap_app in Hnd. apply NoDup_app in Hnd as [Hnd _].
    apply (schedule_reachable (λ _, False)); [done|by apply (allowed_harmless n ws)|].
    by apply (history_fresh n ws).
  - by apply (history_leaves_none to_rfc3339 n ws Htext Hfresh tasks); [..|apply reachable_ok| |].
  - intros i f Hi Hf. destruct (Hparts i Hi) as [Hint _].
    pose proof (run_task_does to_rfc3339 (ws i) (λ k s, interleaved_sized n ws Hfresh i k s Hi Hint)
      (tasks i) f Hf) as Hdoes.
    unfold after_task. destruct (run_task _ _ _ _) as [[r f'] evs]. apply Hdoes.
Qed.

(** C10: all memory comes back. A daemon that has granted nothing yet, any number
    of Varlink, sentry and HTTP connections with whatever clients, their
    operations interleaved with the daemon's own in any order: as long as no
    step promises memory that is not there, once all connections have ended
    the planes are exactly those of the last topology, their free memory
    included. *)
Theorem memory_comes_back (js : Json) (jt : JsonText) (rt : RequestText) (uu : UuidText) (dp : Display)
    (uc : Unicode) (ho : HashOrder LeaseId ComputeLease) (hm : HashOrder string ModelDescriptor)
    to_rfc3339 n ws tasks topo history :
  (∀ v, is_ok (to_vec v) = true) →
  (∀ i j id, (i < n)%nat → (j < n)%nat → own (ws i) id → own (ws j) id → i = j) →
  let s0 := new_arbiter topo in
  (∀ i, (i < n)%nat → interleaved n ws i ∧ takes_part to_rfc3339 ws tasks s0 history i) →
  Forall (allowed n ws) history → NoDup (granted_ids history.*2) →
  planes_ok (t_planes topo) → within_means history.*2 s0 = true →
  planes (run_schedule history.*2 s0) = t_planes (topology_of history.*2 topo).
Proof.
  intros Htext Hfresh s0 Hparts Hall Hnd Hok Hwithin.
  assert (Hcareful : careful topo s0) by by apply careful_new.
  destruct (careful_invariant topo s0 Hcareful) as (_ & Hs0 & _).
  assert (Hdead : ∀ id, live (run_schedule history.*2 s0) id = false).
  { intros id. destruct (live (run_schedule history.*2 s0) id) eqn:Hl; [|done].
    apply (history_leaves_none to_rfc3339 n ws Htext Hfresh tasks s0) in Hl; done. }
  apply (careful_idle _ _ (schedule_careful (λ _, False) history.*2 topo s0 Hcareful
    (allowed_harmless n ws history Hall) ltac:(by apply (history_fresh n ws)) Hwithin)).
  intros k l Hl. specialize (Hdead k). unfold live in Hdead. rewrite Hl in Hdead.
  unfold is_active. by destruct (l_state l).
Qed.
