(* ===== verification/ArbiterExamples.v ===== *)
(** A concrete machine and runs of the arbiter on it: the theorems about the
    arbiter, its hardware and its registry at work. *)
From Stdlib Require Import SpecFloat.
From S2P Require Import Prelude Lease Errors Topology Text Model Host Psi Arbiter Discovery.
From S2P Require Import Ledger Grant Hotplug Runs Lifecycle Acquire Spec Books Admission Ending.
Local Open Scope Z_scope.

Definition plane (id : string) (kind : ComputePlaneKind) (total avail : Z) : ComputePlane :=
  {| p_id := id; p_name := id; p_kind := kind; p_device_path := None;
     p_total_memory_bytes := total; p_available_memory_bytes := avail;
     p_numa_node := None; p_supported_formats := [];
     p_is_triage_reserved := false; p_is_quarantined := false; p_hardware_features := [] |}.

Definition gpu : ComputePlane := plane "drm-renderD128" DiscreteGpu 1000 1000.
Definition igpu : ComputePlane := plane "drm-renderD129" IntegratedUma 800 800.
Definition host : ComputePlane := plane "cpu-host" CpuMatrixExtension 600 450.

Definition machine (ps : list ComputePlane) : HardwareTopology := mkHardwareTopology ps 2048 1024 8 1.
Definition workstation : HardwareTopology := machine [gpu; host].
Definition laptop : HardwareTopology := machine [igpu; host].

Definition ho0 : HashOrder LeaseId ComputeLease := canonical_order.
Definition hm0 : HashOrder string ModelDescriptor := canonical_order.
Definition calm : PressureMetrics := from_level Normal.
Definition busy : PressureMetrics := from_level Critical.
Definition id1 : LeaseId := mkLeaseId 1.
Definition id2 : LeaseId := mkLeaseId 2.
Definition id3 : LeaseId := mkLeaseId 3.

(** A batch job of 600 bytes on the graphics card, with a pid and a unit. *)
Definition op_batch : arbiter_op :=
  AcquireLease calm 100 id1 Batch 600 (Some "drm-renderD128") (Some "batch.service") (Some 4242).
(** An interactive request that needs its room. *)
Definition op_chat : arbiter_op :=
  AcquireLease calm 101 id2 Interactive 700 (Some "drm-renderD128") None (Some 4243).

Definition s0 : ArbiterState := new_arbiter workstation.
Definition s1 : ArbiterState := exec ho0 hm0 op_batch s0.
Definition s2 : ArbiterState := exec ho0 hm0 op_chat s1.

Lemma workstation_ok : planes_ok (t_planes workstation).
Proof. apply (bool_decide_unpack _). vm_compute. exact I. Qed.
Lemma laptop_ok : planes_ok (t_planes laptop).
Proof. apply (bool_decide_unpack _). vm_compute. exact I. Qed.

Lemma reach0 : reachable s0.
Proof. apply reachable_new, workstation_ok. Qed.
Lemma op_batch_ok : op_ok op_batch s0.
Proof. split; [by vm_compute|reflexivity]. Qed.
Lemma reach1 : reachable s1.
Proof. apply reachable_step; [apply reach0|apply op_batch_ok]. Qed.
Lemma op_chat_ok : op_ok op_chat s1.
Proof. split; [by vm_compute|reflexivity]. Qed.
Lemma reach2 : reachable s2.
Proof. apply reachable_step; [apply reach1|apply op_chat_ok]. Qed.
Lemma laptop_reach : reachable (new_arbiter laptop).
Proof. apply reachable_new, laptop_ok. Qed.

Lemma keyed_of s : reachable s → map_Forall (λ k l, l_id l = k) (leases s).
Proof. intros Hs. apply ok_keyed, reachable_ok, Hs. Qed.

Lemma careful1 : careful workstation s1.
Proof.
  apply (careful_step workstation s0 op_batch); [apply careful_new, workstation_ok|apply op_batch_ok|].
  vm_compute. reflexivity.
Qed.

(** The machine is docked: it has unified-memory graphics too, on which a job of
    300 bytes runs at the expense of the host. *)
Definition docked : HardwareTopology := machine [gpu; igpu; host].
Definition op_uma : arbiter_op :=
  AcquireLease calm 102 id3 Batch 300 (Some "drm-renderD129") None None.
Definition s1_docked : ArbiterState := exec ho0 hm0 (UpdateTopology docked) s1.
Definition s1_uma : ArbiterState := exec ho0 hm0 op_uma s1_docked.

Lemma docked_ok : planes_ok (t_planes docked).
Proof. apply (bool_decide_unpack _). vm_compute. exact I. Qed.
Lemma careful_docked : careful docked s1_docked.
Proof.
  apply (careful_step workstation s1 (UpdateTopology docked)); [apply careful1|apply docked_ok|].
  vm_compute. reflexivity.
Qed.
Lemma careful_uma : careful docked s1_uma.
Proof.
  apply (careful_step docked s1_docked op_uma); [apply careful_docked|split; [by vm_compute|reflexivity]|].
  vm_compute. reflexivity.
Qed.

(** ** The runs *)

Example batch_granted : planes s1 !! 0%nat = Some (set_available 400 gpu).
Proof. reflexivity. Qed.
Example chat_preempts :
  l_state <$> leases s2 !! id1 = Some Preempted ∧ l_state <$> leases s2 !! id2 = Some Active ∧
  planes s2 !! 0%nat = Some (set_available 300 gpu) ∧
  calls_of (acquire_lease (ho := ho0) calm 101 id2 Interactive 700 (Some "drm-renderD128") None
    (Some 4243) s1) = [CooperativeYield 4242; FreezeCgroup "batch.service"].
Proof. split_and!; reflexivity. Qed.

Lemma lease_life_cycle_witness :
  leases s1 !! id1 ≠ None ∧
  let s' := exec ho0 hm0 op_chat s1 in
  arbiter_ok s' ∧
  (∀ k l, leases s1 !! k = Some l →
     match leases s' !! k with
     | Some l' => l' = set_state (l_state l') l ∧ op_moves op_chat k (l_state l) (l_state l') = true
     | None => is_live (l_state l) = false ∧ 128 < Z.of_nat (size (leases s1))
     end) ∧
  (∀ k l', leases s1 !! k = None → leases s' !! k = Some l' →
     ∃ psi now pr b pref unit pid plane,
       op_chat = AcquireLease psi now k pr b pref unit pid ∧
       l' = new_lease k now plane b pr unit pid).
Proof.
  split; [by vm_compute|]. apply (lease_life_cycle ho0 hm0 op_chat s1); [apply reach1|apply op_chat_ok].
Defined.

Lemma arbiter_refines_ledger_witness :
  event_of ho0 op_chat s1 = Lends id2 "drm-renderD128" 700 ∧
  (∀ topo0, book_of topo0 (new_arbiter topo0) = empty_book topo0) ∧
  solvent (book_of workstation s1) ∧
  spec_step (event_of ho0 op_chat s1) (book_of workstation s1)
    (book_of workstation (exec ho0 hm0 op_chat s1)).
Proof.
  split; [by vm_compute|].
  apply (arbiter_refines_ledger workstation ho0 hm0 op_chat s1);
    [apply careful1|apply op_chat_ok|vm_compute; reflexivity].
Defined.

(** What the job on unified memory takes is missing on the host as well. *)
Example uma_free : p_available_memory_bytes <$> planes s1_uma = [400; 500; 150].
Proof. vm_compute. reflexivity. Qed.

Lemma memory_conserved_witness :
  let drawn := used (charges (t_planes docked)) (abs s1_uma) (p_id host) in
  ∃ p, planes s1_uma !! 2%nat = Some p ∧ p = set_available (p_available_memory_bytes p) host ∧
    0 ≤ p_available_memory_bytes p ∧ 0 ≤ drawn ∧
    p_available_memory_bytes p + drawn = p_available_memory_bytes host.
Proof. apply (memory_conserved docked s1_uma 2%nat host); [apply careful_uma|reflexivity]. Defined.

(** ** Grants *)

Definition acquire_chat : result Error ComputeLease * ArbiterState * list FreezerCall :=
  acquire_lease (ho := ho0) calm 101 id2 Interactive 700 (Some "drm-renderD128") None (Some 4243) s1.
Definition batch_lease : ComputeLease :=
  new_lease id1 100 "drm-renderD128" 600 Batch (Some "batch.service") (Some 4242).
Definition chat_lease : ComputeLease :=
  new_lease id2 101 "drm-renderD128" 700 Interactive None (Some 4243).

Lemma acquire_chat_eq :
  acquire_lease (ho := ho0) calm 101 id2 Interactive 700 (Some "drm-renderD128") None (Some 4243) s1 =
    (Ok chat_lease, s2, [CooperativeYield 4242; FreezeCgroup "batch.service"]).
Proof. reflexivity. Qed.

Lemma preemption_discipline_witness :
  leases s2 !! id1 = Some (set_state Preempted batch_lease) ∧
  ∃ vs, NoDup vs ∧
    (∀ k l, leases s1 !! k = Some l → is_active l = true →
       leases s2 !! k = Some (if bool_decide (k ∈ vs) then set_state Preempted l else l)) ∧
    ∀ vs1 v vs2, vs = vs1 ++ v :: vs2 →
      ∃ i p lv, select_plane (planes s1) Interactive (Some "drm-renderD128") = Ok i ∧
        planes s1 !! i = Some p ∧ leases s1 !! v = Some lv ∧ is_active lv = true ∧
        l_plane_id lv = p_id p ∧ priority_rank (l_priority lv) < priority_rank Interactive ∧
        available_at (restore_all (planes s1) (p_id p) (leases s1) vs1) i < 700 ∧
        ∀ c lc, leases s1 !! c = Some lc → preemptable_on (p_id p) Interactive lc = true →
          priority_rank (l_priority lc) < priority_rank (l_priority lv) → c ∈ vs1.
Proof.
  split; [by vm_compute|].
  apply (preemption_discipline ho0 calm 101 id2 Interactive 700 (Some "drm-renderD128") None
    (Some 4243) s1 (Ok chat_lease) s2 [CooperativeYield 4242; FreezeCgroup "batch.service"]).
  - apply keyed_of, reach1.
  - reflexivity.
  - apply acquire_chat_eq.
Defined.


Lemma emergency_bypass_witness :
  acquire_lease (ho := ho0) busy 7 id3 Batch 1 None None None s1 =
    (Err (BusSaturation (f32 60) (f32 25)), s1, []) ∧
  ∃ p s' ws, acquire_lease (ho := ho0) busy 7 id3 EmergencyTriage 5000 None None None s1 =
      (Ok (new_lease id3 7 (p_id p) 5000 EmergencyTriage None None), s', ws) ∧
    p ∈ planes s1 ∧
    leases s' !! id3 = Some (new_lease id3 7 (p_id p) 5000 EmergencyTriage None None) ∧
    (p_is_triage_reserved p = true ∨
     (∀ q, q ∈ planes s1 → p_is_triage_reserved q = false) ∧
     (is_cpu p = true ∨
      (∀ q, q ∈ planes s1 → is_cpu q = false ∧
         p_total_memory_bytes q ≤ p_total_memory_bytes p))).
Proof.
  split.
  - by apply (emergency_bypass ho0 busy 7 id3 Batch 1 None None None s1 (keyed_of _ reach1)).
  - by apply (emergency_bypass ho0 busy 7 id3 EmergencyTriage 5000 None None None s1 (keyed_of _ reach1)).
Defined.

(** A request too big for the card is refused, after the batch job was hit. *)
Definition refused : result Error ComputeLease * ArbiterState * list FreezerCall :=
  acquire_lease (ho := ho0) calm 102 id3 Interactive 1500 (Some "drm-renderD128") None None s1.

Lemma refusal_preempts_silently_witness :
  leases (state_of refused) !! id1 = Some (set_state Preempted batch_lease) ∧
  calls_of refused = [] ∧
  ∃ i p, select_plane (planes s1) Interactive (Some "drm-renderD128") = Ok i ∧
    planes s1 !! i = Some p ∧ "drm-renderD128" = p_id p ∧ 1500 = 1500 ∧
    1000 = available_at (planes (state_of refused)) i ∧ 1000 < 1500 ∧
    ∀ k, leases (state_of refused) !! k =
      (λ l, if preemptable_on "drm-renderD128" Interactive l then set_state Preempted l else l)
        <$> leases s1 !! k.
Proof.
  split; [reflexivity|].
  apply (refusal_preempts_silently ho0 calm 102 id3 Interactive 1500 (Some "drm-renderD128") None None
    s1 "drm-renderD128" 1500 1000).
  - apply keyed_of, reach1.
  - reflexivity.
Defined.

(** ** Hot-plugging: the graphics card goes away *)

Lemma update_topology_recharges_witness :
  let s' := update_topology (ho := ho0) (machine [host]) s1 in
  planes_ok (planes s') ∧
  (∀ i, planes s' !! i =
     (λ p, set_available (saturating_sub (p_available_memory_bytes p)
                            (held [host] (leases s1) (p_id p))) p) <$> [host] !! i) ∧
  (∀ k, leases s' !! k =
     (λ l, match l_state l with
           | Active | Preempting | Frozen | Preempted =>
               if bool_decide (l_plane_id l ∈ p_id <$> [host]) then l else set_state Revoked l
           | Revoked | Expired => l
           end) <$> leases s1 !! k) ∧
  ∀ ho' : HashOrder LeaseId ComputeLease, update_topology (ho := ho') (machine [host]) s1 = s'.
Proof.
  apply (update_topology_recharges ho0 (machine [host]) s1).
  - apply (bool_decide_unpack _). vm_compute. exact I.
  - apply ok_bytes, reachable_ok, reach1.
Defined.

(** ** Ending and resuming *)

Lemma ended_is_final_witness :
  let s' := state_of (release_lease id1 s1) in
  res_of (release_lease id1 s1) = Ok tt ∧
  leases s' = <[id1 := set_state Expired batch_lease]> (leases s1) ∧
  planes s' = restore_plane_memory (planes s1) "drm-renderD128" 600 ∧
  release_lease id1 s' = (Ok tt, s', []) ∧ revoke_lease id1 s' = (Ok tt, s', []) ∧
  yield_lease id1 s' = (Ok tt, s', []) ∧ freeze_lease id1 s' = (Ok tt, s', []) ∧
  thaw_lease id1 s' = (Ok tt, s', []).
Proof. apply (ended_is_final id1 s1 batch_lease false). reflexivity. Defined.

Lemma acquire_release_roundtrip_witness :
  [] = ([] : list FreezerCall) ∧
  release_lease id1 s1 =
    (Ok tt, with_leases (<[id1 := set_state Expired batch_lease]> (sweep_leases (leases s0))) s0, []).
Proof.
  apply (acquire_release_roundtrip ho0 calm 100 id1 Batch 600 (Some "drm-renderD128")
    (Some "batch.service") (Some 4242) s0 batch_lease s1).
  - apply reachable_ok, reach0.
  - by vm_compute.
  - reflexivity.
  - reflexivity.
  - apply Forall_cons. split; [by vm_compute|]. apply Forall_cons. split; [|constructor].
    intros Hin%list_elem_of_singleton. by vm_compute in Hin.
Defined.

Lemma thaw_preempted_witness :
  let l := set_state Preempted batch_lease in
  (l_plane_id l ∉ p_id <$> planes s2 → thaw_lease id1 s2 = (Err (PlaneNotFound (l_plane_id l)), s2, [])) ∧
  (l_plane_id l ∈ p_id <$> planes s2 → fits (planes s2) (l_plane_id l) 600 →
     thaw_lease id1 s2 =
       (Ok tt, with_leases (<[id1 := set_state Active l]> (leases s2))
                 (with_planes (touch (debit 600) (charges (planes s2) (l_plane_id l)) (planes s2)) s2), [])) ∧
  (¬ fits (planes s2) (l_plane_id l) 600 →
     ∃ p, p ∈ planes s2 ∧ p_id p ∈ charges (planes s2) (l_plane_id l) ∧
       p_available_memory_bytes p < 600 ∧
       thaw_lease id1 s2 = (Err (ResourceExhaustion (p_id p) 600 (p_available_memory_bytes p)), s2, [])).
Proof.
  apply (thaw_preempted id1 s2 (set_state Preempted batch_lease)).
  - apply reachable_ok, reach2.
  - reflexivity.
  - reflexivity.
Defined.

Lemma suspend_resume_roundtrip_witness :
  let s' := state_of (freeze_lease id1 s1) in
  leases s' !! id1 = Some (set_state Frozen batch_lease) ∧ planes s' = planes s1 ∧
  thaw_lease id1 s' = (Ok tt, with_leases (<[id1 := set_state Active batch_lease]> (leases s1)) s1, []).
Proof. apply (suspend_resume_roundtrip id1 s1 batch_lease true); reflexivity. Defined.

(** ** Where accounts go wrong *)

(** The chat holds 700 of 1000 bytes; an emergency of 900 preempts it too, so
    the machine here is the idle one with a smaller card. *)
Definition small_gpu : ComputePlane := plane "drm-renderD128" DiscreteGpu 1000 100.
Lemma small_ok : planes_ok (t_planes (machine [small_gpu])).
Proof. apply (bool_decide_unpack _). vm_compute. exact I. Qed.

Lemma forced_grant_overcredits_witness :
  ∃ l s', acquire_lease (ho := ho0) calm 1 id1 EmergencyTriage 900 (Some "drm-renderD128") None None
      (new_arbiter (machine [small_gpu])) = (Ok l, s', []) ∧
    planes s' !! 0%nat = Some (set_available 0 small_gpu) ∧
    planes (state_of (release_lease id1 s')) !! 0%nat = Some (set_available 900 small_gpu).
Proof.
  apply (forced_grant_overcredits ho0 calm 1 id1 900 None None (new_arbiter (machine [small_gpu]))
    0%nat small_gpu).
  - apply reachable_ok, reachable_new, small_ok.
  - by vm_compute.
  - reflexivity.
  - reflexivity.
  - intros k l Hk. by vm_compute in Hk.
  - by vm_compute.
Defined.

Lemma uma_grant_ignores_host_witness :
  thaw_check (planes (new_arbiter laptop)) "drm-renderD129" 700 =
    Err (ResourceExhaustion "cpu-host" 700 450) ∧
  ∃ l s', acquire_lease (ho := ho0) calm 1 id1 Batch 700 (Some "drm-renderD129") None None
      (new_arbiter laptop) = (Ok l, s', []) ∧
    planes s' !! 1%nat = Some (set_available 0 host) ∧
    planes (state_of (release_lease id1 s')) !! 1%nat = Some (set_available 600 host).
Proof.
  apply (uma_grant_ignores_host ho0 calm 1 id1 Batch 700 None None (new_arbiter laptop) 0%nat 1%nat
    igpu host); try reflexivity; try by vm_compute.
  apply reachable_ok, laptop_reach.
Defined.

(** ** The registry *)

Definition model (id : string) (placement : ModelPlacementState) : ModelDescriptor :=
  mkModelDescriptor id "gguf" ("/models/" +:+ id) 100 placement None 0 0 None.

Definition registry_ops : list registry_op :=
  [RegRegister (model "triage" Staged); RegRegister (model "chat" Dormant); RegPin "triage" "cpu-host"].

Lemma registry_bounded_witness :
  ∃ r, registry_run registry_ops r ∧ get_model "triage" r ≠ None ∧
    keyed r ∧ (size (pinned_models r) ≤ 1)%nat ∧ (size (models r) ≤ 256)%nat.
Proof.
  set (r1 := registry_step hm0 (RegRegister (model "triage" Staged)) new_registry).
  set (r2 := registry_step hm0 (RegRegister (model "chat" Dormant)) r1).
  exists (registry_step hm0 (RegPin "triage" "cpu-host") r2).
  assert (Hrun : registry_run registry_ops (registry_step hm0 (RegPin "triage" "cpu-host") r2)).
  { apply (run_snoc [_; _]), (run_snoc [_]), (run_snoc []), run_nil. }
  split; [exact Hrun|]. split; [by vm_compute|].
  apply (registry_bounded registry_ops _ Hrun).
Defined.

(** ** The hardware *)

Lemma triage_enclave_placement_witness :
  let ps' := (assign_triage_enclave [gpu; host]).1 in
  ∃ i p p', [gpu; host] !! i = Some p ∧ ps' !! i = Some p' ∧ p_id p = "cpu-host" ∧
    p_id p' = "cpu-host" ∧ p_is_quarantined p = false ∧
    (∀ j, j ≠ i → ps' !! j = [gpu; host] !! j) ∧
    ((is_npu p = true ∧ p_is_triage_reserved p' = true ∧
      p_available_memory_bytes p' = p_available_memory_bytes p) ∨
     (is_cpu p = true ∧ p_is_triage_reserved p' = false ∧
      (∀ q, q ∈ [gpu; host] → is_npu q = true → p_is_quarantined q = true) ∧
      (plane_ok p →
         let quota := p_available_memory_bytes p - p_available_memory_bytes p' in
         0 ≤ quota ≤ CPU_TRIAGE_RESERVED_BYTES ∧
         4 * quota ≤ p_available_memory_bytes p ∧
         p_total_memory_bytes p' = p_total_memory_bytes p - quota))).
Proof.
  apply (triage_enclave_placement [gpu; host] (assign_triage_enclave [gpu; host]).1 "cpu-host").
  reflexivity.
Defined.

