(* ===== verification/SystemExamples.v ===== *)
(** Concrete runs of the parts around the arbiter: device events, peers,
    freezing, preemption, and the descriptor server. *)
From S2P Require Import Prelude Lease Errors Topology Text Host Arbiter Ledger Runs Freezer.
From S2P Require Import Preempt FdLease FdQuota FdServer Netlink Peer Json ArbiterExamples.
Local Open Scope Z_scope.

(** * Device events *)

Definition reset_props : list (string * string) :=
  [("SUBSYSTEM", "drm"); ("RESET", "1"); ("DEVNAME", "dri/card0"); ("RESET", "0")].

Lemma uevent_roundtrip_witness :
  ∃ u, parse_uevent (uevent_datagram "change" "/devices/pci0/drm/card0" reset_props) = Some u ∧
    Netlink.action u = "change" ∧ devpath u = "/devices/pci0/drm/card0" ∧
    subsystem u = default "" (last_value "SUBSYSTEM" reset_props) ∧
    devname u = last_value "DEVNAME" reset_props ∧
    ∀ key, properties u !! key = last_value key reset_props.
Proof.
  apply uevent_roundtrip; [vm_compute; reflexivity..| |vm_compute; reflexivity].
  repeat constructor; vm_compute; reflexivity.
Defined.

(** * Peers *)

Definition job_cgroup : string := "/ai-batch.slice/job-7.service".
Definition job_proc (p : string) : option string :=
  if String.eqb p "/proc/4242/cgroup" then Some ("0::" +:+ job_cgroup +:+ String newline "") else None.

Lemma peer_attributed_witness :
  ∃ info, from_socket (Ok (4242, 1000, 1000)) job_proc = Ok info ∧
    peer_pid info = 4242 ∧ peer_uid info = 1000 ∧ peer_gid info = 1000 ∧
    cgroup_path info = job_cgroup ∧
    (is_container info = true ↔ ∃ l r, job_cgroup = l +:+ "machine.slice" +:+ r) ∧
    (is_batch info = true ↔ ∃ l r, job_cgroup = l +:+ "ai-batch.slice" +:+ r) ∧
    ((∃ segs0 segs1, split "/" job_cgroup = segs0 ++ slice info :: segs1 ∧
        Forall (λ x, ends_with x ".slice" = false) segs0 ∧ ends_with (slice info) ".slice" = true) ∨
     (Forall (λ x, ends_with x ".slice" = false) (split "/" job_cgroup) ∧
        slice info = if is_container info then "machine.slice"
                     else if is_batch info then "ai-batch.slice" else "system.slice")).
Proof.
  apply peer_attributed;
    [lia|vm_compute; reflexivity|apply (bool_decide_unpack _); vm_compute; exact I
    |vm_compute; reflexivity..|discriminate|vm_compute; reflexivity].
Defined.

Example job_peer :
  from_socket (Ok (4242, 1000, 1000)) job_proc =
    Ok (mkPeerInfo 4242 1000 1000 job_cgroup "ai-batch.slice" false true).
Proof. vm_compute. reflexivity. Qed.

(** * Freezing *)

(** A machine where the job runs in a slice of its own name. *)
Definition nested_fs : Fs :=
  snapshot [("/sys/fs/cgroup/batch.slice/batch-7.service/cgroup.freeze", "0")] [].

Lemma freeze_path_of_unit_witness :
  let unit_name := "batch-7.service" in
  let direct := "/sys/fs/cgroup/" +:+ unit_name +:+ "/cgroup.freeze" in
  let nested parent := "/sys/fs/cgroup/" +:+ parent +:+ ".slice/" +:+ unit_name +:+ "/cgroup.freeze" in
  (resolve_freeze_path nested_fs unit_name = direct ∧
     (fs_exists nested_fs direct = true ∨
      ∀ parent rest, unit_name = parent +:+ String "-" rest → lacks "-" parent = true →
        fs_exists nested_fs (nested parent) = false)) ∨
  ∃ parent rest, unit_name = parent +:+ String "-" rest ∧ lacks "-" parent = true ∧
    fs_exists nested_fs direct = false ∧ fs_exists nested_fs (nested parent) = true ∧
    resolve_freeze_path nested_fs unit_name = nested parent.
Proof. apply (freeze_path_of_unit nested_fs "batch-7.service"); [reflexivity|discriminate]. Defined.

Example nested_chosen :
  resolve_freeze_path nested_fs "batch-7.service" =
    "/sys/fs/cgroup/batch.slice/batch-7.service/cgroup.freeze".
Proof. vm_compute. reflexivity. Qed.

(** * Preemption *)

(** A kernel where every call succeeds, naps of 25 ms. *)
Definition obliging : Kernel :=
  mkKernel nested_fs (λ n, if 0 <? n then Some n else None) (λ _ _, None)
    (λ _, Ok tt) (λ _ _, Ok tt) (λ _, Ok tt).
(** A client that ignores the request to yield, and one whose lease is
    released by its own task once the coordinator has taken five locks. *)
Definition stubborn : World := mkWorld (λ _ sh, sh) (λ _, POLL_INTERVAL) obliging.
Definition polite : World :=
  mkWorld (λ n sh, if (n =? 5)%nat
                   then mkShared (mark_active Expired id1 (sh_arbiter sh)) (sh_records sh) else sh)
    (λ _, POLL_INTERVAL) obliging.

Definition co0 : Coord := mkCoord (mkShared s1 ∅) 0 0.
Definition batch_lease : ComputeLease :=
  default (new_lease id1 0 "" 0 Batch None None) (leases s1 !! id1).

Lemma preempt_two_tier_witness :
  seen stubborn id1 0 (c_shared co0) = Some batch_lease ∧
  ∃ r c' calls, preempt_lease stubborn DEFAULT_PREEMPT_TIMEOUT id1 co0 = (r, c', calls) ∧
    Z.of_nat (c_locks c') ≤ Z.of_nat (c_locks co0) + DEFAULT_PREEMPT_TIMEOUT / POLL_INTERVAL + 6.
Proof.
  split; [reflexivity|].
  destruct (preempt_two_tier stubborn DEFAULT_PREEMPT_TIMEOUT id1 co0) as (r & c' & calls & Hrun & Hlocks & _);
    [by intros n|by vm_compute|].
  exists r, c', calls. split; [exact Hrun|exact Hlocks].
Defined.

(** The stubborn client is stopped, the polite one is only asked. *)
Example stubborn_stopped :
  calls_of (preempt_lease stubborn DEFAULT_PREEMPT_TIMEOUT id1 co0) =
    [Kill 4242 Usr1; WriteFile "/sys/fs/cgroup/batch.service/cgroup.freeze" "1"; Kill 4242 Stop].
Proof. vm_compute. reflexivity. Qed.
Example polite_spared :
  calls_of (preempt_lease polite DEFAULT_PREEMPT_TIMEOUT id1 co0) = [Kill 4242 Usr1].
Proof. vm_compute. reflexivity. Qed.

(** A lease that another task ends and sweeps away: during the polling that is
    yielding; between the last poll and the freezing it makes the call fail
    although the client has been stopped, and the record never says so. *)
Definition sweeping (k : nat) : World :=
  mkWorld (λ n sh, if (n =? k)%nat
                   then mkShared (with_leases ∅ (sh_arbiter sh)) (sh_records sh) else sh)
    (λ _, POLL_INTERVAL) obliging.
Example swept_early :
  let '(r, c', calls) := preempt_lease (sweeping 5) DEFAULT_PREEMPT_TIMEOUT id1 co0 in
  r = Ok tt ∧ calls = [Kill 4242 Usr1] ∧
  rec_completed <$> sh_records (c_shared c') !! id1 = Some true.
Proof. vm_compute. done. Qed.
Example swept_late :
  let '(r, c', calls) := preempt_lease (sweeping 13) DEFAULT_PREEMPT_TIMEOUT id1 co0 in
  r = Err (LeaseNotFound id1) ∧
  calls = [Kill 4242 Usr1; WriteFile "/sys/fs/cgroup/batch.service/cgroup.freeze" "1"; Kill 4242 Stop] ∧
  (λ rec, (rec_tier rec, rec_completed rec)) <$> sh_records (c_shared c') !! id1
    = Some (Tier1Cooperative, false).
Proof. vm_compute. done. Qed.

(** * Memory files and descriptors *)

(** A kernel that writes at most three bytes at a time. *)
Definition slow_writes : MemfdKernel :=
  mkMemfdKernel (λ _, None) (λ _, None) (λ _ rest, Ok (Nat.min 3 (String.length rest))) None None.

Lemma sealed_model_complete_witness :
  let fd := mkMemfd "model" "weights!" 8 0 all_seals in
  m_written fd = "weights!" ∧ m_size fd = Z.of_nat (String.length "weights!") ∧ m_sealed fd = true.
Proof.
  intros fd. apply (sealed_model_complete slow_writes "model" "weights!" fd).
  - intros call rest n Hn. simplify_eq/=. apply (Nat.le_min_r 3).
  - intros call rest n [= <-] Hrest. destruct rest; [done|]. simpl. lia.
  - vm_compute. reflexivity.
Defined.

Lemma recv_never_leaks_witness :
  [7] ++ [8; 9] ≡ₚ [7; 8; 9] ∧ "hello" = "hello".
Proof.
  apply (recv_never_leaks (mkReceived "hello" [7; 8; 9]) 1024 (Ok ("hello", Some 7)) [8; 9]).
  vm_compute. reflexivity.
Defined.

(** * The quota *)

(** Two tasks, interleaved between the load and the swap. *)
Definition race_tasks : gmap nat task :=
  <[0%nat := Holding 60]> (<[1%nat := Looping 50 60]> (<[0%nat := Looping 60 0]>
    (<[1%nat := Looping 50 0]> (<[0%nat := Starting 60]> (<[1%nat := Starting 50]> ∅))))).
Definition race : quota := mkQuota 60 race_tasks.

Lemma race_run : rtc (quota_step 100) (mkQuota 0 ∅) race.
Proof.
  eapply rtc_l; [eexists; apply (step_arrive _ _ _ 1%nat 50); [reflexivity|by vm_compute]|].
  eapply rtc_l; [eexists; apply (step_arrive _ _ _ 0%nat 60); [reflexivity|by vm_compute]|].
  eapply rtc_l; [eexists; apply (step_load _ _ _ 1%nat 50); reflexivity|].
  eapply rtc_l; [eexists; apply (step_load _ _ _ 0%nat 60); reflexivity|].
  eapply rtc_l; [eexists; apply (step_swap _ _ _ 0%nat 60); [reflexivity|by vm_compute]|].
  eapply rtc_l; [eexists; apply (step_retry _ _ _ 1%nat 50 0); [reflexivity|done|by vm_compute]|].
  change (saturating_add 0 60) with 60. unfold race, race_tasks.
  by rewrite (insert_insert_ne _ 1%nat 0%nat) by done.
Qed.

Lemma quota_exact_always_witness :
  allocated_bytes race = outstanding (tasks race) ∧ 0 ≤ allocated_bytes race ≤ 100 ∧
  ((∀ t tk, tasks race !! t = Some tk → tk = Finished ∨ ∃ b c, tk = Refused b c) →
   allocated_bytes race = 0).
Proof. apply quota_exact_always; [by vm_compute|apply race_run]. Defined.

(** The refused task has read the new count and is about to answer. *)
Definition race_events : list quota_event :=
  [CallReserve 1 50; CallReserve 0 60; ReturnReserve 0 (Ok 60)].
Lemma race_history : history (quota_act 100) (mkQuota 0 ∅) race_events race.
Proof.
  change race_events with (((((([] ++ [CallReserve 1 50]) ++ [CallReserve 0 60]) ++ []) ++ [])
    ++ [ReturnReserve 0 (Ok 60)]) ++ []).
  unfold race, race_tasks. rewrite (insert_insert_ne _ 0%nat 1%nat) by done.
  eapply history_snoc; [eapply history_snoc; [eapply history_snoc; [eapply history_snoc;
    [eapply history_snoc; [eapply history_snoc; [apply history_nil|]|]|]|]|]|].
  - apply (step_arrive _ _ _ 1%nat 50); [reflexivity|by vm_compute].
  - apply (step_arrive _ _ _ 0%nat 60); [reflexivity|by vm_compute].
  - apply (step_load _ _ _ 1%nat 50); reflexivity.
  - apply (step_load _ _ _ 0%nat 60); reflexivity.
  - apply (step_swap _ _ _ 0%nat 60); [reflexivity|by vm_compute].
  - apply (step_retry _ _ _ 1%nat 50 0); [reflexivity|done|by vm_compute].
Qed.

Lemma quota_linearizable_witness :
  history (atomic_act 100) (mkAccount 0 ∅) race_events (account_of 100 race) ∧
  phases (account_of 100 race) !! 1%nat = Some (Answered (Err 60)).
Proof.
  split; [|vm_compute; reflexivity].
  apply quota_linearizable; [by vm_compute|apply race_history].
Defined.

(** The same two tasks, once they are there. *)
Definition racers : quota := mkQuota 0 (<[0%nat := Starting 60]> (<[1%nat := Starting 50]> ∅)).
Definition raced : quota :=
  mkQuota 60 (<[0%nat := Holding 60]> (<[0%nat := Looping 60 0]> (<[1%nat := Looping 50 0]>
    (tasks racers)))).
Lemma racers_run : nsteps (works 100) 3 racers raced.
Proof.
  eapply nsteps_l; [split; [eexists; apply (step_load _ _ _ 1%nat 50); reflexivity|reflexivity]|].
  eapply nsteps_l; [split; [eexists; apply (step_load _ _ _ 0%nat 60); reflexivity|reflexivity]|].
  eapply nsteps_l; [split; [eexists; apply (step_swap _ _ _ 0%nat 60); [reflexivity|by vm_compute]|reflexivity]|].
  apply nsteps_O.
Qed.
Lemma quota_tasks_finish_witness :
  3 ≤ 24 ∧ ((∀ q'', ¬ works 100 raced q'') →
    ∀ t tk, tasks raced !! t = Some tk → tk = Finished ∨ ∃ b c, tk = FdQuota.Refused b c).
Proof.
  destruct (quota_tasks_finish 100 3 racers raced racers_run) as [H1 H2].
  split; [|exact H2]. vm_compute. discriminate.
Defined.

Lemma overlapping_releases_underflow_witness :
  let start := mkQuota 10 {[ 0%nat := Holding 10; 1%nat := Holding 10 ]} in
  ∃ q, rtc (quota_step 100) start q ∧ allocated_bytes q = u64_limit - 10 ∧
    ∀ more, 0 ≤ more → is_ok (try_reserve 100 (allocated_bytes q) more).1 = false.
Proof. apply overlapping_releases_underflow; by vm_compute. Defined.

(** * The descriptor server *)

(** A codec that knows one request. *)
Definition toy_codec : FdCodec :=
  {| decode_request s :=
       if String.eqb s "create 4096" then Ok (mkFdRequest "create" (Some "buf") (Some 4096))
       else Err "bad request";
     encode_response r := Ok (status r) |}.

Lemma framing_independent_of_reads_witness :
  read_framed_request (codec := toy_codec) (chunks ["cre"; "ate 40"; "96" +:+ String nul ""]) "" =
    Ok (Some (mkFdRequest "create" (Some "buf") (Some 4096))).
Proof.
  apply (framing_independent_of_reads toy_codec "create 4096"); [vm_compute; reflexivity
    |by vm_compute|by repeat constructor|vm_compute; reflexivity].
Defined.

Definition willing : FdWorld := mkFdWorld (Ok tt) slow_writes (Ok 0%nat).
Definition request_reads : list (result string string) := chunks ["create 4096" +:+ String nul ""].

Lemma connection_quota_neutral_witness :
  let '(_, a', outs) := handle_connection (codec := toy_codec) (uu := bit_uuid) (dp := some_display) 10000 willing request_reads 500 in
  a' = 500 ∧
  (∀ fd payload, SendFd fd payload ∈ outs →
     outs = [SendFd fd payload] ∧
     ∃ req, read_framed_request (codec := toy_codec) request_reads "" = Ok (Some req) ∧
       wants_memory req = true ∧ requested_size req ≤ MAX_MEMFD_BYTES ∧
       500 + requested_size req ≤ 10000 ∧
       m_sealed fd = true ∧ m_size fd = requested_size req ∧ m_name fd = requested_name req) ∧
  (∀ req fd, read_framed_request (codec := toy_codec) request_reads "" = Ok (Some req) →
     wants_memory req = true →
     requested_size req ≤ MAX_MEMFD_BYTES → 500 + requested_size req ≤ 10000 →
     create_sealed_memfd (w_kernel willing) (requested_name req) (requested_size req) None = Ok fd →
     ∃ payload, outs = [SendFd fd payload]).
Proof.
  destruct (handle_connection (codec := toy_codec) (uu := bit_uuid) (dp := some_display) 10000 willing request_reads 500)
    as [[r a'] outs] eqn:Hconn.
  apply (connection_quota_neutral toy_codec bit_uuid some_display 10000 willing request_reads 500 r a' outs);
    [done|done| |exact Hconn].
  intros payload req. unfold decode_request, toy_codec. destruct (String.eqb payload _); [|done].
  intros [= <-]. by vm_compute.
Defined.

Example request_served :
  handle_connection (codec := toy_codec) (uu := bit_uuid) (dp := some_display) 10000 willing request_reads 500 =
    (Ok tt, 500, [SendFd (mkMemfd "buf" "" 4096 0 all_seals) "ok"]).
Proof. vm_compute. reflexivity. Qed.
