(* ===== verification/Bench.v ===== *)
(** A bench for the repository's own tests: an arbiter under test, a clock and
    a source of identifiers, assertions, and loops. A test runs on the bench
    and passes when it ends without a panic. *)
From Stdlib Require Import SpecFloat.
From S2P Require Import Prelude Lease Errors Topology Text Model Host Psi Arbiter Freezer.
Local Open Scope Z_scope.

Definition KiB : Z := 1024.
Definition MiB : Z := 1024 * 1024.
Definition GiB : Z := 1024 * 1024 * 1024.

(** Every clock reading and every new UUID is one tick. *)
Record Bench := mkBench {
  b_arbiter : ArbiterState;
  b_ticks : N;
  b_files : list (string * string);
}.
Definition set_arbiter (s : ArbiterState) (b : Bench) : Bench := mkBench s (b_ticks b) (b_files b).

(** A test panics with the message of the assertion that failed; its trace is
    what the arbiter asked of the freezer. *)
Definition Test (A : Type) : Type := eff Bench FreezerCall string A.

(** Maps are iterated in one fixed order. *)
#[export] Instance bench_order {K V} `{Countable K} : HashOrder K V := canonical_order.

(** * Assertions, in any state *)

Section assertions.
Context {S W : Type}.
Local Open Scope eff_scope.

Definition panic {A} (msg : string) : eff S W string A := ethrow msg.
Definition expect {E A} (r : result E A) (msg : string) : eff S W string A :=
  match r with Ok a => eret a | Err _ => panic msg end.
Definition unwrap {E A} (r : result E A) : eff S W string A := expect r "unwrap on an Err value".
Definition unwrap_some {A} (o : option A) : eff S W string A :=
  match o with Some a => eret a | None => panic "unwrap on a None value" end.
Definition assert (b : bool) : eff S W string unit := if b then eret tt else panic "assertion failed".
Definition assert_eq {A} `{EqDecision A} (x y : A) : eff S W string unit :=
  assert (bool_decide (x = y)).

(** A call whose result is unwrapped. *)
Definition ok {E A} (m : eff S W string (result E A)) : eff S W string A :=
  let! r := m in unwrap r.

(** [for x in l { f(x) }], collecting what the rounds give. *)
Fixpoint each {A B} (l : list A) (f : A → eff S W string B) : eff S W string (list B) :=
  match l with
  | [] => eret []
  | x :: l' => let! y := f x in let! ys := each l' f in eret (y :: ys)
  end.

(** What [m] gives, with the calls it made. *)
Definition traced {A} (m : eff S W string A) : eff S W string (A * list W) := λ s,
  match m s with (Ok a, s', w) => (Ok (a, w), s', w) | (Err e, s', w) => (Err e, s', w) end.
(** A look at the state. *)
Definition seen_now {A} (f : S → A) : eff S W string A := let! s := eget in eret (f s).

(** A test passes when it does not panic. *)
Definition passes_from {A} (s : S) (t : eff S W string A) : bool := is_ok (res_of (t s)).
End assertions.

(** * The bench *)

Section bench.
Local Open Scope eff_scope.

Definition tick : Test N :=
  let! b := eget in
  eput (mkBench (b_arbiter b) (b_ticks b + 1) (b_files b)) ;! eret (b_ticks b).

(** [Arbiter::new(topo)], the arbiter under test from here on. *)
Definition start (topo : HardwareTopology) : Test unit := emodify (set_arbiter (new_arbiter topo)).

(** A call to the arbiter, and a look at it. *)
Definition arb {A} (m : Arb A) : Test (result Error A) := λ b,
  let '(r, s, w) := m (b_arbiter b) in (Ok r, set_arbiter s b, w).
Definition look {A} (f : ArbiterState → A) : Test A := let! b := eget in eret (f (b_arbiter b)).
Definition change (f : ArbiterState → ArbiterState) : Test unit :=
  emodify (λ b, set_arbiter (f (b_arbiter b)) b).

(** [acquire_lease] under a simulated pressure level; where a test simulates
    none it means to run on a machine at ease. *)
Definition acquire_under (l : PressureLevel) (pr : LeasePriority) (bytes : Z)
    (plane unit : option string) (pid : option Z) : Test (result Error ComputeLease) :=
  let! n := tick in
  arb (acquire_lease (from_level l) (Z.of_N n) (mkLeaseId n) pr bytes plane unit pid).
Definition acquire := acquire_under Normal.
Definition release (id : LeaseId) : Test (result Error unit) := arb (release_lease id).

(** [LeaseId::default()]: a new identifier. *)
Definition default_id : Test LeaseId := let! n := tick in eret (mkLeaseId n).

(** Files of the test: [File::create] with [write_all]; and the freezer on them,
    which opens a file that is there without truncating it. *)
Definition write_file (path content : string) (b : Bench) : Bench :=
  mkBench (b_arbiter b) (b_ticks b) ((path, content) :: b_files b).
Definition overwrite (old val : string) : string :=
  let n := String.length val in val +:+ String.substring n (String.length old - n) old.
Definition disk (files : list (string * string)) : Kernel :=
  mkKernel (snapshot files []) Some (λ _ _, None) (λ _, Ok tt) (λ _ _, Ok tt) (λ _, Ok tt).
Definition store_call (b : Bench) (c : SysCall) : Bench :=
  match c with
  | WriteFile path val =>
      write_file path (overwrite (default "" (assoc_find path (b_files b))) val) b
  | Kill _ _ => b
  end.
Definition freezer {A} (m : Kernel → Sys (S := unit) A) : Test (result Error A) := λ b,
  let '(r, _, calls) := m (disk (b_files b)) tt in (Ok r, foldl store_call b calls, []).
Definition on_disk {A} (f : Kernel → A) : Test A := let! b := eget in eret (f (disk (b_files b))).

Definition bench : Bench := mkBench (new_arbiter empty_topology) 1 [].
Definition passes {A} (t : Test A) : bool := passes_from bench t.
End bench.

(** What the tests match results against. *)
Definition is_exhausted {A} (r : result Error A) : bool :=
  match r with Err (ResourceExhaustion _ _ _) => true | _ => false end.
Definition is_saturated {A} (r : result Error A) : bool :=
  match r with Err (BusSaturation _ _) => true | _ => false end.
Definition is_plane_missing {A} (r : result Error A) : bool :=
  match r with Err (PlaneNotFound _) => true | _ => false end.
Definition is_lease_missing {A} (r : result Error A) : bool :=
  match r with Err (LeaseNotFound _) => true | _ => false end.

(** A plane as the tests declare it, all of its memory free. *)
Definition test_plane (id name : string) (kind : ComputePlaneKind) (bytes : Z) : ComputePlane :=
  {| p_id := id; p_name := name; p_kind := kind; p_device_path := None;
     p_total_memory_bytes := bytes; p_available_memory_bytes := bytes; p_numa_node := None;
     p_supported_formats := []; p_is_triage_reserved := false; p_is_quarantined := false;
     p_hardware_features := [] |}.

(** [HardwareTopology::default()] with some planes pushed. *)
Definition topology_of (ps : list ComputePlane) : HardwareTopology := set_planes ps empty_topology.

(** [get_topology().await.planes[i].available_memory_bytes]; [None] where the
    source would panic on the index. *)
Definition free_memory (i : nat) (s : ArbiterState) : option Z :=
  p_available_memory_bytes <$> planes s !! i.
Definition lease_state (id : LeaseId) (s : ArbiterState) : option LeaseState :=
  l_state <$> get_lease id s.
Definition count_state (st : LeaseState) (s : ArbiterState) : nat :=
  length (List.filter (λ l, bool_decide (l_state l = st)) (list_leases s)).
Definition all_expired (s : ArbiterState) : bool :=
  forallb (λ l, bool_decide (l_state l = Expired)) (list_leases s).

(** A temporary file with the lines a test wrote into it. *)
Definition temp_file : string := "/tmp/test".
Definition written (ls : list string) : Fs :=
  snapshot [(temp_file, String.concat "" ((λ l, l +:+ String newline "") <$> ls))] [].

(** [format!("name-{}.service", i)] *)
Definition numbered (before : string) (i : nat) (after : string) : string :=
  before +:+ pretty i +:+ after.
