(* ===== verification/ArbiterTests.v ===== *)
(** The tests of the arbiter, its registry and its readers that run one step
    after the other: qa/unit/mod.rs, qa/edge/ and qa/integration/, translated
    assertion by assertion and run on the model. *)
From Stdlib Require Import SpecFloat.
From S2P Require Import Prelude Lease Errors Topology Text Model Host Psi Arbiter Discovery Bench.
Local Open Scope Z_scope.
Local Open Scope eff_scope.

(** * qa/unit/mod.rs *)

Definition test_parse_kb : Test unit :=
  assert_eq (parse_kb "1024 kB") (1024 * 1024) ;!
  assert_eq (parse_kb "   2048 kB  ") (2048 * 1024) ;!
  assert_eq (parse_kb "invalid") 0 ;!
  assert_eq (parse_kb "") 0.

Definition test_read_meminfo_from_mock : Test unit :=
  let fs := written ["MemTotal:       16384 kB"; "MemFree:         4096 kB";
                     "MemAvailable:    8192 kB"] in
  let '(total, avail) := read_meminfo_from fs temp_file in
  assert_eq total (16384 * 1024) ;!
  assert_eq avail (8192 * 1024).

Definition test_detect_cpu_features_mock : Test unit :=
  let fs := written ["flags: fpu vme amx_tile avx512_vnni avx2"] in
  let '(amx, vnni, avx2) := detect_cpu_features fs temp_file in
  assert amx ;! assert vnni ;! assert avx2.

Definition test_count_cpu_cores_mock : Test unit :=
  let fs := written ["processor : 0"; "processor : 1"; "processor : 2"; "processor : 3"] in
  assert_eq (count_cpu_cores fs temp_file) 4.

Definition test_build_cpu_plane : Test unit :=
  let fs := written ["processor : 0"; "flags: avx2"] in
  let plane := build_cpu_plane fs temp_file (10 * GiB) in
  assert_eq (p_kind plane) CpuMatrixExtension ;!
  assert_eq (p_id plane) "cpu-host" ;!
  assert (bool_decide ("AVX2-FMA" ∈ p_hardware_features plane)).

Definition test_assign_triage_enclave_prefers_npu : Test unit :=
  let planes := [test_plane "gpu-0" "Discrete GPU" DiscreteGpu (8 * GiB);
                 test_plane "npu-accel0" "Intel NPU" NpuAccelerator (2 * GiB)] in
  let '(planes, reserved) := assign_triage_enclave planes in
  assert_eq reserved (Some "npu-accel0") ;!
  assert_eq (p_is_triage_reserved <$> planes !! 1%nat) (Some true) ;!
  assert_eq (p_is_triage_reserved <$> planes !! 0%nat) (Some false).

Definition test_assign_triage_enclave_falls_back_to_cpu : Test unit :=
  let planes := [test_plane "cpu-host" "Host CPU" CpuMatrixExtension (16 * GiB)] in
  let '(planes, reserved) := assign_triage_enclave planes in
  assert_eq reserved (Some "cpu-host") ;!
  assert_eq (p_is_triage_reserved <$> planes !! 0%nat) (Some false) ;!
  assert_eq (p_available_memory_bytes <$> planes !! 0%nat) (Some (14 * GiB)).

Definition test_assign_triage_enclave_proportional_on_constrained_host : Test unit :=
  let planes := [test_plane "cpu-edge" "Edge Host CPU" CpuMatrixExtension (4 * GiB)] in
  let '(planes, reserved) := assign_triage_enclave planes in
  assert_eq reserved (Some "cpu-edge") ;!
  assert_eq (p_is_triage_reserved <$> planes !! 0%nat) (Some false) ;!
  assert_eq (p_available_memory_bytes <$> planes !! 0%nat) (Some (3 * GiB)).

Definition test_arbiter_acquire_and_release_lease : Test unit :=
  start (topology_of [test_plane "plane-test" "Test Accelerator" DiscreteGpu (10 * GiB)]) ;!
  let! lease := ok (acquire Interactive (2 * GiB) None (Some "test.service") None) in
  assert_eq (l_plane_id lease) "plane-test" ;!
  assert_eq (l_state lease) Active ;!
  let! free := look (free_memory 0) in
  assert_eq free (Some (8 * GiB)) ;!
  ok (release (l_id lease)) ;!
  let! free := look (free_memory 0) in
  assert_eq free (Some (10 * GiB)).

Definition test_model_registry_lifecycle : Test unit :=
  let! now := tick in
  let desc := {| m_id := "qwen2.5-coder:7b"; m_format := "GGUF"; m_path := "/models/qwen.gguf";
                 m_estimated_memory_bytes := 4 * GiB; m_placement := Dormant;
                 m_resident_plane_id := None; m_last_accessed := Z.of_N now;
                 m_access_count := 0; m_preferred_plane := None |} in
  let reg := register desc new_registry in
  assert_eq (length (list_registry reg)) 1%nat ;!
  let '(pinned_it, reg) := pin_for_triage "qwen2.5-coder:7b" "npu-accel0" reg in
  assert pinned_it ;!
  let! pinned := unwrap_some (get_model "qwen2.5-coder:7b" reg) in
  assert_eq (m_placement pinned) PinnedTriage ;!
  assert_eq (m_resident_plane_id pinned) (Some "npu-accel0") ;!
  let '(_, reg) := remove_model "qwen2.5-coder:7b" reg in
  assert (bool_decide (get_model "qwen2.5-coder:7b" reg = None)).

(** Every test of the file, in its order. *)
Definition unit_tests : list (Test unit) :=
  [test_parse_kb; test_read_meminfo_from_mock; test_detect_cpu_features_mock;
   test_count_cpu_cores_mock; test_build_cpu_plane; test_assign_triage_enclave_prefers_npu;
   test_assign_triage_enclave_falls_back_to_cpu;
   test_assign_triage_enclave_proportional_on_constrained_host;
   test_arbiter_acquire_and_release_lease; test_model_registry_lifecycle].

(** * qa/edge/mod.rs *)

Definition test_edge_insufficient_memory_rejection : Test unit :=
  start (topology_of
    [set_available (512 * MiB) (test_plane "plane-small" "Small Accelerator" DiscreteGpu GiB)]) ;!
  let! res := acquire Interactive (2 * GiB) (Some "plane-small") None None in
  assert (is_exhausted res).

Definition test_edge_nonexistent_plane_requested : Test unit :=
  start empty_topology ;!
  let! res := acquire Interactive 1024 (Some "nonexistent-plane-404") None None in
  assert (is_plane_missing res).

Definition test_edge_release_unknown_lease : Test unit :=
  start empty_topology ;!
  let! fake_id := default_id in
  let! res := release fake_id in
  assert (is_lease_missing res).

Definition test_edge_sentry_emergency_preemption_succeeds_even_when_exhausted : Test unit :=
  start (topology_of
    [set_triage_reserved true
       (set_available 0 (test_plane "npu-triage" "Dedicated NPU" NpuAccelerator GiB))]) ;!
  let! res := acquire EmergencyTriage (512 * MiB) None (Some "systemd-sentry.service") None in
  assert (is_ok res) ;!
  let! lease := unwrap res in
  assert_eq (l_priority lease) EmergencyTriage ;!
  assert_eq (l_plane_id lease) "npu-triage".

Definition test_edge_corrupt_or_empty_meminfo : Test unit :=
  let fs := written ["Corrupt file without MemTotal or MemAvailable"] in
  let '(total, avail) := read_meminfo_from fs temp_file in
  assert_eq total 0 ;! assert_eq avail 0 ;!
  let '(total2, avail2) := read_meminfo_from fs "/path/that/does/not/exist" in
  assert_eq total2 0 ;! assert_eq avail2 0.

Definition test_edge_empty_cpuinfo_core_fallback : Test unit :=
  assert_eq (count_cpu_cores (written []) temp_file) 1.

(** * qa/edge/boundary_limits.rs, without the two tests of the timer *)

Definition make_boundary_arbiter (capacity_bytes : Z) : Test unit :=
  start (topology_of
    [test_plane "plane-edge-limit" "Boundary Limit Plane" DiscreteGpu capacity_bytes]).

Definition test_edge_zero_bytes_lease_request : Test unit :=
  make_boundary_arbiter GiB ;!
  let! lease := ok (acquire Interactive 0 None None None) in
  assert_eq (l_allocated_memory_bytes lease) 0 ;!
  assert_eq (l_state lease) Active ;!
  ok (release (l_id lease)).

Definition test_edge_u64_max_memory_rejection : Test unit :=
  make_boundary_arbiter (16 * GiB) ;!
  let! res := acquire Interactive u64_max None None None in
  assert (is_exhausted res).

Definition test_edge_exceeding_capacity_by_one_byte : Test unit :=
  let cap := 4 * GiB in
  make_boundary_arbiter cap ;!
  let! res := acquire Interactive (cap + 1) None None None in
  assert (is_exhausted res).

Definition test_edge_release_lease_idempotence : Test unit :=
  make_boundary_arbiter GiB ;!
  let! lease := ok (acquire Interactive (512 * MiB) None None None) in
  ok (release (l_id lease)) ;!
  let! res := release (l_id lease) in
  assert (is_ok res).

Definition test_edge_all_zeros_uuid_lease_not_found : Test unit :=
  make_boundary_arbiter GiB ;!
  let zero_id := mkLeaseId 0 in
  let! res := release zero_id in
  assert (is_lease_missing res).

(** * qa/edge/corrupt_inputs.rs, without the two tests of the TOML parser *)

Definition test_edge_corrupt_meminfo_garbage_lines : Test unit :=
  let fs := written ["!@#$%^&*()_+"; "MemTotal: not_a_number kB"; "MemAvailable: null kB"] in
  let '(total, avail) := read_meminfo_from fs temp_file in
  assert_eq total 0 ;! assert_eq avail 0.

Definition test_edge_corrupt_meminfo_missing_avail : Test unit :=
  let fs := written ["MemTotal:       8192 kB"] in
  let '(total, avail) := read_meminfo_from fs temp_file in
  assert_eq total (8192 * 1024) ;! assert_eq avail 0.

Definition test_edge_corrupt_cpuinfo_no_flags : Test unit :=
  let fs := written ["processor : 0"; "model name : Unknown CPU"] in
  let '(amx, vnni, avx2) := detect_cpu_features fs temp_file in
  assert (negb amx) ;! assert (negb vnni) ;! assert (negb avx2).

Definition test_edge_corrupt_cpuinfo_zero_bytes : Test unit :=
  assert_eq (count_cpu_cores (written []) temp_file) 1.

(** * qa/edge/preemption_storm.rs *)

Definition test_preemption_storm_under_saturation : Test unit :=
  let total_mem := 4 * GiB in
  start (topology_of
    [test_plane "gpu-storm" "Discrete GPU Storm Plane" DiscreteGpu total_mem]) ;!
  let! batch_leases := each (seq 0 4) (λ i,
    ok (acquire Batch GiB (Some "gpu-storm") (Some (numbered "batch-" i ".service")) None)) in
  let! free := look (free_memory 0) in
  assert_eq free (Some 0) ;!
  let! interactive_leases := each (seq 0 2) (λ i,
    ok (acquire Interactive GiB (Some "gpu-storm")
          (Some (numbered "interactive-" i ".service")) None)) in
  let! preempted_count := look (count_state Preempted) in
  assert (2 <=? preempted_count)%nat ;!
  let! triage_lease :=
    ok (acquire EmergencyTriage GiB (Some "gpu-storm") (Some "systemd-sentry.service") None) in
  assert_eq (l_priority triage_lease) EmergencyTriage ;!
  ok (release (l_id triage_lease)) ;!
  each interactive_leases (λ l, ok (release (l_id l))) ;!
  eret tt.

(** * qa/edge/dead_client_reclaim.rs *)

Definition test_dead_client_lease_reclaim_lifecycle : Test unit :=
  let total_mem := 8 * GiB in
  start (topology_of
    [test_plane "gpu-reclaim" "Discrete GPU Reclaim Plane" DiscreteGpu total_mem]) ;!
  let! lease := ok (acquire Interactive (2 * GiB) (Some "gpu-reclaim")
                      (Some "ephemeral-worker.service") (Some 99999)) in
  let! free := look (free_memory 0) in
  assert_eq free (Some (6 * GiB)) ;!
  ok (release (l_id lease)) ;!
  let! free := look (free_memory 0) in
  assert_eq free (Some total_mem) ;!
  let! leases := look list_leases in
  let! released := unwrap_some (find_first (λ l, bool_decide (l_id l = l_id lease)) leases) in
  assert_eq (l_state released) Expired ;!
  ok (release (l_id lease)) ;!
  let! free := look (free_memory 0) in
  assert_eq free (Some total_mem) ;!
  let! unknown_id := default_id in
  let! err := release unknown_id in
  assert (is_lease_missing err).

(** * qa/edge/sentry_stress.rs; its concurrent pings are in CrowdTests.v *)

Definition make_stress_topology : HardwareTopology :=
  topology_of [set_triage_reserved true
    (test_plane "npu-sentry-stress" "Sentry Triage NPU" NpuAccelerator (2 * GiB))].

Definition test_edge_sentry_displaces_multiple_batch_leases : Test unit :=
  start make_stress_topology ;!
  let! batch_ids := each (seq 0 4) (λ _,
    let! l := ok (acquire Batch (512 * MiB) (Some "npu-sentry-stress") None None) in
    eret (l_id l)) in
  let! free := look (free_memory 0) in
  assert_eq free (Some 0) ;!
  let! emergency :=
    ok (acquire EmergencyTriage (1536 * MiB) None (Some "systemd-sentry.service") None) in
  assert_eq (l_state emergency) Active ;!
  let! states := each batch_ids (λ id, look (lease_state id)) in
  let preempted_count := length (List.filter (λ o, bool_decide (o = Some Preempted)) states) in
  assert (3 <=? preempted_count)%nat.

(** * qa/fuzz/mod.rs, its first test: parsing never panics *)

Definition test_fuzz_parse_kb_with_random_garbage : Test unit :=
  let tab := "009"%char in
  let esc := "027"%char in
  let fuzzed_inputs :=
    ["99999999999999999999999999999 kB"; "-12345 kB"; "0.0001 kB"; "NaN kB";
     String nul (String nul (String nul (String nul " kB")));
     "1024 " +:+ String tab (String carriage_return (String newline " MB"));
     "   " +:+ String esc "[31m1024" +:+ String esc "[0m kB   ";
     "1 2 3 4 5 kB"; "!@#$%^&*()_+ kB"; "中文 1024 kB"; "1024kB"; "1024"] in
  each fuzzed_inputs (λ input, eret (parse_kb input)) ;!
  eret tt.

Definition edge_tests : list (Test unit) :=
  [test_edge_insufficient_memory_rejection; test_edge_nonexistent_plane_requested;
   test_edge_release_unknown_lease;
   test_edge_sentry_emergency_preemption_succeeds_even_when_exhausted;
   test_edge_corrupt_or_empty_meminfo; test_edge_empty_cpuinfo_core_fallback;
   test_edge_zero_bytes_lease_request; test_edge_u64_max_memory_rejection;
   test_edge_exceeding_capacity_by_one_byte; test_edge_release_lease_idempotence;
   test_edge_all_zeros_uuid_lease_not_found; test_edge_corrupt_meminfo_garbage_lines;
   test_edge_corrupt_meminfo_missing_avail; test_edge_corrupt_cpuinfo_no_flags;
   test_edge_corrupt_cpuinfo_zero_bytes; test_preemption_storm_under_saturation;
   test_dead_client_lease_reclaim_lifecycle;
   test_edge_sentry_displaces_multiple_batch_leases; test_fuzz_parse_kb_with_random_garbage].

Lemma unit_tests_pass : forallb passes unit_tests = true.
Proof. vm_compute. reflexivity. Qed.
Lemma edge_tests_pass : forallb passes edge_tests = true.
Proof. vm_compute. reflexivity. Qed.
