(* ===== verification/IntegrationTests.v ===== *)
(** The integration scenarios, and the tests of the preemption coordinator, the
    freezer and the registry next to a running arbiter: qa/integration/ and
    qa/edge/challenger_preempt.rs. *)
From Stdlib Require Import SpecFloat.
From S2P Require Import Prelude Lease Errors Topology Text Model Host Psi Arbiter Freezer Preempt.
From S2P Require Import Madvise Bench.
Local Open Scope Z_scope.
Local Open Scope eff_scope.

(** * qa/integration/cross_feature_ext.rs *)

Definition make_ext_topo : HardwareTopology :=
  topology_of [test_plane "plane-ext-gpu" "Extended Interaction dGPU" DiscreteGpu (8 * GiB)].

Definition test_interaction_cli_exec_stream_filter_with_sentry_triage_interruption : Test unit :=
  start make_ext_topo ;!
  let! stream_lease := ok (acquire Interactive (4 * GiB) None (Some "inferenctl-exec") None) in
  let! triage_lease := ok (acquire EmergencyTriage (2 * GiB) None (Some "systemd-sentry") None) in
  assert_eq (l_priority triage_lease) EmergencyTriage ;!
  ok (release (l_id triage_lease)) ;!
  ok (release (l_id stream_lease)).

Definition test_interaction_hardware_plane_rediscovery_with_active_leases : Test unit :=
  let hotplug := test_plane "plane-hotplug-npu" "Hotplug NPU" NpuAccelerator (2 * GiB) in
  start (set_planes (t_planes make_ext_topo ++ [hotplug]) make_ext_topo) ;!
  let! l1 := ok (acquire Interactive GiB (Some "plane-ext-gpu") None None) in
  let! l2 := ok (acquire Interactive GiB (Some "plane-hotplug-npu") None None) in
  change (update_topology make_ext_topo) ;!
  let! topo := look get_topology in
  assert_eq (length (t_planes topo)) 1%nat ;!
  let! free := look (free_memory 0) in
  assert_eq free (Some (7 * GiB)) ;!
  let! st := look (lease_state (l_id l2)) in
  assert_eq st (Some Revoked) ;!
  ok (release (l_id l1)) ;!
  let! free := look (free_memory 0) in
  assert_eq free (Some (8 * GiB)).

Definition test_interaction_varlink_stream_inference_under_model_eviction : Test unit :=
  let! now := tick in
  let desc := {| m_id := "stream-test-model"; m_format := "GGUF"; m_path := "/models/stream.gguf";
                 m_estimated_memory_bytes := 2 * GiB; m_placement := Dormant;
                 m_resident_plane_id := None; m_last_accessed := Z.of_N now;
                 m_access_count := 5; m_preferred_plane := None |} in
  let reg := register desc new_registry in
  assert_eq (length (list_registry reg)) 1%nat ;!
  let '(removed, reg) := remove_model "stream-test-model" reg in
  assert (bool_decide (is_Some removed)) ;!
  assert_eq (length (list_registry reg)) 0%nat.

(** The task that churns leases in [.._notify_watchdog_during_lease_churn]; its
    sibling pings a socket and shares nothing with it. *)
Definition watchdog_churn : Test unit :=
  start make_ext_topo ;!
  each (seq 0 10) (λ _,
    let! l := ok (acquire Interactive (512 * MiB) None None None) in
    ok (release (l_id l))) ;!
  eret tt.

(** * qa/integration/scenario_multitenant.rs *)

Definition test_scenario_multitenant_arbitration_and_cooperative_yield : Test unit :=
  start (topology_of [test_plane "plane-shared-apu" "Shared UMA APU Plane" IntegratedUma (8 * GiB)]) ;!
  let! tenant_a := ok (acquire Batch (6 * GiB) None (Some "tenant-a-batch.slice") (Some 1001)) in
  assert_eq (l_state tenant_a) Active ;!
  ok (arb (yield_lease (l_id tenant_a))) ;!
  let! st := look (lease_state (l_id tenant_a)) in
  assert_eq st (Some Preempting) ;!
  let freeze_file_path := "/tmp/cgroup/cgroup.freeze" in
  emodify (write_file freeze_file_path ("0" +:+ String newline "")) ;!
  ok (freezer (λ k, freeze_cgroup k freeze_file_path)) ;!
  ok (arb (freeze_lease (l_id tenant_a))) ;!
  let! frozen := ok (on_disk (λ k, is_cgroup_frozen k freeze_file_path)) in
  assert frozen ;!
  let! st := look (lease_state (l_id tenant_a)) in
  assert_eq st (Some Frozen) ;!
  let! tenant_b := ok (acquire Interactive (2 * GiB) None
                         (Some "tenant-b-interactive.service") (Some 2002)) in
  assert_eq (l_state tenant_b) Active ;!
  ok (release (l_id tenant_b)) ;!
  ok (freezer (λ k, thaw_cgroup k freeze_file_path)) ;!
  ok (arb (thaw_lease (l_id tenant_a))) ;!
  let! frozen := ok (on_disk (λ k, is_cgroup_frozen k freeze_file_path)) in
  assert (negb frozen) ;!
  let! st := look (lease_state (l_id tenant_a)) in
  assert_eq st (Some Active).

Definition integration_tests : list (Test unit) :=
  [test_interaction_cli_exec_stream_filter_with_sentry_triage_interruption;
   test_interaction_hardware_plane_rediscovery_with_active_leases;
   test_interaction_varlink_stream_inference_under_model_eviction; watchdog_churn;
   test_scenario_multitenant_arbitration_and_cooperative_yield].

Lemma integration_tests_pass : forallb passes integration_tests = true.
Proof. vm_compute. reflexivity. Qed.

(** * qa/edge/challenger_preempt.rs *)

Definition make_test_arbiter : ArbiterState :=
  new_arbiter (topology_of
    [test_plane "plane-challenger-preempt" "Challenger Preempt Plane" DiscreteGpu (8 * GiB)]).

Definition ms (n : Z) : Z := n * 1000000.

(** [PreemptCoordinator::new(arbiter)], the clock at zero. *)
Definition coordinator : Coord := mkCoord (mkShared make_test_arbiter ∅) 0 0.

(** The test's own calls to the arbiter and to the coordinator: results as
    values. *)
Definition on_coord {A} (m : Co A) : eff Coord SysCall string (result Error A) := λ c,
  let '(r, c', w) := m c in (Ok r, c', w).
Definition own {A} (m : Arb A) : eff Coord SysCall string (result Error A) := λ c,
  let '(r, s, _) := m (sh_arbiter (c_shared c)) in
  (Ok r, mkCoord (mkShared s (sh_records (c_shared c))) (c_now c) (c_locks c), []).
Definition own_acquire (n : N) (bytes : Z) (unit : option string) (pid : option Z) :
    eff Coord SysCall string (result Error ComputeLease) :=
  own (acquire_lease (from_level Normal) 0 (mkLeaseId n) Batch bytes
         (Some "plane-challenger-preempt") unit pid).
Definition state_in (id : LeaseId) (c : Coord) : option LeaseState :=
  lease_state id (sh_arbiter (c_shared c)).

(** Nobody else runs; every nap takes what was asked for; no file of the
    freezer can be opened, as there is no such control group. *)
Definition no_cgroup : Kernel :=
  mkKernel (snapshot [] []) (λ n, if 0 <? n then Some n else None) (λ _ _, None)
    (λ _, Err "No such file or directory") (λ _ _, Ok tt) (λ _, Ok tt).
Definition alone : World := mkWorld (λ _ sh, sh) (λ _, POLL_INTERVAL) no_cgroup.

Definition test_adversarial_preempt_exact_250ms_deadline_and_tier2_freeze :
    eff Coord SysCall string unit :=
  assert_eq DEFAULT_PREEMPT_TIMEOUT (ms 250) ;!
  let! lease := ok (own_acquire 1 GiB (Some "stubborn-client.service") None) in
  let! started := seen_now c_now in
  ok (on_coord (preempt_lease alone DEFAULT_PREEMPT_TIMEOUT (l_id lease))) ;!
  let! ended := seen_now c_now in
  assert (ms 240 <=? ended - started) ;!
  let! rec := seen_now (get_record (l_id lease)) in
  let! rec := unwrap_some rec in
  assert_eq (rec_tier rec) Tier2ForcedFreeze ;!
  assert_eq (rec_deadline_ms rec) 250 ;!
  let! st := seen_now (state_in (l_id lease)) in
  assert_eq st (Some Frozen) ;!
  ok (on_coord (coord_thaw_lease alone (l_id lease))) ;!
  let! st := seen_now (state_in (l_id lease)) in
  assert_eq st (Some Active).

(** A client that releases its lease 35 ms after it was asked, that is before
    the coordinator looks for the second time. *)
Definition cooperative (id : LeaseId) : World :=
  mkWorld (λ n sh, if (n =? 4)%nat
                   then mkShared (state_of (release_lease id (sh_arbiter sh))) (sh_records sh)
                   else sh)
    (λ _, POLL_INTERVAL) no_cgroup.

Definition test_adversarial_preempt_cooperative_yield_under_50ms : eff Coord SysCall string unit :=
  let! lease := ok (own_acquire 1 GiB (Some "cooperative-client.service") None) in
  let lease_id := l_id lease in
  let! started := seen_now c_now in
  ok (on_coord (preempt_lease (cooperative lease_id) DEFAULT_PREEMPT_TIMEOUT lease_id)) ;!
  let! ended := seen_now c_now in
  assert (ended - started <? ms 150) ;!
  let! rec := seen_now (get_record lease_id) in
  let! rec := unwrap_some rec in
  assert_eq (rec_tier rec) Tier1Cooperative ;!
  assert (rec_completed rec).

(** The child process: it ignores SIGUSR1, SIGSTOP stops it and SIGCONT lets it
    run on. *)
Definition child_stopped (pid : Z) (calls : list SysCall) : bool :=
  foldl (λ b c, match c with
                | Kill p Stop => (p =? pid) || b
                | Kill p Cont => negb (p =? pid) && b
                | _ => b
                end) false calls.

Definition test_adversarial_preempt_real_child_process_sigstop_and_sigcont (pid : Z) :
    eff Coord SysCall string unit :=
  let! lease := ok (own_acquire 1 (512 * MiB) None (Some pid)) in
  let! (_, calls) := traced (ok (on_coord (preempt_lease alone (ms 80) (l_id lease)))) in
  assert (child_stopped pid calls) ;!
  let! (_, calls') := traced (ok (on_coord (coord_thaw_lease alone (l_id lease)))) in
  assert (negb (child_stopped pid (calls ++ calls'))).

Definition preempt_tests : list (eff Coord SysCall string unit) :=
  [test_adversarial_preempt_exact_250ms_deadline_and_tier2_freeze;
   test_adversarial_preempt_cooperative_yield_under_50ms;
   test_adversarial_preempt_real_child_process_sigstop_and_sigcont 4242].

Lemma preempt_tests_pass : forallb (passes_from coordinator) preempt_tests = true.
Proof. vm_compute. reflexivity. Qed.
