(* ===== verification/Client.v ===== *)
(** The client's side of the Varlink connection:
    crates/inferenctl/src/client.rs. *)
From S2P Require Import Prelude Text Lease Errors Json Frontend Varlink Session.
Local Open Scope Z_scope.

(** What happens when the client has read all the daemon has sent: the
    connection is closed, a read fails, or nothing comes any more. *)
Inductive Ending :=
  | Closed
  | ReadError (e : string)
  | Silent.

(** The connection as the client sees it: the bytes sent to it and not read. *)
Record Connection := mkConnection { unread : string; ending : Ending }.

(** The daemon's end: whether a message can be written, and what is sent in
    answer to it. *)
Record DaemonEnd := mkDaemonEnd {
  d_write : string → result string unit;
  d_answer : string → string;
}.

(** [Waiting] is no error of the program: the call is blocked in a read, for ever
    when nothing comes any more. [OutOfFuel] is excluded by [stream_call_terminates]. *)
Inductive ClientError :=
  | ConnectFailed (e : string)
  | WriteError (e : string)
  | ReadFailed (e : string)
  | ConnectionClosed
  | Framing
  | BadJson (e : string)
  | VarlinkError (error : string)
  | Waiting
  | OutOfFuel
  | NotFound (plane : string)
  | ClientIo (e : string).

(** A message sent, a text on the standard output or on the standard error. *)
Inductive ClientEvent :=
  | Sent (message : string)
  | Printed (text : string)
  | PrintedError (text : string).

Section client.
Context {js : Json} {jt : JsonText} (d : DaemonEnd).

Definition Call (A : Type) : Type := eff Connection ClientEvent ClientError A.

Definition json_of (r : result string string) : Call string :=
  elift match r with Ok text => Ok text | Err e => Err (BadJson e) end.

(** [write_all] and [flush] *)
Definition send (message : string) : Call unit :=
  match d_write d message with
  | Err e => ethrow (WriteError e)
  | Ok _ =>
      (etell [Sent message] ;!
       emodify (λ c, mkConnection (unread c +:+ d_answer d message) (ending c)))%eff
  end.

(** [take(1024 * 1024).read_until(0, &mut buf)?] *)
Definition read_frame : Call string :=
  λ c, let '(buf, rest, complete) := read_until MAX_MESSAGE (unread c) in
       let c' := mkConnection rest (ending c) in
       if complete then (Ok buf, c', [])
       else match ending c with
            | Closed => (Ok buf, c', [])
            | ReadError e => (Err (ReadFailed e), c', [])
            | Silent => (Err Waiting, c', [])
            end.

(** The final NUL, which must be there, and the JSON before it. *)
Definition decode (buf : string) : Call Value :=
  if ends_with buf (String nul "") then
    elift match value_from_slice (strip_last nul buf) with
          | Err e => Err (BadJson e)
          | Ok resp =>
              match jget "error" resp ≫= as_str with
              | Some err => Err (VarlinkError err)
              | None => Ok resp
              end
          end
  else ethrow Framing.

Definition request (method : string) (params : option Value) (more : bool) : Value :=
  jobj (("method", jstr method) :: ("parameters", default (jobj []) params)
        :: if more then [("more", jbool true)] else []).

Definition call (method : string) (params : option Value) : Call Value :=
  (let! text := json_of (to_vec (request method params false)) in
   send (text +:+ String nul "") ;!
   let! buf := read_frame in
   if is_empty buf then ethrow ConnectionClosed
   else
     let! resp := decode buf in
     eret (default (jobj []) (jget "parameters" resp)))%eff.

(** The loop of [stream_call]; [on_message] prints what it prints and may
    fail. *)
Fixpoint read_stream (fuel : nat) (on_message : Value → Call unit) : Call unit :=
  match fuel with
  | O => ethrow OutOfFuel
  | S fuel' =>
      (let! buf := read_frame in
       if is_empty buf then eret tt
       else
         let! resp := decode buf in
         on_message resp ;!
         if default false (jget "continues" resp ≫= as_bool) then read_stream fuel' on_message
         else eret tt)%eff
  end.

Definition stream_call (method : string) (params : option Value) (on_message : Value → Call unit) :
    Call unit :=
  (let! text := json_of (to_vec (request method params true)) in
   send (text +:+ String nul "") ;!
   let! c := eget in
   read_stream (S (String.length (unread c))) on_message)%eff.

(** * The methods *)

Definition client_get_topology : Call Value := call "io.systemd.inferenced1.GetTopology" None.
Definition client_get_pressure : Call Value := call "io.systemd.inferenced1.GetPressure" None.
Definition client_list_leases : Call Value := call "io.systemd.inferenced1.ListLeases" None.
Definition client_acquire_lease (priority : string) (memory_bytes : Z) (plane : option string) :
    Call Value :=
  call "io.systemd.inferenced1.AcquireLease"
    (Some (jobj [("priority", jstr priority); ("memory_bytes", jnum memory_bytes);
                 ("plane", jopt jstr plane)])).
Definition client_release_lease (lease_id : string) : Call Value :=
  call "io.systemd.inferenced1.ReleaseLease" (Some (jobj [("lease_id", jstr lease_id)])).
Definition client_freeze (lease_id : string) : Call Value :=
  call "io.systemd.inferenced1.Freeze" (Some (jobj [("lease_id", jstr lease_id)])).
Definition client_thaw (lease_id : string) : Call Value :=
  call "io.systemd.inferenced1.Thaw" (Some (jobj [("lease_id", jstr lease_id)])).
Definition client_list_models : Call Value := call "io.systemd.inferenced1.ListModels" None.
Definition client_register_model (id format path : string) (bytes : Z) : Call Value :=
  call "io.systemd.inferenced1.RegisterModel"
    (Some (jobj [("id", jstr id); ("format", jstr format); ("path", jstr path);
                 ("estimated_bytes", jnum bytes)])).
Definition client_evict_model (model : string) : Call Value :=
  call "io.systemd.inferenced1.EvictModel" (Some (jobj [("model", jstr model)])).
Definition client_pin_model (model plane : string) : Call Value :=
  call "io.systemd.inferenced1.PinModel"
    (Some (jobj [("model", jstr model); ("plane", jstr plane)])).
Definition client_get_info : Call Value := call "org.varlink.service.GetInfo" None.
Definition client_get_interface_description (interface : string) : Call Value :=
  call "org.varlink.service.GetInterfaceDescription"
    (Some (jobj [("interface", jstr interface)])).
End client.

(** * Facts *)

Section facts.
Context {js : Json} {jt : JsonText}.
Implicit Types (c : Connection).

(** A frame within the limit is read whole, and nothing after it. *)
Lemma read_until_frame limit text rest :
  lacks nul text = true → Z.of_nat (String.length text) < limit →
  read_until limit (text +:+ String nul rest) = (text +:+ String nul "", rest, true).
Proof.
  revert limit. induction text as [|a text IH]; intros limit Htext Hlen.
  - change ("" +:+ String nul rest) with (String nul rest). cbn [read_until].
    rewrite (proj2 (Z.leb_gt _ _)) by (simpl in Hlen; lia). done.
  - change (String a text +:+ ?x) with (String a (text +:+ x)) in *. cbn [read_until String.length] in *.
    rewrite (proj2 (Z.leb_gt _ _)) by lia. unfold lacks in Htext. cbn [string_forallb] in Htext.
    apply andb_true_iff in Htext as [Ha Htext]. apply negb_true_iff in Ha.
    rewrite Ha, IH by (done || lia). done.
Qed.

Lemma read_frame_ok text rest e :
  lacks nul text = true → Z.of_nat (String.length text) < MAX_MESSAGE →
  read_frame (mkConnection (text +:+ String nul rest) e)
  = (Ok (text +:+ String nul ""), mkConnection rest e, []).
Proof. intros Ht Hl. unfold read_frame. cbn [unread]. by rewrite read_until_frame. Qed.

(** A frame that was read is at least one byte of what was unread. *)
Lemma read_frame_consumes c buf c' evs :
  read_frame c = (Ok buf, c', evs) → buf ≠ "" →
  (String.length (unread c') < String.length (unread c))%nat.
Proof.
  unfold read_frame. destruct (read_until MAX_MESSAGE (unread c)) as [[b rest] complete] eqn:Hr.
  destruct complete; [|destruct (ending c); try done]; intros [= <- <- <-] Hne;
    by eapply read_until_rest.
Qed.

Lemma read_frame_cases c :
  ∃ r c', read_frame c = (r, c', []) ∧ r ≠ Err OutOfFuel ∧
    ∃ used, unread c = used +:+ unread c'.
Proof.
  unfold read_frame. destruct (read_until MAX_MESSAGE (unread c)) as [[b rest] complete] eqn:Hr.
  assert (unread c = b +:+ rest) by by eapply read_until_split.
  destruct complete; [|destruct (ending c)]; (eexists _, _; split; [done|]; split; [done|]; by exists b).
Qed.

(** Decoding does not touch the connection. *)
Lemma decode_cases buf c : ∃ r, decode buf c = (r, c, []) ∧ r ≠ Err OutOfFuel.
Proof.
  unfold decode. destruct (ends_with buf (String nul "")); [|by eexists].
  destruct (value_from_slice (strip_last nul buf)) as [resp|e]; [|by eexists].
  by destruct (jget "error" resp ≫= as_str); eexists.
Qed.

(** A function called on each message that leaves the connection alone. *)
Definition bystander (on_message : Value → Call unit) : Prop :=
  ∀ v c, ∃ r evs, on_message v c = (r, c, evs) ∧ r ≠ Err OutOfFuel ∧ r ≠ Err Waiting.

(** One round: the loop ends here, or goes on with less to read. *)
Lemma read_stream_round on_message c :
  bystander on_message →
  (∃ r c' evs, (∀ n, read_stream (S n) on_message c = (r, c', evs)) ∧ r ≠ Err OutOfFuel ∧
     ∃ used, unread c = used +:+ unread c') ∨
  (∃ c1 evs, (String.length (unread c1) < String.length (unread c))%nat ∧
     (∃ used, unread c = used +:+ unread c1) ∧
     ∀ n, read_stream (S n) on_message c =
       let '(r, c', evs') := read_stream n on_message c1 in (r, c', evs ++ evs')).
Proof.
  intros Hby. destruct (read_frame_cases c) as ([buf|e] & c1 & Hread & Hne & Hused).
  2:{ left. exists (Err e), c1, []. split_and!; [|congruence|done].
      intros n. cbn [read_stream]. by rewrite (ebind_Err _ _ _ _ _ _ Hread). }
  destruct (is_empty buf) eqn:Hbuf.
  { left. exists (Ok tt), c1, []. split_and!; [|done|done].
    intros n. cbn [read_stream]. by rewrite (ebind_silent _ _ _ _ _ Hread), Hbuf. }
  assert (Hless : (String.length (unread c1) < String.length (unread c))%nat).
  { eapply read_frame_consumes; [done|]. by intros ->. }
  destruct (decode_cases buf c1) as ([resp|e] & Hdecode & Hne').
  2:{ left. exists (Err e), c1, []. split_and!; [|congruence|done]. intros n. cbn [read_stream].
      by rewrite (ebind_silent _ _ _ _ _ Hread), Hbuf, (ebind_Err _ _ _ _ _ _ Hdecode). }
  destruct (Hby resp c1) as ([[]|e] & evs & Hmsg & Hne'' & _).
  2:{ left. exists (Err e), c1, evs. split_and!; [|congruence|done]. intros n. cbn [read_stream].
      by rewrite (ebind_silent _ _ _ _ _ Hread), Hbuf, (ebind_silent _ _ _ _ _ Hdecode),
        (ebind_Err _ _ _ _ _ _ Hmsg). }
  destruct (default false (jget "continues" resp ≫= as_bool)) eqn:Hmore; [right|left].
  - exists c1, evs. split_and!; [done|done|]. intros n. cbn [read_stream].
    by rewrite (ebind_silent _ _ _ _ _ Hread), Hbuf, (ebind_silent _ _ _ _ _ Hdecode),
      (ebind_Ok _ _ _ _ _ _ Hmsg), Hmore.
  - exists (Ok tt), c1, evs. split_and!; [|done|done]. intros n. cbn [read_stream].
    rewrite (ebind_silent _ _ _ _ _ Hread), Hbuf, (ebind_silent _ _ _ _ _ Hdecode),
      (ebind_Ok _ _ _ _ _ _ Hmsg), Hmore. cbn. by rewrite app_nil_r.
Qed.

(** The loop stops by itself, with any fuel beyond the bytes there are. *)
Lemma read_stream_stops on_message n c :
  bystander on_message → (String.length (unread c) ≤ n)%nat →
  ∃ r c' evs, (∀ k, (n < k)%nat → read_stream k on_message c = (r, c', evs)) ∧
    r ≠ Err OutOfFuel ∧ ∃ used, unread c = used +:+ unread c'.
Proof.
  intros Hby. revert c. induction n as [n IH] using lt_wf_ind. intros c Hlen.
  destruct (read_stream_round on_message c Hby)
    as [(r & c' & evs & Heq & Hr & Hused)|(c1 & evs & Hless & [used1 Hused1] & Heq)].
  - exists r, c', evs. split; [|done]. intros [|k] Hk; [lia|apply Heq].
  - destruct (IH (String.length (unread c1)) ltac:(lia) c1 (le_n _))
      as (r & c' & evs' & Heq' & Hr & [used Hused]).
    exists r, c', (evs ++ evs'). split_and!; [|done|].
    + intros [|k] Hk; [lia|]. by rewrite Heq, Heq' by lia.
    + exists (used1 +:+ used). by rewrite Hused1, Hused, <-(assoc_L String.append).
Qed.

Lemma strip_last_app a s : strip_last a (s +:+ String a "") = s.
Proof.
  induction s as [|b s IH].
  - change ("" +:+ String a "") with (String a ""). cbn [strip_last]. by rewrite Ascii.eqb_refl.
  - change (String b s +:+ String a "") with (String b (s +:+ String a "")).
    assert (strip_last a (String b (s +:+ String a ""))
            = String b (strip_last a (s +:+ String a ""))) as -> by (by destruct s).
    by rewrite IH.
Qed.

(** The frame of a message: its text, with or without an error in it. *)
Lemma read_frame_message v text rest e :
  lacks nul text = true → Z.of_nat (String.length text) < MAX_MESSAGE →
  value_from_slice text = Ok v →
  ∃ buf, read_frame (mkConnection (text +:+ String nul rest) e) = (Ok buf, mkConnection rest e, [])
    ∧ is_empty buf = false
    ∧ decode buf (mkConnection rest e)
      = (match jget "error" v ≫= as_str with Some err => Err (VarlinkError err) | None => Ok v end,
         mkConnection rest e, []).
Proof.
  intros Hnul Hlen Hback. exists (text +:+ String nul "").
  split; [by apply read_frame_ok|]. split; [by destruct text|].
  unfold decode. rewrite (proj2 (ends_with_true _ _)) by eauto. by rewrite strip_last_app, Hback.
Qed.

(** One message that announces another or not. *)
Lemma read_stream_message on_message n v text rest e :
  lacks nul text = true → Z.of_nat (String.length text) < MAX_MESSAGE →
  value_from_slice text = Ok v → jget "error" v ≫= as_str = None →
  read_stream (S n) on_message (mkConnection (text +:+ String nul rest) e)
  = (on_message v ;!
     if default false (jget "continues" v ≫= as_bool) then read_stream n on_message else eret tt)%eff
      (mkConnection rest e).
Proof.
  intros Hnul Hlen Hback Herr. cbn [read_stream].
  destruct (read_frame_message v text rest e Hnul Hlen Hback) as (buf & Hread & Hbuf & Hdec).
  rewrite Herr in Hdec.
  by rewrite (ebind_silent _ _ _ _ _ Hread), Hbuf, (ebind_silent _ _ _ _ _ Hdec).
Qed.

(** A message with an error ends the loop. *)
Lemma read_stream_error on_message n v text rest e err :
  lacks nul text = true → Z.of_nat (String.length text) < MAX_MESSAGE →
  value_from_slice text = Ok v → jget "error" v ≫= as_str = Some err →
  read_stream (S n) on_message (mkConnection (text +:+ String nul rest) e)
  = (Err (VarlinkError err), mkConnection rest e, []).
Proof.
  intros Hnul Hlen Hback Herr. cbn [read_stream].
  destruct (read_frame_message v text rest e Hnul Hlen Hback) as (buf & Hread & Hbuf & Hdec).
  rewrite Herr in Hdec.
  by rewrite (ebind_silent _ _ _ _ _ Hread), Hbuf, (ebind_Err _ _ _ _ _ _ Hdec).
Qed.

(** A call that is answered. *)
Lemma call_answered d method params text v rtext e :
  to_vec (request method params false) = Ok text →
  d_write d (text +:+ String nul "") = Ok tt →
  d_answer d (text +:+ String nul "") = rtext +:+ String nul "" →
  lacks nul rtext = true → Z.of_nat (String.length rtext) < MAX_MESSAGE →
  value_from_slice rtext = Ok v →
  call d method params (mkConnection "" e)
  = (match jget "error" v ≫= as_str with
     | Some err => Err (VarlinkError err)
     | None => Ok (default (jobj []) (jget "parameters" v))
     end, mkConnection "" e, [Sent (text +:+ String nul "")]).
Proof.
  intros Htext Hwrite Hanswer Hnul Hlen Hback. unfold call. rewrite Htext.
  rewrite (ebind_silent (json_of (Ok text)) _ _ text (mkConnection "" e)) by done.
  unfold send. rewrite Hwrite.
  destruct (read_frame_message v rtext "" e Hnul Hlen Hback) as (buf & Hread & Hbuf & Hdec).
  rewrite (ebind_Ok _ _ (mkConnection "" e) tt (mkConnection (rtext +:+ String nul "") e)
             [Sent (text +:+ String nul "")])
    by (unfold ebind; cbn; by rewrite Hanswer).
  rewrite (ebind_silent _ _ _ _ _ Hread), Hbuf.
  destruct (jget "error" v ≫= as_str).
  - by rewrite (ebind_Err _ _ _ _ _ _ Hdec).
  - by rewrite (ebind_silent _ _ _ _ _ Hdec).
Qed.
End facts.

(** * Who ends a streaming call *)

Section waiting.
Context {js : Json} {jt : JsonText} (on_message : Value → Call unit).

(** All that is sent announces more: messages that can be used, each of which
    says that it continues, and then perhaps the beginning of one. *)
Inductive announces_more : string → Prop :=
  | more_begun bytes :
      lacks nul bytes = true → Z.of_nat (String.length bytes) < MAX_MESSAGE → announces_more bytes
  | more_message text v rest :
      lacks nul text = true → Z.of_nat (String.length text) < MAX_MESSAGE →
      value_from_slice text = Ok v → jget "error" v ≫= as_str = None →
      is_ok (res_of (on_message v (mkConnection rest Silent))) = true →
      default false (jget "continues" v ≫= as_bool) = true →
      announces_more rest → announces_more (text +:+ String nul rest).

(** A frame is the whole input, or ends with the first NUL, or fills the limit. *)
Lemma read_until_inv limit input buf rest complete :
  read_until limit input = (buf, rest, complete) →
  (complete = false ∧ rest = "" ∧ lacks nul input = true ∧ Z.of_nat (String.length input) < limit) ∨
  (∃ text, complete = true ∧ buf = text +:+ String nul "" ∧ input = text +:+ String nul rest ∧
     lacks nul text = true ∧ Z.of_nat (String.length text) < limit) ∨
  (complete = true ∧ lacks nul buf = true ∧ limit ≤ Z.of_nat (String.length buf)).
Proof.
  revert limit buf rest complete. induction input as [|a input IH]; intros limit buf rest complete;
    cbn [read_until]; destruct (Z.leb_spec limit 0);
    try (intros [= <- <- <-]; right; right; split_and!; (done || (simpl; lia))).
  { intros [= <- <- <-]. left. split_and!; (done || (simpl; lia)). }
  destruct (Ascii.eqb a nul) eqn:Ha.
  { intros [= <- <- <-]. apply Ascii.eqb_eq in Ha as ->. right; left. exists "". simpl. split_and!; (done || lia). }
  destruct (read_until (limit - 1) input) as [[buf' rest'] c'] eqn:Hr. intros [= <- <- <-].
  unfold lacks in *. destruct (IH _ _ _ _ Hr) as [(-> & -> & Hl & Hn)|[(text & -> & -> & -> & Hl & Hn)|(-> & Hl & Hn)]].
  - left. cbn [string_forallb String.length]. rewrite Ha, Hl. split_and!; (done || lia).
  - right; left. exists (String a text). cbn [string_forallb String.length]. rewrite Ha, Hl.
    split_and!; (done || lia).
  - right; right. cbn [string_forallb String.length]. rewrite Ha, Hl. split_and!; (done || lia).
Qed.

Lemma lacks_ends_with a s : lacks a s = true → ends_with s (String a "") = false.
Proof.
  intros Hl. destruct (ends_with s (String a "")) eqn:He; [|done]. apply ends_with_true in He as [t ->].
  rewrite lacks_app in Hl. apply andb_true_iff in Hl as [_ Hl]. unfold lacks in Hl. simpl in Hl.
  by rewrite Ascii.eqb_refl in Hl.
Qed.

Lemma read_stream_waits k bytes e c' evs :
  bystander on_message → read_stream k on_message (mkConnection bytes e) = (Err Waiting, c', evs) →
  e = Silent ∧ announces_more bytes.
Proof.
  intros Hby. revert bytes c' evs. induction k as [|k IH]; intros bytes c' evs; [done|].
  cbn [read_stream]. unfold read_frame, ebind at 1. cbn [unread ending].
  destruct (read_until MAX_MESSAGE bytes) as [[buf rest] complete] eqn:Hr.
  destruct (read_until_inv _ _ _ _ _ Hr)
    as [(-> & -> & Hl & Hn)|[(text & -> & -> & -> & Hl & Hn)|(-> & Hl & _)]].
  - destruct e; [|done|intros _; split; [done|by apply more_begun]].
    destruct (is_empty buf); [done|]. rewrite (read_until_split _ _ _ _ _ Hr) in Hl.
    unfold decode, ebind. rewrite lacks_ends_with; [done|]. by rewrite string_app_empty in Hl.
  - assert (is_empty (text +:+ String nul "") = false) as -> by by destruct text.
    unfold decode. rewrite (proj2 (ends_with_true _ _)), strip_last_app by eauto.
    unfold ebind, elift at 1. destruct (value_from_slice text) as [v|] eqn:Hv; [|done].
    destruct (jget "error" v ≫= as_str) eqn:Herr; [done|].
    destruct (Hby v (mkConnection rest e)) as (r & evs1 & Hmsg & _ & Hnw). rewrite Hmsg.
    destruct r as [[]|e']; [|intros [= -> _ _]; done].
    destruct (default false _) eqn:Hmore; [|done].
    destruct (read_stream k on_message (mkConnection rest e)) as [[r c1] evs2] eqn:Hrec.
    intros [= -> <- _]. destruct (IH _ _ _ Hrec) as [-> Hrest]. split; [done|].
    apply (more_message _ v); try done. by rewrite Hmsg.
  - destruct (is_empty buf); [done|]. unfold decode, ebind. by rewrite lacks_ends_with.
Qed.

Lemma waits_read_stream k bytes :
  bystander on_message → announces_more bytes → (String.length bytes < k)%nat →
  res_of (read_stream k on_message (mkConnection bytes Silent)) = Err Waiting.
Proof.
  intros Hby Hmore. revert k.
  induction Hmore as [bytes Hl Hn|text v rest Hl Hn Hv Herr Hok Hcont Hrest IH]; intros [|k] Hk; try lia.
  - cbn [read_stream]. unfold read_frame, ebind. cbn [unread ending].
    destruct (read_until MAX_MESSAGE bytes) as [[buf rest] complete] eqn:Hr.
    destruct (read_until_inv _ _ _ _ _ Hr) as [(-> & _)|[(text & _ & _ & -> & _)|(_ & _ & Hfull)]]; [done| |].
    + exfalso. rewrite lacks_app in Hl. by apply andb_true_iff in Hl as [_ ?].
    + exfalso. rewrite (read_until_split _ _ _ _ _ Hr), string_length_app in Hn. lia.
  - rewrite (read_stream_message _ k v) by done. destruct (Hby v (mkConnection rest Silent)) as (r & evs & Hmsg & _).
    rewrite Hmsg in Hok. destruct r as [[]|e]; [|done].
    rewrite (ebind_Ok _ _ _ _ _ _ Hmsg), Hcont. rewrite string_length_app in Hk. simpl in Hk.
    specialize (IH k ltac:(lia)). by destruct (read_stream k on_message _) as [[? ?] ?].
Qed.
End waiting.

(** C31: Who ends a streaming call: for every method, every function on the
    messages that leaves the connection alone, and whatever bytes the daemon has
    sent or sends in answer, [stream_call] returns, unless the daemon keeps the
    connection open, falls silent, and all that it has sent announces more; then,
    and only then, the call goes on waiting. So it returns whenever the
    connection is closed or breaks, at the first message that does not announce
    another, and at the first that cannot be used. Its loop takes at most one
    round per byte (more fuel changes nothing) and reads a prefix of what it was
    sent. *)
Theorem stream_call_terminates {js : Json} {jt : JsonText} (d : DaemonEnd) method params
    on_message c :
  bystander on_message →
  (∃ r c' evs, stream_call d method params on_message c = (r, c', evs) ∧ r ≠ Err OutOfFuel ∧
     (r = Err Waiting ↔
      ∃ text, to_vec (request method params true) = Ok text ∧
        d_write d (text +:+ String nul "") = Ok tt ∧ ending c = Silent ∧
        announces_more on_message (unread c +:+ d_answer d (text +:+ String nul "")))) ∧
  ∃ r c' evs, r ≠ Err OutOfFuel ∧ (∃ used, unread c = used +:+ unread c') ∧
    ∀ fuel, (String.length (unread c) < fuel)%nat → read_stream fuel on_message c = (r, c', evs).
Proof.
  intros Hby. split.
  - unfold stream_call. destruct (to_vec (request method params true)) as [text|e] eqn:Hv.
    2:{ eexists _, _, _. split; [done|]. split; [done|]. split; [done|]. by intros (? & ? & _). }
    rewrite (ebind_silent (json_of (Ok text)) _ c text c) by done. unfold send.
    destruct (d_write d (text +:+ String nul "")) as [[]|e] eqn:Hw.
    2:{ eexists _, _, _. split; [done|]. split; [done|]. split; [done|].
        intros (t & [= <-] & Hw' & _). congruence. }
    set (sent := unread c +:+ d_answer d (text +:+ String nul "")).
    set (c1 := mkConnection sent (ending c)).
    destruct (read_stream_stops on_message _ c1 Hby (le_n _)) as (r & c' & evs & Heq & Hr & _).
    exists r, c', (Sent (text +:+ String nul "") :: evs).
    unfold ebind, etell, emodify, eget. fold sent c1. rewrite Heq by lia. split; [done|]. split; [done|].
    pose proof (Heq (S (String.length sent)) ltac:(simpl; lia)) as Hrun. split.
    + intros ->. destruct (read_stream_waits _ _ _ _ _ _ Hby Hrun) as [? ?]. by exists text.
    + intros (t & [= <-] & _ & Hsilent & Hmore). unfold c1 in Hrun. rewrite Hsilent in Hrun.
      pose proof (waits_read_stream on_message (S (String.length sent)) sent Hby Hmore ltac:(lia)) as Hwait.
      rewrite Hrun in Hwait. exact Hwait.
  - destruct (read_stream_stops on_message _ c Hby (le_n _)) as (r & c' & evs & Heq & Hr & Hused).
    by exists r, c', evs.
Qed.
