(* ===== verification/Exec.v ===== *)
(** The stream filter of the command line client:
    crates/inferenctl/src/cmd/stream.rs, against the daemon's streaming
    handler. *)
From S2P Require Import Prelude Lease Errors Text Model Arbiter Json Frontend Varlink Session Client.
Local Open Scope Z_scope.

Section exec.
Context {js : Json} {jt : JsonText} (d : DaemonEnd).
(** [{:?}] of the path of the socket. *)
Context (socket_debug : string).

(** The argument, or what the standard input holds when it is no terminal:
    [stdin] are its bytes. What is not UTF-8 reads as nothing. *)
Definition read_prompt (prompt_arg stdin : option string) : string :=
  let prompt :=
    match prompt_arg with
    | Some arg => arg
    | None => default "" (stdin ≫= λ bytes, from_utf8 (take_bytes (4 * 1024 * 1024) bytes))
    end in
  if is_empty (trim prompt) then "Hello, systemd-inferenced!" else prompt.

Definition print_chunk (msg : Value) : Call unit :=
  match (jget "parameters" msg ≫= jget "chunk") ≫= as_str with
  | Some chunk => etell [Printed chunk]
  | None => eret tt
  end.

Definition exec_params (model prompt : string) : Value :=
  jobj [("model", jstr model); ("prompt", jstr prompt)].

Definition end_line : ClientEvent := Printed (String newline "").

(** What is printed instead of the daemon's answer. *)
Definition local_answer (model prompt : string) (quiet : bool) : list ClientEvent :=
  (if quiet then []
   else [PrintedError ("systemd-inferenced: daemon offline at " +:+ socket_debug
           +:+ ", running local stream filter for model '" +:+ model +:+ "'" +:+ String newline "")])
  ++ [Printed "Inference: "; Printed "Analyzing prompt '"; Printed (trim prompt);
      Printed "'. Execution dispatched via systemd-inferenced stream filter."; end_line].

(** [connected] is the connection, when there is one. *)
Definition run_exec (connected : option Connection) (model : string)
    (prompt_arg stdin : option string) (quiet : bool) :
    result ClientError unit * list ClientEvent :=
  let prompt := read_prompt prompt_arg stdin in
  match connected with
  | Some c =>
      match stream_call d "io.systemd.inferenced1.StreamInference"
              (Some (exec_params model prompt)) print_chunk c with
      | (Ok _, _, evs) => (Ok tt, evs ++ [end_line])
      | (Err Waiting, _, evs) => (Err Waiting, evs)
      | (Err _, _, evs) => (Ok tt, evs ++ local_answer model prompt quiet)
      end
  | None => (Ok tt, local_answer model prompt quiet)
  end.
End exec.

(** * Facts *)

Section facts.
Context {js : Json} {jt : JsonText}.

(** The text of [v] is a frame a client can read back. *)
Definition readable (v : Value) : Prop :=
  ∃ text, to_vec v = Ok text ∧ lacks nul text = true ∧
    Z.of_nat (String.length text) < MAX_MESSAGE ∧ value_from_slice text = Ok v.

Lemma print_chunk_bystander : bystander print_chunk.
Proof.
  intros v c. unfold print_chunk. destruct (_ ≫= as_str); by eexists _, _.
Qed.

Lemma reply_fields reply :
  jget "parameters" (reply_value reply) = reply_parameters reply ∧
  jget "continues" (reply_value reply) = jbool <$> continues reply ∧
  jget "error" (reply_value reply) = jstr <$> error reply.
Proof.
  unfold reply_value. rewrite !jget_obj.
  by destruct (reply_parameters reply), (continues reply), (error reply).
Qed.

(** A reply of the daemon as it arrives. *)
Lemma read_stream_reply on_message n reply rest e :
  readable (reply_value reply) → error reply = None →
  read_stream (S n) on_message (mkConnection (to_bytes reply +:+ rest) e)
  = (on_message (reply_value reply) ;!
     if default false (continues reply) then read_stream n on_message else eret tt)%eff
      (mkConnection rest e).
Proof.
  intros (text & Hv & Hnul & Hlen & Hback) Herr. unfold to_bytes. rewrite Hv.
  rewrite <-(assoc_L String.append). change (String nul "" +:+ rest) with (String nul rest).
  destruct (reply_fields reply) as (_ & Hcont & He).
  rewrite (read_stream_message on_message n (reply_value reply) text rest e)
    by (try done; by rewrite He, Herr).
  rewrite Hcont. destruct (continues reply) as [b|]; cbn [fmap option_fmap option_map mbind option_bind].
  - by rewrite as_bool_jbool.
  - done.
Qed.

Lemma print_streamed token more c :
  print_chunk (reply_value (reply_streaming (jobj [("chunk", jstr token)]) more)) c
  = (Ok tt, c, [Printed token]).
Proof.
  unfold print_chunk. destruct (reply_fields (reply_streaming (jobj [("chunk", jstr token)]) more))
    as (-> & _). cbn [reply_streaming reply_parameters mbind option_bind].
  rewrite jget_obj. cbn [List.filter]. change (String.eqb _ _) with true. cbn.
  by rewrite as_str_jstr.
Qed.
End facts.

(** The frames of a stream, with what they carry. *)
Definition all_readable {js : Json} {jt : JsonText} (replies : list VarlinkReply) : Prop :=
  Forall (λ r, readable (reply_value r)) replies.

Section frames.
Context {js : Json} {jt : JsonText}.

(** More fuel than bytes makes no difference. *)
Lemma read_stream_fuel on_message c n m :
  bystander on_message → (String.length (unread c) < n)%nat → (String.length (unread c) < m)%nat →
  read_stream n on_message c = read_stream m on_message c.
Proof.
  intros Hby Hn Hm.
  destruct (read_stream_stops on_message _ c Hby (le_n _)) as (r & c' & evs & Heq & _).
  by rewrite !Heq.
Qed.

(** One frame with a token, printed. *)
Lemma read_stream_token n token more rest e :
  readable (reply_value (reply_streaming (jobj [("chunk", jstr token)]) more)) →
  read_stream (S n) print_chunk
    (mkConnection (to_bytes (reply_streaming (jobj [("chunk", jstr token)]) more) +:+ rest) e)
  = let '(r, c', evs) := (if more then read_stream n print_chunk else eret tt) (mkConnection rest e) in
    (r, c', Printed token :: evs).
Proof.
  intros Hr. rewrite read_stream_reply by done.
  by rewrite (ebind_Ok _ _ _ _ _ _ (print_streamed token more _)).
Qed.

Lemma read_stream_frames params prompt e :
  str_field "prompt" params = Some prompt → all_readable (stream_replies (Some params)) →
  let bytes := concat_all (to_bytes <$> stream_replies (Some params)) in
  read_stream (S (String.length bytes)) print_chunk (mkConnection bytes e)
  = (Ok tt, mkConnection "" e, Printed <$> stream_tokens prompt).
Proof.
  intros Hprompt Hread bytes.
  rewrite (read_stream_fuel _ _ _ (4 + S (String.length bytes))) by
    first [apply print_chunk_bystander | cbn [unread]; lia].
  generalize (S (String.length bytes)). intros n. unfold bytes, all_readable in *.
  unfold stream_replies in *. cbn [mbind option_bind] in *. rewrite Hprompt in *.
  cbn [default stream_tokens] in *. rewrite !Forall_cons in Hread.
  destruct Hread as (H0 & H1 & H2 & H3 & _). cbn [fmap list_fmap concat_all foldr Nat.add negb] in *.
  by rewrite !read_stream_token.
Qed.
End frames.

(** C30: What the daemon streams is what the user sees: when the daemon answers
    the client's request with the frames its streaming handler writes, the
    stream filter prints the handler's tokens, each once and in order, and a
    newline, and succeeds; and the call has then read everything the daemon
    wrote. *)
Theorem exec_prints_stream {js : Json} {jt : JsonText} {ho : HashOrder LeaseId ComputeLease}
    (w : FrontWorld) (f : Front) params model prompt_arg stdin quiet text e socket_debug :
  let prompt := read_prompt prompt_arg stdin in
  let out := writes_of (calls_of (handle_stream_inference w (Some params) f)) in
  let d := mkDaemonEnd (λ _, Ok tt) (λ _, concat_all out) in
  to_vec (request "io.systemd.inferenced1.StreamInference" (Some (exec_params model prompt)) true)
    = Ok text →
  str_field "prompt" params = Some prompt → all_readable (stream_replies (Some params)) →
  run_exec d socket_debug (Some (mkConnection "" e)) model prompt_arg stdin quiet
  = (Ok tt, Sent (text +:+ String nul "")
            :: (Printed <$> stream_tokens prompt) ++ [end_line]) ∧
  stream_call d "io.systemd.inferenced1.StreamInference" (Some (exec_params model prompt)) print_chunk
    (mkConnection "" e)
  = (Ok tt, mkConnection "" e, Sent (text +:+ String nul "") :: (Printed <$> stream_tokens prompt)).
Proof.
  intros prompt out d Htext Hprompt Hread.
  assert (Hout : out = to_bytes <$> stream_replies (Some params)).
  { unfold out. destruct (stream_writes w (Some params) f) as [f' ->]. apply writes_of_writes. }
  assert (Hloop : read_stream (S (String.length (concat_all out))) print_chunk
                    (mkConnection (concat_all out) e)
                  = (Ok tt, mkConnection "" e, Printed <$> stream_tokens prompt)).
  { rewrite Hout. by apply read_stream_frames. }
  assert (Hcall : stream_call d "io.systemd.inferenced1.StreamInference" (Some (exec_params model prompt))
    print_chunk (mkConnection "" e)
    = (Ok tt, mkConnection "" e, Sent (text +:+ String nul "") :: (Printed <$> stream_tokens prompt))).
  { unfold stream_call. rewrite Htext.
    rewrite (ebind_silent (json_of (Ok text)) _ _ text (mkConnection "" e)) by done.
    unfold ebind, send. cbn [d d_write d_answer etell emodify eget unread ending].
    cbn -[read_stream stream_tokens concat_all].
    change ("" +:+ concat_all out) with (concat_all out). by rewrite Hloop. }
  split; [|exact Hcall]. unfold run_exec. fold prompt. by rewrite Hcall.
Qed.

(** A daemon that answers with an error is hidden from the user: the filter
    prints an answer of its own and reports success. *)
Theorem exec_masks_errors {js : Json} {jt : JsonText} d socket_debug model prompt_arg stdin quiet
    text e reply err rest :
  let prompt := read_prompt prompt_arg stdin in
  to_vec (request "io.systemd.inferenced1.StreamInference" (Some (exec_params model prompt)) true)
    = Ok text →
  d_write d (text +:+ String nul "") = Ok tt →
  d_answer d (text +:+ String nul "") = to_bytes reply +:+ rest →
  readable (reply_value reply) → error reply = Some err →
  run_exec d socket_debug (Some (mkConnection "" e)) model prompt_arg stdin quiet
  = (Ok tt, Sent (text +:+ String nul "") :: local_answer socket_debug model prompt quiet).
Proof.
  intros prompt Htext Hwrite Hanswer (rtext & Hv & Hnul & Hlen & Hback) Herr.
  assert (Hloop : ∀ n, read_stream (S n) print_chunk (mkConnection (to_bytes reply +:+ rest) e)
                  = (Err (VarlinkError err), mkConnection rest e, [])).
  { intros n. unfold to_bytes. rewrite Hv. rewrite <-(assoc_L String.append).
    change (String nul "" +:+ rest) with (String nul rest).
    rewrite (read_stream_error _ n (reply_value reply) rtext rest e err); try done.
    destruct (reply_fields reply) as (_ & _ & ->). rewrite Herr. cbn. apply as_str_jstr. }
  unfold run_exec. fold prompt. unfold stream_call. rewrite Htext.
  rewrite (ebind_silent (json_of (Ok text)) _ _ text (mkConnection "" e)) by done.
  unfold send. rewrite Hwrite. unfold ebind. cbn [etell emodify eget unread ending].
  rewrite Hanswer. change ("" +:+ ?x) with x. by rewrite Hloop.
Qed.
