(* ===== verification/EndToEnd.v ===== *)
(** The two ends of a Varlink connection together: the client's calls
    (crates/inferenctl/src/client.rs) answered by the daemon's task for the
    connection (crates/inferenced-daemon/src/varlink/mod.rs), which works on
    the arbiter that all connections share. *)
From S2P Require Import Prelude Lease Errors Topology Text Model Host Psi Arbiter Runs Acquire Ledger Ending Peer Json.
From S2P Require Import Frontend Varlink Session Client Exec.
Local Open Scope Z_scope.

Section endtoend.
Context {js : Json} {jt : JsonText} {rt : RequestText} {uu : UuidText} {dp : Display} {uc : Unicode}.
Context {ho : HashOrder LeaseId ComputeLease} {hm : HashOrder string ModelDescriptor}.
Context (w : FrontWorld) (peer : option PeerInfo).

(** Where the task of the connection stands between two requests. *)
Record Service := mkService { held : list LeaseId; front : Front }.

(** The loop of the connection on the bytes that have arrived. *)
Definition served (bytes : string) (d : Service) :=
  serve w (S (String.length bytes)) bytes None peer (held d) (front d).

(** The daemon as the client sees it. *)
Definition daemon (d : Service) : DaemonEnd :=
  mkDaemonEnd (λ _, Ok tt) (λ bytes, concat_all (writes_of (calls_of (served bytes d)))).

Definition service_after (bytes : string) (d : Service) : Service :=
  match served bytes d with
  | (Ok (_, active), f, _) => mkService active f
  | (Err _, f, _) => mkService (held d) f
  end.

(** What a client sends in a call. *)
Definition sent_by (evs : list ClientEvent) : string :=
  concat_all (omap (λ e, match e with Sent m => Some m | _ => None end) evs).

Definition ClientCall : Type := string * option Value.

(** Calls one after the other on one connection: what each returns, and where
    the daemon stands after them. *)
Fixpoint converse (calls : list ClientCall) (e : Ending) (d : Service) :
    list (result ClientError Value) * Service :=
  match calls with
  | [] => ([], d)
  | (m, params) :: rest =>
      let '(r, _, evs) := Client.call (daemon d) m params (mkConnection "" e) in
      let '(rs, d') := converse rest e (service_after (sent_by evs) d) in
      (r :: rs, d')
  end.

(** * The specification: every request handled in its turn *)

Definition as_request (c : ClientCall) : VarlinkRequest :=
  mkVarlinkRequest c.1 (Some (default (jobj []) c.2)) None None.

(** The reply of a method that is not a streaming one. *)
Definition reply_to (m : string) (reply : option VarlinkReply) : VarlinkReply :=
  default (reply_error "org.varlink.service.MethodNotFound" (jobj [("method", jstr m)])) reply.

Definition handled (c : ClientCall) (d : Service) : VarlinkReply * Service :=
  match dispatch w (as_request c) (held d) peer (front d) with
  | (Ok (reply, active), f, _) =>
      (reply_to c.1 reply, mkService active (mkFront (fr_arbiter f) (S (fr_ticks f))))
  | (Err _, f, _) => (reply_to c.1 None, mkService (held d) f)
  end.

Fixpoint handled_all (calls : list ClientCall) (d : Service) : list VarlinkReply * Service :=
  match calls with
  | [] => ([], d)
  | c :: rest =>
      let '(reply, d1) := handled c d in
      let '(replies, d2) := handled_all rest d1 in
      (reply :: replies, d2)
  end.

(** A reply as the client's caller sees it. *)
Definition seen (reply : VarlinkReply) : result ClientError Value :=
  match error reply with
  | Some err => Err (VarlinkError err)
  | None => Ok (default (jobj []) (reply_parameters reply))
  end.

(** The JSON library writes the request as a message within the limit, and the
    daemon's reads it back. *)
Definition sendable (c : ClientCall) : Prop :=
  ∃ text, to_vec (request c.1 c.2 false) = Ok text ∧ lacks nul text = true ∧
    Z.of_nat (String.length text) < MAX_MESSAGE ∧ from_slice text = Ok (as_request c).

(** The bytes of the calls, one after the other. *)
Definition wire_of (c : ClientCall) : string :=
  match to_vec (request c.1 c.2 false) with Ok text => text | Err _ => "" end +:+ String nul "".

(** * Facts *)

Lemma concat_all_cons c cs : concat_all (c :: cs) = c +:+ concat_all cs.
Proof. done. Qed.

(** The socket takes what the daemon writes. *)
Hypothesis Hwrites : ∀ n, fw_writes w n = Ok tt.

(** Handling a request that asks for no stream: one reply, written once. *)
Lemma handled_once c d :
  contains c.1 "StreamInference" = false →
  ∃ ra f evs, dispatch w (as_request c) (held d) peer (front d) = (Ok ra, f, evs) ∧
    writes_of evs = [] ∧
    handled c d = (reply_to c.1 ra.1, mkService ra.2 (mkFront (fr_arbiter f) (S (fr_ticks f)))) ∧
    answer w c.1 ra.1 f
    = (Ok None, mkFront (fr_arbiter f) (S (fr_ticks f)), [Write (to_bytes (reply_to c.1 ra.1))]).
Proof.
  intros Hstream.
  assert (∃ ra f evs, dispatch w (as_request c) (held d) peer (front d) = (Ok ra, f, evs) ∧
    writes_of evs = []) as ([reply active] & f & evs & Hd & Hw).
  { unfold dispatch. cbn [as_request method parameters].
    destruct (String.eqb _ _); [by eexists (_, _), _, _|].
    destruct (String.eqb _ _); [by eexists (_, _), _, _|].
    destruct (handle_method_cases w c.1 (Some (default (jobj []) c.2)) (held d) peer (front d))
      as (reply & active & f & evs & Heq & Hcase). exists (reply, active), f, evs. split; [done|].
    destruct reply; [by destruct Hcase|]. case_bool_decide as Hsub; [|done].
    apply sub_method_cases in Hsub as [Hm|Hm]; rewrite Hm in Hstream; by vm_compute in Hstream. }
  exists (reply, active), f, evs. split; [done|]. split; [done|]. unfold handled. rewrite Hd.
  split; [done|]. unfold answer, ebind, write_all. cbn [fst].
  destruct reply as [reply|]; [by rewrite Hwrites|by rewrite Hstream].
Qed.

(** One request of the loop, whatever follows it. *)
Lemma serve_request n c rest active f :
  sendable c → contains c.1 "StreamInference" = false →
  let d := mkService active f in
  ∃ evs, writes_of evs = [to_bytes (handled c d).1] ∧
    serve w (S n) (wire_of c +:+ rest) None peer active f =
    let d' := (handled c d).2 in
    let '(r, f', evs') := serve w n rest None peer (held d') (front d') in (r, f', evs ++ evs').
Proof.
  intros (text & Htext & Hnul & Hlen & Hback) Hstream d.
  destruct (handled_once c d Hstream) as (ra & f1 & evs & Hd & Hw & -> & Ha).
  exists (evs ++ [Write (to_bytes (reply_to c.1 ra.1))]).
  split; [by rewrite writes_of_app, Hw|].
  unfold wire_of. rewrite Htext. rewrite <-(assoc_L String.append).
  change (String nul "" +:+ rest) with (String nul rest). cbn [serve].
  rewrite (read_until_frame MAX_MESSAGE text rest) by done.
  assert (is_empty (text +:+ String nul "") = false) as -> by (by destruct text).
  unfold parse_request. rewrite strip_last_app, Hback.
  cbn [d held front] in Hd. rewrite (ebind_Ok _ _ _ _ _ _ Hd).
  change (method (as_request c)) with c.1. rewrite (ebind_Ok _ _ _ _ _ _ Ha).
  cbn [snd fst held front].
  destruct (serve w n rest None peer ra.2 _) as [[r f'] evs']. by rewrite (assoc_L (++)).
Qed.

(** Nothing more to read. *)
Lemma serve_drained n active f : serve w (S n) "" None peer active f = (Ok (Disconnected, active), f, []).
Proof. done. Qed.

(** The whole loop on the bytes of some calls. *)
Lemma serve_calls n calls active f :
  (length calls < n)%nat → Forall sendable calls →
  Forall (λ c : ClientCall, contains c.1 "StreamInference" = false) calls →
  let '(replies, d') := handled_all calls (mkService active f) in
  ∃ evs, writes_of evs = to_bytes <$> replies ∧
    serve w n (concat_all (wire_of <$> calls)) None peer active f
    = (Ok (Disconnected, held d'), front d', evs).
Proof.
  revert n active f. induction calls as [|c calls IH]; intros n active f Hn Hsend Hstream;
    (destruct n as [|n]; [simpl in Hn; lia|]).
  - by exists [].
  - apply Forall_cons in Hsend as [Hc Hsend]. apply Forall_cons in Hstream as [Hs Hstream].
    cbn [handled_all]. rewrite fmap_cons, concat_all_cons.
    destruct (serve_request n c (concat_all (wire_of <$> calls)) active f Hc Hs)
      as (evs & Hw & ->). destruct (handled c (mkService active f)) as [reply [active1 f1]].
    cbn [fst snd held front] in *.
    specialize (IH n active1 f1 ltac:(simpl in Hn; lia) Hsend Hstream).
    destruct (handled_all calls (mkService active1 f1)) as [replies d2].
    destruct IH as (evs' & Hw' & ->). exists (evs ++ evs'). split; [|done].
    by rewrite writes_of_app, Hw, Hw', fmap_cons.
Qed.

(** The loop has fuel for every call in the bytes. *)
Lemma wire_length calls : (length calls ≤ String.length (concat_all (wire_of <$> calls)))%nat.
Proof.
  induction calls as [|c calls IH]; [done|]. rewrite fmap_cons, concat_all_cons, string_length_app. cbn [length].
  unfold wire_of at 1. rewrite string_length_app. cbn. lia.
Qed.

Lemma served_calls calls d :
  Forall sendable calls →
  Forall (λ c : ClientCall, contains c.1 "StreamInference" = false) calls →
  let '(replies, d') := handled_all calls d in
  writes_of (calls_of (served (concat_all (wire_of <$> calls)) d)) = to_bytes <$> replies ∧
  res_of (served (concat_all (wire_of <$> calls)) d) = Ok (Disconnected, held d') ∧
  service_after (concat_all (wire_of <$> calls)) d = d'.
Proof.
  intros Hsend Hstream. destruct d as [active f]. pose proof (wire_length calls) as Hlen.
  pose proof (serve_calls (S (String.length (concat_all (wire_of <$> calls)))) calls active f
                ltac:(lia) Hsend Hstream) as Hall.
  unfold service_after, served. cbn [held front].
  destruct (handled_all calls (mkService active f)) as [replies [active' f']].
  destruct Hall as (evs & Hw & Heq). cbn [held front] in *. by rewrite Heq.
Qed.

(** One call, from the client's side. *)
Lemma call_handled c d e :
  sendable c → contains c.1 "StreamInference" = false → readable (reply_value (handled c d).1) →
  Client.call (daemon d) c.1 c.2 (mkConnection "" e)
  = (seen (handled c d).1, mkConnection "" e, [Sent (wire_of c)]) ∧
  service_after (wire_of c) d = (handled c d).2.
Proof.
  intros Hsend Hstream (rtext & Hv & Hrnul & Hrlen & Hrback).
  pose proof (served_calls [c] d ltac:(by constructor) ltac:(by constructor)) as Hserved.
  cbn [handled_all] in Hserved. destruct (handled c d) as [reply d1]. cbn [fst snd] in *.
  assert (concat_all (wire_of <$> [c]) = wire_of c) as Hone by apply string_app_empty.
  rewrite Hone in Hserved. destruct Hserved as (Hw & _ & Hafter). split; [|done].
  destruct Hsend as (text & Htext & Hnul & Hlen & Hback).
  assert (Hwire : wire_of c = text +:+ String nul "") by (unfold wire_of; by rewrite Htext).
  rewrite Hwire in *.
  rewrite (call_answered (daemon d) c.1 c.2 text (reply_value reply) rtext e); try done.
  - destruct (reply_fields reply) as (-> & _ & ->). unfold seen.
    destruct (error reply); [|done]. cbn. by rewrite as_str_jstr.
  - cbn [daemon d_answer]. rewrite Hw. cbn. unfold to_bytes. rewrite Hv. apply string_app_empty.
Qed.

Lemma sent_by_one m : sent_by [Sent m] = m.
Proof. apply string_app_empty. Qed.

(** Any number of calls. *)
Lemma converse_handled calls e d :
  Forall sendable calls →
  Forall (λ c : ClientCall, contains c.1 "StreamInference" = false) calls →
  Forall (λ r, readable (reply_value r)) (handled_all calls d).1 →
  converse calls e d = (seen <$> (handled_all calls d).1, (handled_all calls d).2).
Proof.
  revert d. induction calls as [|[m p] calls IH]; intros d Hsend Hstream Hread; [done|].
  apply Forall_cons in Hsend as [Hc Hsend]. apply Forall_cons in Hstream as [Hs Hstream].
  cbn [converse handled_all] in *. pose proof (call_handled (m, p) d e Hc Hs) as Hcall.
  cbn [fst snd] in Hcall. destruct (handled (m, p) d) as [reply d1]. cbn [fst snd] in *.
  specialize (IH d1 Hsend Hstream). destruct (handled_all calls d1) as [replies d2].
  cbn [fst snd] in *. apply Forall_cons in Hread as [Hr Hread].
  destruct (Hcall Hr) as [-> Hafter]. rewrite sent_by_one, Hafter, (IH Hread). by rewrite fmap_cons.
Qed.
End endtoend.

(** * The calls on leases *)

Section leases.
Context {js : Json} {jt : JsonText} {rt : RequestText} {uu : UuidText} {dp : Display} {uc : Unicode}.
Context {ho : HashOrder LeaseId ComputeLease} {hm : HashOrder string ModelDescriptor}.
Context (w : FrontWorld) (peer : option PeerInfo).
Implicit Types (d : Service).

(** What [client_acquire_lease] and [client_release_lease] ask for. *)
Definition acquire_call (priority : string) (bytes : Z) (plane : option string) : ClientCall :=
  ("io.systemd.inferenced1.AcquireLease",
   Some (jobj [("priority", jstr priority); ("memory_bytes", jnum bytes);
               ("plane", jopt jstr plane)])).
Definition release_call (lease_id : string) : ClientCall :=
  ("io.systemd.inferenced1.ReleaseLease", Some (jobj [("lease_id", jstr lease_id)])).

(** The arbiter at the next lock of the connection, and a grant asked of it
    there for the peer. *)
Definition arbiter_now d : ArbiterState :=
  fw_others w (fr_ticks (front d)) (fr_arbiter (front d)).
Definition local_acquire (priority : string) (bytes : Z) (plane : option string) d :=
  let '(unit, pid, pr) := attributed peer None None (requested_priority priority) in
  acquire_lease (fw_pressure w (fr_ticks (front d))) (fw_clock w (fr_ticks (front d)))
    (fw_fresh w (fr_ticks (front d))) pr bytes plane unit pid (arbiter_now d).

(** One lock and one write later. *)
Definition moved_on d (s : ArbiterState) (active : list LeaseId) : Service :=
  mkService active (mkFront s (S (S (fr_ticks (front d))))).

Definition acquire_reply (r : result Error ComputeLease) : VarlinkReply :=
  match r with
  | Ok l => reply_ok (jobj [("lease_id", jstr (show_lease_id (l_id l)));
                            ("plane_id", jstr (l_plane_id l));
                            ("allocated_memory", jnum (l_allocated_memory_bytes l))])
  | Err e => error_reply "io.systemd.inferenced1.ResourceExhaustion" e
  end.

Lemma acquire_fields priority bytes plane :
  is_u64 bytes →
  let v := jobj [("priority", jstr priority); ("memory_bytes", jnum bytes);
                 ("plane", jopt jstr plane)] in
  str_field "priority" v = Some priority ∧ u64_field "memory_bytes" v = Some bytes ∧
  str_field "plane" v = plane ∧ str_field "unit" v = None ∧ u64_field "pid" v = None.
Proof.
  intros Hb v. unfold v, str_field, u64_field. rewrite !jget_obj. simpl. rewrite as_str_jstr, as_u64_jnum by done.
  split_and!; [done..| |done|done].
  by destruct plane; cbn [jopt]; rewrite ?as_str_jstr, ?as_str_jnull.
Qed.

Lemma handled_acquire priority bytes plane d :
  is_u64 bytes →
  let '(r, s, _) := local_acquire priority bytes plane d in
  handled w peer (acquire_call priority bytes plane) d
  = (acquire_reply r,
     moved_on d s (match r with Ok l => held d ++ [l_id l] | Err _ => held d end)).
Proof.
  intros Hb. unfold local_acquire, handled, as_request, acquire_call. cbn [fst snd default].
  destruct (acquire_fields priority bytes plane Hb) as (Hp & Hm & Hpl & Hu & Hpid).
  change (dispatch w _ (held d) peer (front d))
    with (replying_leases (handle_acquire_lease w
      (Some (jobj [("priority", jstr priority); ("memory_bytes", jnum bytes);
                   ("plane", jopt jstr plane)])) (held d) peer) (front d)).
  unfold handle_acquire_lease. rewrite Hp, Hm, Hpl, Hu, Hpid. cbn [default from_option id fmap option_fmap option_map].
  destruct (attributed peer None None (requested_priority priority)) as [[unit pid] pr].
  unfold replying_leases, ebind, acquire, Frontend.call, arbiter_now.
  destruct (acquire_lease _ _ _ _ _ _ _ _ _) as [[[l|err] s] ws]; done.
Qed.

Lemma handled_release lid d :
  let '(r, s, _) := release_lease lid (arbiter_now d) in
  handled w peer (release_call (show_lease_id lid)) d
  = match r with
    | Ok _ => (ok_empty, moved_on d s (List.filter (λ k, negb (bool_decide (k = lid))) (held d)))
    | Err e => (error_reply "io.systemd.inferenced1.LeaseNotFound" e, moved_on d s (held d))
    end.
Proof.
  unfold handled, as_request, release_call. cbn [fst snd default].
  change (dispatch w _ (held d) peer (front d))
    with (replying_leases (handle_release_lease w
      (Some (jobj [("lease_id", jstr (show_lease_id lid))])) (held d)) (front d)).
  unfold handle_release_lease, parse_lease_id, str_field.
  assert ((Some (jobj [("lease_id", jstr (show_lease_id lid))]) ≫= λ v, jget "lease_id" v ≫= as_str)
          = Some (show_lease_id lid)) as Hfield by (cbn [mbind option_bind]; rewrite jget_obj; simpl; apply as_str_jstr).
  rewrite Hfield. cbn [default from_option id]. unfold show_lease_id.
  rewrite parse_uuid_to_string.
  unfold replying_leases, ebind, Frontend.call, arbiter_now. destruct lid as [u].
  destruct (release_lease _ _) as [[[[]|err] s] ws]; done.
Qed.

Lemma lease_value_fields l :
  is_u64 (l_allocated_memory_bytes l) →
  ∃ v, seen (acquire_reply (Ok l)) = Ok v ∧
    str_field "lease_id" v = Some (show_lease_id (l_id l)) ∧
    str_field "plane_id" v = Some (l_plane_id l) ∧
    u64_field "allocated_memory" v = Some (l_allocated_memory_bytes l).
Proof.
  intros Hb. eexists (jobj _). split; [done|]. unfold str_field, u64_field. rewrite !jget_obj. simpl. by rewrite !as_str_jstr, as_u64_jnum.
Qed.
(** The connection between two calls: everything sent was read. *)
Definition idle (e : Ending) : Connection := mkConnection "" e.

Lemma local_acquire_cases priority bytes plane d e :
  is_u64 bytes → (∀ n, fw_writes w n = Ok tt) →
  sendable (acquire_call priority bytes plane) →
  let '(r, s, _) := local_acquire priority bytes plane d in
  readable (reply_value (acquire_reply r)) →
  let c := acquire_call priority bytes plane in
  Client.call (daemon w peer d) c.1 c.2 (idle e)
  = (seen (acquire_reply r), idle e, [Sent (wire_of c)]) ∧
  service_after w peer (wire_of c) d
  = moved_on d s (match r with Ok l => held d ++ [l_id l] | Err _ => held d end).
Proof.
  intros Hb Hw Hsend. pose proof (handled_acquire priority bytes plane d Hb) as Hh.
  destruct (local_acquire priority bytes plane d) as [[r s] ws]. intros Hread c.
  pose proof (call_handled w peer Hw c d e Hsend eq_refl) as Hcall.
  unfold c in *. rewrite Hh in Hcall. by apply Hcall.
Qed.

Lemma local_release_cases id d e :
  (∀ n, fw_writes w n = Ok tt) → sendable (release_call (show_lease_id id)) →
  let '(r, s, _) := release_lease id (arbiter_now d) in
  let reply := match r with
               | Ok _ => ok_empty
               | Err err => error_reply "io.systemd.inferenced1.LeaseNotFound" err
               end in
  readable (reply_value reply) →
  let c := release_call (show_lease_id id) in
  Client.call (daemon w peer d) c.1 c.2 (idle e) = (seen reply, idle e, [Sent (wire_of c)]) ∧
  service_after w peer (wire_of c) d
  = moved_on d s (match r with
                  | Ok _ => List.filter (λ k, negb (bool_decide (k = id))) (held d)
                  | Err _ => held d
                  end).
Proof.
  intros Hw Hsend. pose proof (handled_release id d) as Hh.
  destruct (release_lease id (arbiter_now d)) as [[r s] ws]. intros reply Hread c.
  pose proof (call_handled w peer Hw c d e Hsend eq_refl) as Hcall.
  unfold c, reply in *. rewrite Hh in Hcall. destruct r; by apply Hcall.
Qed.
End leases.

(** Dropping the identifier that was added last. *)
Lemma filter_out_last (id : LeaseId) held :
  id ∉ held → List.filter (λ k, negb (bool_decide (k = id))) (held ++ [id]) = held.
Proof.
  intros Hid. rewrite List.filter_app. cbn. rewrite bool_decide_true by done. cbn.
  rewrite app_nil_r. apply forallb_filter_id, forallb_forall. intros k Hk%list_elem_of_In.
  rewrite bool_decide_false; [done|]. by intros ->.
Qed.

(** What a grant leaves in the table. *)
Lemma granted_lease (ho : HashOrder LeaseId ComputeLease) psi now fresh pr b pref unit pid s l s' ws :
  arbiter_ok s → acquire_lease psi now fresh pr b pref unit pid s = (Ok l, s', ws) →
  leases s' !! fresh = Some l ∧ l_id l = fresh ∧ l_state l = Active ∧ l_client_unit l = unit ∧
  l_allocated_memory_bytes l = b.
Proof.
  intros Hs Hacq.
  destruct (acquire_inv _ _ _ _ _ _ _ _ _ _ _ _ (ok_keyed _ Hs) Hacq)
    as [(_ & _ & ? & _)|[_ [(e & _ & ? & _)|(i & p & vs & rest & _ & _ & _ & Hout)]]]; [done..|].
  destruct Hout as [(_ & _ & ? & _)|(_ & Hl & -> & ->)]; [done|]. injection Hl as ->.
  split; [apply lookup_insert_eq|done].
Qed.

(** C14: a call is answered with the reply to its own request: whatever calls a
    client makes one after the other on its connection, each returns the
    parameters, or the error, of the reply with which the daemon handles that
    very request, in their order; and the daemon, which reads nothing but one
    stream of bytes, ends where handling the requests one by one ends. *)
Theorem calls_answered_in_turn (js : Json) (jt : JsonText) (rt : RequestText) (uu : UuidText)
    (dp : Display) (uc : Unicode) (ho : HashOrder LeaseId ComputeLease)
    (hm : HashOrder string ModelDescriptor) w peer calls e d :
  (∀ n, fw_writes w n = Ok tt) →
  Forall sendable calls →
  Forall (λ c : ClientCall, contains c.1 "StreamInference" = false) calls →
  let '(replies, d') := handled_all w peer calls d in
  Forall (λ r, readable (reply_value r)) replies →
  converse w peer calls e d = (seen <$> replies, d') ∧
  ∃ evs, served w peer (concat_all (wire_of <$> calls)) d
         = (Ok (Disconnected, held d'), front d', evs) ∧
    writes_of evs = to_bytes <$> replies.
Proof.
  intros Hw Hsend Hstream. pose proof (converse_handled w peer Hw calls e d Hsend Hstream) as Hc.
  pose proof (served_calls w peer Hw calls d Hsend Hstream) as Hs.
  destruct (handled_all w peer calls d) as [replies d']. intros Hread. split; [by apply Hc|].
  destruct Hs as (Hwr & Hres & Hafter). unfold service_after in Hafter.
  destruct (served w peer _ d) as [[r f] evs]. cbn in Hres, Hwr. subst r.
  exists evs. by rewrite <-Hafter.
Qed.

(** C15: a lease taken and given back over the wire is as one taken and given
    back at the arbiter: when the plane has room, [client_acquire_lease] returns
    the identifier, the plane and the size of a lease that is then in the
    daemon's table in the peer's name and held by the connection;
    [client_release_lease] with the identifier it was told succeeds, and leaves
    the connection holding what it held, the lease ended and every plane with
    the memory it had. *)
Theorem remote_lease_roundtrip (js : Json) (jt : JsonText) (rt : RequestText) (uu : UuidText)
    (dp : Display) (uc : Unicode) (ho : HashOrder LeaseId ComputeLease)
    (hm : HashOrder string ModelDescriptor) w peer priority bytes plane e d l s1 ws :
  (∀ n, fw_writes w n = Ok tt) → (∀ n s, fw_others w n s = s) →
  let s := fr_arbiter (front d) in
  let fresh := fw_fresh w (fr_ticks (front d)) in
  arbiter_ok s → is_u64 bytes → leases s !! fresh = None → fresh ∉ held d →
  local_acquire w peer priority bytes plane d = (Ok l, s1, ws) →
  fits (planes s) (l_plane_id l) bytes →
  sendable (acquire_call priority bytes plane) → readable (reply_value (acquire_reply (Ok l))) →
  sendable (release_call (show_lease_id fresh)) → readable (reply_value ok_empty) →
  ∃ v evs1 evs2,
    client_acquire_lease (daemon w peer d) priority bytes plane (idle e) = (Ok v, idle e, evs1) ∧
    str_field "lease_id" v = Some (show_lease_id fresh) ∧
    str_field "plane_id" v = Some (l_plane_id l) ∧ u64_field "allocated_memory" v = Some bytes ∧
    let d1 := service_after w peer (sent_by evs1) d in
    leases (fr_arbiter (front d1)) !! fresh = Some l ∧ l_state l = Active ∧
    l_client_unit l = slice <$> peer ∧ held d1 = held d ++ [fresh] ∧
    client_release_lease (daemon w peer d1) (show_lease_id fresh) (idle e)
      = (Ok (jobj []), idle e, evs2) ∧
    let d2 := service_after w peer (sent_by evs2) d1 in
    planes (fr_arbiter (front d2)) = planes s ∧ held d2 = held d ∧
    live (fr_arbiter (front d2)) fresh = false.
Proof.
  intros Hw Hidle s fresh Hok Hb Hfresh Hnot Hacq Hfits Hsend1 Hread1 Hsend2 Hread2.
  pose proof (local_acquire_cases w peer priority bytes plane d e Hb Hw Hsend1) as H1.
  rewrite Hacq in H1. destruct (H1 Hread1) as [Hcall1 Hafter1]. clear H1.
  assert (Hnow : arbiter_now w d = s) by apply Hidle.
  unfold local_acquire in Hacq. rewrite Hnow in Hacq.
  destruct (attributed peer None None (requested_priority priority)) as [[unit pid] pr] eqn:Hattr.
  assert (Hunit : unit = slice <$> peer) by (destruct peer; by injection Hattr).
  destruct (granted_then_released ho _ _ _ _ _ _ _ _ _ _ _ _ Hok Hb Hfresh Hacq Hfits) as [_ Hrel].
  destruct (granted_lease ho _ _ _ _ _ _ _ _ _ _ _ _ Hok Hacq) as (Hl & Hid & Hst & Hu & Hbytes).
  fold fresh in Hid, Hl. rewrite <-Hbytes in Hb.
  destruct (lease_value_fields l Hb) as (v & Hseen & Hf1 & Hf2 & Hf3).
  rewrite Hid in Hf1. rewrite Hbytes in Hf3. rewrite Hseen in Hcall1.
  set (d1 := service_after w peer (wire_of (acquire_call priority bytes plane)) d) in *.
  assert (Hnow1 : arbiter_now w d1 = s1) by (rewrite Hafter1; apply Hidle).
  pose proof (local_release_cases w peer fresh d1 e Hw Hsend2) as H2.
  rewrite Hnow1 in H2. fold fresh in Hrel. rewrite Hrel in H2.
  destruct (H2 Hread2) as [Hcall2 Hafter2].
  exists v, [Sent (wire_of (acquire_call priority bytes plane))],
    [Sent (wire_of (release_call (show_lease_id fresh)))].
  cbv zeta. rewrite !sent_by_one. fold d1. rewrite Hafter2. cbn [held front moved_on fr_arbiter].
  rewrite !Hafter1. cbn [held front moved_on fr_arbiter].
  rewrite Hafter1, Hid in Hcall2. rewrite Hid, Hu.
  split_and!; [exact Hcall1|exact Hf1|exact Hf2|exact Hf3|exact Hl|exact Hst|exact Hunit|done
    |exact Hcall2|done| |].
  - by apply filter_out_last.
  - unfold live. cbn [leases with_leases]. by rewrite lookup_insert_eq.
Qed.
