(* ===== verification/Ctl.v ===== *)
(** The commands of the command line client on leases, models and planes:
    crates/inferenctl/src/format.rs and cmd/ (control.rs, models.rs, system.rs,
    config.rs, triage.rs). *)
From Stdlib Require Import SpecFloat.
From S2P Require Import Prelude Lease Errors Topology Text Model Host Arbiter Json Frontend Varlink.
From S2P Require Import Ledger Runs Session Client Exec.
Local Open Scope Z_scope.

(** * Sizes *)

(** [n / d] to the nearest integer, ties to the even one. *)
Definition round_half_even (n d : Z) : Z :=
  let q := n / d in
  let r := n mod d in
  if 2 * r <? d then q else if d <? 2 * r then q + 1 else if Z.even q then q else q + 1.

(** [n as f64], an integer: 53 bits of it. *)
Definition to_f64 (n : Z) : Z :=
  if n <? 2 ^ 53 then n
  else let unit := 2 ^ (Z.log2 n - 52) in round_half_even n unit * unit.

(** [{:.places}] of [num / den] *)
Definition pad (places : nat) (digits : string) : string :=
  String.concat "" (replicate (places - String.length digits) "0") +:+ digits.
Definition fixed (places : nat) (num den : Z) : string :=
  let scale := 10 ^ Z.of_nat places in
  let s := round_half_even (num * scale) den in
  match places with
  | O => pretty s
  | _ => pretty (s / scale) +:+ "." +:+ pad places (pretty (s mod scale))
  end.

Definition KB : Z := 1024.
Definition MB : Z := KB * 1024.
Definition GB : Z := MB * 1024.
Definition TB : Z := GB * 1024.

(** The divisions are exact: the units are powers of two. *)
Definition format_bytes (bytes : Z) : string :=
  let b := to_f64 bytes in
  if TB <=? b then fixed 2 b TB +:+ " TB"
  else if GB <=? b then fixed 1 b GB +:+ " GB"
  else if MB <=? b then fixed 0 b MB +:+ " MB"
  else if KB <=? b then fixed 0 b KB +:+ " KB"
  else pretty bytes +:+ " B".

Example format_bytes_runs :
  format_bytes <$> [512; 1024; 1024 * 1024 * 50; 1024 * 1024 * 1024 * 4; 1536 * GB; u64_max]
  = ["512 B"; "1 KB"; "50 MB"; "4.0 GB"; "1.50 TB"; "16777216.00 TB"].
Proof. vm_compute. reflexivity. Qed.

(** * Rows of tables *)

Record ModelRow := mkModelRow {
  row_id : string;
  row_format : string;
  row_path : string;
  row_estimated : string;
  row_placement : string;
}.
Record LeaseRow := mkLeaseRow {
  lrow_id : string;
  lrow_plane : string;
  lrow_memory : string;
  lrow_priority : string;
  lrow_state : string;
  lrow_unit : string;
}.

(** What the client uses of the colored and tabled crates and of serde_json's
    pretty printer. *)
Class Terminal {js : Json} := {
  paint : string → string → string;
  model_table : list ModelRow → string;
  lease_table : list LeaseRow → string;
  to_string_pretty : Value → result string string;
}.

Section commands.
Context {js : Json} {jt : JsonText} {tm : Terminal} (d : DaemonEnd) (socket_debug : string).

(** A command that ends, with what it printed; [connected] is the connection,
    when the daemon can be reached. *)
Definition Outcome : Type := result ClientError unit * list ClientEvent.

Definition println (text : string) : Call unit := etell [Printed (text +:+ String newline "")].

(** [client.method(..)?] and then [m], on a connection of its own. *)
Definition on_connection (c : Connection) (m : Call unit) : Outcome :=
  let '(r, _, evs) := m c in (r, evs).
Definition offline (text : string) : Outcome :=
  (Ok tt, [Printed (text +:+ String newline "")]).

(** ** control.rs *)

Definition connect_failed : Outcome :=
  (Err (ConnectFailed ("Failed to connect to systemd-inferenced at " +:+ socket_debug)), []).

Definition run_freeze (connected : option Connection) (lease_id : string) : Outcome :=
  match connected with
  | None => connect_failed
  | Some c =>
      on_connection c
        (client_freeze d lease_id ;!
         println ("Froze compute lease " +:+ paint "green" lease_id))%eff
  end.

Definition run_thaw (connected : option Connection) (lease_id : string) : Outcome :=
  match connected with
  | None => connect_failed
  | Some c =>
      on_connection c
        (client_thaw d lease_id ;!
         println ("Thawed compute lease " +:+ paint "green" lease_id))%eff
  end.

(** ** models.rs *)

Definition print_json (v : Value) : Call unit :=
  (let! text := json_of (to_string_pretty v) in println text)%eff.

Definition text_field (key dflt : string) (v : Value) : string := default dflt (str_field key v).

Definition model_row (m : Value) : ModelRow :=
  mkModelRow (text_field "id" "" m) (text_field "format" "" m) (text_field "path" "" m)
    (format_bytes (default 0 (u64_field "estimated_memory" m))) (text_field "placement" "" m).

Definition show_models (val : Value) : Call unit :=
  match jget "models" val ≫= as_array with
  | Some ((_ :: _) as models) => println (model_table (model_row <$> models))
  | _ => println (paint "dimmed" "No models registered in systemd-inferenced registry.")
  end.

Definition run_models (connected : option Connection) (json_out : bool) : Outcome :=
  match connected with
  | None =>
      if json_out then
        match to_vec (jobj [("models", jarr [])]) with
        | Ok text => offline text
        | Err e => (Err (BadJson e), [])
        end
      else offline (paint "dimmed" "No daemon running. Model registry offline.")
  | Some c =>
      on_connection c
        (let! val := client_list_models d in
         if json_out then print_json val else show_models val)%eff
  end.

Definition run_register (connected : option Connection) (id format : string)
    (path : option string) (estimated_bytes : Z) : Outcome :=
  let model_path := default id path in
  match connected with
  | Some c =>
      on_connection c
        (client_register_model d id format model_path estimated_bytes ;!
         println ("Registered model '" +:+ paint "green" id +:+ "' (" +:+ format
                  +:+ ") into systemd-inferenced registry"))%eff
  | None =>
      offline ("Registered model '" +:+ paint "green" id +:+ "' (" +:+ format +:+ ", path: "
               +:+ model_path +:+ ") [offline record]")
  end.

(** The answer, an error too, is dropped. A call that does not return keeps
    the command from ending. *)
Definition run_warm (connected : option Connection) (id : string) : Outcome :=
  let done_text := "Warmed weights for model '" +:+ paint "green" id
                   +:+ "' in memory fabric via madvise(WillNeed)" in
  match connected with
  | Some c =>
      match call d "io.systemd.inferenced1.StreamInference"
              (Some (jobj [("model", jstr id); ("prompt", jstr "warmup-probe")])) c with
      | (Err Waiting, _, evs) => (Err Waiting, evs)
      | (_, _, evs) => (Ok tt, evs ++ (offline done_text).2)
      end
  | None => offline done_text
  end.

Definition run_pin (connected : option Connection) (id : string) (plane : option string) : Outcome :=
  let target_plane := default "npu-0" plane in
  let done_text := "Pinned model '" +:+ paint "green" id +:+ "' to plane '"
                   +:+ paint "green" target_plane +:+ "' for emergency triage" in
  match connected with
  | Some c => on_connection c (client_pin_model d id target_plane ;! println done_text)%eff
  | None => offline done_text
  end.

Definition run_evict (connected : option Connection) (id : string) : Outcome :=
  let done_text := "Evicted model '" +:+ paint "yellow" id
                   +:+ "' from active residency via madvise(DontNeed)" in
  match connected with
  | Some c => on_connection c (client_evict_model d id ;! println done_text)%eff
  | None => offline done_text
  end.

(** ** system.rs *)

Definition lease_row (l : Value) : LeaseRow :=
  mkLeaseRow (text_field "id" "" l) (text_field "plane_id" "" l)
    (format_bytes (default 0 (u64_field "allocated_memory" l))) (text_field "priority" "" l)
    (text_field "state" "" l) (text_field "client_unit" "-" l).

Definition show_leases (val : Value) : Call unit :=
  match jget "leases" val ≫= as_array with
  | Some ((_ :: _) as leases) => println (lease_table (lease_row <$> leases))
  | _ => println (paint "dimmed" "No active compute leases. All compute planes idle.")
  end.

Definition run_leases (connected : option Connection) (json_out : bool) : Outcome :=
  match connected with
  | None => connect_failed
  | Some c =>
      on_connection c
        (let! val := client_list_leases d in
         if json_out then print_json val else show_leases val)%eff
  end.

(** ** config.rs *)

(** [.ok()] of a call, and [unwrap_or_default()], which is null. A call that
    does not return keeps the command from ending. *)
Definition try_call (m : Call Value) : Call (option Value) :=
  λ c, match m c with
       | (Ok v, c', evs) => (Ok (Some v), c', evs)
       | (Err Waiting, c', evs) => (Err Waiting, c', evs)
       | (Err _, c', evs) => (Ok None, c', evs)
       end.
Definition or_default (m : Call Value) : Call Value :=
  (let! v := try_call m in eret (default jnull v))%eff.

Definition run_dump (connected : option Connection) : Outcome :=
  match connected with
  | None => connect_failed
  | Some c =>
      on_connection c
        (let! topo := client_get_topology d in
         let! pressure := client_get_pressure d in
         let! leases := client_list_leases d in
         let! models := or_default (client_list_models d) in
         let! info := or_default (client_get_info d) in
         print_json (jobj [("info", info); ("topology", topo); ("pressure", pressure);
                           ("leases", leases); ("models", models)]))%eff
  end.

Definition plane_details (p : Value) : list string :=
  let total := default 0 (u64_field "total_memory" p) in
  let avail := default 0 (u64_field "available_memory" p) in
  [paint "bold underline" ("Compute Plane: " +:+ text_field "id" "" p);
   "  Name:      " +:+ text_field "name" "" p;
   "  Kind:      " +:+ text_field "kind" "" p;
   "  Total:     " +:+ pretty total +:+ " (" +:+ format_bytes total +:+ ")";
   "  Available: " +:+ pretty avail +:+ " (" +:+ format_bytes avail +:+ ")";
   "  Triage:    " +:+ (if default false (jget "is_triage_reserved" p ≫= as_bool)
                        then "true" else "false")]
  ++ match jget "features" p ≫= as_array with
     | Some feats => ["  Features:  " +:+ String.concat ", " (omap as_str feats)]
     | None => []
     end.

Fixpoint print_lines (ls : list string) : Call unit :=
  match ls with
  | [] => eret tt
  | l :: ls' => (println l ;! print_lines ls')%eff
  end.

Definition print_plane_details (p : Value) (json_out : bool) : Call unit :=
  if json_out then print_json p else print_lines (plane_details p).

(** The plane as the fallback describes it. *)
Definition local_plane (p : ComputePlane) : Value :=
  jobj [("id", jstr (p_id p));
        ("name", jstr (p_name p));
        ("kind", jstr (debug_plane_kind (p_kind p)));
        ("total_memory", jnum (p_total_memory_bytes p));
        ("available_memory", jnum (p_available_memory_bytes p));
        ("is_triage_reserved", jbool (p_is_triage_reserved p));
        ("features", jarr (jstr <$> p_hardware_features p))].

Definition find_plane (plane_id : string) (topo : Value) : option Value :=
  planes ← jget "planes" topo ≫= as_array;
  find_first (λ p, bool_decide (str_field "id" p = Some plane_id)) planes.

(** [discovered] is the topology found on this machine. *)
Definition run_inspect (discovered : HardwareTopology) (connected : option Connection)
    (plane_id : string) (json_out : bool) : Outcome :=
  let local : Call unit :=
    match find_first (has_id plane_id) (t_planes discovered) with
    | Some p => print_plane_details (local_plane p) json_out
    | None => ethrow (NotFound plane_id)
    end in
  match connected with
  | None => on_connection (mkConnection "" Closed) local
  | Some c =>
      on_connection c
        (let! topo := try_call (client_get_topology d) in
         match topo ≫= find_plane plane_id with
         | Some p => print_plane_details p json_out
         | None => local
         end)%eff
  end.

(** ** triage.rs *)

Context {uc : Unicode}.

(** [0.99] as an [f64] *)
Definition confidence : spec_float := S754_finite false 8917127262193582 (-53).

Definition triage_payload (timestamp : string) : Value :=
  jobj
    [("incident_id", jstr "00000000-0000-0000-0000-000000000001");
     ("timestamp", jstr timestamp);
     ("unit_name", jstr "systemd-sentry.service");
     ("root_cause", jobj
        [("summary", jstr "Synthetic triage verification ping");
         ("detail", jstr "Testing zero-latency emergency preemption on dedicated slice")]);
     ("evidence", jobj
        [("journal_lines",
            jarr [jstr "kernel: [12345.67] GPU Hang detected"; jstr "systemd: Unit crashed"]);
         ("signal", jstr "SIGSEGV")]);
     ("severity", jstr "CRITICAL");
     ("proposed_remediation", jobj
        [("action", jstr "RestartService");
         ("rationale", jstr "Hardware enclave confirmed responsive");
         ("risk_level", jstr "LOW");
         ("confidence", jfloat confidence)])].

(** The plane the offline self-test names. *)
Definition enclave_plane (discovered : HardwareTopology) : string :=
  match find_first p_is_triage_reserved (t_planes discovered) with
  | Some p => p_id p
  | None => "cpu-matrix-fallback"
  end.

Definition triage_offline (discovered : HardwareTopology) : Call unit :=
  print_lines
    [paint "green bold" "SUCCESS" +:+ ": Emergency enclave verified (offline self-test mode)!";
     "  Dedicated Slice:  ai-sentry.slice (MemoryMin=2G, CPUWeight=1000)";
     "  Assigned Enclave: " +:+ paint "green" (enclave_plane discovered);
     "  Priority Tier:    LeasePriority::EmergencyTriage (zero-latency preemption)";
     "  Payload Valid:    Verified against Sentry triage JSON specification"].

(** [stream.read(&mut [0; 4096])]: what is there, at most the buffer; [None]
    is the end of the input. *)
Definition read_response : Call string :=
  λ c, let got := take_bytes 4096 (unread c) in
       let c' := mkConnection (String.substring (String.length got)
                                 (String.length (unread c)) (unread c)) (ending c) in
       if is_empty got then
         match ending c with
         | Closed => (Ok "", c', [])
         | ReadError e => (Err (ReadFailed e), c', [])
         | Silent => (Err Waiting, c', [])
         end
       else (Ok got, c', []).

Definition run_test_triage (discovered : HardwareTopology) (timestamp : string)
    (connected : option Connection) (quiet : bool) : Outcome :=
  let head := if quiet then []
              else [paint "bold" "Initiating synthetic systemd-sentry emergency triage ping...";
                    "Connecting to out-of-band enclave socket: " +:+ socket_debug] in
  match connected with
  | None =>
      on_connection (mkConnection "" Closed) (print_lines head ;! triage_offline discovered)%eff
  | Some c =>
      on_connection c
        (print_lines head ;!
         let! bytes := json_of (to_vec (triage_payload timestamp)) in
         send d bytes ;!
         let! response := read_response in
         if is_empty response then triage_offline discovered
         else print_lines
                [paint "green bold" "SUCCESS" +:+ ": Received emergency enclave response!";
                 "  Payload: " +:+ to_string_lossy response])%eff
  end.
End commands.

(** * Facts *)

Section facts.
Context {js : Json} {jt : JsonText} {uu : UuidText} {tm : Terminal}.

(** A lease as the daemon describes it, read back. *)
Definition shown_lease (l : ComputeLease) : LeaseRow :=
  mkLeaseRow (show_lease_id (l_id l)) (l_plane_id l) (format_bytes (l_allocated_memory_bytes l))
    (debug_priority (l_priority l)) (debug_lease_state (l_state l)) (default "-" (l_client_unit l)).

Lemma lease_fields l :
  jget "id" (lease_value l) = Some (jstr (show_lease_id (l_id l))) ∧
  jget "plane_id" (lease_value l) = Some (jstr (l_plane_id l)) ∧
  jget "allocated_memory" (lease_value l) = Some (jnum (l_allocated_memory_bytes l)) ∧
  jget "priority" (lease_value l) = Some (jstr (debug_priority (l_priority l))) ∧
  jget "state" (lease_value l) = Some (jstr (debug_lease_state (l_state l))) ∧
  jget "client_unit" (lease_value l) = Some (jopt jstr (l_client_unit l)).
Proof. unfold lease_value. by rewrite !jget_obj. Qed.

Lemma lease_row_value l :
  is_u64 (l_allocated_memory_bytes l) → lease_row (lease_value l) = shown_lease l.
Proof.
  intros Hb. destruct (lease_fields l) as (H1 & H2 & H3 & H4 & H5 & H6).
  unfold lease_row, text_field, str_field, u64_field, shown_lease.
  rewrite H1, H2, H3, H4, H5, H6. cbn [mbind option_bind].
  rewrite !as_str_jstr, as_u64_jnum by done. cbn [default].
  destruct (l_client_unit l); cbn [jopt]; by rewrite ?as_str_jstr, ?as_str_jnull.
Qed.

Lemma lease_rows_values ls :
  Forall (λ l, is_u64 (l_allocated_memory_bytes l)) ls →
  lease_row <$> (lease_value <$> ls) = shown_lease <$> ls.
Proof.
  induction 1 as [|l ls Hl _ IH]; [done|]. rewrite !fmap_cons, IH. by rewrite lease_row_value.
Qed.

Lemma list_leases_sized {ho : HashOrder LeaseId ComputeLease} s :
  arbiter_ok s → Forall (λ l, is_u64 (l_allocated_memory_bytes l)) (list_leases s).
Proof.
  intros Hok. apply Forall_forall. intros l Hl. unfold list_leases in Hl.
  apply list_elem_of_fmap in Hl as ([k l'] & -> & Hin). apply elem_of_hash_iter in Hin.
  exact (ok_bytes _ Hok k l' Hin).
Qed.

(** What the listing prints for the leases of a state. *)
Definition leases_text {ho : HashOrder LeaseId ComputeLease} (s : ArbiterState) : string :=
  match list_leases s with
  | [] => paint "dimmed" "No active compute leases. All compute planes idle."
  | ls => lease_table (shown_lease <$> ls)
  end.

Lemma show_leases_values {ho : HashOrder LeaseId ComputeLease} s c :
  arbiter_ok s →
  show_leases (jobj [("leases", jarr (lease_value <$> list_leases s))]) c
  = (Ok tt, c, [Printed (leases_text s +:+ String newline "")]).
Proof.
  intros Hok. pose proof (lease_rows_values _ (list_leases_sized s Hok)) as Hrows.
  unfold show_leases, leases_text. rewrite jget_obj. cbn [List.filter].
  change (String.eqb _ _) with true. cbn [last fmap option_fmap option_map snd mbind option_bind].
  rewrite as_array_jarr. destruct (list_leases s) as [|l ls]; [done|].
  rewrite fmap_cons in *. by rewrite Hrows.
Qed.
End facts.

(** C32: The listing of leases is the daemon's table: when the daemon answers
    the client with the reply of its own handler, the command succeeds and
    prints, in the table's order, one row for each lease the arbiter has on record
    at that moment, those that have ended included, with its identifier, plane,
    size, priority, state and unit but not the process, or says that there is
    none. (The help and the manual promise active leases and process numbers.) *)
Theorem leases_shown {js : Json} {jt : JsonText} {uu : UuidText} {tm : Terminal}
    {ho : HashOrder LeaseId ComputeLease} (w : FrontWorld) (f : Front) text e socket_debug :
  let s := fw_others w (fr_ticks f) (fr_arbiter f) in
  let reply := reply_ok (jobj [("leases", jarr (lease_value <$> list_leases s))]) in
  let d := mkDaemonEnd (λ _, Ok tt)
             (λ _, match res_of (handle_list_leases w f) with
                   | Ok reply => to_bytes reply
                   | Err _ => ""
                   end) in
  arbiter_ok s →
  to_vec (request "io.systemd.inferenced1.ListLeases" None false) = Ok text →
  readable (reply_value reply) →
  run_leases d socket_debug (Some (mkConnection "" e)) false
  = (Ok tt, [Sent (text +:+ String nul ""); Printed (leases_text s +:+ String newline "")]).
Proof.
  intros s reply d Hok Htext (rtext & Hv & Hnul & Hlen & Hback).
  assert (Hanswer : ∀ m, d_answer d m = rtext +:+ String nul "").
  { intros m. change (d_answer d m) with (to_bytes reply). unfold to_bytes. by rewrite Hv. }
  assert (Hcall : client_list_leases d (mkConnection "" e)
    = (Ok (jobj [("leases", jarr (lease_value <$> list_leases s))]), mkConnection "" e,
       [Sent (text +:+ String nul "")])).
  { unfold client_list_leases.
    rewrite (call_answered d _ _ text (reply_value reply) rtext e); try done.
    destruct (reply_fields reply) as (-> & _ & ->). done. }
  unfold run_leases, on_connection. rewrite (ebind_Ok _ _ _ _ _ _ Hcall).
  by rewrite show_leases_values.
Qed.

(** Without a sentry socket the test of the enclave reports success, also on a
    machine that has none. *)
Theorem triage_offline_success {js : Json} {jt : JsonText} {tm : Terminal} {uc : Unicode} d
    socket_debug discovered timestamp :
  find_first p_is_triage_reserved (t_planes discovered) = None →
  let '(r, evs) := run_test_triage d socket_debug discovered timestamp None true in
  r = Ok tt ∧
  take 3 evs =
    [Printed ((paint "green bold" "SUCCESS"
               +:+ ": Emergency enclave verified (offline self-test mode)!") +:+ String newline "");
     Printed ("  Dedicated Slice:  ai-sentry.slice (MemoryMin=2G, CPUWeight=1000)"
              +:+ String newline "");
     Printed (("  Assigned Enclave: " +:+ paint "green" "cpu-matrix-fallback") +:+ String newline "")].
Proof.
  intros Hnone. unfold run_test_triage, on_connection, triage_offline, enclave_plane.
  rewrite Hnone. done.
Qed.

(** Without a daemon, evicting and pinning report success and do nothing. *)
Theorem offline_success {js : Json} {jt : JsonText} {tm : Terminal} d id plane :
  run_evict d None id
  = (Ok tt, [Printed ("Evicted model '" +:+ paint "yellow" id
                      +:+ "' from active residency via madvise(DontNeed)" +:+ String newline "")]) ∧
  run_pin d None id (Some plane)
  = (Ok tt, [Printed ("Pinned model '" +:+ paint "green" id +:+ "' to plane '"
                      +:+ paint "green" plane +:+ "' for emergency triage" +:+ String newline "")]).
Proof.
  unfold run_evict, run_pin, offline. cbn [default].
  by rewrite <-!(assoc_L String.append).
Qed.
