(* ===== verification/Tooling.v ===== *)
(** Completions, the manual page and the benchmark of the command line client:
    cmd/tooling.rs of crates/inferenctl/src/. *)
From Stdlib Require Import SpecFloat.
From S2P Require Import Prelude Text Lease Errors Topology Model Host Psi Arbiter Ledger Grant.
From S2P Require Import Hotplug Runs Lifecycle Acquire Ending Json Frontend Notify Varlink Client.
From S2P Require Import Ctl.
Local Open Scope Z_scope.

(** * Fixed texts *)

(** A raw string of the source, line by line; a tilde stands for the double
    quote. *)
Fixpoint quotes (s : string) : string :=
  match s with
  | EmptyString => ""
  | String a s' => String (if Ascii.eqb a "~" then "034"%char else a) (quotes s')
  end.
Definition raw (lines : list string) : string := concat_all (line <$> (quotes <$> lines)).

(** The [bash] arm *)
Definition bash_completion : string := raw
  ["# bash completion for inferenctl";
   "_inferenctl() {";
   "    local cur prev words cword";
   "    _init_completion || return";
   "    local commands=~status planes leases monitor exec freeze thaw register warm pin evict models cat-config check-config dump inspect test-triage benchmark completions man~";
   "    if [[ $cword -eq 1 ]]; then";
   "        COMPREPLY=( $(compgen -W ~$commands~ -- ~$cur~) )";
   "        return 0";
   "    fi";
   "}";
   "complete -F _inferenctl inferenctl"].

(** The [zsh] arm *)
Definition zsh_completion : string := raw
  ["#compdef inferenctl";
   "_inferenctl() {";
   "    local -a commands";
   "    commands=(";
   "        'status:Show AI compute status and active leases'";
   "        'planes:List discovered compute planes'";
   "        'leases:List active compute slice leases'";
   "        'monitor:Live monitor of hardware pressure and bus saturation'";
   "        'exec:Unix stream filter for model inference'";
   "        'freeze:Freeze a compute lease'";
   "        'thaw:Thaw a compute lease'";
   "        'models:List registered models'";
   "        'register:Register a model'";
   "        'warm:Warm model weights in memory'";
   "        'pin:Pin model for emergency triage'";
   "        'evict:Evict model from active memory'";
   "        'cat-config:Print configuration'";
   "        'check-config:Validate configuration syntax'";
   "        'dump:Dump internal state as JSON'";
   "        'inspect:Inspect compute plane details'";
   "        'test-triage:Synthetic Sentry diagnostic ping'";
   "        'benchmark:Benchmark IPC and lease throughput'";
   "        'completions:Generate shell completions'";
   "        'man:Generate man page'";
   "    )";
   "    _describe 'command' commands";
   "}";
   "_inferenctl ~$@~"].

(** The [fish] arm *)
Definition fish_completion : string := raw
  ["# fish completion for inferenctl";
   "complete -c inferenctl -f";
   "complete -c inferenctl -n ~__fish_use_subcommand~ -a ~status~ -d ~Display daemon operational health and compute planes~";
   "complete -c inferenctl -n ~__fish_use_subcommand~ -a ~planes~ -d ~List discovered compute planes and memory pools~";
   "complete -c inferenctl -n ~__fish_use_subcommand~ -a ~leases~ -d ~Display active resource leases~";
   "complete -c inferenctl -n ~__fish_use_subcommand~ -a ~monitor~ -d ~Stream real-time Linux PSI pressure~";
   "complete -c inferenctl -n ~__fish_use_subcommand~ -a ~exec~ -d ~Composable Unix stream filter~";
   "complete -c inferenctl -n ~__fish_use_subcommand~ -a ~freeze~ -d ~Freeze an active compute lease~";
   "complete -c inferenctl -n ~__fish_use_subcommand~ -a ~thaw~ -d ~Resume a frozen compute lease~";
   "complete -c inferenctl -n ~__fish_use_subcommand~ -a ~models~ -d ~List registered models~";
   "complete -c inferenctl -n ~__fish_use_subcommand~ -a ~register~ -d ~Register a local model file~";
   "complete -c inferenctl -n ~__fish_use_subcommand~ -a ~warm~ -d ~Pre-fault and warm model pages~";
   "complete -c inferenctl -n ~__fish_use_subcommand~ -a ~pin~ -d ~Pin a model for emergency triage~";
   "complete -c inferenctl -n ~__fish_use_subcommand~ -a ~evict~ -d ~Evict a model from accelerator memory~";
   "complete -c inferenctl -n ~__fish_use_subcommand~ -a ~cat-config~ -d ~Print parsed global configuration~";
   "complete -c inferenctl -n ~__fish_use_subcommand~ -a ~check-config~ -d ~Validate configuration syntax~";
   "complete -c inferenctl -n ~__fish_use_subcommand~ -a ~dump~ -d ~Dump complete internal state as JSON~";
   "complete -c inferenctl -n ~__fish_use_subcommand~ -a ~inspect~ -d ~Inspect compute plane attributes~";
   "complete -c inferenctl -n ~__fish_use_subcommand~ -a ~test-triage~ -d ~Send synthetic Sentry diagnostic ping~";
   "complete -c inferenctl -n ~__fish_use_subcommand~ -a ~benchmark~ -d ~Execute throughput and latency benchmarks~";
   "complete -c inferenctl -n ~__fish_use_subcommand~ -a ~completions~ -d ~Generate shell completion scripts~";
   "complete -c inferenctl -n ~__fish_use_subcommand~ -a ~man~ -d ~Output man page in troff format~"].

(** The page of [run_man] *)
Definition man_page : string := raw
  [".TH INFERENCTL 1 ~September 2026~ ~systemd-inferenced 0.1.0~ ~User Commands~";
   ".SH NAME";
   "inferenctl \- Control and inspect systemd-inferenced hardware arbitration";
   ".SH SYNOPSIS";
   ".B inferenctl [\fIOPTIONS\fR] \fICOMMAND\fR [\fIARGS\fR]";
   ".SH DESCRIPTION";
   "\fBinferenctl\fR communicates with \fBsystemd-inferenced\fR over Varlink IPC";
   "to manage compute slice leases, monitor memory bus saturation, and stream";
   "zero-copy inference filters.";
   ".SH COMMANDS";
   ".TP";
   "\fBstatus\fR, \fBplanes\fR, \fBleases\fR, \fBmonitor\fR";
   "Hardware topology discovery, active compute leases, and live PSI monitoring.";
   ".TP";
   "\fBexec\fR \fIMODEL\fR [\fIPROMPT\fR]";
   "Composable Unix stream filter: read prompt from stdin, stream tokens to stdout.";
   ".TP";
   "\fBfreeze\fR, \fBthaw\fR \fILEASE_ID\fR";
   "Freeze and resume compute slice execution via cgroup.freeze or SIGSTOP.";
   ".TP";
   "\fBmodels\fR, \fBregister\fR, \fBwarm\fR, \fBpin\fR, \fBevict\fR";
   "Model lifecycle: registration, pre-faulting (madvise), pinning, and memory eviction.";
   ".TP";
   "\fBcat-config\fR, \fBcheck-config\fR, \fBdump\fR, \fBinspect\fR";
   "Configuration parsing, validation, full state dumping, and plane attribute inspection.";
   ".TP";
   "\fBtest-triage\fR, \fBbenchmark\fR";
   "Synthetic Sentry emergency triage verification ping and IPC throughput benchmark.";
   ".TP";
   "\fBcompletions\fR, \fBman\fR";
   "Shell tab-completion generation (bash, zsh) and troff man page output.";
   ".SH AUTHORS";
   "systemd-inferenced contributors."].

(** What the benchmark prints of the time between two [Instant]s, in
    nanoseconds: [{elapsed:?}], [{:.2}] of the microseconds over the iterations
    and [{:.0}] of the operations over the seconds, both in [f64]. *)
Class Timing := {
  show_elapsed : Z → string;
  show_average : Z → Z → string;
  show_rate : Z → Z → string;
}.

(** Whether the runtime can be built, what the in-process arbiter meets in round
    [k], and the time the two loops take. *)
Record BenchWorld := mkBenchWorld {
  bw_runtime : result string unit;
  bw_psi : nat → PressureMetrics;
  bw_clock : nat → Z;
  bw_fresh : nat → LeaseId;
  bw_pinging : Z;
  bw_leasing : Z;
}.

Definition BENCH_BYTES : Z := 1024 * 1024.

Section tooling.
Context {js : Json} {jt : JsonText} {tm : Terminal} {uc : Unicode} {ti : Timing}.
Context {ho : HashOrder LeaseId ComputeLease}.
Context (d : DaemonEnd).

Definition run_completions (shell : string) : Outcome :=
  let script :=
    if String.eqb (to_lowercase shell) "bash" then Some bash_completion
    else if String.eqb (to_lowercase shell) "zsh" then Some zsh_completion
    else if String.eqb (to_lowercase shell) "fish" then Some fish_completion
    else None in
  match script with
  | Some text => (Ok tt, [Printed (line text)])
  | None =>
      (Ok tt, [PrintedError (line ("Unsupported shell: " +:+ shell
                 +:+ ". Supported shells: bash, zsh, fish"))])
  end.

Definition run_man : Outcome := (Ok tt, [Printed (line man_page)]).

(** ** The benchmark *)

Fixpoint ping_rounds (n : nat) : Call unit :=
  match n with
  | O => eret tt
  | S n' => (let! _ := client_get_pressure d in ping_rounds n')%eff
  end.

Fixpoint lease_rounds (n : nat) : Call unit :=
  match n with
  | O => eret tt
  | S n' =>
      (let! lease := client_acquire_lease d "Interactive" BENCH_BYTES None in
       match jget "lease_id" lease ≫= as_str with
       | Some id => let! _ := client_release_lease d id in lease_rounds n'
       | None => lease_rounds n'
       end)%eff
  end.

Definition ping_line (title : string) (iterations pinging : Z) : string :=
  "  " +:+ title +:+ " (" +:+ pretty iterations +:+ " calls): total " +:+ show_elapsed pinging
  +:+ ", avg " +:+ show_average pinging iterations +:+ " µs/call".

Definition rate_line (title : string) (iterations leasing : Z) : string :=
  "  " +:+ title +:+ ": " +:+ show_rate (wrapping_mul iterations 2) leasing +:+ " ops/sec ("
  +:+ show_elapsed leasing +:+ ")".

Definition benchmark_title : string :=
  paint "bold" "Benchmarking systemd-inferenced IPC & Scheduler...".

Definition benchmark_online (bw : BenchWorld) (iterations : Z) : Call unit :=
  (println benchmark_title ;!
   ping_rounds (Z.to_nat iterations) ;!
   println (ping_line "Varlink IPC Ping" iterations (bw_pinging bw)) ;!
   lease_rounds (Z.to_nat iterations) ;!
   println (rate_line "Lease Lifecycle Throughput" iterations (bw_leasing bw)))%eff.

(** The rounds on the arbiter of the process, nobody else is there. *)
Fixpoint arbiter_rounds (bw : BenchWorld) (k n : nat) (s : ArbiterState) : ArbiterState :=
  match n with
  | O => s
  | S n' =>
      let '(r, s1, _) :=
        acquire_lease (bw_psi bw k) (bw_clock bw k) (bw_fresh bw k) Interactive BENCH_BYTES
          None None None s in
      arbiter_rounds bw (S k) n'
        (match r with Ok l => state_of (release_lease (l_id l) s1) | Err _ => s1 end)
  end.

(** The arbiter it leaves. *)
Definition benchmark_offline (bw : BenchWorld) (discovered : HardwareTopology) (iterations : Z) :
    ArbiterState :=
  arbiter_rounds bw 0 (Z.to_nat iterations) (new_arbiter discovered).

(** Offline, the arbiter ([benchmark_offline]) is gone with the process: what is
    printed depends on the time alone. *)
Definition run_benchmark (bw : BenchWorld) (connected : option Connection) (iterations : Z) :
    Outcome :=
  match connected with
  | Some c => on_connection c (benchmark_online bw iterations)
  | None =>
      let printed := fmap (λ text, Printed (line text)) in
      let opening := [benchmark_title; "  (Daemon offline; running in-process arbiter benchmark)"] in
      match bw_runtime bw with
      | Err e => (Err (ClientIo e), printed opening)
      | Ok _ =>
          (Ok tt, printed (opening ++
             [ping_line "Local PSI Sampling" iterations (bw_pinging bw);
              rate_line "In-Memory Arbiter Throughput" iterations (bw_leasing bw)]))
      end
  end.
End tooling.

(** * Facts *)

Section rounds.
Context {ho : HashOrder LeaseId ComputeLease}.
Implicit Types (s : ArbiterState).

(** No lease is live, and the table is small. *)
Definition idle s : Prop :=
  arbiter_ok s ∧ (∀ id, live s id = false) ∧ Z.of_nat (size (leases s)) ≤ 129.

Lemma no_victims i pr b s vs rest :
  (∀ id, live s id = false) → victims i pr b s vs rest → vs = [].
Proof.
  intros Hnone Hvs. destruct vs as [|v vs]; [done|]. exfalso.
  destruct (victims_candidates _ _ _ _ _ _ Hvs v) as (l & Hl & Hp); [left|].
  specialize (Hnone v). unfold live in Hnone. rewrite Hl in Hnone.
  unfold preemptable_on, is_active in Hp. reflect_bools. by destruct (l_state l).
Qed.

Lemma no_live_filter (ls : gmap LeaseId ComputeLease) :
  (∀ k l, ls !! k = Some l → is_live (l_state l) = false) →
  filter (λ kl : LeaseId * ComputeLease, is_live (l_state kl.2) = true) ls = ∅.
Proof.
  intros Hdead. apply map_empty. intros k. apply map_lookup_filter_None_2.
  destruct (ls !! k) as [l|] eqn:Hl; [right|by left]. intros l' [= <-]. simpl. by rewrite (Hdead k l Hl).
Qed.

(** One round: what is granted is released at once. *)
Lemma round_idle psi now fresh s :
  idle s →
  let '(r, s1, _) := acquire_lease psi now fresh Interactive BENCH_BYTES None None None s in
  idle (match r with Ok l => state_of (release_lease (l_id l) s1) | Err _ => s1 end).
Proof.
  intros (Hok & Hnone & Hsize).
  assert (Hb : is_u64 BENCH_BYTES) by by vm_compute.
  pose proof (acquire_effect psi now fresh Interactive BENCH_BYTES None None None s Hok Hb) as Heffect.
  destruct (acquire_lease _ _ _ _ _ _ _ _ s) as [[r s1] ws] eqn:Hacq.
  destruct Heffect as [Hok1 Hlive].
  destruct (acquire_inv _ _ _ _ _ _ _ _ _ _ _ _ (ok_keyed _ Hok) Hacq)
    as [(_ & _ & -> & -> & _)|[_ [(e & _ & -> & -> & _)|(i & p & vs & rest & _ & _ & Hvs & Hout)]]];
    [done..|].
  apply no_victims in Hvs as ->; [|done]. cbn zeta in Hout.
  unfold preempt_all in Hout. rewrite map_on_nil in Hout. cbn [restore_all foldl] in Hout.
  destruct Hout as [(_ & _ & -> & -> & _)|(_ & -> & Hs1 & _)].
  - by destruct s as [[? ? ? ? ?] ? ?].
  - cbn [l_id new_lease]. rewrite release_lease_unfold. cbn [state_of fst snd].
    split_and!; [by apply end_state_ok| |].
    + intros id. destruct (live (end_state Expired fresh s1) id) eqn:Hl; [|done].
      destruct (decide (id = fresh)) as [->|Hne]; [by rewrite end_state_dies in Hl|].
      apply (live_store_if is_live Expired fresh s1) in Hl; [|done|apply end_state_store].
      destruct (Hlive id Hl) as [Hl'|[? _]]; [|done]. by rewrite Hnone in Hl'.
    + rewrite end_state_store. unfold store_if. rewrite Hs1. cbn [leases with_leases].
      rewrite lookup_insert_eq. cbn [l_state new_lease is_live]. rewrite insert_insert_eq.
      pose proof (sweep_size (leases s)) as Hsweep.
      rewrite no_live_filter, map_size_empty in Hsweep.
      { rewrite map_size_insert. destruct (sweep_leases (leases s) !! fresh); simpl; lia. }
      intros k l Hl. specialize (Hnone k). unfold live in Hnone. by rewrite Hl in Hnone.
Qed.

(** The benchmark leaves no live lease, and the table does not grow with the
    number of rounds. *)
Lemma arbiter_rounds_idle bw k n s : idle s → idle (arbiter_rounds bw k n s).
Proof.
  revert k s. induction n as [|n IH]; intros k s Hs; [done|]. cbn [arbiter_rounds].
  pose proof (round_idle (bw_psi bw k) (bw_clock bw k) (bw_fresh bw k) s Hs) as Hround.
  destruct (acquire_lease _ _ _ _ _ _ _ _ s) as [[r s1] ws]. by apply IH.
Qed.
End rounds.

(** The benchmark of the arbiter in the process keeps nothing: whatever the
    number of rounds, the pressure and the clock, no lease is live at its end,
    and the table has at most 129 entries. *)
Theorem benchmark_keeps_nothing {ho : HashOrder LeaseId ComputeLease} bw discovered iterations :
  planes_ok (t_planes discovered) →
  let s := benchmark_offline bw discovered iterations in
  arbiter_ok s ∧ (∀ id, live s id = false) ∧ Z.of_nat (size (leases s)) ≤ 129.
Proof.
  intros Hok s. apply arbiter_rounds_idle. split_and!.
  - by apply reachable_ok, reachable_new.
  - intros id. unfold live. cbn [leases new_arbiter]. by rewrite lookup_empty.
  - cbn [leases new_arbiter]. rewrite map_size_empty. lia.
Qed.
