(* ===== verification/Status.v ===== *)
(** The commands of the command line client that show the machine, the check of
    its configuration, and the dispatch of commands: cmd/system.rs,
    cmd/config.rs, cli.rs and main.rs of crates/inferenctl/src/. *)
From Stdlib Require Import SpecFloat.
From S2P Require Import Prelude Lease Errors Topology Text Model Host Psi Arbiter Json Frontend.
From S2P Require Import Varlink Notify Client Exec Ctl Tooling.
Local Open Scope Z_scope.

(** * serde's view of the data *)

Section serialize.
Context {js : Json}.

(** [derive(Serialize)] of a plane: a device path that is not UTF-8 fails. *)
Definition plane_to_value (p : ComputePlane) : result string Value :=
  match from_utf8 (default "" (p_device_path p)) with
  | None => Err "path contains invalid UTF-8 characters"
  | Some _ =>
      Ok (jobj [("id", jstr (p_id p)); ("name", jstr (p_name p));
                ("kind", jstr (debug_plane_kind (p_kind p)));
                ("device_path", jopt jstr (p_device_path p));
                ("total_memory_bytes", jnum (p_total_memory_bytes p));
                ("available_memory_bytes", jnum (p_available_memory_bytes p));
                ("numa_node", jopt jnum (p_numa_node p));
                ("supported_formats", jarr (jstr <$> p_supported_formats p));
                ("is_triage_reserved", jbool (p_is_triage_reserved p));
                ("is_quarantined", jbool (p_is_quarantined p));
                ("hardware_features", jarr (jstr <$> p_hardware_features p))])
  end.

Fixpoint planes_to_values (ps : list ComputePlane) : result string (list Value) :=
  match ps with
  | [] => Ok []
  | p :: ps' =>
      match plane_to_value p with
      | Err e => Err e
      | Ok v => match planes_to_values ps' with Err e => Err e | Ok vs => Ok (v :: vs) end
      end
  end.

Definition topology_to_value (topo : HardwareTopology) : result string Value :=
  match planes_to_values (t_planes topo) with
  | Err e => Err e
  | Ok vs =>
      Ok (jobj [("planes", jarr vs);
                ("total_system_ram_bytes", jnum (t_total_system_ram_bytes topo));
                ("available_system_ram_bytes", jnum (t_available_system_ram_bytes topo));
                ("cpu_cores_total", jnum (t_cpu_cores_total topo));
                ("numa_nodes", jnum (t_numa_nodes topo))])
  end.

Definition psi_to_value (psi : PressureMetrics) : Value :=
  jobj [("memory_some_avg10", jfloat (memory_some_avg10 psi));
        ("memory_full_avg10", jfloat (memory_full_avg10 psi));
        ("cpu_some_avg10", jfloat (cpu_some_avg10 psi));
        ("io_some_avg10", jfloat (io_some_avg10 psi));
        ("level", jstr (debug_level (level psi)))].
End serialize.

Record PlaneRow := mkPlaneRow {
  prow_id : string;
  prow_kind : string;
  prow_total : string;
  prow_available : string;
  prow_triage : string;
}.

(** The table of planes, and [{:.2}] of a field read with [as_f64], 0.0 when
    there is none. *)
Class PlaneDisplay {js : Json} := {
  plane_table : list PlaneRow → string;
  show_field_2 : option Value → string;
}.

(** What this machine says without the daemon. *)
Record Local := mkLocal {
  lo_topology : HardwareTopology;
  lo_pressure : PressureMetrics;
}.

Section commands.
Context {js : Json} {jt : JsonText} {tm : Terminal} {pd : PlaneDisplay} {dp : Display}.
Context (d : DaemonEnd) (socket_debug socket_lossy : string) (here : Local).

(** * system.rs *)

Definition either_u64 (a b : string) (p : Value) : Z :=
  default 0 ((match jget a p with Some v => Some v | None => jget b p end) ≫= as_u64).

Definition plane_row (p : Value) : PlaneRow :=
  mkPlaneRow (text_field "id" "" p) (text_field "kind" "" p)
    (format_bytes (either_u64 "total_memory" "total_memory_bytes" p))
    (format_bytes (either_u64 "available_memory" "available_memory_bytes" p))
    (if default false (jget "is_triage_reserved" p ≫= as_bool)
     then paint "red bold" "● RESERVED (sentry)" else paint "dimmed" "shared").

Definition print_planes_table (topo : Value) : Call unit :=
  match jget "planes" topo ≫= as_array with
  | Some planes => println (line "" +:+ plane_table (plane_row <$> planes))
  | None => eret tt
  end.

Definition pressure_title : string :=
  line "" +:+ paint "bold underline" "Kernel Pressure Stall Information (PSI):".

Definition print_pressure_info (pressure : Value) : Call unit :=
  print_lines
    [pressure_title;
     "  Memory Stall: " +:+ show_field_2 (jget "memory_some" pressure) +:+ "% | CPU Stall: "
     +:+ show_field_2 (jget "cpu_some" pressure) +:+ "% | IO Stall: "
     +:+ show_field_2 (jget "io_some" pressure) +:+ "%"].

Definition status_title : string :=
  paint "bold" "● systemd-inferenced.service - Heterogeneous AI Compute Fabric".

(** [json!({ .., "topology": topo, .. })] of a value that cannot be serialized
    panics, [to_value(..).unwrap_or_default()] is null. *)
Definition topology_json : Call Value :=
  match topology_to_value (lo_topology here) with
  | Ok v => eret v
  | Err e => ethrow (BadJson e)
  end.
Definition topology_or_null : Value :=
  match topology_to_value (lo_topology here) with Ok v => v | Err _ => jnull end.

Definition status_online (json_out : bool) : Call unit :=
  (let! topo := or_default (client_get_topology d) in
   let! pressure := or_default (client_get_pressure d) in
   let! leases := or_default (client_list_leases d) in
   if json_out then
     print_json (jobj [("daemon", jstr "active (running)"); ("socket", jstr socket_lossy);
                       ("topology", topo); ("pressure", pressure); ("leases", leases)])
   else
     println status_title ;!
     println ("     Status: " +:+ paint "green bold" "active (running via Varlink IPC)") ;!
     print_planes_table topo ;!
     print_pressure_info pressure)%eff.

Definition status_offline (json_out : bool) : Call unit :=
  if json_out then
    (let! topo := topology_json in
     print_json (jobj [("daemon", jstr "inactive (offline)"); ("socket", jstr socket_lossy);
                       ("topology", topo); ("pressure", psi_to_value (lo_pressure here));
                       ("leases", jarr [])]))%eff
  else
    (println status_title ;!
     println ("     Status: " +:+ paint "yellow" "inactive (offline - local hardware discovery)") ;!
     println ("     Socket: " +:+ paint "dimmed" socket_lossy) ;!
     print_planes_table topology_or_null ;!
     println pressure_title ;!
     println ("  Memory: " +:+ show_f32_2 (memory_some_avg10 (lo_pressure here)) +:+ "% | CPU: "
              +:+ show_f32_2 (cpu_some_avg10 (lo_pressure here)) +:+ "% | IO: "
              +:+ show_f32_2 (io_some_avg10 (lo_pressure here)) +:+ "%"))%eff.

Definition alone (m : Call unit) : Outcome := on_connection (mkConnection "" Closed) m.

Definition run_status (connected : option Connection) (json_out : bool) : Outcome :=
  match connected with
  | Some c => on_connection c (status_online json_out)
  | None => alone (status_offline json_out)
  end.

Definition run_planes (connected : option Connection) (json_out : bool) : Outcome :=
  match connected with
  | Some c =>
      on_connection c
        (let! topo := client_get_topology d in
         if json_out then print_json topo else print_planes_table topo)%eff
  | None =>
      if contains socket_lossy "unreachable" then connect_failed socket_debug
      else if json_out then alone (let! topo := topology_json in print_json topo)%eff
      else alone (print_planes_table topology_or_null)
  end.

(** One round of the monitor, on a connection of its own; [psi] is what this
    machine says at that moment. *)
Definition pressure_line (p : Value) : string :=
  "[" +:+ text_field "level" "Normal" p +:+ "] mem_some: "
  +:+ show_field_2 (jget "memory_some" p) +:+ "% | cpu: "
  +:+ show_field_2 (jget "cpu_some" p) +:+ "% | io: "
  +:+ show_field_2 (jget "io_some" p) +:+ "%".
Definition local_pressure_line (psi : PressureMetrics) : string :=
  "[" +:+ debug_level (level psi) +:+ "] mem_some: " +:+ show_f32_2 (memory_some_avg10 psi)
  +:+ "% | mem_full: " +:+ show_f32_2 (memory_full_avg10 psi) +:+ "% | cpu: "
  +:+ show_f32_2 (cpu_some_avg10 psi) +:+ "% | io: " +:+ show_f32_2 (io_some_avg10 psi) +:+ "%".

Definition monitor_round (connected : option Connection) (psi : PressureMetrics) : Outcome :=
  match connected with
  | Some c =>
      on_connection c
        (let! p := try_call (client_get_pressure d) in
         println match p with Some p => pressure_line p | None => local_pressure_line psi end)%eff
  | None => alone (println (local_pressure_line psi))
  end.

(** [rounds] are the connections and the readings of [count] rounds. *)
Fixpoint monitor_rounds (rounds : list (option Connection * PressureMetrics)) : Outcome :=
  match rounds with
  | [] => (Ok tt, [])
  | (connected, psi) :: rounds' =>
      match monitor_round connected psi with
      | (Ok _, evs) => let '(r, evs') := monitor_rounds rounds' in (r, evs ++ evs')
      | (Err e, evs) => (Err e, evs)
      end
  end.
Definition run_monitor (rounds : list (option Connection * PressureMetrics)) : Outcome :=
  let '(r, evs) := monitor_rounds rounds in
  (r, Printed (paint "bold" "Streaming real-time hardware telemetry (Ctrl+C to quit)..."
               +:+ String newline "") :: evs).

(** * config.rs *)

Definition quoted (s : string) : string := String "034" (s +:+ String "034" "").

Definition default_config : list string :=
  ["# Default built-in configuration for systemd-inferenced";
   "[daemon]";
   "gateway_socket = " +:+ quoted "/run/syntrop/gateway.sock";
   "varlink_socket = " +:+ quoted "/run/syntrop/io.syntrop.Inference1";
   "sentry_socket = " +:+ quoted "/run/syntrop/sentry.sock";
   "fd_socket = " +:+ quoted "/run/syntrop/fd.sock"].

(** [path] is the configuration file, [path_debug] its [{:?}]. *)
Definition run_cat_config (fs : Fs) (path path_debug : string) : Outcome :=
  if negb (fs_exists fs path) then alone (print_lines default_config)
  else match fs_read fs path with
       | Some content => (Ok tt, [Printed content])
       | None => (Err (ClientIo ("Failed to read config from " +:+ path_debug)), [])
       end.

(** [sections] is what the toml crate makes of a text: an error, or the debug
    output of the top-level keys when the document is a table. *)
Definition run_check_config (fs : Fs) (sections : string → result string (option string))
    (path path_debug : string) : Outcome :=
  if negb (fs_exists fs path) then
    alone (println (paint "yellow" "WARNING" +:+ ": Configuration file " +:+ path_debug
                    +:+ " not found (using defaults)"))
  else match fs_read fs path with
       | None => (Err (ClientIo path_debug), [])
       | Some content =>
           match sections content with
           | Err e =>
               (Err (ClientIo ("Configuration syntax error in " +:+ path_debug +:+ ": " +:+ e)), [])
           | Ok keys =>
               alone (print_lines
                 ((paint "green bold" "OK" +:+ ": Configuration " +:+ path_debug
                   +:+ " is valid syntax TOML.")
                  :: option_list ((λ k, "  Sections defined: " +:+ k) <$> keys)))
           end
       end.

(** * main.rs *)

(** [Commands] of cli.rs; clap has filled in the defaults. *)
Inductive Commands :=
  | Status
  | Planes
  | Leases
  | Monitor (count : nat)
  | Exec (model : string) (prompt : option string)
  | Freeze (lease_id : string)
  | Thaw (lease_id : string)
  | Models
  | Register (id format : string) (path : option string) (bytes : Z)
  | Warm (id : string)
  | Pin (id : string) (plane plane_arg : option string)
  | Evict (id : string)
  | CatConfig
  | CheckConfig
  | Dump
  | Inspect (plane_id : string)
  | TestTriage
  | Benchmark (iterations : Z)
  | Completions (shell : string)
  | Man.

(** The name clap derives for each. *)
Definition command_name (command : Commands) : string :=
  match command with
  | Status => "status" | Planes => "planes" | Leases => "leases" | Monitor _ => "monitor"
  | Exec _ _ => "exec" | Freeze _ => "freeze" | Thaw _ => "thaw" | Models => "models"
  | Register _ _ _ _ => "register" | Warm _ => "warm" | Pin _ _ _ => "pin" | Evict _ => "evict"
  | CatConfig => "cat-config" | CheckConfig => "check-config" | Dump => "dump"
  | Inspect _ => "inspect" | TestTriage => "test-triage" | Benchmark _ => "benchmark"
  | Completions _ => "completions" | Man => "man"
  end.

(** What a run of the client meets: its sockets, its input and its files. *)
Record Surroundings := mkSurroundings {
  su_daemon : option Connection;
  su_sentry : option Connection;
  su_round : nat → option Connection * PressureMetrics;
  su_stdin : option string;
  su_fs : Fs;
  su_sections : string → result string (option string);
  su_timestamp : string;
  su_config : string;
  su_config_debug : string;
  su_sentry_debug : string;
  su_bench : BenchWorld;
}.

(** The match of [main]. *)
Definition run_command {uc : Unicode} {ti : Timing} (su : Surroundings)
    (json quiet : bool) (command : Commands) : Outcome :=
  let connected := su_daemon su in
  match command with
  | Status => run_status connected json
  | Planes => run_planes connected json
  | Leases => run_leases d socket_debug connected json
  | Monitor count => run_monitor (su_round su <$> seq 0 count)
  | Exec model prompt => run_exec d socket_debug connected model prompt (su_stdin su) quiet
  | Freeze lease_id => run_freeze d socket_debug connected lease_id
  | Thaw lease_id => run_thaw d socket_debug connected lease_id
  | Models => run_models d connected json
  | Register id format path bytes => run_register d connected id format path bytes
  | Warm id => run_warm d connected id
  | Pin id plane plane_arg =>
      run_pin d connected id (match plane with Some p => Some p | None => plane_arg end)
  | Evict id => run_evict d connected id
  | CatConfig => run_cat_config (su_fs su) (su_config su) (su_config_debug su)
  | CheckConfig =>
      run_check_config (su_fs su) (su_sections su) (su_config su) (su_config_debug su)
  | Dump => run_dump d socket_debug connected
  | Inspect plane_id => run_inspect d (lo_topology here) connected plane_id json
  | TestTriage =>
      run_test_triage d (su_sentry_debug su) (lo_topology here) (su_timestamp su)
        (su_sentry su) quiet
  | Benchmark iterations => run_benchmark d (su_bench su) connected iterations
  | Completions shell => run_completions shell
  | Man => run_man
  end.
End commands.

(** * Facts *)

Section facts.
Context {js : Json} {jt : JsonText} {tm : Terminal} {pd : PlaneDisplay}.

(** A plane as the table shows it. *)
Definition shown_plane (p : ComputePlane) : PlaneRow :=
  mkPlaneRow (p_id p) (debug_plane_kind (p_kind p)) (format_bytes (p_total_memory_bytes p))
    (format_bytes (p_available_memory_bytes p))
    (if p_is_triage_reserved p then paint "red bold" "● RESERVED (sentry)"
     else paint "dimmed" "shared").

Definition plane_sized (p : ComputePlane) : Prop :=
  is_u64 (p_total_memory_bytes p) ∧ is_u64 (p_available_memory_bytes p).

(** The fields of both descriptions of a plane. *)
Lemma plane_row_of v p total avail :
  plane_sized p →
  jget "id" v = Some (jstr (p_id p)) → jget "kind" v = Some (jstr (debug_plane_kind (p_kind p))) →
  match jget "total_memory" v with Some x => Some x | None => jget "total_memory_bytes" v end
    = Some total → total = jnum (p_total_memory_bytes p) →
  match jget "available_memory" v with Some x => Some x | None => jget "available_memory_bytes" v end
    = Some avail → avail = jnum (p_available_memory_bytes p) →
  jget "is_triage_reserved" v = Some (jbool (p_is_triage_reserved p)) →
  plane_row v = shown_plane p.
Proof.
  intros [Ht Ha] H1 H2 H3 -> H4 -> H5. unfold plane_row, text_field, str_field, either_u64.
  rewrite H1, H2, H3, H4, H5. cbn [mbind option_bind].
  by rewrite !as_str_jstr, !as_u64_jnum, as_bool_jbool by done.
Qed.

(** The daemon's description of a plane and the one this machine serializes
    itself give the same row. *)
Lemma plane_row_value p : plane_sized p → plane_row (plane_value p) = shown_plane p.
Proof.
  intros Hp. eapply plane_row_of; [done|..]; unfold plane_value; by rewrite ?jget_obj.
Qed.

Lemma plane_row_serialized p v :
  plane_sized p → plane_to_value p = Ok v → plane_row v = shown_plane p.
Proof.
  intros Hp. unfold plane_to_value. destruct (from_utf8 _); [|done]. intros [= <-].
  eapply plane_row_of; [done|..]; by rewrite ?jget_obj.
Qed.

Lemma planes_serialized ps vs :
  Forall plane_sized ps → planes_to_values ps = Ok vs → plane_row <$> vs = shown_plane <$> ps.
Proof.
  intros Hps. revert vs. induction Hps as [|p ps Hp _ IH]; intros vs; cbn [planes_to_values].
  { by intros [= <-]. }
  destruct (plane_to_value p) as [v|e] eqn:Hv; [|done].
  destruct (planes_to_values ps) as [vs'|e]; [|done]. intros [= <-].
  rewrite !fmap_cons, (IH vs') by done. by rewrite (plane_row_serialized p v).
Qed.

(** The table of a list of planes, printed. *)
Definition planes_text (ps : list ComputePlane) : string :=
  (line "" +:+ plane_table (shown_plane <$> ps)) +:+ String newline "".

Lemma plane_rows_values ps :
  Forall plane_sized ps → plane_row <$> (plane_value <$> ps) = shown_plane <$> ps.
Proof.
  induction 1 as [|p ps Hp _ IH]; [done|]. rewrite !fmap_cons, IH. by rewrite plane_row_value.
Qed.

Lemma print_planes_table_values topo vs ps c :
  jget "planes" topo = Some (jarr vs) → plane_row <$> vs = shown_plane <$> ps →
  print_planes_table topo c = (Ok tt, c, [Printed (planes_text ps)]).
Proof.
  intros Hplanes Hrows. unfold print_planes_table. rewrite Hplanes. cbn [mbind option_bind].
  rewrite as_array_jarr, Hrows. done.
Qed.

Lemma topology_planes topo vs :
  planes_to_values (t_planes topo) = Ok vs →
  ∃ v, topology_to_value topo = Ok v ∧ jget "planes" v = Some (jarr vs).
Proof.
  intros Hvs. unfold topology_to_value. rewrite Hvs. eexists. split; [done|]. by rewrite jget_obj.
Qed.
End facts.

(** The reply of the daemon to [GetTopology]. *)
Definition topology_reply {js : Json} (topo : HardwareTopology) : VarlinkReply :=
  reply_ok (jobj
    [("planes", jarr (plane_value <$> t_planes topo));
     ("total_ram", jnum (t_total_system_ram_bytes topo));
     ("available_ram", jnum (t_available_system_ram_bytes topo));
     ("cpu_cores", jnum (t_cpu_cores_total topo))]).

(** The table of planes is the same whether the daemon describes its topology
    or the client discovers it: one row per plane, in order. *)
Theorem planes_shown {js : Json} {jt : JsonText} {tm : Terminal} {pd : PlaneDisplay}
    (w : FrontWorld) (f : Front) text e socket_debug socket_lossy here vs :
  let topo := topology (fw_others w (fr_ticks f) (fr_arbiter f)) in
  let d := mkDaemonEnd (λ _, Ok tt)
             (λ _, match res_of (handle_get_topology w f) with
                   | Ok reply => to_bytes reply
                   | Err _ => ""
                   end) in
  Forall plane_sized (t_planes topo) → lo_topology here = topo →
  planes_to_values (t_planes topo) = Ok vs → contains socket_lossy "unreachable" = false →
  to_vec (request "io.systemd.inferenced1.GetTopology" None false) = Ok text →
  readable (reply_value (topology_reply topo)) →
  run_planes d socket_debug socket_lossy here (Some (mkConnection "" e)) false
  = (Ok tt, [Sent (text +:+ String nul ""); Printed (planes_text (t_planes topo))]) ∧
  run_planes d socket_debug socket_lossy here None false
  = (Ok tt, [Printed (planes_text (t_planes topo))]).
Proof.
  intros topo d Hsized Hhere Hvs Hreach Htext (rtext & Hv & Hnul & Hlen & Hback). split.
  - assert (Hanswer : ∀ m, d_answer d m = rtext +:+ String nul "").
    { intros m. change (d_answer d m) with (to_bytes (topology_reply topo)).
      unfold to_bytes. by rewrite Hv. }
    assert (Hcall : client_get_topology d (mkConnection "" e)
      = (Ok (default (jobj []) (reply_parameters (topology_reply topo))), mkConnection "" e,
         [Sent (text +:+ String nul "")])).
    { unfold client_get_topology.
      rewrite (call_answered d _ _ text (reply_value (topology_reply topo)) rtext e) by done.
      destruct (reply_fields (topology_reply topo)) as (-> & _ & ->). done. }
    unfold run_planes, on_connection. rewrite (ebind_Ok _ _ _ _ _ _ Hcall).
    rewrite (print_planes_table_values _ (plane_value <$> t_planes topo) (t_planes topo)); [done| |].
    + unfold topology_reply, reply_ok. cbn [reply_parameters from_option id]. by rewrite jget_obj.
    + by apply plane_rows_values.
  - destruct (topology_planes topo vs Hvs) as (v & Hval & Hplanes).
    unfold run_planes, alone, on_connection, topology_or_null. rewrite Hreach, Hhere, Hval.
    by rewrite (print_planes_table_values _ vs (t_planes topo)) by (done || by apply planes_serialized).
Qed.

(** * The texts of the tooling name the commands *)

(** One command of each kind. *)
Definition all_commands : list Commands :=
  [Status; Planes; Leases; Monitor 0; Exec "" None; Freeze ""; Thaw ""; Register "" "" None 0;
   Warm ""; Pin "" None None; Evict ""; Models; CatConfig; CheckConfig; Dump; Inspect ""; TestTriage;
   Benchmark 0; Completions ""; Man].

Definition quote : ascii := "034"%char.

(** The words of [commands=".."], the names before the colons of the [commands]
    array, the words after [-a], and the names set in bold in [.SH COMMANDS]. *)
Definition bash_offers : list string :=
  match split_once quote bash_completion with
  | Some (_, rest) => match split_once quote rest with
                      | Some (words, _) => split " " words
                      | None => []
                      end
  | None => []
  end.
Definition zsh_offers : list string :=
  omap (λ l, strip_prefix "        '" l ≫= λ l', fst <$> split_once ":" l') (lines zsh_completion).
Definition fish_offers : list string :=
  omap (λ l, strip_prefix (quotes "complete -c inferenctl -n ~__fish_use_subcommand~ -a ~") l
             ≫= λ l', fst <$> split_once quote l') (lines fish_completion).
Definition in_manual (name : string) : bool := contains man_page ("\fB" +:+ name +:+ "\fR").

Lemma command_names c : command_name c ∈ command_name <$> all_commands.
Proof. destruct c; (apply (bool_decide_unpack _); vm_compute; exact I). Qed.

Lemma offers_exactly (offers : list string) :
  (∀ name, name ∈ offers ↔ name ∈ command_name <$> all_commands) →
  ∀ name, name ∈ offers ↔ ∃ c, command_name c = name.
Proof.
  intros Hsame name. rewrite Hsame, list_elem_of_fmap. split.
  - intros (c & -> & _). by exists c.
  - intros [c <-]. pose proof (command_names c) as Hc. by apply list_elem_of_fmap in Hc.
Qed.

Lemma same_elements (l k : list string) :
  bool_decide (l ⊆ k) && bool_decide (k ⊆ l) = true → ∀ name, name ∈ l ↔ name ∈ k.
Proof. intros H. reflect_bools. intros name. split; auto. Qed.

(** Every shell completes exactly the commands there are, and the manual page
    names each of them. *)
Theorem tooling_names_commands name :
  (name ∈ bash_offers ↔ ∃ c, command_name c = name) ∧
  (name ∈ zsh_offers ↔ ∃ c, command_name c = name) ∧
  (name ∈ fish_offers ↔ ∃ c, command_name c = name) ∧
  ∀ c, in_manual (command_name c) = true.
Proof.
  split_and!; [apply offers_exactly, same_elements; vm_compute; reflexivity..|].
  intros c. destruct c; vm_compute; reflexivity.
Qed.
