(* ===== verification/FrontExamples.v ===== *)
(** Connections of the daemon, run on a concrete machine: a Varlink client, a
    sentry and an HTTP client. *)
From Stdlib Require Import SpecFloat.
From S2P Require Import Prelude Lease Errors Topology Text Model Host Psi Arbiter Runs Peer.
From S2P Require Import Json Lifecycle Frontend Varlink Session Sentry Gateway ArbiterExamples.
Local Open Scope Z_scope.

(** * The surroundings *)

(** A client that knows three messages. *)
Definition toy_text : JsonText (js := plain_json) :=
  {| to_vec _ := Ok "text"; value_from_slice s := Err "not JSON" |}.
Definition acquire_params : Value (Json := plain_json) :=
  JObj [("priority", JStr "EmergencyTriage"); ("memory_bytes", JNum 100); ("unit", JStr "other");
        ("pid", JNum 1)].
Definition toy_requests : RequestText (js := plain_json) :=
  {| from_slice s :=
       if String.eqb s "acquire" then
         Ok (mkVarlinkRequest (js := plain_json) "io.syntrop.Inference1.AcquireLease"
               (Some acquire_params) None None)
       else if String.eqb s "stream" then
         Ok (mkVarlinkRequest (js := plain_json) "io.syntrop.Inference1.StreamInference"
               None None None)
       else if String.eqb s "lookalike" then
         Ok (mkVarlinkRequest (js := plain_json) "io.syntrop.Inference1.StreamInferenceV2"
               None None None)
       else Err "bad" |}.

Definition quiet_world : FrontWorld :=
  mkFrontWorld (λ _ s, s) (λ _, calm) (λ _, 0) (λ n, mkLeaseId (100 + N.of_nat n)) (λ _, Ok tt).
Lemma quiet_others n : gentle (own quiet_world) (fw_others quiet_world n).
Proof. by intros s Hs. Qed.

Definition f0 : Front := mkFront s1 0.
Lemma f0_ok : arbiter_ok (fr_arbiter f0).
Proof. apply reachable_ok, reach1. Qed.
Lemma s1_leases :
  leases s1 = {[ id1 := default (new_lease id1 0 "" 0 Batch None None) (leases s1 !! id1) ]}.
Proof. vm_compute. reflexivity. Qed.
Lemma f0_none id : own quiet_world id → live (fr_arbiter f0) id = false.
Proof.
  intros [n <-]. change (live s1 (mkLeaseId (100 + N.of_nat n)) = false). unfold live.
  rewrite s1_leases, lookup_singleton_ne; [done|]. intros [= Heq]. lia.
Qed.

Lemma f0_tracked : tracked quiet_world [] (fr_arbiter f0).
Proof. split; [apply f0_ok|]. intros id Hid. by rewrite f0_none. Qed.

Definition batch_peer : PeerInfo :=
  mkPeerInfo 4242 1000 1000 "/ai-batch.slice/job-7.service" "ai-batch.slice" false true.

(** * Witnesses *)

(** Two leases are granted, the third message is garbage. *)
Definition client_input : string :=
  "acquire" +:+ String nul ("acquire" +:+ String nul ("stream" +:+ String nul "garbage")).

Lemma session_leaves_no_lease_witness :
  ∃ stop f' evs,
    session (js := plain_json) (jt := toy_text) (rt := toy_requests) (uu := bit_uuid)
      (dp := some_display) (uc := ascii_unicode) (ho := ho0) (hm := hm0)
      quiet_world client_input None (Some batch_peer) f0 = (Ok stop, f', evs) ∧
    stop ≠ OutOfFuel ∧ arbiter_ok (fr_arbiter f') ∧
    ∀ id, own quiet_world id → live (fr_arbiter f') id = false.
Proof. apply session_leaves_no_lease; [apply quiet_others|apply f0_ok|apply f0_none]. Defined.

Example session_run :
  let o := session (js := plain_json) (jt := toy_text) (rt := toy_requests) (uu := bit_uuid)
      (dp := some_display) (uc := ascii_unicode) (ho := ho0) (hm := hm0)
      quiet_world client_input None (Some batch_peer) f0 in
  res_of o = Ok (BadRequest "Invalid Varlink JSON: bad") ∧ length (writes_of (calls_of o)) = 6%nat ∧
  (λ kl, l_state kl.2) <$> map_to_list (leases (fr_arbiter (state_of o))) =
    [Expired; Expired; Active].
Proof. vm_compute. split_and!; reflexivity. Qed.

Definition lookalike : VarlinkRequest (js := plain_json) :=
  mkVarlinkRequest (js := plain_json) "io.syntrop.Inference1.StreamInferenceV2" None None None.

Lemma every_request_answered_witness :
  let out := writes_of (calls_of
    ((let! ra := dispatch (js := plain_json) (jt := toy_text) (uu := bit_uuid)
        (dp := some_display) (uc := ascii_unicode) (ho := ho0) (hm := hm0)
        quiet_world lookalike [] None in
      answer (js := plain_json) (jt := toy_text) quiet_world (method lookalike) ra.1)%eff f0)) in
  out = [].
Proof.
  apply (every_request_answered plain_json toy_text toy_requests bit_uuid some_display ascii_unicode
    ho0 hm0 quiet_world lookalike [] None f0); [|vm_compute; reflexivity..].
  intros v text [= <-]. reflexivity.
Defined.

Lemma peer_confined_witness :
  let o := handle_acquire_lease (js := plain_json) (uu := bit_uuid) (dp := some_display)
    (ho := ho0) quiet_world (Some acquire_params) [] (Some batch_peer) f0 in
  calls_of o = [] ∧
  (∀ k l, leases s1 !! k = Some l → is_live (l_state l) = true → k ≠ mkLeaseId 100 →
     leases (fr_arbiter (state_of o)) !! k = Some l).
Proof.
  destruct (handle_acquire_lease_runs (js := plain_json) (uu := bit_uuid)
    (dp := some_display) (ho := ho0) quiet_world quiet_others (Some acquire_params) []
    (Some batch_peer) f0 f0_tracked) as ([r active'] & f' & evs & Ho & _).
  intros o. unfold o.
  rewrite Ho.
  apply (peer_confined plain_json bit_uuid some_display ho0 quiet_world acquire_params [] batch_peer
    f0 r active' f' evs); [apply f0_ok|exact Ho|reflexivity].
Defined.

(** The claims of the parameters do not count. *)
Example attributed_run :
  let o := handle_acquire_lease (js := plain_json) (uu := bit_uuid) (dp := some_display)
    (ho := ho0) quiet_world (Some acquire_params) [] (Some batch_peer) f0 in
  (λ l, (l_client_unit l, l_client_pid l, l_priority l)) <$>
    leases (fr_arbiter (state_of o)) !! mkLeaseId 100 =
  Some (Some "ai-batch.slice", Some 4242, Batch).
Proof. vm_compute. reflexivity. Qed.

Definition sentry_reads : list (result string string) := [Ok "incident"; Ok "incident"; Err "reset"].

Lemma sentry_leaves_no_lease_witness :
  let s := fr_arbiter (state_of (handle_sentry_connection (js := plain_json) (jt := toy_text)
    (uc := ascii_unicode) (ho := ho0) quiet_world sentry_reads f0)) in
  arbiter_ok s ∧ ∀ id, own quiet_world id → live s id = false.
Proof.
  apply (sentry_leaves_no_lease plain_json toy_text ascii_unicode ho0 quiet_world sentry_reads f0);
    [done|apply quiet_others|apply f0_ok|apply f0_none].
Defined.

Definition chat : GatewayRequest (js := plain_json) :=
  OllamaGenerate (js := plain_json) (Some "Bearer secret") (JObj [("prompt", JStr "hi")]).

Lemma gateway_leaves_no_lease_witness :
  ∃ resp f' evs,
    serve_request (js := plain_json) (jt := toy_text) (uu := bit_uuid) (dp := some_display)
      (ho := ho0) pretty quiet_world (Some "secret") chat f0 = (Ok resp, f', evs) ∧
    (check_auth (authorization_of chat) (Some "secret") = false →
       resp = JsonResponse UNAUTHORIZED (error_body "Unauthorized") ∧ f' = f0 ∧ evs = []) ∧
    arbiter_ok (fr_arbiter f') ∧ ∀ id, own quiet_world id → live (fr_arbiter f') id = false.
Proof.
  apply gateway_leaves_no_lease; [apply quiet_others|done| |apply f0_ok|apply f0_none].
  intros id m Hm. vm_compute in Hm. discriminate Hm.
Defined.
