(* ===== verification/ConcurrentExamples.v ===== *)
(** Connections side by side, on a concrete machine: a Varlink client of a batch
    service and the sentry, whose operations alternate. *)
From Stdlib Require Import SpecFloat.
From S2P Require Import Prelude Lease Errors Topology Text Model Host Psi Arbiter Runs Peer.
From S2P Require Import Json Lifecycle Frontend Varlink Session Sentry Gateway Concurrent.
From S2P Require Import ArbiterExamples FrontExamples.
Local Open Scope Z_scope.

(** Each has identifiers of its own: even and odd. *)
Definition nth_id (i k : nat) : LeaseId := mkLeaseId (100 + 2 * N.of_nat k + N.of_nat i).

Definition step_of (i : nat) (op : arbiter_op) : Step := (Some i, mkTaskStep ho0 hm0 op).
Definition client_grant : Step :=
  step_of 0 (AcquireLease calm 0 (nth_id 0 0) Batch 100 None (Some "ai-batch.slice") (Some 4242)).
Definition sentry_grant : Step :=
  step_of 1 (AcquireLease calm 0 (nth_id 1 0) EmergencyTriage (1024 * 1024 * 1024) None
               (Some "systemd-sentry.service") None).
Definition client_release : Step := step_of 0 (ReleaseLease (nth_id 0 0)).
Definition sentry_release : Step := step_of 1 (ReleaseLease (nth_id 1 0)).

(** The daemon finds another card meanwhile. *)
Definition GiB : Z := 1024 * 1024 * 1024.
Definition server : HardwareTopology :=
  machine [plane "drm-renderD128" DiscreteGpu (4 * GiB) (4 * GiB);
           plane "cpu-host" CpuMatrixExtension (8 * GiB) (6 * GiB)].
Definition larger_server : HardwareTopology :=
  machine [plane "drm-renderD128" DiscreteGpu (4 * GiB) (4 * GiB);
           plane "drm-renderD129" IntegratedUma (2 * GiB) (2 * GiB);
           plane "cpu-host" CpuMatrixExtension (8 * GiB) (6 * GiB)].
Definition new_card : Step := (None, mkTaskStep ho0 hm0 (UpdateTopology larger_server)).

(** What each finds done when it comes back for the lock, at its third tick:
    [to_client] or [to_sentry]. *)
Definition busy_world (to_client to_sentry : list Step) (i : nat) : FrontWorld :=
  mkFrontWorld
    (λ k s, run_schedule (match i, k with
                          | 0%nat, 2%nat => to_client
                          | 1%nat, 2%nat => to_sentry
                          | _, _ => []
                          end).*2 s)
    (λ _, calm) (λ _, 0) (nth_id i) (λ _, Ok tt).

Definition busy_task (i : nat) : Task (js := plain_json) :=
  match i with
  | O => VarlinkTask (js := plain_json) ("acquire" +:+ String nul "") None (Some batch_peer)
  | _ => SentryTask (js := plain_json) [Ok "incident"; Ok ""]
  end.

Notation part_of s0 ws history := (takes_part (js := plain_json) (jt := toy_text) (rt := toy_requests)
  (uu := bit_uuid) (dp := some_display) (uc := ascii_unicode) (ho := ho0) (hm := hm0)
  pretty ws busy_task s0 history).

Section busy.
Context (to_client to_sentry : list Step).
Local Notation ws := (busy_world to_client to_sentry).

Lemma allowed_steps :
  Forall (allowed 2 ws) [client_grant; sentry_grant; client_release; sentry_release; new_card].
Proof.
  repeat apply Forall_cons_2; try apply Forall_nil_2;
    try (split; [simpl; lia|]); simpl; try done; try (split; [by exists 0%nat|by vm_compute]).
  apply (bool_decide_unpack _). vm_compute. exact I.
Qed.

Lemma allowed_history history :
  history ⊆ [client_grant; sentry_grant; client_release; sentry_release; new_card] →
  Forall (allowed 2 ws) history.
Proof.
  intros Hsub. apply Forall_forall. intros st Hst.
  pose proof allowed_steps as Hall. rewrite Forall_forall in Hall. by apply Hall, Hsub.
Qed.

Lemma busy_fresh i j id :
  (i < 2)%nat → (j < 2)%nat → own (ws i) id → own (ws j) id → i = j.
Proof.
  intros Hi Hj [a <-] [b Hb]. unfold busy_world, nth_id in Hb. simpl in Hb. injection Hb. lia.
Qed.

Lemma busy_interleaved i :
  to_client ⊆ [sentry_grant; sentry_release; new_card] →
  to_sentry ⊆ [client_grant; client_release; new_card] →
  (i < 2)%nat → interleaved 2 ws i.
Proof.
  intros Hc Hs Hi k.
  exists (match i, k with 0%nat, 2%nat => to_client | 1%nat, 2%nat => to_sentry | _, _ => [] end).
  split_and!; [| |done]; destruct i as [|[|i]]; try lia; destruct k as [|[|[|k]]];
    try apply Forall_nil_2; try (apply allowed_history; set_solver).
  - apply Forall_forall. intros st Hst%Hc. repeat (apply elem_of_cons in Hst as [->|Hst]; [done|]). set_solver.
  - apply Forall_forall. intros st Hst%Hs. repeat (apply elem_of_cons in Hst as [->|Hst]; [done|]). set_solver.
Qed.
End busy.

(** ** A machine in use: the operations of the two alternate *)

Definition busy_history : list Step := [client_grant; sentry_grant; client_release; sentry_release].
Notation busy := (busy_world [sentry_grant] [client_release]).

Lemma busy_parts i : (i < 2)%nat → part_of s1 busy busy_history i.
Proof.
  intros Hi. destruct i as [|[|i]]; [| |lia].
  - exists [], [client_grant; sentry_grant; client_release], [sentry_release].
    split_and!; [done|by apply Forall_nil|by repeat apply Forall_cons_2|]. by vm_compute.
  - exists [client_grant], [sentry_grant; client_release; sentry_release], [].
    split_and!; [done|by repeat apply Forall_cons_2|by apply Forall_nil|]. by vm_compute.
Qed.

Lemma busy_new i id : (i < 2)%nat → own (busy i) id → leases s1 !! id = None.
Proof.
  intros _ [k <-]. change (leases s1 !! nth_id i k = None).
  rewrite s1_leases, lookup_singleton_ne; [done|]. intros [= Heq]. lia.
Qed.

(** The two come and go; the lease that was there before stays. The emergency,
    which found less than it asked for, gives back more than was taken. *)
Example busy_run :
  let s := run_schedule busy_history.*2 s1 in
  (λ id, l_state <$> leases s !! id) <$> [id1; nth_id 0 0; nth_id 1 0] =
    [Some Active; Some Expired; Some Expired] ∧
  p_available_memory_bytes <$> planes s1 = [400; 450] ∧
  p_available_memory_bytes <$> planes s = [400; 600].
Proof. vm_compute. split_and!; reflexivity. Qed.

Lemma connections_coexist_witness :
  (∀ before after, busy_history = before ++ after → reachable (run_schedule before.*2 s1)) ∧
  (∀ id, live (run_schedule busy_history.*2 s1) id = true → live s1 id = true) ∧
  ∀ i f, (i < 2)%nat → models_sized (fr_arbiter f) →
    ∃ ts, makes (busy i) f ts
        (after_task (js := plain_json) (jt := toy_text) (rt := toy_requests) (uu := bit_uuid)
           (dp := some_display) (uc := ascii_unicode) (ho := ho0) (hm := hm0)
           pretty (busy i) (busy_task i) f) ∧
      Forall (λ t, made (own (busy i)) (ts_op t)) ts.
Proof.
  apply (connections_coexist plain_json toy_text toy_requests bit_uuid some_display ascii_unicode
    ho0 hm0 pretty 2 busy busy_task s1 busy_history).
  - done.
  - apply busy_fresh.
  - intros i Hi. split; [apply busy_interleaved; [set_solver..|done]|by apply busy_parts].
  - apply allowed_history. set_solver.
  - apply (bool_decide_unpack _). vm_compute. exact I.
  - apply reach1.
  - intros id m Hm. vm_compute in Hm. discriminate Hm.
  - apply busy_new.
Defined.

(** ** A machine with room for both, that grows in between *)

Definition roomy_history : list Step :=
  [client_grant; sentry_grant; new_card; client_release; sentry_release].
Notation roomy := (busy_world [sentry_grant; new_card] [new_card; client_release]).

Lemma server_ok : planes_ok (t_planes server).
Proof. apply (bool_decide_unpack _). vm_compute. exact I. Qed.

Lemma roomy_parts i : (i < 2)%nat → part_of (new_arbiter server) roomy roomy_history i.
Proof.
  intros Hi. destruct i as [|[|i]]; [| |lia].
  - exists [], [client_grant; sentry_grant; new_card; client_release], [sentry_release].
    split_and!; [done|by apply Forall_nil|by repeat apply Forall_cons_2|]. by vm_compute.
  - exists [client_grant], [sentry_grant; new_card; client_release; sentry_release], [].
    split_and!; [done|by repeat apply Forall_cons_2|by apply Forall_nil|]. by vm_compute.
Qed.

(** In the middle both hold memory. *)
Example roomy_run :
  p_available_memory_bytes <$> planes (run_schedule (take 3 roomy_history).*2 (new_arbiter server)) =
    [4 * GiB; 2 * GiB; 6 * GiB - 100 - GiB].
Proof. vm_compute. reflexivity. Qed.

Lemma memory_comes_back_witness :
  planes (run_schedule roomy_history.*2 (new_arbiter server)) = t_planes larger_server.
Proof.
  apply (memory_comes_back plain_json toy_text toy_requests bit_uuid some_display ascii_unicode
    ho0 hm0 pretty 2 roomy busy_task server roomy_history).
  - done.
  - apply busy_fresh.
  - intros i Hi. split; [apply busy_interleaved; [set_solver..|done]|by apply roomy_parts].
  - apply allowed_history. set_solver.
  - apply (bool_decide_unpack _). vm_compute. exact I.
  - apply server_ok.
  - vm_compute. reflexivity.
Defined.
