(* ===== verification/ClientExamples.v ===== *)
(** The sleep inhibitor, and the command line client against the daemon's
    handlers, run on a concrete machine. *)
From S2P Require Import Prelude Lease Errors Topology Text Model Host Psi Arbiter Ledger Runs Json.
From S2P Require Import Lifecycle Inhibit Frontend Varlink Session Client Exec Ctl ArbiterExamples.
From S2P Require Import FrontExamples.
Local Open Scope Z_scope.

(** * The inhibitor *)

Lemma inhibitor_follows_leases_witness :
  ∃ i evs,
    monitor iw0 0 (active_count (ho := ho0) <$> [s1; s1])
      (mkInhibitor (fresh "/run/l" false None) 0) = (Ok tt, i, evs) ∧
    active_leases (manager i)
    = Z.of_nat (default 0%nat (last (active_count (ho := ho0) <$> [s1; s1]))) ∧
    is_inhibited (manager i)
    = (0 <? default 0%nat (last (active_count (ho := ho0) <$> [s1; s1])))%nat.
Proof.
  destruct (inhibitor_follows_leases (ho := ho0) iw0 "/run/l" false None [s1; s1])
    as (i & evs & Heq & Hc & _ & _ & _ & Hworks).
  { repeat constructor; vm_compute; done. }
  exists i, evs. split; [exact Heq|]. split; [exact Hc|]. apply Hworks. by intros n.
Defined.

(** * A wire that knows a few messages *)

Definition end_token : string := "'. Execution dispatched via systemd-inferenced.".
Definition frame (token : string) : Value (Json := plain_json) :=
  reply_value (js := plain_json)
    (reply_streaming (js := plain_json) (JObj [("chunk", JStr token)])
       (negb (String.eqb token end_token))).

Definition stream_wire : JsonText (js := plain_json) :=
  {| to_vec v :=
       Ok match (jget (Json := plain_json) "parameters" v ≫= jget (Json := plain_json) "chunk")
                ≫= as_str (Json := plain_json) with
          | Some chunk => String "x" chunk
          | None => "request"
          end;
     value_from_slice s :=
       match strip_prefix "x" s with Some chunk => Ok (frame chunk) | None => Err "not JSON" end |}.

Definition stream_params : Value (Json := plain_json) := JObj [("prompt", JStr "hi")].

Lemma exec_prints_stream_witness :
  run_exec (js := plain_json) (jt := stream_wire)
    (mkDaemonEnd (λ _, Ok tt)
       (λ _, concat_all (writes_of (calls_of
          (handle_stream_inference (js := plain_json) (jt := stream_wire) quiet_world
             (Some stream_params) f0)))))
    "socket" (Some (mkConnection "" Silent)) "llama" (Some "hi") None true
  = (Ok tt, Sent ("request" +:+ String nul "")
            :: (Printed <$> stream_tokens "hi") ++ [end_line]) ∧
  stream_call (js := plain_json) (jt := stream_wire)
    (mkDaemonEnd (λ _, Ok tt)
       (λ _, concat_all (writes_of (calls_of
          (handle_stream_inference (js := plain_json) (jt := stream_wire) quiet_world
             (Some stream_params) f0)))))
    "io.systemd.inferenced1.StreamInference" (Some (exec_params (js := plain_json) "llama" "hi"))
    (print_chunk (js := plain_json)) (mkConnection "" Silent)
  = (Ok tt, mkConnection "" Silent,
     Sent ("request" +:+ String nul "") :: (Printed <$> stream_tokens "hi")).
Proof.
  apply (exec_prints_stream (js := plain_json) (jt := stream_wire) (ho := ho0) quiet_world f0
           stream_params "llama" (Some "hi") None true "request" Silent "socket");
    [reflexivity|reflexivity|].
  repeat constructor; eexists; (split; [reflexivity|]); split_and!; reflexivity.
Defined.

(** A daemon that accepts the request and says nothing more, or nothing useful. *)
Definition silent_daemon : DaemonEnd := mkDaemonEnd (λ _, Ok tt) (λ _, "").
Definition babbling_daemon : DaemonEnd := mkDaemonEnd (λ _, Ok tt) (λ _, "garbage").

Lemma stream_call_terminates_witness :
  bystander (js := plain_json) print_chunk ∧
  ∃ r c' evs,
    stream_call (js := plain_json) (jt := stream_wire) babbling_daemon
      "m" None (print_chunk (js := plain_json)) (mkConnection "" Closed) = (r, c', evs) ∧
    r ≠ Err OutOfFuel ∧ r ≠ Err Waiting.
Proof.
  pose proof (print_chunk_bystander (js := plain_json)) as Hby. split; [exact Hby|].
  destruct (stream_call_terminates (js := plain_json) (jt := stream_wire)
    babbling_daemon "m" None (print_chunk (js := plain_json))
    (mkConnection "" Closed) Hby) as [(r & c' & evs & Hcall & Hfuel & Hwait) _].
  exists r, c', evs. split; [exact Hcall|]. split; [exact Hfuel|]. intros Hr.
  destruct (proj1 Hwait Hr) as (text & _ & _ & Hsilent & _). discriminate Hsilent.
Defined.

Example silence_waits :
  res_of (stream_call (js := plain_json) (jt := stream_wire) silent_daemon
    "m" None (print_chunk (js := plain_json)) (mkConnection "" Silent)) = Err Waiting.
Proof. reflexivity. Qed.

(** * The listing of leases *)

Definition plain_terminal : Terminal (js := plain_json) :=
  {| paint _ s := s; model_table rows := "models";
     lease_table rows := String.concat "|" (lrow_plane <$> rows);
     to_string_pretty _ := Ok "json" |}.

Definition leases_reply : Value (Json := plain_json) :=
  reply_value (js := plain_json)
    (reply_ok (js := plain_json)
       (JObj [("leases",
          JArr (lease_value (js := plain_json) (uu := bit_uuid) <$> list_leases (ho := ho0) s1))])).
Definition leases_wire : JsonText (js := plain_json) :=
  {| to_vec v :=
       Ok match jget (Json := plain_json) "method" v with Some _ => "request" | None => "reply" end;
     value_from_slice s := if String.eqb s "reply" then Ok leases_reply else Err "not JSON" |}.

Lemma leases_shown_witness :
  run_leases (js := plain_json) (jt := leases_wire) (tm := plain_terminal)
    (mkDaemonEnd (λ _, Ok tt)
       (λ _, match res_of (handle_list_leases (js := plain_json) (uu := bit_uuid) (ho := ho0)
                             quiet_world f0) with
             | Ok reply => to_bytes (js := plain_json) (jt := leases_wire) reply
             | Err _ => ""
             end))
    "socket" (Some (mkConnection "" Closed)) false
  = (Ok tt, [Sent ("request" +:+ String nul "");
             Printed (leases_text (js := plain_json) (uu := bit_uuid) (tm := plain_terminal)
                        (ho := ho0) s1 +:+ String newline "")]).
Proof.
  apply (leases_shown (js := plain_json) (jt := leases_wire) (uu := bit_uuid)
           (tm := plain_terminal) (ho := ho0) quiet_world f0 "request" Closed "socket").
  - apply f0_ok.
  - reflexivity.
  - exists "reply". split_and!; reflexivity.
Defined.
