(* ===== verification/EndToEndExamples.v ===== *)
(** A client and the daemon talking over a concrete wire. *)
From Stdlib Require Import SpecFloat.
From S2P Require Import Prelude Lease Errors Topology Text Model Host Psi Arbiter Ledger Runs Peer.
From S2P Require Import Json Lifecycle Frontend Varlink Session Client Exec EndToEnd.
From S2P Require Import ArbiterExamples FrontExamples.
Local Open Scope Z_scope.

(** * A text for JSON values

    Self-delimiting, without NULs, and decoded by recursion on fuel: a wire on
    which the messages of the runs below read back as they were written. *)

Fixpoint unary (n : nat) : string :=
  match n with O => ":" | S n => String "1" (unary n) end.
Definition show_text (s : string) : string := unary (String.length s) +:+ s.
Definition show_int (n : Z) : string :=
  match n with Z0 => "z" | Zpos p => "p" +:+ bits p | Zneg p => "m" +:+ bits p end.

Fixpoint show_value (v : json_value) : string :=
  match v with
  | JNull => "n"
  | JBool true => "t"
  | JBool false => "f"
  | JStr s => "s" +:+ show_text s
  | JNum n => "i" +:+ show_int n
  | JFloat _ => "n"
  | JArr vs => "[" +:+ concat_all (show_value <$> vs) +:+ "]"
  | JObj kvs => "{" +:+ concat_all ((λ kv, "," +:+ show_text kv.1 +:+ show_value kv.2) <$> kvs) +:+ "}"
  end.

Fixpoint read_unary (s : string) : option (nat * string) :=
  match s with
  | String ":" r => Some (O, r)
  | String "1" r => '(n, r) ← read_unary r; Some (S n, r)
  | _ => None
  end.
Definition read_text (s : string) : option (string * string) :=
  '(n, r) ← read_unary s; Some (String.substring 0 n r, String.substring n (String.length r) r).
Fixpoint read_bits (s : string) : option (positive * string) :=
  match s with
  | String "h" r => Some (xH, r)
  | String "0" r => '(p, r) ← read_bits r; Some (xO p, r)
  | String "1" r => '(p, r) ← read_bits r; Some (xI p, r)
  | _ => None
  end.
Definition read_int (s : string) : option (Z * string) :=
  match s with
  | String "z" r => Some (0, r)
  | String "p" r => '(p, r) ← read_bits r; Some (Zpos p, r)
  | String "m" r => '(p, r) ← read_bits r; Some (Zneg p, r)
  | _ => None
  end.

Fixpoint read_value (fuel : nat) (s : string) : option (json_value * string) :=
  match fuel with
  | O => None
  | S fuel =>
      match s with
      | String "n" r => Some (JNull, r)
      | String "t" r => Some (JBool true, r)
      | String "f" r => Some (JBool false, r)
      | String "s" r => '(t, r) ← read_text r; Some (JStr t, r)
      | String "i" r => '(n, r) ← read_int r; Some (JNum n, r)
      | String "[" r => '(vs, r) ← read_items fuel r; Some (JArr vs, r)
      | String "{" r => '(kvs, r) ← read_fields fuel r; Some (JObj kvs, r)
      | _ => None
      end
  end
with read_items (fuel : nat) (s : string) : option (list json_value * string) :=
  match fuel with
  | O => None
  | S fuel =>
      match s with
      | String "]" r => Some ([], r)
      | _ => '(v, r) ← read_value fuel s; '(vs, r) ← read_items fuel r; Some (v :: vs, r)
      end
  end
with read_fields (fuel : nat) (s : string) : option (list (string * json_value) * string) :=
  match fuel with
  | O => None
  | S fuel =>
      match s with
      | String "}" r => Some ([], r)
      | String "," r =>
          '(k, r) ← read_text r; '(v, r) ← read_value fuel r;
          '(kvs, r) ← read_fields fuel r; Some ((k, v) :: kvs, r)
      | _ => None
      end
  end.

Definition read_json (s : string) : result string json_value :=
  match read_value (S (String.length s)) s with
  | Some (v, "") => Ok v
  | _ => Err "not a value"
  end.

Definition wire : JsonText (js := plain_json) :=
  Build_JsonText plain_json (λ v, Ok (show_value v)) read_json.

(** The fields of a request; all but the method may be missing. *)
Definition read_request (s : string) : result string (VarlinkRequest (js := plain_json)) :=
  match read_json s with
  | Err e => Err e
  | Ok v =>
      match jget (Json := plain_json) "method" v ≫= as_str (Json := plain_json) with
      | Some m => Ok (mkVarlinkRequest (js := plain_json) m (jget (Json := plain_json) "parameters" v)
                        (jget (Json := plain_json) "more" v ≫= as_bool (Json := plain_json))
                        (jget (Json := plain_json) "oneway" v ≫= as_bool (Json := plain_json)))
      | None => Err "missing field `method`"
      end
  end.
Definition wire_requests : RequestText (js := plain_json) := Build_RequestText plain_json read_request.

#[local] Existing Instances plain_json wire wire_requests bit_uuid some_display ascii_unicode ho0 hm0.

(** * A conversation *)

(** The interface is asked for, a lease taken, listed and given back twice, and
    an unknown method called. *)
Definition d0 : Service := mkService [] f0.
Definition lease_101 : string := show_lease_id (mkLeaseId 101).
Definition talk : list ClientCall :=
  [("org.varlink.service.GetInfo", None);
   acquire_call "Interactive" 10 None;
   ("io.systemd.inferenced1.ListLeases", None);
   release_call lease_101;
   release_call "nonsense";
   ("io.systemd.inferenced1.Nonsense", None)].

(** A request or a reply survives the wire when its value does. *)
Definition survives (v : json_value) : bool :=
  let text := show_value v in
  lacks nul text && (Z.of_nat (String.length text) <? MAX_MESSAGE).

Lemma survives_text v :
  survives v = true → lacks nul (show_value v) = true ∧
    Z.of_nat (String.length (show_value v)) < MAX_MESSAGE.
Proof. unfold survives. by intros [? ?%Z.ltb_lt]%andb_true_iff. Qed.

Lemma sendable_wire (c : ClientCall) :
  survives (request c.1 c.2 false) = true →
  read_json (show_value (request c.1 c.2 false)) = Ok (request c.1 c.2 false) →
  sendable c.
Proof.
  intros [? ?]%survives_text Hback. exists (show_value (request c.1 c.2 false)).
  split_and!; [done|done|done|]. change (from_slice ?t) with (read_request t).
  unfold read_request. rewrite Hback. reflexivity.
Qed.

Lemma readable_wire (v : json_value) :
  survives v = true → read_json (show_value v) = Ok v → readable v.
Proof. intros [? ?]%survives_text Hback. by exists (show_value v). Qed.

Ltac on_the_wire :=
  lazymatch goal with
  | |- sendable _ => apply sendable_wire
  | |- readable _ => apply readable_wire
  end; vm_compute; reflexivity.
Ltac all_on_the_wire :=
  repeat lazymatch goal with
  | |- Forall _ (_ :: _) => apply Forall_cons_2; [on_the_wire|]
  | |- Forall _ [] => apply Forall_nil_2
  end.

Example talk_run :
  (match converse quiet_world (Some batch_peer) talk Closed d0 with
   | (rs, d) => (is_ok <$> rs, held d, fr_ticks (front d))
   end) = ([true; true; true; true; false; false], [], 9%nat).
Proof. vm_compute. reflexivity. Qed.

Lemma calls_answered_in_turn_witness :
  let '(replies, d') := handled_all quiet_world (Some batch_peer) talk d0 in
  converse quiet_world (Some batch_peer) talk Closed d0 = (seen <$> replies, d') ∧
  ∃ evs, served quiet_world (Some batch_peer) (concat_all (wire_of <$> talk)) d0
         = (Ok (Disconnected, held d'), front d', evs) ∧
    writes_of evs = to_bytes <$> replies.
Proof.
  pose proof (calls_answered_in_turn plain_json wire wire_requests bit_uuid some_display
    ascii_unicode ho0 hm0 quiet_world (Some batch_peer) talk Closed d0) as H.
  destruct (handled_all quiet_world (Some batch_peer) talk d0) as [replies d'] eqn:Hall.
  apply H; [done| | |].
  - unfold talk. all_on_the_wire.
  - by repeat constructor.
  - replace replies with (handled_all quiet_world (Some batch_peer) talk d0).1 by by rewrite Hall.
    cut (Forall readable (reply_value <$> (handled_all quiet_world (Some batch_peer) talk d0).1));
      [intros Hrs; rewrite Forall_fmap in Hrs; exact Hrs|].
    let vs := eval vm_compute in
      (reply_value <$> (handled_all quiet_world (Some batch_peer) talk d0).1 : list json_value) in
    replace (reply_value <$> (handled_all quiet_world (Some batch_peer) talk d0).1) with vs
      by (vm_compute; reflexivity).
    all_on_the_wire.
Defined.

(** * A lease over the wire *)

Lemma remote_lease_roundtrip_witness :
  ∃ v evs1 evs2,
    client_acquire_lease (daemon quiet_world (Some batch_peer) d0) "Interactive" 10 None
      (idle Closed) = (Ok v, idle Closed, evs1) ∧
    str_field "lease_id" v = Some (show_lease_id (mkLeaseId 100)) ∧
    let d1 := service_after quiet_world (Some batch_peer) (sent_by evs1) d0 in
    held d1 = [mkLeaseId 100] ∧
    client_release_lease (daemon quiet_world (Some batch_peer) d1) (show_lease_id (mkLeaseId 100))
      (idle Closed) = (Ok (jobj []), idle Closed, evs2) ∧
    let d2 := service_after quiet_world (Some batch_peer) (sent_by evs2) d1 in
    planes (fr_arbiter (front d2)) = planes s1 ∧
    live (fr_arbiter (front d2)) (mkLeaseId 100) = false.
Proof.
  destruct (local_acquire quiet_world (Some batch_peer) "Interactive" 10 None d0)
    as [[r s'] ws] eqn:Hacq.
  destruct r as [l|err]; [|by vm_compute in Hacq].
  assert (Hl : Some l = result_ok (res_of (local_acquire quiet_world (Some batch_peer)
                          "Interactive" 10 None d0))) by by rewrite Hacq.
  destruct (remote_lease_roundtrip plain_json wire wire_requests bit_uuid some_display ascii_unicode
    ho0 hm0 quiet_world (Some batch_peer) "Interactive" 10 None Closed d0 l s' ws)
    as (v & evs1 & evs2 & H1 & H2 & _ & _ & H3).
  - by intros n.
  - by intros n s.
  - apply f0_ok.
  - by vm_compute.
  - by vm_compute.
  - apply not_elem_of_nil.
  - exact Hacq.
  - vm_compute in Hl. injection Hl as ->. vm_compute. repeat constructor; done.
  - on_the_wire.
  - vm_compute in Hl. injection Hl as ->. on_the_wire.
  - on_the_wire.
  - on_the_wire.
  - destruct H3 as (_ & _ & _ & Hheld & Hrel & Hplanes & _ & Hlive). exists v, evs1, evs2.
    exact (conj H1 (conj H2 (conj Hheld (conj Hrel (conj Hplanes Hlive))))).
Defined.
