(* ===== verification/StreamTests.v ===== *)
(** The tests that talk over a socket with a server of their own, in
    qa/integration/ and qa/edge/. Client and server exchange JSON texts, framed
    by a NUL byte or unframed, over the concrete wire of EndToEndExamples.v; the
    arbiter behind the server is the one on the bench. *)
From Stdlib Require Import SpecFloat.
From S2P Require Import Prelude Lease Errors Topology Text Model Host Psi Arbiter Freezer Json.
From S2P Require Import Discovery FdLease Madvise Session EndToEndExamples Bench.
Local Open Scope Z_scope.
Local Open Scope eff_scope.
#[local] Existing Instances plain_json wire bit_uuid.

(** * Messages *)

(** [v["key"]]: null where there is no such field. *)
Definition field (key : string) (v : Value) : Value := default jnull (jget key v).
Definition str_field (key : string) (v : Value) : Test string := unwrap_some (as_str (field key v)).
Definition assert_str (v : Value) (s : string) : Test unit := assert_eq (as_str v) (Some s).

(** [&s[..s.len() - 1]]: the last byte is dropped, whatever it is. *)
Definition drop_last (s : string) : string := String.substring 0 (String.length s - 1) s.

(** [to_vec(&v).unwrap()] with a NUL pushed; and [read_until(0, ..)] with what
    is before its last byte decoded. *)
Definition frame (v : Value) : Test string :=
  let! text := unwrap (to_vec v) in eret (text +:+ String nul "").
Definition unframe (input : string) : Test (Value * string) :=
  let '(line, rest, _) := read_until MAX_MESSAGE input in
  let! v := unwrap (value_from_slice (drop_last line)) in eret (v, rest).

(** One message to a server that answers with one message. *)
Definition exchange (server : Value → Test Value) (req : Value) : Test Value :=
  let! sent := frame req in
  let! (seen, _) := unframe sent in
  let! reply := server seen in
  let! answer := frame reply in
  let! (got, _) := unframe answer in
  eret got.

(** * qa/integration/scenario_varlink_mgmt.rs *)

Definition mgmt_server (req : Value) : Test Value :=
  let! method := str_field "method" req in
  if String.eqb method "org.varlink.service.GetInfo" then
    eret (jobj [("parameters", jobj
      [("vendor", jstr "systemd-inferenced"); ("product", jstr "systemd-inferenced");
       ("version", jstr "0.1.0"); ("url", jstr "https://github.com/syntropd/inferenced");
       ("interfaces", jarr [jstr "org.varlink.service"; jstr "io.systemd.inferenced1"])])])
  else if String.eqb method "io.systemd.inferenced1.GetTopology" then
    let! t := look get_topology in
    let! p := unwrap_some (t_planes t !! 0%nat) in
    eret (jobj [("parameters", jobj
      [("planes", jarr [jobj
         [("id", jstr (p_id p)); ("name", jstr (p_name p));
          ("total_memory", jnum (p_total_memory_bytes p));
          ("available_memory", jnum (p_available_memory_bytes p))]])])])
  else if String.eqb method "io.systemd.inferenced1.AcquireLease" then
    let! mem := unwrap_some (as_u64 (field "memory_bytes" (field "parameters" req))) in
    let! l := ok (acquire Interactive mem None None None) in
    eret (jobj [("parameters", jobj
      [("lease_id", jstr (show_lease_id (l_id l))); ("plane_id", jstr (l_plane_id l))])])
  else if String.eqb method "io.systemd.inferenced1.ReleaseLease" then
    let! id_str := str_field "lease_id" (field "parameters" req) in
    let! uid := unwrap_some (parse_uuid id_str) in
    ok (release (mkLeaseId uid)) ;!
    eret (jobj [("parameters", jobj [])])
  else eret (jobj [("error", jstr "org.varlink.service.MethodNotFound")]).

Definition mgmt_call (method : string) (params : Value) : Test Value :=
  exchange mgmt_server (jobj [("method", jstr method); ("parameters", params)]).

Definition test_scenario_varlink_service_introspection_and_management : Test unit :=
  start (topology_of
    [{| p_id := "mgmt-plane-0"; p_name := "Enterprise NPU Accelerator"; p_kind := NpuAccelerator;
        p_device_path := None; p_total_memory_bytes := 8 * GiB;
        p_available_memory_bytes := 8 * GiB; p_numa_node := None;
        p_supported_formats := ["GGUF"]; p_is_triage_reserved := false;
        p_is_quarantined := false; p_hardware_features := ["Hailo-8"] |}]) ;!
  let! info := mgmt_call "org.varlink.service.GetInfo" (jobj []) in
  assert_str (field "vendor" (field "parameters" info)) "systemd-inferenced" ;!
  let! interfaces := unwrap_some (as_array (field "interfaces" (field "parameters" info))) in
  assert (existsb (λ v, bool_decide (as_str v = Some "io.systemd.inferenced1")) interfaces) ;!
  let! topo_resp := mgmt_call "io.systemd.inferenced1.GetTopology" (jobj []) in
  let! planes := unwrap_some (as_array (field "planes" (field "parameters" topo_resp))) in
  let! plane := unwrap_some (planes !! 0%nat) in
  assert_str (field "id" plane) "mgmt-plane-0" ;!
  let! lease_resp :=
    mgmt_call "io.systemd.inferenced1.AcquireLease" (jobj [("memory_bytes", jnum GiB)]) in
  let! lease_id := str_field "lease_id" (field "parameters" lease_resp) in
  let! release_resp :=
    mgmt_call "io.systemd.inferenced1.ReleaseLease" (jobj [("lease_id", jstr lease_id)]) in
  assert (bool_decide (as_str (field "error" release_resp) = None)).

(** * Files *)

Definition whole_writes : MemfdKernel :=
  mkMemfdKernel (λ _, None) (λ _, None) (λ _ rest, Ok (String.length rest)) None None.

(** A sealed file made, sent with a header, and received into a buffer: the
    header as received, and the content of the received file. [fd] is the number
    the receiver gets; behind it is the file that was sent. *)
Definition pass_file (name weights header : string) (buf_len : nat) (fd : Z) :
    Test (string * string) :=
  let! memfd := unwrap (create_sealed_memfd whole_writes name
                          (Z.of_nat (String.length weights)) (Some weights)) in
  unwrap (send_fd_over_unix true (Ok (String.length header))) ;!
  let! (bytes, maybe_fd) := unwrap (recv_fd_from_unix (Ok (mkReceived header [fd])) buf_len).1 in
  let! recv_fd := unwrap_some maybe_fd in
  assert_eq recv_fd fd ;!
  eret (bytes, m_written memfd).

(** [vec![c; n]] *)
Fixpoint filled (c : ascii) (n : nat) : string :=
  match n with O => "" | S n' => String c (filled c n') end.

(** * Streams of tokens *)

(** The server writes one message per token, all but the last marked to be
    continued. *)
Definition chunk_reply (tokens : list string) (i : nat) (token : string) : Value :=
  jobj [("parameters", jobj [("chunk", jstr token)]);
        ("continues", jbool (i <? length tokens - 1)%nat)].
Definition send_chunks (tokens : list string) : Test string :=
  let! frames := each (imap pair tokens) (λ it, frame (chunk_reply tokens it.1 it.2)) in
  eret (concat_all frames).

(** The client's loop: it ends when nothing is left or a message is the last. *)
Fixpoint read_chunks (fuel : nat) (input acc : string) : Test string :=
  match fuel with
  | O => panic "still reading"
  | S fuel' =>
      if is_empty input then eret acc
      else
        let! (reply, rest) := unframe input in
        let acc := acc +:+ default "" (as_str (field "chunk" (field "parameters" reply))) in
        if negb (default false (as_bool (field "continues" reply))) then eret acc
        else read_chunks fuel' rest acc
  end.
Definition read_all_chunks (input : string) : Test string :=
  read_chunks (S (String.length input)) input "".

(** ** qa/integration/scenario_streaming.rs *)

Definition stream_server (req : Value) : Test string :=
  assert_str (field "method" req) "io.systemd.inferenced1.StreamInference" ;!
  let! prompt := str_field "prompt" (field "parameters" req) in
  ok (acquire Interactive (2 * GiB) None None None) ;!
  send_chunks ["Generated: "; "Token1 "; "Token2 "; "from prompt '"; prompt; "'."].

Definition stream_request (model prompt : string) : Value :=
  jobj [("method", jstr "io.systemd.inferenced1.StreamInference");
        ("parameters", jobj [("model", jstr model); ("prompt", jstr prompt)]);
        ("more", jbool true)].

Definition test_scenario_high_volume_token_streaming : Test unit :=
  start (topology_of [test_plane "stream-gpu-0" "Streaming GPU" DiscreteGpu (16 * GiB)]) ;!
  let model_weights := filled "171" (Z.to_nat (64 * KiB)) in
  let! (_, read_weights) := pass_file "stream_model" model_weights "model-qwen" 32 7 in
  assert_eq read_weights model_weights ;!
  let! sent := frame (stream_request "qwen2.5-coder:7b" "Explain Linux demand paging") in
  let! (req, _) := unframe sent in
  let! answer := stream_server req in
  let! stream_output := read_all_chunks answer in
  assert (contains stream_output "Generated:") ;!
  assert (contains stream_output "Explain Linux demand paging").

(** ** qa/edge/challenger_stream_paging.rs *)
Definition test_adversarial_live_varlink_stream_piping : Test unit :=
  let! sent := frame (stream_request "adv-model" "stream prompt") in
  let! _ := unframe sent in
  let! answer := send_chunks ["Chunk1: Hello "; "Chunk2: from "; "Chunk3: Varlink Stream!"] in
  let! stream_output := read_all_chunks answer in
  assert_eq stream_output "Chunk1: Hello Chunk2: from Chunk3: Varlink Stream!".

(** * qa/integration/scenario_panic_triage.rs *)

Definition triage_topology : HardwareTopology :=
  topology_of
    [set_available 0 (test_plane "gpu-panicked" "Discrete GPU (Kernel Panic)" DiscreteGpu (8 * GiB));
     set_triage_reserved true
       (test_plane "npu-sentry-enclave" "Dedicated Sentry NPU Triage Enclave" NpuAccelerator (2 * GiB))].

(** The server: one read, one answer, and the lease is given back after it. *)
Definition triage_server (text : string) : Test string :=
  let! incident := unwrap (value_from_slice text) in
  assert_str (field "incident_id" incident) "drm-amdgpu-page-fault-ring-gfx" ;!
  let! triage_lease := ok (acquire EmergencyTriage GiB None (Some "systemd-sentry.service") None) in
  let resp := jobj
    [("status", jstr "accepted"); ("incident_id", field "incident_id" incident);
     ("allocated_plane", jstr (l_plane_id triage_lease));
     ("analysis", jstr "Emergency compute isolated on NPU enclave. GPU hang isolated.")] in
  let! answer := unwrap (to_vec resp) in
  ok (release (l_id triage_lease)) ;!
  eret answer.

Definition test_scenario_emergency_driver_panic_triage : Test unit :=
  start triage_topology ;!
  let! batch_lease := ok (acquire Batch (2 * GiB) (Some "npu-sentry-enclave")
                            (Some "background-worker.service") None) in
  assert_eq (l_state batch_lease) Active ;!
  let emergency_req := jobj
    [("action", jstr "emergency_triage"); ("incident_id", jstr "drm-amdgpu-page-fault-ring-gfx");
     ("unit_name", jstr "systemd-sentry.service");
     ("dmesg_snippet", jstr "amdgpu 0000:03:00.0: GPU reset begin!")] in
  let! text := unwrap (to_vec emergency_req) in
  let! answer := triage_server text in
  let! triage_resp := unwrap (value_from_slice answer) in
  assert_str (field "status" triage_resp) "accepted" ;!
  assert_str (field "allocated_plane" triage_resp) "npu-sentry-enclave" ;!
  let! analysis := str_field "analysis" triage_resp in
  assert (contains analysis "GPU hang isolated") ;!
  let! st := look (lease_state (l_id batch_lease)) in
  assert_eq st (Some Preempted).

(** * qa/integration/scenario_psi_paging.rs *)

(** [if let Some(m) = registry.get_mut(id) { m.placement = ..; .. }] *)
Definition place (id : string) (placement : ModelPlacementState) (plane : option string)
    (r : ModelRegistry) : ModelRegistry :=
  mkModelRegistry (alter (λ m, {| m_id := m_id m; m_format := m_format m; m_path := m_path m;
    m_estimated_memory_bytes := m_estimated_memory_bytes m; m_placement := placement;
    m_resident_plane_id := plane; m_last_accessed := m_last_accessed m;
    m_access_count := m_access_count m; m_preferred_plane := m_preferred_plane m |}) id (models r)).

(** The machine of the test: what it reports of its pressure, the address of the
    anonymous mapping, and the kernel's answers to advice on it. *)
Definition test_scenario_memory_starvation_and_psi_paging (fs : Fs) (addr : Z) (k : MemoryKernel) :
    Test unit :=
  start (topology_of [test_plane "plane-starved-gpu" "Memory Starved GPU" DiscreteGpu (8 * GiB)]) ;!
  let! now := tick in
  let model := {| m_id := "deepseek-coder:33b"; m_format := "GGUF";
                  m_path := "/models/deepseek-33b.gguf"; m_estimated_memory_bytes := 6 * GiB;
                  m_placement := Resident; m_resident_plane_id := Some "plane-starved-gpu";
                  m_last_accessed := Z.of_N now; m_access_count := 10;
                  m_preferred_plane := None |} in
  let registry := register model new_registry in
  let weight_size := 4096 * 128 in
  let psi := read_current None (λ _, None) fs in
  assert (SFleb (f32 0) (memory_some_avg10 psi)) ;!
  assert (SFleb (f32 0) (memory_full_avg10 psi)) ;!
  unwrap (res_of (advise_dontneed k addr weight_size [])) ;!
  let registry := place "deepseek-coder:33b" Dormant None registry in
  let! updated := unwrap_some (get_model "deepseek-coder:33b" registry) in
  assert_eq (m_placement updated) Dormant ;!
  assert_eq (m_resident_plane_id updated) None ;!
  unwrap (res_of (advise_willneed k addr weight_size [])) ;!
  let registry := place "deepseek-coder:33b" Resident (Some "plane-starved-gpu") registry in
  let! resident := unwrap_some (get_model "deepseek-coder:33b" registry) in
  assert_eq (m_placement resident) Resident.

(** A machine that waits for memory now and then. *)
Definition pressed_fs : Fs :=
  snapshot [("/proc/pressure/memory",
    "some avg10=2.17 avg60=0.50 avg300=0.10 total=123456" +:+ String newline ""
    +:+ "full avg10=1.02 avg60=0.25 avg300=0.05 total=65432" +:+ String newline "")] [].
Definition paging_kernel : MemoryKernel :=
  mkMemoryKernel (λ _ _ _, None) (λ _ _, Ok 0) (λ _ _, None).

(** * qa/edge/challenger_r3_scm_rogue_stress.rs: clients that vanish *)

Definition create_rogue_plane (total_mem : Z) : HardwareTopology :=
  topology_of [test_plane "plane-rogue-adv" "Adversarial Rogue Plane" DiscreteGpu total_mem].

Definition prio_of (name : string) : LeasePriority :=
  if String.eqb name "Batch" then Batch
  else if String.eqb name "EmergencyTriage" then EmergencyTriage
  else Interactive.

(** [params.and_then(|p| p.get(key))] *)
Definition param (key : string) (params : option Value) : option Value := params ≫= jget key.

(** One round of a connection's loop on what the client sent: what it writes,
    the lease it must give back, and whether it goes on. Writing to a client
    that has gone may fail, which ends the answer, not the accounting. *)
Definition rogue_round (buf : string) : Test (string * list LeaseId * bool) :=
  match value_from_slice (drop_last buf) with
  | Err _ => eret ("", [], false)
  | Ok req =>
      let method := default "" (jget "method" req ≫= as_str) in
      let params := jget "parameters" req in
      if String.eqb method "io.systemd.inferenced1.AcquireLease" then
        let prio := prio_of (default "Interactive" (param "priority" params ≫= as_str)) in
        let mem := default GiB (param "memory_bytes" params ≫= as_u64) in
        let! r := acquire prio mem (Some "plane-rogue-adv") None None in
        match r with
        | Ok l =>
            let! rep := frame (jobj [("parameters",
              jobj [("lease_id", jstr (show_lease_id (l_id l)))])]) in
            eret (rep, [l_id l], true)
        | Err _ => eret ("", [], false)
        end
      else if String.eqb method "io.systemd.inferenced1.StreamInference" then
        let! out := send_chunks ["tok_0"; "tok_1"; "tok_2"; "tok_3"; "tok_4"] in
        eret (out, [], true)
      else eret ("", [], false)
  end.

(** The rounds of a connection until the client's input ends; what was written
    and the leases it holds. *)
Fixpoint rogue_rounds (fuel : nat) (input : string) : Test (string * list LeaseId) :=
  match fuel with
  | O => panic "still reading"
  | S fuel' =>
      let '(buf, rest, _) := read_until MAX_MESSAGE input in
      if is_empty buf then eret ("", [])
      else
        let! (out, held, more) := rogue_round buf in
        if more then
          let! (out', held') := rogue_rounds fuel' rest in
          eret (out +:+ out', held ++ held')
        else eret (out, held)
  end.
Definition rogue_connection (input : string) : Test (string * list LeaseId) :=
  rogue_rounds (S (String.length input)) input.

(** [for lid in active_leases { let _ = arb.release_lease(lid).await; }], once
    the client is gone. *)
Definition hang_up (held : list LeaseId) : Test unit := each held release ;! eret tt.

Definition rogue_acquire (priority : string) : Value :=
  jobj [("method", jstr "io.systemd.inferenced1.AcquireLease");
        ("parameters", jobj [("priority", jstr priority); ("memory_bytes", jnum GiB)])].

(** The three waves; the batch clients of the third hang up after the giant
    has preempted them. *)
Definition test_adversarial_rogue_client_disconnect_storm_varlink : Test unit :=
  let total_mem := 32 * GiB in
  start (create_rogue_plane total_mem) ;!
  each (seq 0 10) (λ i,
    let! req := frame (rogue_acquire "Interactive") in
    let! sreq := frame (jobj
      [("method", jstr "io.systemd.inferenced1.StreamInference");
       ("parameters", jobj [("prompt", jstr (numbered "p_" i ""))])]) in
    let! (_, held) := rogue_connection (req +:+ sreq) in
    hang_up held) ;!
  each (seq 0 10) (λ _,
    let! (_, held) := rogue_connection (String "{" (String "034" "bad-json-frame...")) in
    hang_up held) ;!
  let! batch_streams := each (seq 0 10) (λ _,
    let! req := frame (rogue_acquire "Batch") in
    let! (_, held) := rogue_connection req in
    eret held) in
  let! giant := ok (acquire Interactive (30 * GiB) (Some "plane-rogue-adv") None None) in
  each batch_streams hang_up ;!
  ok (release (l_id giant)) ;!
  let! final_leases := look list_leases in
  assert (forallb (λ l, bool_decide (l_state l = Expired)) final_leases) ;!
  let! free := look (free_memory 0) in
  assert_eq free (Some total_mem) ;!
  each final_leases (λ l, release (l_id l)) ;!
  let! free := look (free_memory 0) in
  assert_eq free (Some total_mem).

(** * qa/edge/sentry_stress.rs: payloads *)

Definition test_edge_sentry_payload_serialization_tolerance : Test unit :=
  let raw_bytes := "non-json-kernel-dump-text-crash" in
  let payload_json :=
    match value_from_slice raw_bytes with
    | Ok v => v
    | Err _ => jobj [("raw", jstr (to_string_lossy (Unicode := ascii_unicode) raw_bytes))]
    end in
  assert_str (field "raw" payload_json) "non-json-kernel-dump-text-crash".

Definition test_edge_sentry_payload_missing_incident_id : Test unit :=
  let payload := jobj [("action", jstr "triage_ping")] in
  let incident_id := jget "incident_id" payload ≫= as_str in
  assert (bool_decide (incident_id = None)).

(** * qa/fuzz/stream_fuzz.rs; its other tests are of serde_json *)

Definition test_fuzz_stream_empty_and_whitespace_prompts : Test unit :=
  let tab := "009"%char in
  let empty_variants :=
    [""; "   "; String tab (String tab "");
     String newline (String newline (String carriage_return (String newline "")));
     " " +:+ String tab (" " +:+ String carriage_return (" " +:+ String newline " "))] in
  each empty_variants (λ p,
    let prompt_trimmed := trim p in
    let prompt_final :=
      if is_empty prompt_trimmed then "Hello, systemd-inferenced!" else prompt_trimmed in
    assert_eq prompt_final "Hello, systemd-inferenced!") ;!
  eret tt.

(** * Descriptors: qa/edge/socket_faults.rs, qa/integration/cross_feature_ext.rs *)

(** The socket delivers the bytes that were sent and the descriptors sent with
    them. *)
Definition test_edge_recv_fd_when_none_sent : Test unit :=
  let! (bytes, maybe_fd) := unwrap (recv_fd_from_unix (Ok (mkReceived "plain-message" [])) 64).1 in
  assert_eq bytes "plain-message" ;!
  assert (bool_decide (maybe_fd = None)).

Definition test_interaction_zerocopy_scm_rights_across_socket_activation_channels : Test unit :=
  let weights := "deep-neural-network-layer-weights-1234" in
  let! (_, read_buf) := pass_file "nn_layer" weights "header" 16 7 in
  assert_eq read_buf weights.

(** * qa/edge/challenger_stream_paging.rs: advice *)

(** The kernel refuses advice on an address that is not on a page (EINVAL). *)
Definition page_kernel : MemoryKernel :=
  mkMemoryKernel (λ addr _ _, if addr mod 4096 =? 0 then None else Some 22) (λ _ _, Ok 8192)
    (λ _ _, None).
Definition advised (m : Paging unit) : bool := is_ok (res_of (m [])).

Definition test_adversarial_madvise_page_reclamation_and_coredump_exclusion : Test unit :=
  let len := 4096 * 16 in
  let data := filled "B" (Z.to_nat len) in
  unwrap (create_sealed_memfd whole_writes "madvise_test" len (Some data)) ;!
  let! ptr := unwrap (mk_mmap page_kernel 3 len) in
  assert (advised (advise_dontneed page_kernel ptr len)) ;!
  assert (advised (advise_willneed page_kernel ptr len)) ;!
  assert (advised (advise_hugepage page_kernel ptr len)) ;!
  assert (advised (advise_sequential page_kernel ptr len)) ;!
  assert (advised (advise_random page_kernel ptr len)) ;!
  assert (advised (advise_dontdump page_kernel ptr len)) ;!
  let invalid_ptr := 1 in
  assert (negb (advised (advise_dontneed page_kernel invalid_ptr 4096))) ;!
  assert (bool_decide (mk_munmap page_kernel ptr len = None)).

Definition socket_tests : list (Test unit) :=
  [test_scenario_varlink_service_introspection_and_management;
   test_scenario_high_volume_token_streaming; test_adversarial_live_varlink_stream_piping;
   test_scenario_emergency_driver_panic_triage;
   test_scenario_memory_starvation_and_psi_paging pressed_fs 4096 paging_kernel;
   test_adversarial_rogue_client_disconnect_storm_varlink;
   test_edge_sentry_payload_serialization_tolerance;
   test_edge_sentry_payload_missing_incident_id; test_fuzz_stream_empty_and_whitespace_prompts;
   test_edge_recv_fd_when_none_sent;
   test_interaction_zerocopy_scm_rights_across_socket_activation_channels;
   test_adversarial_madvise_page_reclamation_and_coredump_exclusion].

Lemma socket_tests_pass : forallb passes socket_tests = true.
Proof. vm_compute. reflexivity. Qed.
