(* ===== verification/SharingTests.v ===== *)
(** Memory files at work: the documented kernel as a function, the theorems of
    Sharing.v applied to it, and the tests of qa/edge/ that hand a sealed file
    from task to task. *)
From Stdlib Require Import SpecFloat.
From S2P Require Import Prelude Text Host Errors Discovery FdLease Madvise FdQuota Json FdServer.
From S2P Require Import Sharing Bench StreamTests SystemExamples.
Local Open Scope Z_scope.
Local Open Scope eff_scope.

(** * A kernel that keeps to its documentation *)

Definition has_seal (s : Seal) (fd : Memfd) : bool := bool_decide (s ∈ m_seals fd).
Definition written_at (offset : nat) (bytes : string) (fd : Memfd) : Memfd :=
  let old := contents fd +:+ zeros (offset - String.length (contents fd)) in
  let new := String.substring 0 offset old +:+ bytes +:+
    String.substring (offset + String.length bytes) (String.length old) old in
  mkMemfd (m_name fd) new (Z.of_nat (String.length new)) (Z.of_nat (offset + String.length bytes))
    (m_seals fd).

#[export] Instance memfd_access : MemfdAccess := λ a fd,
  match a with
  | TryWrite bytes =>
      if is_empty bytes then (Ok "", fd)
      else if has_seal SealWrite fd then (Err EPERM, fd)
      else
        let fd' := written_at (Z.to_nat (m_offset fd)) bytes fd in
        if has_seal SealGrow fd && (m_size fd <? m_size fd') then (Err EPERM, fd) else (Ok "", fd')
  | TryTruncate size =>
      if Z.of_N size =? m_size fd then (Ok "", fd)
      else if has_seal SealShrink fd && (Z.of_N size <? m_size fd) then (Err EPERM, fd)
      else if has_seal SealGrow fd && (m_size fd <? Z.of_N size) then (Err EPERM, fd)
      else (Ok "", resized (Z.of_N size)
              (mkMemfd (m_name fd) (String.substring 0 (N.to_nat size) (m_written fd)) (m_size fd)
                 (m_offset fd) (m_seals fd)))
  | TryMapWritable => if has_seal SealWrite fd then (Err EPERM, fd) else (Ok "", fd)
  | TrySeal seals => if has_seal SealSeal fd then (Err EPERM, fd) else (Ok "", sealed_with seals fd)
  | SeekTo offset => (Ok "", sought (Z.of_N offset) fd)
  | ReadBytes count =>
      let got := String.substring (Z.to_nat (m_offset fd)) count (contents fd) in
      (Ok got, sought (m_offset fd + Z.of_nat (String.length got)) fd)
  | View => (Ok (contents fd), fd)
  end.

Lemma substring_got n m s :
  String.substring n m s = String.substring n (String.length (String.substring n m s)) s ∧
  (String.length (String.substring n m s) ≤ m)%nat.
Proof.
  revert n m. induction s as [|a s IH]; intros [|n] [|m]; simpl; try (split; [done|lia]).
  - destruct (IH 0%nat m) as [Heq Hle]. rewrite <-Heq. split; [done|lia].
  - apply IH.
  - apply (IH n (S m)).
Qed.

Lemma memfd_documented : access_documented.
Proof.
  assert (Hseal : ∀ s fd, s ∈ m_seals fd → has_seal s fd = true)
    by (intros; by apply bool_decide_eq_true).
  split; unfold access, memfd_access.
  - intros fd bytes Hw Hne. rewrite (Hseal _ _ Hw). by destruct bytes.
  - done.
  - intros fd Hw. by rewrite (Hseal _ _ Hw).
  - intros fd size Hs Hlt. rewrite (Hseal _ _ Hs), (proj2 (Z.eqb_neq _ _)), (proj2 (Z.ltb_lt _ _)) by lia. done.
  - intros fd size Hs Hlt. rewrite (Hseal _ _ Hs), (proj2 (Z.eqb_neq _ _)) by lia.
    rewrite (proj2 (Z.ltb_ge (Z.of_N size) _)), (proj2 (Z.ltb_lt _ _)) by lia. by rewrite andb_false_r.
  - intros fd size Hs. by rewrite (proj2 (Z.eqb_eq _ _)) by lia.
  - intros fd seals Hs. by rewrite (Hseal _ _ Hs).
  - done.
  - intros fd count. cbn zeta. destruct (substring_got (Z.to_nat (m_offset fd)) count (contents fd)). done.
  - intros fd. split; [done|]. by intros got [= <-].
Qed.

(** * The theorems at work *)

(** The server sends to the first of two clients, which gets two descriptors,
    keeps one, and tries to write. *)
Definition tiny_model : Memfd := mkMemfd "model" "weights!" 8 0 all_seals.
Definition whole (header : string) (answer : result Z nat) : Prop := answer = Ok (String.length header).
Definition after_write : share := mkShare tiny_model (Some 7) {[7; 8]} [Has 8 "V1"; Awaiting].

Lemma slow_writes_bounded : writes_bounded slow_writes.
Proof. intros call rest n Hn. simplify_eq/=. apply (Nat.le_min_r 3). Qed.
Lemma slow_writes_progress : writes_progress slow_writes.
Proof. intros call rest n [= <-] Hrest. destruct rest; [done|]. simpl. lia. Qed.

Lemma after_write_run :
  rtc (share_step (whole "V1") "V1" 64) (published tiny_model 7 ∅ 2) after_write.
Proof.
  eapply rtc_l; [apply (server_sends _ _ _ _ 7 0 true (Ok 2%nat)); reflexivity|].
  eapply rtc_l; [eapply (client_receives _ _ _ _ 0 "V1" (Ok (mkReceived "V1" [8; 9]))); [reflexivity| |reflexivity]|].
  { split; [reflexivity|]. split; [apply (bool_decide_unpack _); vm_compute; exact I|].
    intros fd. simpl. set_solver by lia. }
  eapply rtc_l; [apply (holder_accesses _ _ _ _ 8 (TryWrite "CORRUPT")); simpl; set_solver|].
  assert (Heq : ∀ s s' : share, s = s' → rtc (share_step (whole "V1") "V1" 64) s s') by (by intros s ? <-).
  apply Heq. reflexivity.
Qed.

Lemma weights_shared_witness :
  access (TryWrite "CORRUPT") tiny_model = (Err EPERM, tiny_model) ∧
  contents tiny_model = "weights!" ∧ 8 ∈ sh_open after_write.
Proof.
  destruct (weights_shared memfd_access slow_writes "model" "weights!" tiny_model 7 ∅ 2 (whole "V1") "V1" 64
    after_write memfd_documented slow_writes_bounded slow_writes_progress)
    as (Htamper & Hcontents & _ & _ & Hclients & _).
  - vm_compute. reflexivity.
  - apply not_elem_of_empty.
  - apply after_write_run.
  - split_and!; [apply (Htamper (TryWrite "CORRUPT")); reflexivity|exact Hcontents|].
    apply (Hclients 0%nat 8 "V1"). reflexivity.
Defined.

(** * Tests that run one step after the other *)

Definition refused (r : result Z string) : bool := negb (is_ok r).
Definition fcntl_get_seals (fd : Memfd) : list Seal := m_seals fd.
Definition all_on (fd : Memfd) : Test unit :=
  let seals := fcntl_get_seals fd in
  assert (bool_decide (SealSeal ∈ seals)) ;! assert (bool_decide (SealGrow ∈ seals)) ;!
  assert (bool_decide (SealShrink ∈ seals)) ;! assert (bool_decide (SealWrite ∈ seals)).
Definition make (name data : string) : Test Memfd :=
  unwrap (create_sealed_memfd whole_writes name (Z.of_nat (String.length data)) (Some data)).
(** [read] into a buffer as long as [data], which must give [data]. *)
Definition reads (fd : Memfd) (data : string) : Test Memfd :=
  let '(r, fd') := access (ReadBytes (String.length data)) fd in
  let! got := unwrap r in
  assert_eq (String.length got) (String.length data) ;! assert_eq got data ;! eret fd'.
Definition seek_start (fd : Memfd) : Memfd := (access (SeekTo 0) fd).2.

(** ** qa/edge/challenger_stream_paging.rs *)

Definition test_adversarial_sealed_memfd_kernel_seals_and_write_rejection : Test unit :=
  let! fd := make "adv_sealed_model" "SYSTEMD_INFERENCED_ZERO_COPY_WEIGHTS_4096" in
  all_on fd ;!
  assert (refused (access (TryWrite "MUTATION_ATTEMPT") fd).1) ;!
  assert (refused (access (TryTruncate 1024) fd).1).

(** ** qa/unit/fd_tests.rs *)

Definition test_create_sealed_memfd_success : Test unit :=
  let! fd := make "test_weights" "heterogeneous-tensor-weights-0123456789" in all_on fd.

Definition test_memfd_seals_prevent_modification : Test unit :=
  let! fd := make "immutable" "immutable-constant-weights" in
  assert (refused (access (TryWrite "corrupted-overwrite") fd).1).

(** The two receivers hold descriptors of one file: the second reads through the
    offset the first has moved. *)
Definition test_memfd_zero_copy_multiple_receivers : Test unit :=
  let data := "shared-transformer-layer-0" in
  let! memfd := make "shared_layer" data in
  unwrap (send_fd_over_unix true (Ok 5%nat)) ;!
  unwrap (send_fd_over_unix true (Ok 5%nat)) ;!
  let! (_, fd1) := unwrap (recv_fd_from_unix (Ok (mkReceived "meta1" [8])) 16).1 in
  let! (_, fd2) := unwrap (recv_fd_from_unix (Ok (mkReceived "meta2" [9])) 16).1 in
  unwrap_some fd1 ;! unwrap_some fd2 ;!
  let! memfd := reads (seek_start memfd) data in
  let! _ := reads (seek_start memfd) data in
  eret tt.

Definition test_memfd_offset_rewound_at_creation : Test unit :=
  let data := "initial-weights-rewound" in
  let! fd := make "rewound" data in let! _ := reads fd data in eret tt.

(** ** crates/inferenced-core/src/tests/paging_tests.rs *)

Definition test_create_sealed_model_and_seals : Test unit :=
  let data := "weights-tensor-model-test-data-12345" in
  let! fd := unwrap (create_sealed_model whole_writes "model_weights" data) in
  all_on fd ;! let! _ := reads (seek_start fd) data in eret tt.

Definition test_send_and_recv_model_fd : Test unit :=
  let model_data := "neural-network-layer-weights" in
  let model_id := "test-model-v1" in
  let! memfd := unwrap (create_sealed_model whole_writes "shared_model" model_data) in
  let! sent := unwrap (send_model_fd true (λ payload, Ok (String.length payload)) model_id) in
  assert_eq sent (String.length model_id) ;!
  let! (recv_id, _) := unwrap (recv_model_fd (uc := ascii_unicode) (Ok (mkReceived model_id [8]))).1 in
  assert_eq recv_id model_id ;!
  let! _ := reads (seek_start memfd) model_data in eret tt.

Definition test_zswap_metrics_parse_and_read : Test unit :=
  let nl := String newline "" in
  let fs := snapshot
    [("/dir/enabled", "Y" +:+ nl); ("/dir/compressor", "zstd" +:+ nl);
     ("/dir/max_pool_percent", "25" +:+ nl); ("/dir/accept_threshold_percent", "85" +:+ nl)] [] in
  let mock_meminfo := "MemTotal:       32768 kB" +:+ nl +:+ "Zswap:           1024 kB" +:+ nl
    +:+ "Zswapped:        4096 kB" +:+ nl in
  let metrics := parse_metrics fs mock_meminfo "/dir" in
  assert (z_enabled metrics) ;! assert_eq (z_compressor metrics) "zstd" ;!
  assert_eq (z_zswap_bytes metrics) (1024 * 1024) ;! assert_eq (z_zswapped_bytes metrics) (4096 * 1024) ;!
  assert_eq (z_max_pool_percent metrics) 25 ;! assert_eq (z_accept_threshold_percent metrics) 85 ;!
  let current := read_zswap_metrics fs in
  assert (negb (is_empty (z_compressor current))).

Definition sharing_tests : list (Test unit) :=
  [test_adversarial_sealed_memfd_kernel_seals_and_write_rejection; test_create_sealed_memfd_success;
   test_memfd_seals_prevent_modification; test_memfd_zero_copy_multiple_receivers;
   test_memfd_offset_rewound_at_creation; test_create_sealed_model_and_seals;
   test_send_and_recv_model_fd; test_zswap_metrics_parse_and_read].
Lemma sharing_tests_pass : forallb passes sharing_tests = true.
Proof. vm_compute. reflexivity. Qed.

(** * Tests with a server and many clients *)

(** [for (i, b) in payload.iter_mut().enumerate() { *b = f(i) }] *)
Fixpoint bytes_from (f : Z → Z) (i : Z) (n : nat) : string :=
  match n with
  | O => ""
  | S n' => String (ascii_of_N (Z.to_N (f i))) (bytes_from f (i + 1) n')
  end.

(** What a client checks of the file it has received: the header, the refusals,
    the mapping at its start, middle and end, the advice on it. *)
Definition client_is_content {ma : MemfdAccess} (header corruption payload : string) (size : Z)
    (shrunk : N) (got : string) (fd : Memfd) : Prop :=
  got = header ∧
  (access (TryWrite corruption) fd).1 = Err EPERM ∧
  (access (TryTruncate shrunk) fd).1 = Err EPERM ∧
  (access TryMapWritable fd).1 = Err EPERM ∧
  (∀ slice, (access View fd).1 = Ok slice →
     ∀ i, i ∈ [0; size / 2; size - 1] →
       String.get (Z.to_nat i) slice = String.get (Z.to_nat i) payload) ∧
  (∀ ptr, ptr mod 4096 = 0 →
     advised (advise_willneed page_kernel ptr size) = true ∧
     advised (advise_dontneed page_kernel ptr size) = true).

(** The tests of a file sent to [n] clients, on every documented kernel, in
    every interleaving of the server with the clients. *)
Definition fan_out (name header corruption payload : string) (size : Z) (shrunk : N) (n : nat) : Prop :=
  ∀ (ma : MemfdAccess) k memfd baseline fd,
    access_documented → writes_bounded k → writes_progress k → fd ∉ baseline →
    create_sealed_memfd k name size (Some payload) = Ok memfd →
    (∀ seal, seal ∈ [SealSeal; SealGrow; SealShrink; SealWrite] → seal ∈ fcntl_get_seals memfd) ∧
    ∀ s, rtc (share_step (whole header) header 64) (published memfd fd baseline n) s →
      (∀ client_id recvd_fd got, sh_clients s !! client_id = Some (Has recvd_fd got) →
         client_is_content header corruption payload size shrunk got (sh_file s)) ∧
      (sh_server s = None → (∀ i fd' got, sh_clients s !! i ≠ Some (Has fd' got)) →
         sh_open s = baseline).

(** qa/edge/challenger_r3_scm_rogue_stress.rs *)
Definition adv_payload : string := bytes_from (λ i, Z.land (i * 17 + 123) 255) 0 (Z.to_nat (8 * 1024 * 1024)).
Definition test_adversarial_scm_rights_50_client_fanout_and_fd_leaks : Prop :=
  fan_out "adv_sealed_model_8mb" "CHALLENGER_TENSOR_V1" "CORRUPT" adv_payload (8 * 1024 * 1024) 4096 50.

(** qa/edge/scm_rights_fanout_tests.rs *)
Definition scm_payload : string := bytes_from (λ i, Z.land (i * 33 + 7) 255) 0 (Z.to_nat (4 * 1024 * 1024)).
Definition test_scm_rights_20_client_sealed_memfd_fanout_and_fd_leak_check : Prop :=
  fan_out "adv_sealed_model_4mb" "WEIGHTS_V1" "CORRUPT_MODEL" scm_payload (4 * 1024 * 1024) 2048 20.

(** qa/edge/challenger_stream_paging.rs: whatever happened to the file before,
    it is read whole after a seek to its start. *)
Definition large_weights : string := bytes_from (λ i, i mod 251) 0 (Z.to_nat (1024 * 1024)).
Definition test_adversarial_zero_copy_scm_rights_fd_passing_integrity : Prop :=
  let size := 1024 * 1024 in
  let header := "model-adv-v1" in
  ∀ k weight_fd baseline fd,
    writes_bounded k → writes_progress k → fd ∉ baseline →
    create_sealed_memfd k "large_model" size (Some large_weights) = Ok weight_fd →
    ∀ s, rtc (share_step (whole header) header 64) (published weight_fd fd baseline 1) s →
    ∀ i recvd_fd got, sh_clients s !! i = Some (Has recvd_fd got) →
      got = header ∧
      (access (ReadBytes (Z.to_nat size)) (seek_start (sh_file s))).1 = Ok large_weights.

Lemma length_bytes_from f i n : String.length (bytes_from f i n) = n.
Proof. revert i. induction n as [|n IH]; intros i; simpl; [done|by rewrite IH]. Qed.
Lemma length_payload f size : 0 ≤ size → Z.of_nat (String.length (bytes_from f 0 (Z.to_nat size))) = size.
Proof. intros Hsize. rewrite length_bytes_from. by apply Z2Nat.id. Qed.

Lemma whole_header header got :
  (∃ sent, whole header (Ok sent) ∧ got = String.substring 0 sent header) → got = header.
Proof. intros (sent & [= ->] & ->). apply substring_whole. Qed.

Lemma fan_out_passes name header corruption payload size shrunk n :
  Z.of_nat (String.length payload) = size → corruption ≠ "" → Z.of_N shrunk ≠ size →
  fan_out name header corruption payload size shrunk n.
Proof.
  intros Hsize Hcorrupt Hshrunk ma k memfd baseline fd Hdoc Hb Hp Hfd Hmade.
  assert (Hmodel : create_sealed_model k name payload = Ok memfd)
    by (unfold create_sealed_model; by rewrite Hsize).
  split; [intros seal _; rewrite (created_model _ _ _ _ Hb Hp Hmodel); apply sealed_seal; reflexivity|].
  intros s Hrun.
  destruct (model_shared _ _ _ _ _ _ _ _ _ _ _ Hdoc Hb Hp Hmodel Hfd Hrun)
    as (Hs & Hcontents & Hsame_size & Hsealed).
  split; [|by eapply sharing_over]. intros i fd' got Hi.
  destruct (sharing_client _ _ _ _ _ _ _ _ _ Hs Hi) as (_ & _ & Hgot). split_and!.
  - by apply whole_header.
  - rewrite (sealed_tamper Hdoc); [done..|]. by destruct corruption.
  - rewrite (sealed_tamper Hdoc); [done..|]. simpl.
    rewrite Hsame_size, Hsize. by apply negb_true_iff, Z.eqb_neq.
  - by rewrite (sealed_tamper Hdoc).
  - intros slice Hview j _. pose proof (doc_view Hdoc (sh_file s)) as Hdocv.
    destruct (access View (sh_file s)) as [r f]. destruct Hdocv as [_ Hdocv].
    by rewrite (Hdocv slice Hview), Hcontents.
  - intros ptr Hptr. unfold advised, advise_willneed, advise_dontneed, advise, ebind. cbn.
    rewrite Hptr. done.
Qed.

Lemma adv_fan_out_passes : test_adversarial_scm_rights_50_client_fanout_and_fd_leaks.
Proof. apply fan_out_passes; [by apply length_payload|done|lia]. Qed.
Lemma scm_fan_out_passes : test_scm_rights_20_client_sealed_memfd_fanout_and_fd_leak_check.
Proof. apply fan_out_passes; [by apply length_payload|done|lia]. Qed.

Lemma zero_copy_passes : test_adversarial_zero_copy_scm_rights_fd_passing_integrity.
Proof.
  cbv delta [test_adversarial_zero_copy_scm_rights_fd_passing_integrity] beta.
  intros size header k weight_fd baseline fd Hb Hp Hfd Hmade s Hrun i recvd_fd got Hi.
  assert (Hlen : Z.of_nat (String.length large_weights) = size) by (by apply length_payload).
  assert (Hmodel : create_sealed_model k "large_model" large_weights = Ok weight_fd)
    by (unfold create_sealed_model; by rewrite Hlen).
  destruct (model_shared _ _ _ _ _ _ _ _ _ _ _ memfd_documented Hb Hp Hmodel Hfd Hrun) as (Hs & Hcontents & _).
  split; [apply whole_header, (sharing_client _ _ _ _ _ _ _ _ _ Hs Hi)|].
  change (Ok (String.substring 0 (Z.to_nat size) (contents (sh_file s))) = Ok large_weights :> result Z string).
  rewrite Hcontents, <-Hlen, Nat2Z.id. by rewrite substring_whole.
Qed.
