(* ===== verification/CrateTests.v ===== *)
(** The tests the crates carry next to their code (the modules [tests] of the
    files under crates/), run on the model. *)
From Stdlib Require Import SpecFloat.
From S2P Require Import Prelude Lease Errors Topology Text Model Host Psi Arbiter Discovery.
From S2P Require Import Netlink Peer Creds FdQuota Activation Notify Inhibit.
From S2P Require Json Frontend Sentry Client Exec Ctl EndToEndExamples.
From S2P Require Import Bench.
Local Open Scope Z_scope.
Local Open Scope eff_scope.
#[local] Existing Instance ascii_unicode.

(** * crates/inferenced-core/src/netlink.rs *)

(** A datagram of records, each ended by a NUL. *)
Definition records (rs : list string) : string := concat_all ((λ r, r +:+ String nul "") <$> rs).

Definition test_parse_drm_add_uevent : Test unit :=
  let raw := records
    ["add@/devices/pci0000:00/0000:00:01.0/drm/renderD128"; "ACTION=add";
     "DEVPATH=/devices/pci0000:00/0000:00:01.0/drm/renderD128"; "SUBSYSTEM=drm";
     "DEVNAME=/dev/dri/renderD128"; "MAJOR=226"; "MINOR=128"] in
  let! uevent := unwrap_some (parse_uevent raw) in
  assert_eq (action uevent) "add" ;!
  assert_eq (subsystem uevent) "drm" ;!
  assert_eq (devname uevent) (Some "/dev/dri/renderD128") ;!
  assert (is_compute_device uevent) ;!
  assert (negb (is_reset_event uevent)).

Definition test_parse_reset_event : Test unit :=
  let raw := records ["change@/devices/pci0000:00/0000:00:01.0/drm/card0"; "ACTION=change";
                      "SUBSYSTEM=drm"; "RESET=1"] in
  let! uevent := unwrap_some (parse_uevent raw) in
  assert_eq (action uevent) "change" ;!
  assert (is_reset_event uevent).

Definition test_compute_device_subsystems : Test unit :=
  let accel_raw := records
    ["add@/devices/pci/accel/accel0"; "SUBSYSTEM=accel"; "DEVNAME=/dev/accel/accel0"] in
  let! uevent := unwrap_some (parse_uevent accel_raw) in
  assert (is_compute_device uevent) ;!
  let hailo_raw := records
    ["add@/devices/pci/misc/hailo0"; "SUBSYSTEM=misc"; "DEVNAME=/dev/hailo0"] in
  let! uevent := unwrap_some (parse_uevent hailo_raw) in
  assert (is_compute_device uevent) ;!
  let kfd_raw := records ["add@/devices/virtual/kfd"; "SUBSYSTEM=kfd"] in
  let! uevent := unwrap_some (parse_uevent kfd_raw) in
  assert (is_compute_device uevent) ;!
  let input_raw := records
    ["add@/devices/input/input0"; "SUBSYSTEM=input"; "DEVNAME=/dev/input/event0"] in
  let! uevent := unwrap_some (parse_uevent input_raw) in
  assert (negb (is_compute_device uevent)).

Definition is_none {A} (o : option A) : bool := match o with None => true | Some _ => false end.

Definition test_parse_malformed_uevent : Test unit :=
  assert (is_none (parse_uevent "")) ;!
  assert (is_none (parse_uevent "malformed_without_delimiter")) ;!
  assert (is_none (parse_uevent (String nul (String nul "")))).

(** * crates/inferenced-core/src/model.rs *)

Definition dummy_model (id : string) (accesses : Z) : ModelDescriptor :=
  {| m_id := id; m_format := "GGUF"; m_path := "/models/" +:+ id +:+ ".gguf";
     m_estimated_memory_bytes := 1024 * 1024; m_placement := Dormant; m_resident_plane_id := None;
     m_last_accessed := 0; m_access_count := accesses; m_preferred_plane := None |}.
Definition registered (r : ModelRegistry) (m : ModelDescriptor) : ModelRegistry := register m r.
Definition count (r : ModelRegistry) : nat := length (list_registry r).

Definition test_model_registry_eviction_and_update : Test unit :=
  let reg := foldl registered new_registry
    ((λ i, dummy_model (numbered "model_" i "") (Z.of_nat i + 1)) <$> seq 0 256) in
  assert_eq (count reg) 256%nat ;!
  let reg := register (dummy_model "model_10" 999) reg in
  assert_eq (count reg) 256%nat ;!
  assert (negb (is_none (get_model "model_0" reg))) ;!
  let reg := register (dummy_model "model_256" 500) reg in
  assert_eq (count reg) 256%nat ;!
  assert (is_none (get_model "model_0" reg)) ;!
  assert (negb (is_none (get_model "model_256" reg))).

Definition test_model_registry_pinned_immunity : Test unit :=
  let pinned := dummy_model "pinned_triage" 0 in
  let pinned := {| m_id := m_id pinned; m_format := m_format pinned; m_path := m_path pinned;
                   m_estimated_memory_bytes := m_estimated_memory_bytes pinned;
                   m_placement := PinnedTriage;
                   m_resident_plane_id := m_resident_plane_id pinned;
                   m_last_accessed := m_last_accessed pinned;
                   m_access_count := m_access_count pinned;
                   m_preferred_plane := m_preferred_plane pinned |} in
  let reg := foldl registered (register pinned new_registry)
    ((λ i, dummy_model (numbered "m_" i "") (Z.of_nat i + 10)) <$> seq 1 255) in
  assert_eq (count reg) 256%nat ;!
  let reg := register (dummy_model "m_256" 50) reg in
  assert_eq (count reg) 256%nat ;!
  assert (negb (is_none (get_model "pinned_triage" reg))).

(** * crates/inferenced-core/src/peer.rs *)

Definition test_parse_slice_and_flags : Test unit :=
  let '(slice, is_container, is_batch) :=
    parse_slice_and_flags "/user.slice/user-1000.slice/session-1.scope" in
  assert_eq slice "user.slice" ;! assert (negb is_container) ;! assert (negb is_batch) ;!
  let '(slice, is_container, is_batch) :=
    parse_slice_and_flags "/machine.slice/machine-fedora.scope" in
  assert_eq slice "machine.slice" ;! assert is_container ;! assert (negb is_batch) ;!
  let '(slice, is_container, is_batch) :=
    parse_slice_and_flags "/ai.slice/ai-batch.slice/job-42.service" in
  assert_eq slice "ai.slice" ;! assert (negb is_container) ;! assert is_batch.

Definition test_mock_peer_info : Test unit :=
  let info := mock 1234 1000 1000 "/machine.slice/container.scope" in
  assert_eq (peer_pid info) 1234 ;!
  assert_eq (peer_uid info) 1000 ;!
  assert (is_container info).

(** * crates/inferenced-core/src/topology/pstore.rs *)

(** A directory with one log, or none. *)
Definition pstore_dir : string := "/tmp/pstore".
Definition pstore_with (logs : list (string * list string)) : Fs :=
  snapshot ((λ nl, (path_join pstore_dir nl.1,
                    concat_all ((λ l, l +:+ String newline "") <$> nl.2))) <$> logs)
    [(pstore_dir, logs.*1)].

Definition test_pstore_empty_dir : Test unit :=
  let audit := analyze_directories (pstore_with []) [pstore_dir] in
  assert_eq (panic_count audit) 0 ;!
  assert_eq (quarantined_drivers audit) [] ;!
  assert (negb (has_unarchived_pstore audit)).

Definition test_pstore_detect_amdgpu_ring_timeout : Test unit :=
  let fs := pstore_with [("dmesg-efi-101",
    ["[  124.551020] [drm:amdgpu_job_timedout] *ERROR* ring gfx_0.0.0 timeout";
     "[  124.551030] amdgpu 0000:03:00.0: GPU reset begin!"])] in
  let audit := analyze_directories fs [pstore_dir] in
  assert_eq (panic_count audit) 1 ;!
  assert_eq (quarantined_drivers audit) ["amdgpu"].

Definition test_pstore_detect_hailo_timeout : Test unit :=
  let fs := pstore_with [("dmesg-efi-202",
    ["[   45.100] hailo: device reset failed for hailo0"])] in
  let audit := analyze_directories fs [pstore_dir] in
  assert_eq (panic_count audit) 1 ;!
  assert_eq (quarantined_drivers audit) ["hailo"].

Definition core_tests : list (Test unit) :=
  [test_parse_drm_add_uevent; test_parse_reset_event; test_compute_device_subsystems;
   test_parse_malformed_uevent; test_model_registry_eviction_and_update;
   test_model_registry_pinned_immunity; test_parse_slice_and_flags; test_mock_peer_info;
   test_pstore_empty_dir; test_pstore_detect_amdgpu_ring_timeout;
   test_pstore_detect_hailo_timeout].

Lemma core_tests_pass : forallb passes core_tests = true.
Proof. vm_compute. reflexivity. Qed.

(** * crates/inferenced-daemon/src/creds.rs *)

(** The environment of a test, and a directory with one credential. *)
Definition env_of (vars : list (string * string)) : Env := λ v, assoc_find v vars.
Definition no_files : Fs := snapshot [] [].

Definition test_load_credential_unset_env : Test unit :=
  assert_eq (load_credential (env_of []) no_files "nonexistent") None.

Definition test_load_credential_lifecycle : Test unit :=
  let dir := "/tmp/creds" in
  let fs := snapshot [(join_path dir "api_token", "super_secret_token_12345" +:+ String newline "")] [] in
  let env := env_of [("CREDENTIALS_DIRECTORY", dir)] in
  assert_eq (load_credential env fs "api_token") (Some "super_secret_token_12345") ;!
  assert_eq (resolve_secret env fs "FALLBACK_TOKEN" "api_token") (Some "super_secret_token_12345").

Definition test_resolve_secret_fallback_to_env : Test unit :=
  let env := env_of [("TEST_FALLBACK_KEY", "env_secret_value")] in
  assert_eq (resolve_secret env no_files "TEST_FALLBACK_KEY" "missing_cred")
    (Some "env_secret_value").

(** * crates/inferenced-daemon/src/fd_quota.rs *)

(** The quota of a test, 1000 bytes of which some are allocated. *)
Definition QuotaTest : Type := eff Z unit string unit.
Definition q_reserve (bytes : Z) : eff Z unit string (result Z Z) := λ allocated,
  let '(r, allocated') := try_reserve 1000 allocated bytes in (Ok r, allocated', []).
Definition q_release (bytes : Z) : eff Z unit string unit :=
  emodify (λ allocated, FdQuota.release allocated bytes).
Definition unwrap_err {S W E A} (r : result E A) : eff S W string E :=
  match r with Err e => eret e | Ok _ => panic "unwrap_err on an Ok value" end.

Definition test_quota_reserve_under_ceiling_succeeds : QuotaTest :=
  let! a := ok (q_reserve 400) in assert_eq a 400 ;!
  let! b := ok (q_reserve 500) in assert_eq b 500.

Definition test_quota_reserve_over_ceiling_fails : QuotaTest :=
  let! a := ok (q_reserve 800) in assert_eq a 800 ;!
  let! r := q_reserve 300 in
  let! e := unwrap_err r in assert_eq e 800.

Definition test_quota_release_restores_capacity : QuotaTest :=
  let! reserved := ok (q_reserve 900) in
  let! r := q_reserve 200 in
  assert (negb (is_ok r)) ;!
  q_release reserved ;!
  let! b := ok (q_reserve 200) in assert_eq b 200.

Definition test_quota_release_clamps_to_zero : QuotaTest :=
  let! reserved := ok (q_reserve 500) in
  q_release reserved ;!
  q_release 10000 ;!
  let! b := ok (q_reserve 1000) in assert_eq b 1000.

Definition test_quota_concurrent_in_flight_rejected : QuotaTest :=
  let! r1 := ok (q_reserve 700) in
  let! r := q_reserve 500 in
  let! e := unwrap_err r in assert_eq e 700 ;!
  q_release r1 ;!
  let! b := ok (q_reserve 500) in assert_eq b 500.

Definition quota_tests : list QuotaTest :=
  [test_quota_reserve_under_ceiling_succeeds; test_quota_reserve_over_ceiling_fails;
   test_quota_release_restores_capacity; test_quota_release_clamps_to_zero;
   test_quota_concurrent_in_flight_rejected].

(** * crates/inferenced-daemon/src/activation.rs *)

Definition test_is_socket_activated_lifecycle (process_id : Z) : Test unit :=
  assert (negb (is_socket_activated (env_of []) process_id)) ;!
  let env := env_of [("LISTEN_PID", pretty (process_id + 9999)); ("LISTEN_FDS", "3")] in
  assert (negb (is_socket_activated env process_id)) ;!
  let env := env_of [("LISTEN_PID", pretty process_id); ("LISTEN_FDS", "3")] in
  assert (is_socket_activated env process_id).

(** * crates/inferenced-daemon/src/notify.rs *)

(** A receiver is bound to every address; what it receives is the trace. *)
Definition receiver : NotifyWorld string :=
  {| nw_abstract_name n := Some ("@" +:+ n); nw_path_name := Some; nw_socket := Ok tt;
     nw_sendto _ m := Ok (Z.of_nat (String.length m)) |}.
Definition NotifyTest : Type := eff unit (string * string) string unit.
Definition sending {A} (m : Notify (Addr := string) A) :
    eff unit (string * string) string (result IoError A) := λ u,
  let '(r, u', w) := m u in (Ok r, u', w).

(** One message goes out whole and comes in whole. *)
Definition delivers (addr_str msg : string) : NotifyTest :=
  let! (sent, received) := traced (ok (sending (send_notification_to receiver addr_str msg))) in
  assert_eq sent (Z.of_nat (String.length msg)) ;!
  assert_eq received [(addr_str, msg)].

Definition test_abstract_notify_all_messages : NotifyTest :=
  let addr_str := "@inferenced_notify_mod_test_1_100" in
  delivers addr_str (line "READY=1" +:+ line "STATUS=Hardware planes active") ;!
  delivers addr_str (line "STATUS=Planes active: 3") ;!
  delivers addr_str (line "WATCHDOG=1") ;!
  delivers addr_str (line "STOPPING=1" +:+ line "STATUS=Shutting down cleanly").

Definition test_notify_missing_env_noop : NotifyTest :=
  let! res := sending (send_notification receiver None (line "READY=1")) in
  let! n := unwrap res in assert_eq n 0.

Definition test_notify_status_strips_embedded_newlines : NotifyTest :=
  let sanitized := sanitize_value (line "evil" +:+ line "MAINPID=42") in
  assert_eq sanitized "evilMAINPID=42" ;!
  assert (lacks newline sanitized) ;!
  assert (lacks carriage_return sanitized).

Definition test_notify_rejects_interior_nul_in_abstract_name : NotifyTest :=
  let! res := sending (send_notification_to receiver ("@notify" +:+ String nul "anything")
                         (line "READY=1")) in
  assert (negb (is_ok res)).

Definition test_notify_rejects_empty_abstract_name : NotifyTest :=
  let! res := sending (send_notification_to receiver "@" (line "READY=1")) in
  assert (negb (is_ok res)).

Definition notify_tests : list NotifyTest :=
  [test_abstract_notify_all_messages; test_notify_missing_env_noop;
   test_notify_status_strips_embedded_newlines;
   test_notify_rejects_interior_nul_in_abstract_name; test_notify_rejects_empty_abstract_name].

(** The oversize payload is too long to be written down; it is any text of that
    length. *)
Definition test_notify_oversize_payload_rejected (notify_socket : option string) (huge : string) :
    NotifyTest :=
  let! res := sending (send_notification receiver notify_socket huge) in
  assert (negb (is_ok res)).
Lemma oversize_rejected notify_socket huge :
  Z.of_nat (String.length huge) = NOTIFY_MAX + 1 →
  passes_from tt (test_notify_oversize_payload_rejected notify_socket huge) = true.
Proof.
  intros Hlen. unfold test_notify_oversize_payload_rejected, sending, send_notification, ebind.
  by rewrite Hlen.
Qed.

Lemma quota_tests_pass : forallb (passes_from 0) quota_tests = true.
Proof. vm_compute. reflexivity. Qed.
Lemma notify_tests_pass : forallb (passes_from tt) notify_tests = true.
Proof. vm_compute. reflexivity. Qed.

(** * crates/inferenced-daemon/src/sentry/mod.rs *)

Section sentry_test.
#[local] Existing Instances Json.plain_json EndToEndExamples.wire Json.bit_uuid.
Import Json.

Definition make_test_topology : HardwareTopology :=
  topology_of [set_triage_reserved true
    (test_plane "npu-sentry-0" "Protected Sentry NPU Enclave" NpuAccelerator (4 * GiB))].
Definition calm_world : Frontend.FrontWorld :=
  Frontend.mkFrontWorld (λ _ s, s) (λ _, from_level Normal) Z.of_nat
    (λ n, mkLeaseId (1 + N.of_nat n)) (λ _, Ok tt).

(** The client sends its request and reads what the connection writes. *)
Definition test_sentry_enclave_triage_ping_roundtrip : Test unit :=
  let ping_req := jobj
    [("action", jstr "triage_ping"); ("incident_id", jstr "panic-gpu-hang-007");
     ("unit_name", jstr "systemd-sentry.service")] in
  let! text := unwrap (to_vec ping_req) in
  let server := Sentry.handle_sentry_connection calm_world [Ok text; Ok ""]
    (Frontend.mkFront (new_arbiter make_test_topology) 0) in
  let written := omap (λ e, match e with Frontend.Write b => Some b | _ => None end)
                   (calls_of server) in
  let! answer := unwrap_some (written !! 0%nat) in
  assert (0 <? String.length answer)%nat ;!
  let! resp := unwrap (value_from_slice answer) in
  assert_eq (jget "status" resp ≫= as_str) (Some "accepted") ;!
  assert_eq (jget "allocated_plane" resp ≫= as_str) (Some "npu-sentry-0") ;!
  assert_eq (jget "plane_assigned" resp ≫= as_str) (Some "npu-sentry-0") ;!
  assert_eq (jget "incident_id" resp ≫= as_str) (Some "panic-gpu-hang-007") ;!
  assert_eq (jget "preemption_triggered" resp ≫= as_bool) (Some true).

(** * crates/inferenctl/src/main.rs; its other tests are of the parser of
    arguments *)
Definition test_offline_stream_execution (d : Client.DaemonEnd) : Test unit :=
  assert (is_ok (Exec.run_exec d (String "034" ("/tmp/nonexistent_socket.sock" +:+ String "034" ""))
    None "test-model" (Some "unit test prompt") None true).1).
End sentry_test.

(** * crates/inferenctl/src/format.rs *)

Definition test_format_bytes : Test unit :=
  assert_eq (Ctl.format_bytes 512) "512 B" ;!
  assert_eq (Ctl.format_bytes 1024) "1 KB" ;!
  assert_eq (Ctl.format_bytes (1024 * 1024 * 50)) "50 MB" ;!
  assert_eq (Ctl.format_bytes (1024 * 1024 * 1024 * 4)) "4.0 GB".

Definition mute_daemon : Client.DaemonEnd := Client.mkDaemonEnd (λ _, Ok tt) (λ _, "").
Definition daemon_tests : list (Test unit) :=
  [test_load_credential_unset_env; test_load_credential_lifecycle;
   test_resolve_secret_fallback_to_env; test_is_socket_activated_lifecycle 1234;
   test_sentry_enclave_triage_ping_roundtrip; test_offline_stream_execution mute_daemon;
   test_format_bytes].

Lemma daemon_tests_pass : forallb passes daemon_tests = true.
Proof. vm_compute. reflexivity. Qed.

(** * crates/inferenced-daemon/src/inhibit.rs *)

(** A machine without systemd-inhibit; whether the lock file can be opened. *)
Definition inhibit_world (opens : bool) : InhibitWorld :=
  mkInhibitWorld (λ _, Err "No such file or directory")
    (λ _, if opens then Ok tt else Err "No such file or directory")
    (λ _, Ok tt) (λ _ _, Ok tt) (λ _ _, false) (env_of []) 1234.

Definition InhibitTest : Type := eff Inhibitor InhibitEvent string unit.
Definition inh {A} (m : Inh A) : eff Inhibitor InhibitEvent string A := λ i,
  match m i with
  | (Ok a, i', w) => (Ok a, i', w)
  | (Err e, i', w) => (match e with end, i', w)
  end.
Definition manages {A} (f : InhibitorManager → A) : eff Inhibitor InhibitEvent string A :=
  seen_now (λ i, f (manager i)).

Definition test_inhibitor_reference_counting : InhibitTest :=
  let w := inhibit_world true in
  let expect_count n := (let! c := manages active_leases in assert_eq c n) in
  expect_count 0 ;!
  inh (on_lease_acquired w) ;! expect_count 1 ;!
  inh (on_lease_acquired w) ;! expect_count 2 ;!
  inh on_lease_released ;! expect_count 1 ;!
  inh on_lease_released ;! expect_count 0.

#[export] Instance InhibitMode_eq_dec : EqDecision InhibitMode.
Proof. solve_decision. Defined.

(** Somebody else's attempt to lock the file, after what the manager did. *)
Definition taken (path : string) (calls : list InhibitEvent) : bool :=
  foldl (λ b e, match e with
                | Locked p => String.eqb p path || b
                | UnlockedAndRemoved p => negb (String.eqb p path) && b
                | _ => b
                end) false calls.

Definition test_standalone_flock_fallback_lifecycle (path : string) : InhibitTest :=
  let w := inhibit_world true in
  let! p := manages lock_path in assert_eq p path ;!
  let! b := manages is_inhibited in assert (negb b) ;!
  let! (_, calls) := traced (inh (on_lease_acquired w)) in
  let! b := manages is_inhibited in assert b ;!
  let! mode := manages active_mode in assert_eq mode (Some MStandaloneFileLock) ;!
  assert (taken path calls) ;!
  inh on_lease_released ;!
  let! b := manages is_inhibited in assert (negb b) ;!
  let! mode := manages active_mode in assert_eq mode None.

(** What the manager writes to the bus, in order. *)
Definition on_bus (calls : list InhibitEvent) : list string :=
  omap (λ e, match e with WroteBus t => Some t | _ => None end) calls.
Definition heard (i : nat) (start_of : string) (calls : list InhibitEvent) : bool :=
  match on_bus calls !! i with Some t => starts_with t start_of | None => false end.

Definition test_unix_bus_socket_fallback_lifecycle : InhibitTest :=
  let w := inhibit_world false in
  let! (_, calls) := traced (inh (on_lease_acquired w)) in
  let! b := manages is_inhibited in assert b ;!
  let! mode := manages active_mode in assert_eq mode (Some MUnixBusSocket) ;!
  assert (heard 0 "INHIBIT:sleep:idle" calls) ;!
  let! (_, calls') := traced (inh on_lease_released) in
  let! b := manages is_inhibited in assert (negb b) ;!
  assert (heard 1 "RELEASE" (calls ++ calls')).

(** Each with the manager it starts from. *)
Definition inhibit_tests : list (InhibitorManager * InhibitTest) :=
  let path := "/tmp/inf_test_1234/test_inhibit.lock" in
  [(with_lock_path "/run/systemd-inferenced/inhibit.lock", test_inhibitor_reference_counting);
   (with_options path true, test_standalone_flock_fallback_lifecycle path);
   (with_bus_socket "/tmp/inf_sock_1234/bus.sock" (with_options "/proc/0/bad.lock" true),
    test_unix_bus_socket_fallback_lifecycle)].
Definition inhibit_passes (mt : InhibitorManager * InhibitTest) : bool :=
  passes_from (mkInhibitor mt.1 0) mt.2.

Lemma inhibit_tests_pass : forallb inhibit_passes inhibit_tests = true.
Proof. vm_compute. reflexivity. Qed.
