(* ===== verification/CrowdTests.v ===== *)
(** Tests whose tasks come and go side by side, for every interleaving of the
    tasks: the concurrent tests of qa/fuzz/mod.rs, qa/edge/sentry_stress.rs and
    qa/edge/psi_churn_stress_tests.rs, and the churn of
    qa/edge/challenger_r3_psi_uma_stress.rs (its thaw storm is in StormTests.v). What a test does before it spawns its tasks runs on the bench;
    the tasks are a crowd of Crowd.v, whose theorem is applied at the end. *)
From Stdlib Require Import SpecFloat.
From S2P Require Import Prelude Lease Errors Topology Text Model Host Psi Arbiter Discovery.
From S2P Require Import Ledger Grant Runs Lifecycle Spec Crowd Bench ArbiterTests.
Local Open Scope Z_scope.

(** * Tools *)

(** A run of operations on the bench's arbiter, each of which is allowed and
    promises no memory that is not there. *)
#[export] Instance op_ok_dec op s : Decision (op_ok op s).
Proof. unfold op_ok, is_u64. destruct op; apply _. Defined.
Definition prudent (op : arbiter_op) (s : ArbiterState) : bool :=
  bool_decide (op_ok op s) && negb (overcommits bench_order op s) && negb (replaces_topology op).
Fixpoint script (ops : list arbiter_op) (s : ArbiterState) : option ArbiterState :=
  match ops with
  | [] => Some s
  | op :: ops' => if prudent op s then script ops' (exec bench_order bench_order op s) else None
  end.
Lemma script_careful topo ops s s' :
  careful topo s → script ops s = Some s' → careful topo s'.
Proof.
  revert s. induction ops as [|op ops IH]; intros s Hs Hrun; [by injection Hrun as <-|].
  simpl in Hrun. destruct (prudent op s) eqn:Hp; [|done]. unfold prudent in Hp. reflect_bools.
  refine (IH _ _ Hrun). assert (topology_after op topo = topo) as <- by by destruct op.
  by apply careful_step.
Qed.

(** Every task of a crowd has ended. *)
Definition joined (ps : list Phase) : Prop :=
  ∀ i ph, ps !! i = Some ph → ph = Left ∨ ∃ e, ph = Refused e.
Lemma joined_empty_handed ps : joined ps → ∀ i id, ps !! i ≠ Some (Holding id).
Proof. intros Hj i id Hi. by destruct (Hj i _ Hi) as [?|[? ?]]. Qed.

(** All memory is back once a crowd has been joined. *)
Lemma crowd_returns topo start demands s ps log i :
  roomy topo start demands → crowd start demands s ps log → joined ps →
  free_memory i s = p_available_memory_bytes <$> t_planes topo !! i.
Proof.
  intros Hr Hrun Hj. unfold free_memory.
  by destruct (crowd_over topo start demands s ps log Hr Hrun (joined_empty_handed ps Hj)) as [-> _].
Qed.

(** Emergencies are served, and hold what they asked for until they leave. *)
Lemma emergencies_served topo start demands s ps log :
  roomy topo start demands → Forall (λ d, dm_priority d = EmergencyTriage) demands →
  crowd start demands s ps log →
  (∀ i e, ps !! i ≠ Some (Refused e)) ∧
  (∀ i id, ps !! i = Some (Holding id) → l_priority <$> get_lease id s = Some EmergencyTriage) ∧
  (joined ps → free_memory 0 s = p_available_memory_bytes <$> t_planes topo !! 0%nat).
Proof.
  intros Hr Hem Hrun. destruct (crowd_invariant _ _ _ _ _ _ Hr Hrun). split_and!; [done| |].
  - intros i id Hi. destruct (inv_held i id Hi) as (d & l & Hd & Hl & _ & Hpr & _).
    unfold get_lease. rewrite Hl. simpl. by rewrite Hpr, (Forall_lookup_1 _ _ _ _ Hem Hd).
  - intros Hj. by eapply crowd_returns.
Qed.

(** Clients that come and go leave nothing but expired leases. *)
Lemma all_expired_spec s :
  (∀ id l, leases s !! id = Some l → l_state l = Expired) → all_expired s = true.
Proof.
  intros Hall. apply forallb_forall. intros l Hl. apply bool_decide_eq_true.
  apply list_elem_of_In, list_elem_of_fmap in Hl as ([id l'] & -> & Hl).
  apply elem_of_hash_iter in Hl. by eapply Hall.
Qed.
Lemma churners_leave topo start demands :
  roomy topo start demands → ∀ s ps log, crowd start demands s ps log →
  (∀ i e, ps !! i ≠ Some (Refused e)) ∧
  (joined ps → free_memory 0 s = p_available_memory_bytes <$> t_planes topo !! 0%nat ∧
     all_expired s = true).
Proof.
  intros Hr s ps log Hrun. destruct (crowd_invariant _ _ _ _ _ _ Hr Hrun). split; [done|]. intros Hj.
  split; [by eapply crowd_returns|]. apply all_expired_spec.
  by destruct (crowd_over _ _ _ _ _ _ Hr Hrun (joined_empty_handed ps Hj)).
Qed.

Ltac by_computation := apply (bool_decide_unpack _); vm_compute; exact I.
Lemma roomy_at_first topo demands :
  planes_ok (t_planes topo) → roomy topo (new_arbiter topo) demands ↔
  Forall (λ d, is_u64 (dm_bytes d)) demands ∧
  Forall (λ d, is_ok (select_plane (t_planes topo) (dm_priority d) (dm_plane d)) = true) demands ∧
  Forall (λ p, demand demands ≤ p_available_memory_bytes p) (t_planes topo).
Proof.
  intros Hok. split; [by intros []|]. intros (H1 & H2 & H3).
  split; try done. by constructor.
Qed.

(** * qa/fuzz/mod.rs *)

Definition fuzz_topology : HardwareTopology :=
  topology_of [test_plane "plane-fuzz" "Fuzzing Stress Plane" DiscreteGpu (100 * GiB)].
Definition fuzz_priority (i : nat) : LeasePriority :=
  if (i mod 5 =? 0)%nat then EmergencyTriage
  else if (i mod 2 =? 0)%nat then Interactive else Batch.
Definition fuzz_clients : list Demand :=
  (λ i, mkDemand (fuzz_priority i) ((Z.of_nat i + 1) * 256 * MiB) None None None) <$> seq 0 20.

Definition test_fuzz_concurrent_randomized_leases : Prop :=
  ∀ s ps log, crowd (new_arbiter fuzz_topology) fuzz_clients s ps log → joined ps →
    free_memory 0 s = Some (100 * GiB).

Lemma fuzz_roomy : roomy fuzz_topology (new_arbiter fuzz_topology) fuzz_clients.
Proof. apply roomy_at_first; [by_computation|]. split_and!; by_computation. Qed.
Lemma fuzz_passes : test_fuzz_concurrent_randomized_leases.
Proof. intros s ps log Hrun Hj. by rewrite (crowd_returns _ _ _ _ _ _ 0 fuzz_roomy Hrun Hj). Qed.

(** * qa/edge/sentry_stress.rs *)

Definition sentry_pings : list Demand :=
  (λ i, mkDemand EmergencyTriage (128 * MiB) None (Some (numbered "systemd-sentry-worker-" i ""))
          None) <$> seq 0 15.

Definition test_edge_sentry_rapid_concurrent_pings : Prop :=
  ∀ s ps log, crowd (new_arbiter make_stress_topology) sentry_pings s ps log →
    (∀ i e, ps !! i ≠ Some (Refused e)) ∧
    (∀ i id, ps !! i = Some (Holding id) →
       l_priority <$> get_lease id s = Some EmergencyTriage) ∧
    (joined ps → free_memory 0 s = Some (2 * GiB)).

Lemma pings_roomy : roomy make_stress_topology (new_arbiter make_stress_topology) sentry_pings.
Proof. apply roomy_at_first; [by_computation|]. split_and!; by_computation. Qed.
Lemma pings_emergency : Forall (λ d, dm_priority d = EmergencyTriage) sentry_pings.
Proof. by_computation. Qed.
Lemma pings_pass : test_edge_sentry_rapid_concurrent_pings.
Proof. intros s ps log. apply (emergencies_served _ _ _ _ _ _ pings_roomy pings_emergency). Qed.

(** * qa/edge/challenger_r3_psi_uma_stress.rs: pressure and churn *)

Definition create_psi_topology (total_mem : Z) : HardwareTopology :=
  topology_of [test_plane "plane-psi-adversarial" "Adversarial PSI Test Plane" DiscreteGpu total_mem].

(** Steps 1 and 2, one after the other. *)
Definition rapid_psi_oscillation : Test unit :=
  (start (create_psi_topology (8 * GiB)) ;!
   let! results := each (seq 0 20) (λ _,
     acquire_under Critical Interactive (128 * MiB) None None None) in
   let rejected := length (List.filter is_saturated results) in
   assert_eq rejected 20%nat ;!
   let! triage_leases := each (seq 0 10) (λ i,
     ok (acquire_under Critical EmergencyTriage (128 * MiB) (Some "plane-psi-adversarial")
           (Some (numbered "sentry-triage-" i ".service")) (Some (9000 + Z.of_nat i)))) in
   assert_eq (length triage_leases) 10%nat ;!
   each triage_leases (λ l, ok (release (l_id l))) ;!
   eret tt)%eff.
Definition before_churn : ArbiterState := b_arbiter (state_of (rapid_psi_oscillation bench)).

(** Step 3: 60 tasks, and what is left when they have been joined. *)
Definition churn_clients : list Demand :=
  (λ i, mkDemand Interactive (64 * MiB) (Some "plane-psi-adversarial")
          (Some (numbered "churn-client-" i ".service")) (Some (8000 + Z.of_nat i))) <$> seq 0 60.

Definition test_adversarial_rapid_psi_oscillation_under_extreme_churn : Prop :=
  passes rapid_psi_oscillation = true ∧
  ∀ s ps log, crowd before_churn churn_clients s ps log →
    (∀ i e, ps !! i ≠ Some (Refused e)) ∧
    (joined ps → free_memory 0 s = Some (8 * GiB) ∧ all_expired s = true).

(** The operations behind steps 1 and 2, with the identifiers the bench gave. *)
Definition oscillation_script : list arbiter_op :=
  ((λ n, AcquireLease (from_level Critical) (Z.of_nat n) (mkLeaseId (N.of_nat n)) Interactive
           (128 * MiB) None None None) <$> seq 1 20)
  ++ ((λ i, AcquireLease (from_level Critical) (21 + Z.of_nat i) (mkLeaseId (21 + N.of_nat i))
              EmergencyTriage (128 * MiB) (Some "plane-psi-adversarial")
              (Some (numbered "sentry-triage-" i ".service")) (Some (9000 + Z.of_nat i))) <$> seq 0 10)
  ++ ((λ i, ReleaseLease (mkLeaseId (21 + N.of_nat i))) <$> seq 0 10).

Lemma churn_roomy : roomy (create_psi_topology (8 * GiB)) before_churn churn_clients.
Proof.
  split.
  - apply (script_careful _ oscillation_script (new_arbiter (create_psi_topology (8 * GiB)))).
    + constructor. by_computation.
    + vm_compute. reflexivity.
  - assert (Hall : map_Forall (λ _ l, l_state l = Expired) (leases before_churn)) by by_computation.
    exact Hall.
  - by_computation.
  - by_computation.
  - by_computation.
Qed.
Lemma churn_passes : test_adversarial_rapid_psi_oscillation_under_extreme_churn.
Proof. split; [vm_compute; reflexivity|]. apply (churners_leave _ _ _ churn_roomy). Qed.

(** * qa/edge/psi_churn_stress_tests.rs *)

Definition create_test_topology (total_mem : Z) : HardwareTopology :=
  topology_of [test_plane "plane-psi-stress" "PSI Stress Plane" DiscreteGpu total_mem].

(** Step 1 of the first test: 50 tasks, each of which asks once, at any time and
    in any order, under critical pressure. *)
Definition throttled_demands : list Demand :=
  (λ i, mkDemand (if (i mod 2 =? 0)%nat then Interactive else Batch) (128 * MiB)
          (Some "plane-psi-stress") (Some (numbered "client-" i ".service"))
          (Some (1000 + Z.of_nat i))) <$> seq 0 50.
Record visit := mkVisit {
  vs_demand : Demand;
  vs_order : HashOrder LeaseId ComputeLease;
  vs_now : Z;
  vs_fresh : LeaseId;
}.
Definition knock (v : visit) : Arb ComputeLease :=
  acquire_lease (ho := vs_order v) (from_level Critical) (vs_now v) (vs_fresh v)
    (dm_priority (vs_demand v)) (dm_bytes (vs_demand v)) (dm_plane (vs_demand v))
    (dm_unit (vs_demand v)) (dm_pid (vs_demand v)).
Definition knocked (vs : list visit) (s : ArbiterState) : ArbiterState :=
  foldl (λ s v, state_of (knock v s)) s vs.

(** Step 2: 10 emergencies. *)
Definition triage_demands : list Demand :=
  (λ i, mkDemand EmergencyTriage (256 * MiB) (Some "plane-psi-stress")
          (Some (numbered "sentry-triage-" i ".service")) (Some (2000 + Z.of_nat i))) <$> seq 0 10.

Definition test_psi_churn_stress_under_critical_pressure : Prop :=
  let total_mem := 16 * GiB in
  ∀ visits, vs_demand <$> visits ≡ₚ throttled_demands →
    let s0 := new_arbiter (create_test_topology total_mem) in
    let s1 := knocked visits s0 in
    (∀ before v after, visits = before ++ v :: after →
       is_saturated (res_of (knock v (knocked before s0))) = true) ∧
    free_memory 0 s1 = Some total_mem ∧
    ∀ s ps log, crowd s1 triage_demands s ps log →
      (∀ i e, ps !! i ≠ Some (Refused e)) ∧
      (∀ i id, ps !! i = Some (Holding id) →
         l_priority <$> get_lease id s = Some EmergencyTriage) ∧
      (joined ps → free_memory 0 s = Some total_mem).

(** The second test: a refusal, then 50 clients that churn. *)
Definition refused_first : Test unit :=
  (start (create_test_topology (8 * GiB)) ;!
   let! fail_res := acquire_under Critical Interactive (128 * MiB) None None None in
   assert (is_saturated fail_res))%eff.
Definition after_refusal : ArbiterState := b_arbiter (state_of (refused_first bench)).
Definition workers : list Demand :=
  (λ i, mkDemand Interactive (64 * MiB) (Some "plane-psi-stress")
          (Some (numbered "worker-" i ".service")) (Some (3000 + Z.of_nat i))) <$> seq 0 50.

Definition test_psi_transition_from_critical_to_normal_churn : Prop :=
  passes refused_first = true ∧
  ∀ s ps log, crowd after_refusal workers s ps log →
    (∀ i e, ps !! i ≠ Some (Refused e)) ∧
    (joined ps → free_memory 0 s = Some (8 * GiB) ∧ all_expired s = true).

(** The third test, which has one task only. *)
Definition test_inferenced_simulate_psi_task_local_hook : Test unit :=
  (let read l := read_current (Some l) (λ _, None) (snapshot [] []) in
   let shows (x : spec_float) n := assert (SFeqb x (f32 n)) in
   assert (bool_decide (level (read Critical) = Critical)) ;!
   shows (memory_some_avg10 (read Critical)) 60 ;! shows (memory_full_avg10 (read Critical)) 25 ;!
   assert (bool_decide (level (read Elevated) = Elevated)) ;!
   shows (memory_some_avg10 (read Elevated)) 20 ;!
   assert (bool_decide (level (read Normal) = Normal)) ;!
   shows (memory_some_avg10 (read Normal)) 0)%eff.
Lemma hook_passes : passes test_inferenced_simulate_psi_task_local_hook = true.
Proof. vm_compute. reflexivity. Qed.

(** A request that is throttled touches nothing. *)
Lemma knock_throttled v s :
  dm_priority (vs_demand v) ≠ EmergencyTriage →
  knock v s = (Err (BusSaturation (memory_some_avg10 (from_level Critical))
                      (memory_full_avg10 (from_level Critical))), s, []).
Proof. intros Hp. unfold knock. rewrite acquire_unfold. by destruct (dm_priority (vs_demand v)). Qed.
Lemma knocked_throttled vs s :
  Forall (λ v, dm_priority (vs_demand v) ≠ EmergencyTriage) vs → knocked vs s = s.
Proof.
  induction 1 as [|v vs Hv _ IH]; [done|]. unfold knocked in *. simpl. by rewrite knock_throttled.
Qed.

Lemma triage_roomy :
  roomy (create_test_topology (16 * GiB)) (new_arbiter (create_test_topology (16 * GiB))) triage_demands.
Proof. apply roomy_at_first; [by_computation|]. split_and!; by_computation. Qed.
Lemma triage_emergency : Forall (λ d, dm_priority d = EmergencyTriage) triage_demands.
Proof. by_computation. Qed.

Lemma critical_pressure_passes : test_psi_churn_stress_under_critical_pressure.
Proof.
  cbv delta [test_psi_churn_stress_under_critical_pressure] beta.
  intros total_mem visits Hvisits s0 s1.
  assert (Hcalm : Forall (λ v, dm_priority (vs_demand v) ≠ EmergencyTriage) visits).
  { apply (Forall_fmap vs_demand (λ d, dm_priority d ≠ EmergencyTriage)). rewrite Hvisits. by_computation. }
  assert (s1 = s0) as -> by (by apply knocked_throttled). split_and!.
  - intros before v after ->. apply Forall_app in Hcalm as [Hbefore [Hv _]%Forall_cons].
    by rewrite knocked_throttled, knock_throttled.
  - reflexivity.
  - intros s ps log Hrun. by apply (emergencies_served _ _ _ _ _ _ triage_roomy triage_emergency Hrun).
Qed.

Lemma workers_roomy : roomy (create_test_topology (8 * GiB)) after_refusal workers.
Proof. apply roomy_at_first; [by_computation|]. split_and!; by_computation. Qed.
Lemma transition_passes : test_psi_transition_from_critical_to_normal_churn.
Proof. split; [vm_compute; reflexivity|]. apply (churners_leave _ _ _ workers_roomy). Qed.

(** * The theorems of Crowd.v at work *)

(** In the churn, the fourth client comes, the sixth comes, the fourth leaves. *)
Definition churn_arrives (n i : nat) (s : ArbiterState) :=
  acquire_lease (from_level Normal) 0 (mkLeaseId (100 + N.of_nat n)) Interactive (64 * MiB)
    (Some "plane-psi-adversarial") (Some (numbered "churn-client-" i ".service"))
    (Some (8000 + Z.of_nat i)) s.
Definition churn1 : ArbiterState := state_of (churn_arrives 0 3 before_churn).
Definition churn2 : ArbiterState := state_of (churn_arrives 1 5 churn1).
Definition churn3 : ArbiterState := state_of (release_lease (mkLeaseId 100) churn2).
Definition churn_phases : list Phase :=
  <[3%nat := Left]> (<[5%nat := Holding (mkLeaseId 101)]> (<[3%nat := Holding (mkLeaseId 100)]>
    ((λ _, Waiting) <$> churn_clients))).

Lemma churn_run : crowd before_churn churn_clients churn3 churn_phases [].
Proof.
  apply (crowd_leave _ _ churn2 _ [] 3 (mkLeaseId 100)); [|reflexivity].
  refine (crowd_arrive before_churn churn_clients churn1 _ [] 5 _ bench_order (from_level Normal) 0 (mkLeaseId 101)
    _ _ eq_refl _ (or_introl eq_refl)); [|reflexivity|vm_compute; reflexivity].
  refine (crowd_arrive before_churn churn_clients before_churn _ [] 3 _ bench_order (from_level Normal) 0 (mkLeaseId 100)
    (crowd_open _ _) _ eq_refl _ (or_introl eq_refl)); [reflexivity|vm_compute; reflexivity].
Qed.

Lemma crowd_undisturbed_witness :
  churn_phases !! 5%nat = Some (Holding (mkLeaseId 101)) ∧
  (([] : list FreezerCall) = [] ∧ (∀ i e, churn_phases !! i ≠ Some (Refused e)) ∧
  (∀ i id, churn_phases !! i = Some (Holding id) → ∃ d l,
     churn_clients !! i = Some d ∧ leases churn3 !! id = Some l ∧ l_state l = Active ∧
     l_priority l = dm_priority d ∧ l_allocated_memory_bytes l = dm_bytes d ∧
     l_client_unit l = dm_unit d ∧ l_client_pid l = dm_pid d) ∧
  ((∀ i id, churn_phases !! i ≠ Some (Holding id)) →
     planes churn3 = t_planes (create_psi_topology (8 * GiB)) ∧
     ∀ id l, leases churn3 !! id = Some l → l_state l = Expired)).
Proof.
  split; [reflexivity|].
  apply (crowd_undisturbed (create_psi_topology (8 * GiB)) before_churn churn_clients churn3
    churn_phases []); [apply churn_roomy|apply churn_run].
Defined.
