(* ===== verification/StormTests.v ===== *)
(** The thaw storms of qa/edge/challenger_r3_psi_uma_stress.rs and
    qa/edge/uma_thaw_storm_tests.rs, whose four phases each run many tasks side by
    side: they pass in every interleaving of them. The first two phases are waves
    of Wave.v, the third is a storm of Crowd.v. *)
From Stdlib Require Import SpecFloat.
From S2P Require Import Prelude Lease Errors Topology Text Model Host Psi Arbiter Discovery.
From S2P Require Import Ledger Grant Runs Lifecycle Acquire Spec Admission Crowd Wave Bench ArbiterTests.
Local Open Scope Z_scope.

Definition create_uma_cpu_topology (capacity_bytes : Z) : HardwareTopology :=
  topology_of
    [{| p_id := "plane-uma-adv"; p_name := "Adversarial UMA Plane"; p_kind := IntegratedUma;
        p_device_path := None; p_total_memory_bytes := capacity_bytes;
        p_available_memory_bytes := capacity_bytes; p_numa_node := Some 0;
        p_supported_formats := []; p_is_triage_reserved := false; p_is_quarantined := false;
        p_hardware_features := ["unified_memory"] |};
     {| p_id := "plane-cpu-adv"; p_name := "Adversarial CPU Plane"; p_kind := CpuMatrixExtension;
        p_device_path := None; p_total_memory_bytes := capacity_bytes;
        p_available_memory_bytes := capacity_bytes; p_numa_node := Some 0;
        p_supported_formats := []; p_is_triage_reserved := false; p_is_quarantined := false;
        p_hardware_features := ["avx512"] |}].

(** [create_uma_cpu_topology] of qa/edge/uma_thaw_storm_tests.rs. *)
Definition create_thaw_topology (capacity_bytes : Z) : HardwareTopology :=
  topology_of
    [{| p_id := "plane-uma-0"; p_name := "Integrated UMA Plane"; p_kind := IntegratedUma;
        p_device_path := None; p_total_memory_bytes := capacity_bytes;
        p_available_memory_bytes := capacity_bytes; p_numa_node := Some 0;
        p_supported_formats := []; p_is_triage_reserved := false; p_is_quarantined := false;
        p_hardware_features := ["unified_memory"] |};
     {| p_id := "plane-cpu-0"; p_name := "CPU Matrix Extension"; p_kind := CpuMatrixExtension;
        p_device_path := None; p_total_memory_bytes := capacity_bytes;
        p_available_memory_bytes := capacity_bytes; p_numa_node := Some 0;
        p_supported_formats := []; p_is_triage_reserved := false; p_is_quarantined := false;
        p_hardware_features := ["amx"] |}].

(** [check_dual_accounting] on the planes of an arbiter. *)
Definition check_dual_accounting (ps : list ComputePlane) : bool :=
  match find_first is_uma ps, find_first is_cpu ps with
  | Some uma, Some cpu => p_available_memory_bytes uma =? p_available_memory_bytes cpu
  | _, _ => false
  end.
(** The accounts agree, and so much is free. *)
Definition accounts (s : ArbiterState) (free : Z) : Prop :=
  check_dual_accounting (planes s) = true ∧
  free_memory 0 s = Some free ∧ free_memory 1 s = Some free.

(** * The tasks *)

(** [n] tasks that each acquire [bytes], with a unit and a pid by number; they
    come in any order, at any time, under any readings that are not critical,
    with any identifiers. *)
Record tasks (bytes : Z) (name : string) (pid : Z) (n : nat) (wave : list request) : Prop := {
  tasks_spawned : (λ rq, (rq_bytes rq, rq_unit rq, rq_pid rq)) <$> wave ≡ₚ
    (λ i, (bytes, Some (numbered name i ".service"), Some (pid + Z.of_nat i))) <$> seq 0 n;
  tasks_calm : Forall (λ rq, is_critical (rq_psi rq) = false) wave;
  tasks_apart : NoDup (rq_fresh <$> wave);
}.

(** Phase 3: the interleaved steps of tasks that each return a lease and of
    tasks that each try to resume one until they succeed. *)
Record stormed (s0 : ArbiterState) (guests sleepers : list LeaseId) (ops : list storm_op) : Prop := {
  storm_tasks : Forall (storm_ok guests sleepers) ops;
  storm_returns : ∀ id, id ∈ guests → Return id ∈ ops;
  storm_resumes : ∀ id, id ∈ sleepers → ∃ ops1 ops2,
    ops = ops1 ++ Resume id :: ops2 ∧ res_of (thaw_lease id (weathered ops1 s0)) = Ok tt;
}.

(** Each request of a wave for [plane] is granted. *)
Definition all_granted (plane : string) (pr : LeasePriority) (wave : list request) (s : ArbiterState) : Prop :=
  ∀ w1 rq w2, wave = w1 ++ rq :: w2 →
    is_ok (res_of (ask pr plane rq (after_wave pr plane w1 s))) = true.

(** A storm: its four phases and the accounts after each. First [batch_tasks] take
    the whole of the plane [uma], then [interactive_tasks] take it over; a thaw
    that fails for another reason than memory would panic. *)
Definition thaw_storm (topo : HardwareTopology) (uma : string) (capacity : Z)
    (batch_tasks interactive_tasks : list request → Prop) (n : nat) : Prop :=
  ∀ batch interactive ops,
    let s0 := new_arbiter topo in
    let s1 := after_wave Batch uma batch s0 in
    let s2 := after_wave Interactive uma interactive s1 in
    let batch_ids := rq_fresh <$> batch in
    let interactive_ids := rq_fresh <$> interactive in
    let s3 := weathered ops s2 in
    let s4 := weathered (Return <$> batch_ids) s3 in
    batch_tasks batch → interactive_tasks interactive →
    (∀ id, id ∈ interactive_ids → id ∉ batch_ids) →
    stormed s2 interactive_ids batch_ids ops →
    accounts s0 capacity ∧
    all_granted uma Batch batch s0 ∧ accounts s1 0 ∧
    all_granted uma Interactive interactive s1 ∧ count_state Preempted s2 = n ∧ accounts s2 0 ∧
    (∀ ops1 id ops2, ops = ops1 ++ Resume id :: ops2 →
       res_of (thaw_lease id (weathered ops1 s2)) = Ok tt ∨
       is_exhausted (res_of (thaw_lease id (weathered ops1 s2))) = true) ∧
    accounts s3 0 ∧ accounts s4 capacity.

(** qa/edge/challenger_r3_psi_uma_stress.rs *)
Definition batch_tasks : list request → Prop := tasks GiB "batch-task-" 400 16.
Definition interactive_tasks : list request → Prop := tasks (2 * GiB) "interactive-task-" 600 8.
Definition test_adversarial_uma_cpu_preemption_and_mass_thaw_storm : Prop :=
  let capacity := 16 * GiB in
  thaw_storm (create_uma_cpu_topology capacity) "plane-uma-adv" capacity batch_tasks interactive_tasks 16.

(** qa/edge/uma_thaw_storm_tests.rs *)
Definition batch_workers : list request → Prop := tasks GiB "batch-worker-" 100 8.
Definition interactive_workers : list request → Prop := tasks (2 * GiB) "interactive-worker-" 200 4.
Definition test_uma_preemption_and_concurrent_thaw_storm : Prop :=
  let plane_size := 8 * GiB in
  thaw_storm (create_thaw_topology plane_size) "plane-uma-0" plane_size batch_workers
    interactive_workers 8.

(** * The accounts *)

(** A machine of one unified-memory plane [uma] and its host [cpu], of [capacity]
    bytes each, in which [n] batch jobs of a gigabyte, or [m] interactive ones of
    two, fill the plane. *)
Record stage (topo : HardwareTopology) (uma cpu : string) (capacity : Z) (n m : nat) : Prop := {
  stage_ok : planes_ok (t_planes topo);
  stage_first : ∃ p0, t_planes topo !! 0%nat = Some p0 ∧ p_id p0 = uma;
  stage_capacity : Spec.capacity topo uma = capacity;
  stage_even : Forall (λ p, Spec.capacity topo uma ≤ p_available_memory_bytes p) (t_planes topo);
  stage_charged : uma ∈ charges (t_planes topo) uma;
  stage_both l : l_plane_id l = uma → draw (t_planes topo) cpu l = draw (t_planes topo) uma l;
  stage_draw l : l_plane_id l = uma → is_active l = true →
    draw (t_planes topo) uma l = l_allocated_memory_bytes l;
  stage_reach pr ls : reach topo pr ls 0 = capacity - firm (t_planes topo) pr ls uma;
  stage_covered ls : held (t_planes topo) ls uma ≤ capacity → held (t_planes topo) ls cpu ≤ capacity →
    covered topo ls;
  stage_accounts s h : h cpu = h uma →
    planes s = (λ p, set_available (p_available_memory_bytes p - h (p_id p)) p) <$> t_planes topo →
    accounts s (capacity - h uma);
  stage_batch : capacity = GiB * Z.of_nat n;
  stage_interactive : capacity = 2 * GiB * Z.of_nat m;
}.

Ltac by_computation := apply (bool_decide_unpack _); vm_compute; exact I.
Ltac set_stage :=
  split;
  [ by_computation | by eexists | reflexivity | by_computation | by_computation
  | intros l Hl; unfold draw; rewrite Hl; destruct (is_active l); reflexivity
  | intros l Hl Hact; unfold draw; rewrite Hl, Hact; reflexivity
  | reflexivity
  | intros ls Hu Hc; constructor; [exact Hu|constructor; [exact Hc|constructor]]
  | intros s h Hh Hps; unfold accounts, free_memory; rewrite Hps;
    unfold topology_of; cbn; unfold check_dual_accounting; cbn; rewrite Hh;
    split_and!; [apply Z.eqb_refl|done..]
  | reflexivity | reflexivity ].
Lemma adv_stage : stage (create_uma_cpu_topology (16 * GiB)) "plane-uma-adv" "plane-cpu-adv" (16 * GiB) 16 8.
Proof. set_stage. Qed.
Lemma thaw_stage : stage (create_thaw_topology (8 * GiB)) "plane-uma-0" "plane-cpu-0" (8 * GiB) 8 4.
Proof. set_stage. Qed.

Section accounts.
Context (topo : HardwareTopology) (uma cpu : string) (capacity : Z) (n m : nat).
Context (Hstage : stage topo uma cpu capacity n m).
Implicit Types (s : ArbiterState) (ls : gmap LeaseId ComputeLease) (wave : list request).

Definition on_uma ls : Prop := map_Forall (λ _ l, l_plane_id l = uma) ls.

Lemma held_both ls : on_uma ls → held (t_planes topo) ls cpu = held (t_planes topo) ls uma.
Proof. intros Hon. apply msum_ext. intros k l Hl. by apply (stage_both _ _ _ _ _ _ Hstage), (Hon k l). Qed.

Lemma accounts_at s ls held0 free :
  careful topo s → leases s = ls → on_uma ls → held (t_planes topo) ls uma = held0 →
  capacity - held0 = free → accounts s free.
Proof.
  intros Hrun <- Hon <- <-.
  apply (stage_accounts _ _ _ _ _ _ Hstage s (held (t_planes topo) (leases s))); [by apply held_both|].
  by apply careful_planes.
Qed.
End accounts.

Lemma tasks_sizes bytes name pid n wave rq :
  tasks bytes name pid n wave → rq ∈ wave → rq_bytes rq = bytes.
Proof.
  intros Ht Hrq. pose proof (list_elem_of_fmap_2 (λ rq, (rq_bytes rq, rq_unit rq, rq_pid rq)) _ _ Hrq) as Hin.
  rewrite (tasks_spawned _ _ _ _ _ Ht) in Hin. apply list_elem_of_fmap in Hin as (i & [= -> _ _] & _). done.
Qed.

Lemma tasks_length bytes name pid n wave : tasks bytes name pid n wave → length wave = n.
Proof.
  intros Ht. pose proof (Permutation_length (tasks_spawned _ _ _ _ _ Ht)) as Hlen.
  by rewrite !length_fmap, length_seq in Hlen.
Qed.

Lemma demanded_const bytes wave :
  (∀ rq, rq ∈ wave → rq_bytes rq = bytes) → demanded wave = bytes * Z.of_nat (length wave).
Proof.
  induction wave as [|rq wave IH]; intros Hall; simpl; [lia|].
  rewrite (Hall rq), IH by set_solver. lia.
Qed.

Lemma tasks_demand bytes name pid n wave :
  tasks bytes name pid n wave → demanded wave = bytes * Z.of_nat n.
Proof.
  intros Ht. rewrite (demanded_const bytes); [by rewrite (tasks_length _ _ _ _ _ Ht)|].
  intros rq. by eapply tasks_sizes.
Qed.

Lemma tasks_timely bytes name pid n wave pr s :
  tasks bytes name pid n wave → is_u64 bytes → (∀ id, id ∈ rq_fresh <$> wave → leases s !! id = None) →
  Forall (timely pr s) wave.
Proof.
  intros Ht Hsize Hnew. apply Forall_forall. intros rq Hrq. split.
  - left. by apply (proj1 (Forall_forall _ _) (tasks_calm _ _ _ _ _ Ht)).
  - by rewrite (tasks_sizes _ _ _ _ _ _ Ht Hrq).
  - by apply Hnew, list_elem_of_fmap_2.
Qed.

(** * The phases *)

(** Who preempts whom. *)
Lemma peers_safe uma pr rq : preemptable_on uma pr (granted pr uma rq) = false.
Proof. unfold preemptable_on. simpl. by rewrite Z.ltb_irrefl, andb_false_r. Qed.
Lemma batch_below uma rq : preemptable_on uma Interactive (granted Batch uma rq) = true.
Proof. unfold preemptable_on. simpl. by rewrite bool_decide_true. Qed.

Section phases.
Context (adv : HardwareTopology) (uma cpu : string) (capacity : Z) (n m : nat).
Context (Hstage : stage adv uma cpu capacity n m).
Context (batch interactive : list request) (bname iname : string) (bpid ipid : Z).
Context (Hbatch : tasks GiB bname bpid n batch) (Hinteractive : tasks (2 * GiB) iname ipid m interactive).
Context (Hapart : ∀ id, id ∈ rq_fresh <$> interactive → id ∉ rq_fresh <$> batch).
Let s0 : ArbiterState := new_arbiter adv.
Let s1 : ArbiterState := after_wave Batch uma batch s0.
Let s2 : ArbiterState := after_wave Interactive uma interactive s1.

Lemma uma_plane : ∃ p0, t_planes adv !! 0%nat = Some p0 ∧ p_id p0 = uma.
Proof. apply Hstage. Qed.

Lemma uma_alone ls : on_uma uma ls → alone uma adv ls.
Proof.
  intros Hon. split.
  - intros p Hp _. by apply (proj1 (Forall_forall _ _) (stage_even _ _ _ _ _ _ Hstage)).
  - intros k l a Hl _ _ _. rewrite (Hon k l Hl). apply Hstage.
Qed.

(** Phase 1 *)
Lemma batch_wave : wave_ok Batch uma adv 0 s0 batch.
Proof.
  split.
  - constructor. apply Hstage.
  - apply uma_alone, map_Forall_empty.
  - apply uma_plane.
  - by eapply tasks_timely; [apply Hbatch|..].
  - apply Hbatch.
  - rewrite (tasks_demand _ _ _ _ _ Hbatch), (stage_reach _ _ _ _ _ _ Hstage), <-(stage_batch _ _ _ _ _ _ Hstage).
    assert (firm (t_planes adv) Batch (leases s0) uma = 0) as -> by apply msum_empty. lia.
Qed.

Lemma after_batch k l : leases s1 !! k = Some l ↔ ∃ rq, rq ∈ batch ∧ k = rq_fresh rq ∧ l = granted Batch uma rq.
Proof.
  pose proof (wave_washes _ _ _ _ _ _ batch_wave) as Hw. fold s1 in Hw. split.
  - intros Hl. destruct (washed_origin _ _ _ _ _ _ _ Hw k l Hl) as [?|(l0 & Hl0 & _)]; [done|].
    change ((∅ : gmap LeaseId ComputeLease) !! k = Some l0) in Hl0. by rewrite lookup_empty in Hl0.
  - intros (rq & Hin & -> & ->). by apply (washed_granted _ _ _ _ _ _ _ Hw).
Qed.

Lemma batch_on_uma : on_uma uma (leases s1).
Proof. intros k l Hl. apply after_batch in Hl as (rq & _ & _ & ->). done. Qed.

Lemma batch_full : held (t_planes adv) (leases s1) uma = capacity.
Proof.
  pose proof (washed_reach _ _ _ _ _ _ _ (wave_washes _ _ _ _ _ _ batch_wave)) as Hreach. fold s1 in Hreach.
  rewrite (tasks_demand _ _ _ _ _ Hbatch), !(stage_reach _ _ _ _ _ _ Hstage) in Hreach.
  assert (firm (t_planes adv) Batch (leases s1) uma = held (t_planes adv) (leases s1) uma) as Heq.
  { apply msum_ext. intros k l Hl. apply after_batch in Hl as (rq & _ & _ & ->). by rewrite peers_safe. }
  pose proof (stage_batch _ _ _ _ _ _ Hstage).
  assert (firm (t_planes adv) Batch (leases s0) uma = 0) as Hzero by apply msum_empty.
  rewrite Heq, Hzero in Hreach. lia.
Qed.

(** Phase 2 *)
Lemma interactive_wave : wave_ok Interactive uma adv 0 s1 interactive.
Proof.
  pose proof (wave_washes _ _ _ _ _ _ batch_wave) as Hw. fold s1 in Hw. split.
  - apply Hw.
  - apply uma_alone, batch_on_uma.
  - apply uma_plane.
  - eapply tasks_timely; [apply Hinteractive|done|]. intros id Hid.
    destruct (leases s1 !! id) as [l|] eqn:Hl; [|done]. apply after_batch in Hl as (rq & Hrq & -> & _).
    destruct (Hapart _ Hid). by apply list_elem_of_fmap_2.
  - apply Hinteractive.
  - rewrite (tasks_demand _ _ _ _ _ Hinteractive), (stage_reach _ _ _ _ _ _ Hstage).
    pose proof (stage_interactive _ _ _ _ _ _ Hstage).
    assert (firm (t_planes adv) Interactive (leases s1) uma = 0) as ->; [|lia].
    apply msum_zero. intros k l Hl. apply after_batch in Hl as (rq & _ & _ & ->). by rewrite batch_below.
Qed.

(** What a preemptable lease draws is not firm. *)
Lemma firm_below ps pr ls id k l :
  map_Forall (λ _ l, 0 ≤ l_allocated_memory_bytes l) ls →
  ls !! k = Some l → preemptable_on id pr l = true →
  firm ps pr ls id + draw ps id l ≤ held ps ls id.
Proof.
  intros Hb Hk Hp. unfold firm, held. rewrite !(msum_delete _ ls k l Hk), Hp.
  assert (msum (λ l, if preemptable_on id pr l then 0 else draw ps id l) (delete k ls)
          ≤ msum (draw ps id) (delete k ls)); [|lia].
  apply msum_le. intros k' l' Hl'. destruct (preemptable_on id pr l'); [|done].
  apply draw_nonneg. apply lookup_delete_Some in Hl' as [_ Hl']. by apply (Hb k' l').
Qed.

Lemma interactive_washed : washed Interactive uma adv 0 s1 interactive s2.
Proof. apply (wave_washes _ _ _ _ _ _ interactive_wave). Qed.

Lemma interactive_firm : firm (t_planes adv) Interactive (leases s2) uma = capacity.
Proof.
  pose proof (washed_reach _ _ _ _ _ _ _ interactive_washed) as Hreach.
  rewrite (tasks_demand _ _ _ _ _ Hinteractive), !(stage_reach _ _ _ _ _ _ Hstage) in Hreach.
  assert (firm (t_planes adv) Interactive (leases s1) uma = 0) as Hzero.
  { apply msum_zero. intros k l Hl. apply after_batch in Hl as (rq & _ & _ & ->). by rewrite batch_below. }
  pose proof (stage_interactive _ _ _ _ _ _ Hstage). lia.
Qed.

Lemma interactive_held : held (t_planes adv) (leases s2) uma ≤ capacity.
Proof.
  destruct (careful_invariant adv s2 (washed_careful _ _ _ _ _ _ _ interactive_washed))
    as (Hok & Hs & [Hsame Hled]).
  destruct uma_plane as (p0 & Hp0 & Hid).
  destruct (Forall2_lookup_l _ _ _ _ _ Hsame Hp0) as (p & Hp & Hpp).
  pose proof (Forall_lookup_1 _ _ _ _ (ledger_balance _ _ Hled) Hp) as Hbal; simpl in Hbal.
  pose proof (Forall_lookup_1 _ _ _ _ (proj1 (ledger_planes _ _ Hled)) Hp) as Hplane.
  unfold plane_ok in Hplane. assert (p_id p = uma) as Hpid by (by rewrite Hpp).
  rewrite Hpid, (held_hardware (t_planes adv)) in Hbal by done.
  rewrite (stage_capacity _ _ _ _ _ _ Hstage) in Hbal. lia.
Qed.

(** There is no room for a batch lease that still runs. *)
Lemma batch_preempted rq :
  rq ∈ batch → leases s2 !! rq_fresh rq = Some (set_state Preempted (granted Batch uma rq)).
Proof.
  intros Hrq. pose proof (proj2 (after_batch _ _) (ex_intro _ rq (conj Hrq (conj eq_refl eq_refl)))) as Hl.
  destruct (washed_live _ _ _ _ _ _ _ interactive_washed _ _ Hl eq_refl) as [Hrun|[_ ?]]; [|done].
  exfalso. destruct (careful_invariant adv s2 (washed_careful _ _ _ _ _ _ _ interactive_washed))
    as (_ & _ & [_ Hled]).
  pose proof (firm_below (t_planes adv) Interactive (leases s2) uma _ _ (ledger_bytes _ _ Hled) Hrun (batch_below _ _)) as Hlow.
  rewrite interactive_firm in Hlow. pose proof interactive_held.
  rewrite (stage_draw _ _ _ _ _ _ Hstage) in Hlow by done. simpl in Hlow.
  rewrite (tasks_sizes _ _ _ _ _ _ Hbatch Hrq) in Hlow.
  assert (0 < GiB) by (by vm_compute). lia.
Qed.

(** What phase 2 leaves. *)
Lemma after_interactive k l : leases s2 !! k = Some l ↔
  (∃ rq, rq ∈ interactive ∧ k = rq_fresh rq ∧ l = granted Interactive uma rq) ∨
  (∃ rq, rq ∈ batch ∧ k = rq_fresh rq ∧ l = set_state Preempted (granted Batch uma rq)).
Proof.
  split.
  - intros Hl. destruct (washed_origin _ _ _ _ _ _ _ interactive_washed k l Hl) as [?|(l0 & Hl0 & _)];
      [by left|].
    apply after_batch in Hl0 as (rq & Hrq & -> & _). right. exists rq. split_and!; [done..|].
    pose proof (batch_preempted rq Hrq). congruence.
  - intros [(rq & Hrq & -> & ->)|(rq & Hrq & -> & ->)]; [|by apply batch_preempted].
    by apply (washed_granted _ _ _ _ _ _ _ interactive_washed).
Qed.

Lemma interactive_on_uma : on_uma uma (leases s2).
Proof. intros k l Hl. by apply after_interactive in Hl as [(rq & _ & _ & ->)|(rq & _ & _ & ->)]. Qed.

Lemma interactive_full : held (t_planes adv) (leases s2) uma = capacity.
Proof.
  rewrite <-interactive_firm. apply msum_ext. intros k l Hl.
  apply after_interactive in Hl as [(rq & _ & _ & ->)|(rq & _ & _ & ->)]; [by rewrite peers_safe|].
  unfold preemptable_on. simpl. rewrite andb_false_r. apply draw_inactive. done.
Qed.

Lemma preempted_counted : count_state Preempted s2 = n.
Proof.
  rewrite <-(tasks_length _ _ _ _ _ Hbatch), <-(length_fmap rq_fresh).
  unfold count_state, list_leases.
  set (f := λ kl : LeaseId * ComputeLease, bool_decide (l_state kl.2 = Preempted)).
  assert (Hlen : ∀ kls : list (LeaseId * ComputeLease),
    length (List.filter (λ l, bool_decide (l_state l = Preempted)) kls.*2) = length (List.filter f kls).*1).
  { induction kls as [|[k l] kls IH]; [done|]. cbn [fmap list_fmap List.filter snd]. unfold f at 1; cbn [snd].
    destruct (bool_decide _); simpl; by rewrite IH. }
  rewrite Hlen. apply Permutation_length, NoDup_Permutation.
  - assert (Hsub : ∀ kls : list (LeaseId * ComputeLease), NoDup kls.*1 → NoDup (List.filter f kls).*1).
    { induction kls as [|kl kls IH]; [done|]. cbn [fmap list_fmap]. intros [Hk Hnd]%NoDup_cons.
      simpl. destruct (f kl); [|by apply IH]. apply NoDup_cons. split; [|by apply IH].
      intros (kl' & Heq & Hin)%list_elem_of_fmap. apply Hk. rewrite Heq. apply list_elem_of_fmap_2.
      apply list_elem_of_In, filter_In in Hin as [Hin _]. by apply list_elem_of_In. }
    apply Hsub, NoDup_hash_iter.
  - apply Hbatch.
  - intros k. rewrite !list_elem_of_fmap. split.
    + intros ([k' l] & -> & Hin). apply list_elem_of_In, filter_In in Hin as [Hin Hst].
      apply list_elem_of_In, elem_of_hash_iter in Hin. unfold f in Hst. simpl in *. reflect_bools.
      apply after_interactive in Hin as [(rq & _ & _ & ->)|(rq & Hrq & -> & _)]; [done|]. by exists rq.
    + intros (rq & -> & Hrq). exists (rq_fresh rq, set_state Preempted (granted Batch uma rq)).
      split; [done|]. apply list_elem_of_In, filter_In. split; [|done].
      apply list_elem_of_In, elem_of_hash_iter. by apply batch_preempted.
Qed.

(** Phase 3 *)
Let guests : list LeaseId := rq_fresh <$> interactive.
Let sleepers : list LeaseId := rq_fresh <$> batch.

(** Once the storm is over the batch leases run, as after phase 1. *)
Lemma storm_leaves k : after_storm guests sleepers (leases s2) !! k =
  match leases s1 !! k with
  | Some l => Some l
  | None => set_state Expired <$> leases s2 !! k
  end.
Proof.
  rewrite lookup_after_storm. destruct (leases s1 !! k) as [l|] eqn:Hl.
  - apply after_batch in Hl as (rq & Hrq & -> & ->). rewrite batch_preempted by done.
    assert (Hin : rq_fresh rq ∈ sleepers) by (by apply list_elem_of_fmap_2).
    cbn [fmap option_fmap option_map]. rewrite bool_decide_true by done.
    rewrite bool_decide_false by (intros Hg; by apply (Hapart _ Hg)). done.
  - destruct (leases s2 !! k) as [l|] eqn:Hl2; [|done]. cbn [fmap option_fmap option_map].
    apply after_interactive in Hl2 as [(rq & Hrq & -> & _)|(rq & Hrq & -> & _)].
    + assert (Hin : rq_fresh rq ∈ guests) by (by apply list_elem_of_fmap_2).
      rewrite (bool_decide_true (rq_fresh rq ∈ guests)) by exact Hin.
      rewrite bool_decide_false; [done|]. by apply Hapart.
    + exfalso. assert (leases s1 !! rq_fresh rq = Some (granted Batch uma rq)) by (apply after_batch; eauto).
      congruence.
Qed.

Lemma storm_on_uma : on_uma uma (after_storm guests sleepers (leases s2)).
Proof.
  intros k l. rewrite storm_leaves. destruct (leases s1 !! k) as [l1|] eqn:Hl1.
  - intros [= <-]. by apply (batch_on_uma k).
  - intros (l2 & Hl2 & ->)%fmap_Some. exact (interactive_on_uma k l2 Hl2).
Qed.

Lemma storm_held : held (t_planes adv) (after_storm guests sleepers (leases s2)) uma = capacity.
Proof.
  rewrite <-batch_full. unfold held.
  rewrite <-(msum_filter _ _ (λ kl, is_active kl.2 = true)).
  - rewrite <-(msum_filter _ (leases s1) (λ kl, is_active kl.2 = true)).
    + f_equal. apply map_eq. intros k. apply option_eq. intros l. rewrite !map_lookup_filter_Some, storm_leaves.
      destruct (leases s1 !! k) as [l1|]; [done|]. split; [|by intros [? _]].
      by intros [(l2 & _ & ->)%fmap_Some Hact].
    + intros k l _ Hact. apply draw_inactive. by apply not_true_is_false.
  - intros k l _ Hact. apply draw_inactive. by apply not_true_is_false.
Qed.

Lemma covers_uma ls : on_uma uma ls → held (t_planes adv) ls uma ≤ capacity → covered adv ls.
Proof.
  intros Hon Hle. apply (stage_covered _ _ _ _ _ _ Hstage); [done|].
  by rewrite (held_both _ _ _ _ _ _ Hstage).
Qed.

Lemma storm_brews : brewing adv guests sleepers s2.
Proof.
  split.
  - apply interactive_washed.
  - done.
  - intros id (rq & -> & Hrq)%list_elem_of_fmap. exists (granted Interactive uma rq). split; [|done].
    by apply (washed_granted _ _ _ _ _ _ _ interactive_washed).
  - intros id (rq & -> & Hrq)%list_elem_of_fmap. destruct uma_plane as (p0 & Hp0 & Hid).
    exists (set_state Preempted (granted Batch uma rq)), p0. split_and!; [by apply batch_preempted|done| |done].
    by eapply list_elem_of_lookup_2.
  - apply covers_uma; [apply storm_on_uma|]. by rewrite storm_held.
Qed.

Section storm.
Context (ops : list storm_op) (Hstorm : stormed s2 guests sleepers ops).
Let s3 : ArbiterState := weathered ops s2.

Lemma after_storm_state : careful adv s3 ∧ leases s3 = after_storm guests sleepers (leases s2).
Proof.
  destruct Hstorm as [Hops Hret Hres].
  destruct (weathered_storm _ _ _ _ ops s2 storm_brews Hops (in_storm_start _ _ _ _ storm_brews))
    as (Hin & _ & Hg & _).
  split; [apply Hin|]. eapply storm_over; [done|intros; by apply Hg, Hret|].
  intros x Hx. destruct (Hres x Hx) as (ops1 & ops2 & Heq & Hok). unfold s3. rewrite Heq in *.
  by eapply resumed_settles; [apply storm_brews|..].
Qed.

(** Phase 4 *)
Lemma final_leases k l :
  after_storm sleepers [] (leases s3) !! k = Some l → is_active l = false.
Proof.
  rewrite lookup_after_storm, (proj2 after_storm_state), storm_leaves.
  rewrite (bool_decide_false (k ∈ [])) by apply not_elem_of_nil.
  destruct (leases s1 !! k) as [l1|] eqn:Hl1.
  - apply after_batch in Hl1 as (rq & Hrq & -> & ->). cbn [fmap option_fmap option_map].
    rewrite bool_decide_true by (by apply list_elem_of_fmap_2). by intros [= <-].
  - intros (l2 & (l3 & _ & ->)%fmap_Some & ->)%fmap_Some. by destruct (bool_decide _).
Qed.

Lemma batch_brews : brewing adv sleepers [] s3.
Proof.
  destruct after_storm_state as [Hrun Hl]. split.
  - done.
  - intros id _. apply not_elem_of_nil.
  - intros id (rq & -> & Hrq)%list_elem_of_fmap. exists (granted Batch uma rq). split; [|done].
    rewrite Hl, storm_leaves. by rewrite (proj2 (after_batch _ _)) by eauto.
  - intros id []%not_elem_of_nil.
  - apply covers_uma.
    + intros k l. rewrite lookup_after_storm, Hl.
      destruct (after_storm guests sleepers (leases s2) !! k) as [l1|] eqn:Hl1; [|done].
      cbn [fmap option_fmap option_map]. rewrite (bool_decide_false (k ∈ [])) by apply not_elem_of_nil.
      pose proof (storm_on_uma k l1 Hl1) as Hon. by destruct (bool_decide _); intros [= <-].
    + unfold held. rewrite msum_zero; [rewrite (stage_batch _ _ _ _ _ _ Hstage); apply Z.mul_nonneg_nonneg;
        [by vm_compute|apply Nat2Z.is_nonneg]|].
      intros k l Hk. apply draw_inactive. by eapply final_leases.
Qed.

Lemma batch_leaves : planes (weathered (Return <$> sleepers) s3) = t_planes adv.
Proof.
  assert (Hret : Forall (storm_ok sleepers []) (Return <$> sleepers)).
  { apply Forall_fmap, Forall_forall. intros id Hid. exact Hid. }
  pose proof (weathered_storm _ _ _ _ _ s3 batch_brews Hret (in_storm_start _ _ _ _ batch_brews))
    as (Hin & _ & Hg & _).
  apply careful_idle; [apply Hin|].
  rewrite (storm_over _ _ _ _ _ Hin); [apply final_leases|..].
  - intros g Hid. apply Hg. exact (list_elem_of_fmap_2 Return sleepers g Hid).
  - intros x Hx. destruct (not_elem_of_nil x Hx).
Qed.
End storm.
End phases.

Lemma accounts_idle topo uma cpu capacity n m s :
  stage topo uma cpu capacity n m → planes s = t_planes topo → accounts s capacity.
Proof.
  intros Hstage Hps. rewrite <-(Z.sub_0_r capacity).
  apply (stage_accounts _ _ _ _ _ _ Hstage s (λ _, 0)); [done|]. rewrite Hps.
  rewrite <-(list_fmap_id (t_planes topo)) at 1. apply list_fmap_ext. intros _ p _.
  rewrite Z.sub_0_r. by destruct p.
Qed.

Lemma thaw_storm_passes topo uma cpu capacity n m bname bpid iname ipid :
  stage topo uma cpu capacity n m →
  thaw_storm topo uma capacity (tasks GiB bname bpid n) (tasks (2 * GiB) iname ipid m) n.
Proof.
  intros Hst. cbv delta [thaw_storm] beta.
  intros batch interactive ops s0 s1 s2 batch_ids interactive_ids s3 s4 Hbatch Hinteractive Hapart Hstorm.
  pose proof (batch_wave _ _ _ _ _ _ Hst batch _ _ Hbatch) as Hw1.
  pose proof (interactive_wave _ _ _ _ _ _ Hst batch interactive _ _ _ _ Hbatch Hinteractive Hapart) as Hw2.
  destruct (after_storm_state _ _ _ _ _ _ Hst batch interactive _ _ _ _ Hbatch Hinteractive Hapart ops Hstorm)
    as [Hrun3 Hl3].
  assert (Hat : ∀ s held0 free, careful topo s → on_uma uma (leases s) →
    held (t_planes topo) (leases s) uma = held0 → capacity - held0 = free → accounts s free).
  { intros. by eapply accounts_at. }
  split_and!.
  - by eapply accounts_idle.
  - intros w1 rq w2 Heq. rewrite Heq in Hw1. exact (f_equal is_ok (wave_answers _ _ _ _ _ _ _ _ Hw1)).
  - eapply Hat; [apply (wave_careful _ _ _ _ _ _ Hw2)|by eapply batch_on_uma|by eapply batch_full|lia].
  - intros w1 rq w2 Heq. rewrite Heq in Hw2. exact (f_equal is_ok (wave_answers _ _ _ _ _ _ _ _ Hw2)).
  - by eapply preempted_counted.
  - eapply Hat; [by eapply interactive_washed|by eapply interactive_on_uma|by eapply interactive_full|lia].
  - intros ops1 id ops2 Heq.
    destruct (resume_outcomes _ _ _ s2 ops1 id ops2
      (storm_brews _ _ _ _ _ _ Hst batch interactive _ _ _ _ Hbatch Hinteractive Hapart))
      as [?|[(? & ? & ? & ->) _]];
      [by rewrite <-Heq; apply Hstorm|by left|by right].
  - eapply (accounts_at _ _ _ _ _ _ Hst s3 _ _ _ Hrun3 Hl3); [by eapply storm_on_uma|by eapply storm_held|lia].
  - eapply accounts_idle; [exact Hst|]. by eapply batch_leaves.
Qed.

Lemma storm_passes : test_adversarial_uma_cpu_preemption_and_mass_thaw_storm.
Proof. exact (thaw_storm_passes _ _ _ _ _ _ _ _ _ _ adv_stage). Qed.
Lemma thaw_passes : test_uma_preemption_and_concurrent_thaw_storm.
Proof. exact (thaw_storm_passes _ _ _ _ _ _ _ _ _ _ thaw_stage). Qed.

(** * The theorems at work *)

(** The tasks in the order they are spawned. *)
Definition spawn (bytes : Z) (name : string) (pid : Z) (first : N) (i : nat) : request :=
  mkRequest canonical_order (from_level Normal) (Z.of_nat i) (mkLeaseId (first + N.of_nat i)) bytes
    (Some (numbered name i ".service")) (Some (pid + Z.of_nat i)).
Definition some_batch : list request := spawn GiB "batch-task-" 400 1 <$> seq 0 16.
Definition some_interactive : list request := spawn (2 * GiB) "interactive-task-" 600 17 <$> seq 0 8.
Definition adv_start : ArbiterState := new_arbiter (create_uma_cpu_topology (16 * GiB)).
Definition before_preemption : ArbiterState := after_wave Batch "plane-uma-adv" some_batch adv_start.
Definition before_storm : ArbiterState :=
  after_wave Interactive "plane-uma-adv" some_interactive before_preemption.
Definition batch_ids : list LeaseId := rq_fresh <$> some_batch.
Definition interactive_ids : list LeaseId := rq_fresh <$> some_interactive.

Lemma some_batch_tasks : batch_tasks some_batch.
Proof. split; [reflexivity|repeat constructor|by_computation]. Qed.
Lemma some_interactive_tasks : interactive_tasks some_interactive.
Proof. split; [reflexivity|repeat constructor|by_computation]. Qed.
Lemma some_apart id : id ∈ interactive_ids → id ∉ batch_ids.
Proof.
  intros Hi. assert (Hall : Forall (λ id, id ∉ batch_ids) interactive_ids) by by_computation.
  by apply (proj1 (Forall_forall _ _) Hall).
Qed.

(** One batch job tries too early; the interactive ones leave; all batch jobs
    try. *)
Definition early : list storm_op := Resume (mkLeaseId 1) :: (Return <$> interactive_ids).
Definition late : list storm_op := Resume <$> batch_ids.

(** The leases that some step of a storm resumes. *)
Fixpoint resumed (ops : list storm_op) (s : ArbiterState) : list LeaseId :=
  match ops with
  | [] => []
  | op :: ops' =>
      match op with
      | Resume id => if is_ok (res_of (thaw_lease id s)) then [id] else []
      | Return _ => []
      end ++ resumed ops' (weather op s)
  end.
Lemma resumed_spec ops s id : id ∈ resumed ops s →
  ∃ ops1 ops2, ops = ops1 ++ Resume id :: ops2 ∧ res_of (thaw_lease id (weathered ops1 s)) = Ok tt.
Proof.
  revert s. induction ops as [|op ops IH]; intros s; [by intros ?%not_elem_of_nil|].
  cbn [resumed]. intros [Hin|Hin]%elem_of_app.
  - exists [], ops. destruct op as [?|id']; [by apply not_elem_of_nil in Hin|].
    destruct (res_of (thaw_lease id' s)) as [[]|] eqn:Hres; [|by apply not_elem_of_nil in Hin].
    apply list_elem_of_singleton in Hin as ->. done.
  - destruct (IH _ Hin) as (ops1 & ops2 & -> & Hres). by exists (op :: ops1), ops2.
Qed.

(** The test has runs. *)
Lemma some_storm : stormed before_storm interactive_ids batch_ids (early ++ late).
Proof.
  split.
  - unfold early, late. repeat constructor. all: by_computation.
  - intros g Hg. apply elem_of_app. left. apply elem_of_cons. right.
    exact (list_elem_of_fmap_2 Return interactive_ids g Hg).
  - intros x Hx. apply resumed_spec.
    assert (Hall : Forall (λ x, x ∈ resumed (early ++ late) before_storm) batch_ids) by by_computation.
    exact (proj1 (Forall_forall _ _) Hall x Hx).
Qed.

Lemma wave_granted_witness :
  let s' := before_storm in
  careful (create_uma_cpu_topology (16 * GiB)) s' ∧
  leases s' !! mkLeaseId 20 = Some (granted Interactive "plane-uma-adv"
    (spawn (2 * GiB) "interactive-task-" 600 17 3)) ∧
  res_of (ask Interactive "plane-uma-adv" (spawn (2 * GiB) "interactive-task-" 600 17 1)
    (after_wave Interactive "plane-uma-adv" [spawn (2 * GiB) "interactive-task-" 600 17 0] before_preemption))
    = Ok (granted Interactive "plane-uma-adv" (spawn (2 * GiB) "interactive-task-" 600 17 1)).
Proof.
  destruct (wave_granted Interactive "plane-uma-adv" (create_uma_cpu_topology (16 * GiB)) 0
    before_preemption some_interactive
    (interactive_wave _ _ _ _ _ _ adv_stage some_batch some_interactive _ _ _ _
      some_batch_tasks some_interactive_tasks some_apart))
    as (Hanswers & Hrun & _ & Hgranted & _).
  split; [exact Hrun|]. split.
  - apply (Hgranted (spawn (2 * GiB) "interactive-task-" 600 17 3)), list_elem_of_fmap_2, elem_of_seq. lia.
  - apply (Hanswers [spawn (2 * GiB) "interactive-task-" 600 17 0] _
      (spawn (2 * GiB) "interactive-task-" 600 17 <$> seq 2 6)). reflexivity.
Defined.

Lemma storm_calms_witness :
  (∀ ops1 id ops2, early ++ late = ops1 ++ Resume id :: ops2 →
     res_of (thaw_lease id (weathered ops1 before_storm)) = Ok tt ∨
     (∃ plane b a,
        res_of (thaw_lease id (weathered ops1 before_storm)) = Err (ResourceExhaustion plane b a)) ∧
     state_of (thaw_lease id (weathered ops1 before_storm)) = weathered ops1 before_storm) ∧
  let s := weathered (early ++ late) before_storm in
  careful (create_uma_cpu_topology (16 * GiB)) s ∧
  leases s = after_storm interactive_ids batch_ids (leases before_storm).
Proof.
  apply (storm_calms (create_uma_cpu_topology (16 * GiB)) interactive_ids batch_ids before_storm early
    late).
  - exact (storm_brews _ _ _ _ _ _ adv_stage some_batch some_interactive _ _ _ _
      some_batch_tasks some_interactive_tasks some_apart).
  - apply some_storm.
  - intros g Hg. apply elem_of_cons. right. exact (list_elem_of_fmap_2 Return interactive_ids g Hg).
  - intros x Hx. exact (list_elem_of_fmap_2 Resume batch_ids x Hx).
Defined.

(** Before the storm, all that runs is on the unified memory. *)
Definition uma_adv : ComputePlane :=
  default (test_plane "" "" DiscreteGpu 0) (t_planes (create_uma_cpu_topology (16 * GiB)) !! 0%nat).
Definition cpu_adv : ComputePlane :=
  default (test_plane "" "" DiscreteGpu 0) (t_planes (create_uma_cpu_topology (16 * GiB)) !! 1%nat).
Lemma before_storm_on_uma : on_uma "plane-uma-adv" (leases before_storm).
Proof.
  exact (interactive_on_uma _ _ _ _ _ _ adv_stage some_batch some_interactive _ _ _ _
    some_batch_tasks some_interactive_tasks some_apart).
Qed.
Lemma dual_accounting_witness :
  ∃ u' c', planes before_storm !! 0%nat = Some u' ∧ planes before_storm !! 1%nat = Some c' ∧
    p_available_memory_bytes uma_adv - p_available_memory_bytes u'
    = p_available_memory_bytes cpu_adv - p_available_memory_bytes c'.
Proof.
  apply (dual_accounting (create_uma_cpu_topology (16 * GiB)) before_storm 0 1 uma_adv cpu_adv);
    [apply (interactive_washed _ _ _ _ _ _ adv_stage some_batch some_interactive _ _ _ _
       some_batch_tasks some_interactive_tasks some_apart)
    |reflexivity..|].
  intros k l Hl _. left.
  change (l_plane_id l = "plane-uma-adv"). exact (before_storm_on_uma k l Hl).
Defined.
