(* ===== verification/CliTests.v ===== *)
(** The tests that run the built inferenctl: what the command, once clap has
    read the arguments, prints and whether it succeeds. *)
From S2P Require Import Prelude Text Host Discovery Json Notify Client Ctl Tooling Status ClientExamples.
From S2P Require Import EndToEndExamples.
Local Open Scope Z_scope.
#[local] Existing Instances plain_json wire plain_terminal ascii_unicode.

(** [out.status.success()], standard output, and standard error, where main
    prints the error it ends with. *)
Definition success (out : Outcome) : bool := is_ok out.1.
Definition stdout (out : Outcome) : string :=
  concat_all (omap (λ ev, match ev with Printed text => Some text | _ => None end) out.2).
Definition stderr (out : Outcome) : string :=
  match out.1 with Err (ConnectFailed e) | Err (ClientIo e) => e | _ => "" end.

(** * qa/edge/cli_edge.rs: nobody listens on the socket *)

Definition unreachable_socket : string :=
  String "034" ("/tmp/unreachable_socket_404.sock" +:+ String "034" "").
Definition nobody : DaemonEnd := mkDaemonEnd (λ _, Ok tt) (λ _, "").
Definition cannot_connect (out : Outcome) : bool :=
  negb (success out) &&
  (contains (stderr out) "Failed to connect" || contains (stderr out) "No such file or directory").

Definition test_edge_cli_leases_unreachable_socket : bool :=
  cannot_connect (run_leases nobody unreachable_socket None false).
Definition test_edge_cli_dump_unreachable_socket : bool :=
  cannot_connect (run_dump nobody unreachable_socket None).

(** * qa/unit/cli_tests.rs *)

Definition prints (out : Outcome) (texts : list string) : bool :=
  success out && forallb (contains (stdout out)) texts.

Definition test_cli_completions_bash : bool :=
  prints (run_completions "bash") ["_inferenctl()"; "complete -F _inferenctl inferenctl"].
Definition test_cli_completions_zsh : bool := prints (run_completions "zsh") ["#compdef inferenctl"].
Definition test_cli_completions_fish : bool :=
  prints (run_completions "fish") ["# fish completion for inferenctl"; "complete -c inferenctl"].
Definition test_cli_man_page_generation : bool :=
  prints run_man [".TH INFERENCTL 1"; ".SH NAME"; ".SH COMMANDS"].

Definition test_cli_cat_config_missing_file_shows_defaults : bool :=
  prints (run_cat_config (snapshot [] []) "/tmp/nonexistent_cfg_123.conf" "")
    ["[daemon]"; "gateway_socket = " +:+ quoted "/run/syntrop/gateway.sock"].

Definition custom_config : string :=
  concat_all (line <$> ["# Custom test config"; "[arbiter]"; "mode = " +:+ quoted "aggressive"]).
Definition test_cli_cat_config_existing_file : bool :=
  prints (run_cat_config (snapshot [("/tmp/cfg", custom_config)] []) "/tmp/cfg" "")
    ["mode = " +:+ quoted "aggressive"].

(** With what the toml crate makes of the file. *)
Definition valid_config : string :=
  concat_all (line <$> ["[daemon]"; "bind = " +:+ quoted "127.0.0.1:8080"; ""; "[arbiter]"; "max_leases = 10"]).
Definition test_cli_check_config_valid_toml : bool :=
  prints (run_check_config (snapshot [("/tmp/cfg", valid_config)] [])
            (λ _, Ok (Some "daemon, arbiter")) "/tmp/cfg" "")
    ["is valid syntax TOML"].
Definition test_cli_check_config_syntax_error : bool :=
  negb (success (run_check_config (snapshot [("/tmp/cfg", concat_all (line <$> ["[invalid toml syntax"; "key = = ="]))] [])
                   (λ _, Err "expected `]`") "/tmp/cfg" "")).

Definition cli_tests : list bool :=
  [test_edge_cli_leases_unreachable_socket; test_edge_cli_dump_unreachable_socket;
   test_cli_completions_bash; test_cli_completions_zsh; test_cli_completions_fish;
   test_cli_man_page_generation; test_cli_cat_config_missing_file_shows_defaults;
   test_cli_cat_config_existing_file; test_cli_check_config_valid_toml;
   test_cli_check_config_syntax_error].
Lemma cli_tests_pass : forallb id cli_tests = true.
Proof. vm_compute. reflexivity. Qed.
