(* ===== verification/Suite.v ===== *)
(** The translated tests of the repository: those that run one step after the
    other are computed on the bench, those that race tasks for leases or for a
    sealed file hold in every interleaving of the tasks. *)
From S2P Require Import Prelude Host Bench ArbiterTests IntegrationTests StreamTests CrateTests.
From S2P Require Import SharingTests CrowdTests StormTests CliTests.

Lemma all_pass {A} (run : A → bool) (ts : list A) :
  forallb run ts = true → Forall (λ t, run t = true) ts.
Proof. rewrite forallb_forall, Forall_forall. by setoid_rewrite list_elem_of_In. Qed.

(** The sequential tests on the bench, in the order of the files. *)
Definition sequential_tests : list (Test unit) :=
  unit_tests ++ edge_tests ++ integration_tests ++ socket_tests ++ sharing_tests ++ core_tests
  ++ daemon_tests ++ [test_inferenced_simulate_psi_task_local_hook].

(** The translated tests that run one task only, or whose tasks take turns, pass:
    on the arbiter and its readers, behind sockets, of the preemption coordinator,
    the quota, the notifications and the inhibitor, and of the commands of
    inferenctl. The header of Prelude.v lists the test files that are not
    translated. *)
Theorem sequential_tests_pass :
  Forall (λ t, passes t = true) sequential_tests ∧
  Forall (λ t, passes_from coordinator t = true) preempt_tests ∧
  Forall (λ t, passes_from 0%Z t = true) quota_tests ∧
  Forall (λ t, passes_from tt t = true) notify_tests ∧
  Forall (λ t, inhibit_passes t = true) inhibit_tests ∧
  Forall (λ t, t = true) cli_tests ∧
  test_adversarial_zero_copy_scm_rights_fd_passing_integrity.
Proof.
  split_and!.
  - unfold sequential_tests. rewrite !Forall_app. split_and!; [apply all_pass..|].
    + apply unit_tests_pass.
    + apply edge_tests_pass.
    + apply integration_tests_pass.
    + apply socket_tests_pass.
    + apply sharing_tests_pass.
    + apply core_tests_pass.
    + apply daemon_tests_pass.
    + by constructor; [apply hook_passes|].
  - apply all_pass, preempt_tests_pass.
  - apply all_pass, quota_tests_pass.
  - apply all_pass, notify_tests_pass.
  - apply all_pass, inhibit_tests_pass.
  - apply (all_pass id), cli_tests_pass.
  - apply zero_copy_passes.
Qed.

(** The tests of qa/ whose tasks race for the leases of one arbiter, or for a
    sealed file. *)
Record racing_tests : Prop := {
  fuzz_mod : test_fuzz_concurrent_randomized_leases;
  sentry_stress : test_edge_sentry_rapid_concurrent_pings;
  psi_churn_critical : test_psi_churn_stress_under_critical_pressure;
  psi_churn_transition : test_psi_transition_from_critical_to_normal_churn;
  challenger_churn : test_adversarial_rapid_psi_oscillation_under_extreme_churn;
  challenger_storm : test_adversarial_uma_cpu_preemption_and_mass_thaw_storm;
  uma_thaw_storm : test_uma_preemption_and_concurrent_thaw_storm;
  challenger_fan_out : test_adversarial_scm_rights_50_client_fanout_and_fd_leaks;
  scm_fan_out : test_scm_rights_20_client_sealed_memfd_fanout_and_fd_leak_check;
}.

